(* ===== verification/_CoqProject ===== *)
-Q . S2P
Prelude.v
OS.v
Curses.v
Sim.v
HTable.v
File.v
Message.v
Socket.v
Peers.v
Ui.v
Wire.v
Client.v
Adapter.v
Main.v
Evolve.v
Protocol.v
Swarm.v
System.v
Proc.v
Race.v
Threads.v
Pool.v
