(* ===== verification/Prelude.v ===== *)
(** * Grintorrent: a verification development

    Grintorrent (C, under src/src) is a peer-to-peer file-sharing client.  A
    file on disk becomes a tfile: its name, size, MD5 digest and the digests
    of its eight chunks.  A client keeps the tfiles it knows in a hash table
    and the sockets of its peers in a list; one thread per peer reads
    messages, others share tfiles and download chunks, and the main thread
    runs a curses interface.  This library translates the whole client and
    proves what its parts do, where they are right and where they are not.

    ** The files

    - [Prelude.v]: faults, outcomes and the state monad of the translation,
      weakest preconditions and their rules, operations that [preserves] a
      part of the state, machine integers, C arrays, bytes and strings.
    - [OS.v]: the operating system and OpenSSL as type classes: the calls
      ([OS], [MD5_API]) on an abstract world, and laws of files, memory,
      sockets and digests ([FileLaws], [SockLaws], [MD5Laws], ...) on what a
      process observes of it ([osview]).  [Curses.v]: the terminal, likewise.
      [Sim.v]: a concrete world with all those laws; the witnesses run on it.
    - [HTable.v] (file.h, htable.c): the table of tfiles with open addressing,
      one function per C function; [wf] is its invariant and [abs] the finite
      map from hashes to tfiles it stands for.
    - [File.v] (file.c): generating, listing, mapping, saving and verifying
      tfiles, on the table and the operating system.
    - [Message.v] (message.h, message.c): the header, sending, receiving.
    - [Socket.v] (socket.h): connecting, opening, accepting.
    - [Peers.v] (client.h; add_peer, remove_peer, remove_peers of client.c):
      the list of peers under its mutex; [peers_are] is the list it stands for.
    - [Ui.v] (ui.h, ui.c): the queue of messages, a linked list in allocated
      memory under a recursive mutex ([queue_is] is its content), trimming,
      and the main loop, which takes the two callbacks as arguments.
    - [Wire.v] (client.h, file.h): the bytes of the structs in messages.
    - [Client.v] (client.c): the globals as one state [client], the threads'
      functions share_tfile(s)_to_peer(s), readWorker (a function per message
      type), connectWorker, send_chunk_message, download_file,
      get_address_self; [pthread_create] records the thread it creates.
    - [Adapter.v] (ui_adapter.c): the two callbacks of the interface.
    - [Main.v] (client.c): parse_args, free_args, print_usage and main.
    - [Evolve.v]: what the operations of the components keep between two
      actions of the threads (the table, the peers, the interface).
    - [Protocol.v]: the handlers of readWorker and the rounds of download_file
      as what they do to the network: definitions that spread, requests that
      are served or relayed, downloads that end.
    - [Swarm.v]: several clients that download one file from each other, over a
      network that loses, repeats and reorders messages ([swarm_step]).
    - [System.v]: whole rounds of the threads as the steps of a transition
      system: an [activity] is the handling of one message, one connection, one
      share, one round of a download or of the interface; [good] and [Inv] are
      the invariants, [remembers] says that no tfile is lost.
    - [Proc.v]: programs of atomic actions ([proc]) and what one does alone
      ([run]).  [Race.v]: [add_htable] access by access, and two threads in it.
    - [Threads.v]: the threads' functions and main once more, as such programs
      ([thread_program], [main_p]).  [Pool.v]: all of them together, one action
      of one thread at a time ([pool_step]), threads joining as they are
      created.

    ** How the C code is translated

    An operation is a function from a state to [Done result state] or [Stop
    fault].  The faults are undefined behaviour (a null pointer, an access
    outside its object, an uninitialised value, a bad [free], a signed
    overflow), a thread that waits for itself or another one, and [exit].
    Arrays have their length, and indices are checked at each access; integers
    are [Z] with the wrap-around of their width; pointers into the table are
    slots, pointers into mappings are a base and a distance, and a string
    buffer is a list of bytes with its terminator.  [malloc] may fail.  The
    memory a function reads before it wrote it is an argument.

    A loop is [iter fuel body]; fuel that runs out is the fault [OutOfFuel].
    The theorems say how much is enough: the length of the table for a probe,
    the length of a file for its digest (more than the number of 8192-byte
    blocks), the size of a message, the number of peers or of messages.  Where
    the C loop has no end, the theorem says that no fuel is enough.

    ** What is proved

    - The table: lookup and insertion refine those of the map, with the exact
      condition under which a probe leaves the array; what goes wrong above
      half load ([add_htable] and [resize_htable] call each other for ever) and
      when [resize_htable] returns (all entries are lost); initialisation and
      release.
    - Files: the digest of a section, whatever the blocks; generation adds
      the right definition and only it; a generated tfile verifies; the
      verdict of [verify_tfile] on mapped and stored files, chunk by chunk;
      [open_tfile] maps a file, hands out its chunks, which tile the file, and
      accepts negative indices; [save_tfile], [list_tfiles].
    - Messages: what is sent arrives; a truncated message is never received;
      a message longer than the buffer overruns it.
    - Sockets: nothing stays open after a failure.
    - Peers: appending and its bound, the race of the unlocked test, removal.
    - The interface: messages come out in the order in which they went in, are
      shown once, and leave no memory behind; trimming; a second [ui_exit]
      frees twice, and so [main] never returns.
    - The handlers: sharing reaches every peer but the sender, or deadlocks
      after a failed send; a chunk sent and handled is the sender's chunk in
      the receiver's file and changes no other; the two ways a peer can make
      [readWorker] write where it must not; the argument [readWorker]
      over-reads.
    - The wire: structs survive the trip, and whatever bytes come are read as
      values of their C types.
    - The protocol: a definition that comes is stored and passed on; a request
      is served with the chunk's bytes or relayed to all peers but one; a round
      of a download asks for exactly the missing chunks, and the download ends
      when they have come, in any order; a new peer is told every tfile; and
      definitions with a zero hash use up the table.
    - Several clients: no good chunk is ever lost, whatever the network does,
      and as long as one client has the whole file the others can complete
      their downloads.
    - The threads: a thread's program run alone is its function; over every
      interleaving of the actions of all threads the table stays well formed,
      the peer list stays an array of at most 200, only the holder of its mutex
      changes it, and no known tfile is lost or changed; a thread that waits
      for the mutex it holds freezes the peer list for ever; two threads that
      add to the table at once can lose a definition.

    ** What is not modelled

    Output to the terminal by [printf] and [perror], [errno], and the release
    of blocks no one reads again.  An action of [Pool.v] is one look at the list
    of peers or one change of it, the taking or giving of its mutex, one
    message sent or received, one call of htable.c or file.c, or one round of
    the interface; what is inside these actions is not interleaved, except for
    [add_htable] in [Race.v].  A thread whose next action faults stays where it
    is, so the pool also has the runs in which the others go on; the program
    that a fault ends has only the shorter ones.  [sleep] does nothing.
    [getopt] and [atoi] are arguments.  The padding of a header or struct that
    is sent is zero.  The tests and the Makefile are left out.

    In [Swarm.v] a message is delivered whole or not at all, and a socket on
    which a write was short delivers nothing; the clients know the tfile and
    have it mapped, and the threads' interleaving inside a handler is that of
    [Pool.v].

    Next: the rounds of the interface split into actions, with its recursive
    mutex and its queue shared by the threads that display messages; a lookup
    in the table beside an insertion; and definitions that spread through the
    swarm of clients. *)
From stdpp Require Export base numbers list gmap option sets strings.
From Stdlib Require Export ZArith Lia.

#[global] Open Scope Z_scope.

(** ** Faults, outcomes and the state monad

    A C function that runs to its [return] gives [Done a s]: its result and
    the state it leaves.  Everything else is a [Stop]: undefined behaviour
    (the first five faults), a thread that can never go on ([Deadlock]), a
    thread that waits for another one ([Blocked]), a call of [exit], or a
    loop that used up the fuel of the model. *)
Inductive fault : Type :=
  | NullDeref
  | OutOfBounds
  | Uninit
  | BadFree
  | SignedOverflow
  | Deadlock
  | Blocked
  | Exit (code : Z)
  | OutOfFuel.

#[export] Instance fault_eq_dec : EqDecision fault.
Proof. solve_decision. Defined.

Inductive outcome (S A : Type) : Type :=
  | Done (a : A) (s : S)
  | Stop (e : fault).
Arguments Done {S A} a s.
Arguments Stop {S A} e.

Definition M (S A : Type) : Type := S → outcome S A.

#[export] Instance M_ret S : MRet (M S) := λ A a s, Done a s.
#[export] Instance M_bind S : MBind (M S) := λ A B f m s,
  match m s with
  | Done a s' => f a s'
  | Stop e => Stop e
  end.

Definition stop {S A} (e : fault) : M S A := λ _, Stop e.
Definition gets {S A} (f : S → A) : M S A := λ s, Done (f s) s.
Definition modify {S} (f : S → S) : M S unit := λ s, Done tt (f s).

(** A pointer is dereferenced: [None] is the null pointer, or an index
    outside the object; which of the two is the caller's [e]. *)
Definition from_opt {S A} (e : fault) (o : option A) : M S A :=
  match o with Some a => mret a | None => stop e end.

(** [if (b) m] with no else branch. *)
Definition when {S} (b : bool) (m : M S unit) : M S unit := if b then m else mret tt.

(** Run a component's operation on its part of a larger state. *)
Definition zoom {S T A} (get : S → T) (set : T → S → S) (m : M T A) : M S A := λ s,
  match m (get s) with
  | Done a t => Done a (set t s)
  | Stop e => Stop e
  end.

(** A loop: [body] gives [inl b] to go round again and [inr a] to leave. *)
Fixpoint iter {S B A} (fuel : nat) (body : B → M S (B + A)) (b : B) : M S A :=
  match fuel with
  | O => stop OutOfFuel
  | S fuel' =>
      r ← body b;
      match r with
      | inl b' => iter fuel' body b'
      | inr a => mret a
      end
  end.

(** [for (x in l) f x], for loops whose range is fixed before the loop. *)
Fixpoint for_each {S B} (l : list B) (f : B → M S unit) : M S unit :=
  match l with
  | [] => mret tt
  | x :: l' => _ ← f x; for_each l' f
  end.

(** A loop over a fixed range that threads an accumulator. *)
Fixpoint fold_m {S A B} (l : list B) (f : A → B → M S A) (a : A) : M S A :=
  match l with
  | [] => mret a
  | x :: l' => a' ← f a x; fold_m l' f a'
  end.

(** ** Weakest preconditions

    [wp m Q E s]: from [s], [m] either returns with [Q] or stops with a fault
    in [E].  With [E := no_fault] this is total correctness: no undefined
    behaviour, and the fuel suffices. *)
Definition wp {S A} (m : M S A) (Q : A → S → Prop) (E : fault → Prop) (s : S) : Prop :=
  match m s with
  | Done a s' => Q a s'
  | Stop e => E e
  end.

Definition no_fault : fault → Prop := λ _, False.

Section wp_rules.
Context {S : Type}.
Implicit Types (E : fault → Prop) (s : S).

Lemma wp_mono {A} (m : M S A) (Q Q' : A → S → Prop) E E' s :
  wp m Q E s → (∀ a s', Q a s' → Q' a s') → (∀ e, E e → E' e) → wp m Q' E' s.
Proof. unfold wp. destruct (m s); auto. Qed.

Lemma wp_conseq {A} (m : M S A) (Q Q' : A → S → Prop) E s :
  wp m Q E s → (∀ a s', Q a s' → Q' a s') → wp m Q' E s.
Proof. intros Hm HQ. eapply wp_mono; eauto. Qed.

Lemma wp_ret {A} (a : A) (Q : A → S → Prop) E s : Q a s → wp (mret a) Q E s.
Proof. done. Qed.

Lemma wp_stop {A} e (Q : A → S → Prop) E s : E e → wp (stop e) Q E s.
Proof. done. Qed.

Lemma wp_bind {A B} (m : M S A) (f : A → M S B) (Q : B → S → Prop) E s :
  wp m (λ a s', wp (f a) Q E s') E s → wp (m ≫= f) Q E s.
Proof. unfold wp, mbind, M_bind. by destruct (m s). Qed.

Lemma wp_bind_inv {A B} (m : M S A) (f : A → M S B) (Q : B → S → Prop) E s :
  wp (m ≫= f) Q E s → wp m (λ a s', wp (f a) Q E s') E s.
Proof. unfold wp, mbind, M_bind. by destruct (m s). Qed.

Lemma wp_gets {A} (f : S → A) (Q : A → S → Prop) E s : Q (f s) s → wp (gets f) Q E s.
Proof. done. Qed.

Lemma wp_modify f (Q : unit → S → Prop) E s : Q tt (f s) → wp (modify f) Q E s.
Proof. done. Qed.

Lemma wp_from_opt {A} e (o : option A) a (Q : A → S → Prop) E s :
  o = Some a → Q a s → wp (from_opt e o) Q E s.
Proof. by intros ->. Qed.

Lemma wp_when b m (Q : unit → S → Prop) E s :
  (b = true → wp m Q E s) → (b = false → Q tt s) → wp (when b m) Q E s.
Proof. destruct b; cbn; auto. Qed.

Lemma wp_zoom {T A} (get : S → T) set (m : M T A) (Q : A → S → Prop) E s :
  wp m (λ a t, Q a (set t s)) E (get s) → wp (zoom get set m) Q E s.
Proof. unfold wp, zoom. by destruct (m (get s)). Qed.

(** The loop rule: an invariant, and a measure below the fuel. *)
Lemma wp_iter {B A} (I : B → S → Prop) (μ : B → S → nat)
    (body : B → M S (B + A)) (Q : A → S → Prop) E fuel :
  (∀ b s, I b s →
    wp (body b) (λ r s', match r with
                         | inl b' => I b' s' ∧ (μ b' s' < μ b s)%nat
                         | inr a => Q a s'
                         end) E s) →
  ∀ b s, I b s → (μ b s < fuel)%nat → wp (iter fuel body b) Q E s.
Proof.
  intros Hbody. induction fuel as [|fuel IH]; intros b s HI Hf; [lia|].
  cbn [iter]. apply wp_bind. eapply wp_conseq; [by apply Hbody|].
  intros [b'|a] s'; [intros [HI' Hlt]; apply IH; [done|lia]|done].
Qed.

(** A loop whose body always goes round again never returns. *)
Lemma iter_diverges {B A} (I : B → S → Prop) (body : B → M S (B + A)) :
  (∀ b s, I b s → wp (body b) (λ r s', ∃ b', r = inl b' ∧ I b' s') (eq OutOfFuel) s) →
  ∀ fuel b s, I b s → iter fuel body b s = Stop OutOfFuel.
Proof.
  intros Hbody fuel. induction fuel as [|fuel IH]; intros b s HI; [done|].
  cbn [iter]. unfold mbind, M_bind. specialize (Hbody b s HI). unfold wp in Hbody.
  destruct (body b s) as [r s'|e]; [|by subst].
  destruct Hbody as (b' & -> & HI'). by apply IH.
Qed.

(** Partial correctness: an invariant alone, for whatever fuel. *)
Lemma wp_iter_partial {B A} (I : B → S → Prop) (body : B → M S (B + A)) (Q : A → S → Prop) :
  (∀ b s, I b s →
    wp (body b) (λ r s', match r with inl b' => I b' s' | inr a => Q a s' end) (λ _, True) s) →
  ∀ fuel b s, I b s → wp (iter fuel body b) Q (λ _, True) s.
Proof.
  intros Hbody fuel. induction fuel as [|fuel IH]; intros b s HI; [done|].
  cbn [iter]. apply wp_bind. eapply wp_conseq; [by apply Hbody|].
  intros [b'|a] s'; [apply IH|done].
Qed.

(** The same when the body may also stop: the loop has no result. *)
Lemma iter_never_returns {B A} (I : B → S → Prop) (body : B → M S (B + A)) :
  (∀ b s, I b s → wp (body b) (λ r s', ∃ b', r = inl b' ∧ I b' s') (λ _, True) s) →
  ∀ fuel b s, I b s → wp (iter fuel body b) (λ _ _, False) (λ _, True) s.
Proof.
  intros Hbody fuel. induction fuel as [|fuel IH]; intros b s HI; [done|].
  cbn [iter]. apply wp_bind. eapply wp_conseq; [by apply Hbody|].
  intros ? s' (b' & -> & HI'). by apply IH.
Qed.

Lemma wp_for_each {B} (I : list B → S → Prop) (f : B → M S unit) (Q : unit → S → Prop) E :
  (∀ x l s, I (x :: l) s → wp (f x) (λ _ s', I l s') E s) →
  (∀ s, I [] s → Q tt s) →
  ∀ l s, I l s → wp (for_each l f) Q E s.
Proof.
  intros Hf HQ l. induction l as [|x l IH]; intros s HI; cbn [for_each].
  - apply wp_ret. auto.
  - apply wp_bind. eapply wp_conseq; [by apply Hf|]. auto.
Qed.

Lemma wp_fold_m {A B} (I : list B → A → S → Prop) (f : A → B → M S A) (Q : A → S → Prop) E :
  (∀ x l a s, I (x :: l) a s → wp (f a x) (λ a' s', I l a' s') E s) →
  (∀ a s, I [] a s → Q a s) →
  ∀ l a s, I l a s → wp (fold_m l f a) Q E s.
Proof.
  intros Hf HQ l. induction l as [|x l IH]; intros a s HI; cbn [fold_m].
  - apply wp_ret. auto.
  - apply wp_bind. eapply wp_conseq; [by apply Hf|]. auto.
Qed.

Lemma wp_any {A} (m : M S A) (Q : A → S → Prop) s :
  (∀ a s', Q a s') → wp m Q (λ _, True) s.
Proof. unfold wp. destruct (m s); auto. Qed.

Lemma wp_total {A} (m : M S A) (Q : A → S → Prop) s :
  wp m Q no_fault s → ∃ a s', m s = Done a s' ∧ Q a s'.
Proof. unfold wp. destruct (m s); [eauto|done]. Qed.

Lemma wp_of_run {A} (m : M S A) (Q : A → S → Prop) E s a s' :
  m s = Done a s' → Q a s' → wp m Q E s.
Proof. unfold wp. by intros ->. Qed.
End wp_rules.

(** Equational form of the monad, for runs on known states. *)
Lemma bind_done {S A B} (m : M S A) (f : A → M S B) s a s' :
  m s = Done a s' → (m ≫= f) s = f a s'.
Proof. unfold mbind, M_bind. by intros ->. Qed.

Lemma bind_stop {S A B} (m : M S A) (f : A → M S B) s e :
  m s = Stop e → (m ≫= f) s = Stop e.
Proof. unfold mbind, M_bind. by intros ->. Qed.

Lemma bind_Done_inv {S A B} (m : M S A) (f : A → M S B) s b s' :
  (m ≫= f) s = Done b s' → ∃ a s1, m s = Done a s1 ∧ f a s1 = Done b s'.
Proof. unfold mbind, M_bind. destruct (m s) as [a s1|]; [eauto|done]. Qed.

(** A fold whose steps leave the state as it is. *)
Lemma fold_m_run {S A B} (l : list B) (f : A → B → M S A) (g : A → B → A) a s :
  (∀ a x, x ∈ l → f a x s = Done (g a x) s) → fold_m l f a s = Done (foldl g a l) s.
Proof.
  revert a. induction l as [|x l IH]; intros a Hf; [done|]. cbn [fold_m foldl].
  rewrite (bind_done _ _ _ _ _ (Hf a x ltac:(by left))). apply IH.
  intros a' y Hy. apply Hf. by right.
Qed.

(** ** Machine integers

    A w-bit unsigned value is a [Z] in [0, 2^w); arithmetic on it is followed
    by [wrapu w].  A 32-bit signed value that is obtained by conversion is
    [wraps32]; signed arithmetic that would overflow is undefined behaviour
    and goes through [add_s32]. *)
Definition wrapu (w z : Z) : Z := z mod 2 ^ w.
Definition wraps32 (z : Z) : Z := (z + 2 ^ 31) mod 2 ^ 32 - 2 ^ 31.
Definition add_s32 {S} (a b : Z) : M S Z :=
  if bool_decide (- 2 ^ 31 ≤ a + b < 2 ^ 31) then mret (a + b) else stop SignedOverflow.

#[global] Arguments wrapu : simpl never.
#[global] Arguments wraps32 : simpl never.

Definition b2z (b : bool) : Z := if b then 1 else 0.

Lemma wrapu_small w z : 0 ≤ z < 2 ^ w → wrapu w z = z.
Proof. apply Z.mod_small. Qed.

Lemma wraps32_small z : - 2 ^ 31 ≤ z < 2 ^ 31 → wraps32 z = z.
Proof. intros. unfold wraps32. rewrite Z.mod_small; lia. Qed.

Lemma wrapu_bound w z : 0 ≤ w → 0 ≤ wrapu w z < 2 ^ w.
Proof. intros. apply Z.mod_pos_bound, Z.pow_pos_nonneg; lia. Qed.

Lemma wp_add_s32 {S} a b (Q : Z → S → Prop) E s :
  - 2 ^ 31 ≤ a + b < 2 ^ 31 → Q (a + b) s → wp (add_s32 a b) Q E s.
Proof. intros H HQ. unfold add_s32. by rewrite bool_decide_true. Qed.

(** ** Operations that leave a part of the state alone

    [preserves f m]: whatever [m] does, if it returns, [f] of the state is
    what it was.  The hints of [preserves] follow the structure of a program. *)
Definition preserves {S X A} (f : S → X) (m : M S A) : Prop :=
  ∀ s, wp m (λ _ s', f s' = f s) (λ _, True) s.

Section preserves_rules.
Context {S X : Type} (f : S → X).

Lemma preserves_wp {A} (m : M S A) (Q : A → S → Prop) s :
  preserves f m → (∀ a s', f s' = f s → Q a s') → wp m Q (λ _, True) s.
Proof. intros Hm HQ. eapply wp_conseq; [apply Hm|apply HQ]. Qed.

Lemma preserves_ret {A} (a : A) : preserves f (mret a).
Proof. by intros s. Qed.
Lemma preserves_stop {A} e : preserves f (stop (A := A) e).
Proof. by intros s. Qed.
Lemma preserves_gets {A} (g : S → A) : preserves f (gets g).
Proof. by intros s. Qed.
Lemma preserves_modify (g : S → S) : (∀ s, f (g s) = f s) → preserves f (modify g).
Proof. intros Hg s. apply Hg. Qed.
Lemma preserves_from_opt {A} e (o : option A) : preserves f (from_opt e o).
Proof. by destruct o. Qed.
Lemma preserves_add_s32 a b : preserves f (add_s32 a b).
Proof. intros s. unfold add_s32. by case_bool_decide. Qed.
Lemma preserves_bind {A B} (m : M S A) (k : A → M S B) :
  preserves f m → (∀ a, preserves f (k a)) → preserves f (m ≫= k).
Proof.
  intros Hm Hk s. apply wp_bind, preserves_wp; [done|]. intros a s' Hs.
  eapply wp_conseq; [apply Hk|]. intros b s2 Hs2. cbn in Hs2. congruence.
Qed.
Lemma preserves_when b m : preserves f m → preserves f (when b m).
Proof. by destruct b. Qed.
Lemma preserves_for_each {B} (l : list B) (g : B → M S unit) :
  (∀ x, preserves f (g x)) → preserves f (for_each l g).
Proof.
  intros Hg. induction l as [|x l IH]; cbn; [apply preserves_ret|]. by apply preserves_bind.
Qed.
Lemma preserves_fold_m {A B} (l : list B) (g : A → B → M S A) :
  (∀ a x, preserves f (g a x)) → ∀ a, preserves f (fold_m l g a).
Proof.
  intros Hg. induction l as [|x l IH]; intros a; cbn; [apply preserves_ret|]. by apply preserves_bind.
Qed.
Lemma preserves_iter {A B} fuel (g : B → M S (B + A)) :
  (∀ b, preserves f (g b)) → ∀ b, preserves f (iter fuel g b).
Proof.
  intros Hg. induction fuel as [|fuel IH]; intros b; cbn; [apply preserves_stop|].
  apply preserves_bind; [done|]. intros [b'|a]; [apply IH|apply preserves_ret].
Qed.
Lemma preserves_zoom {T A} (get : S → T) (set : T → S → S) (m : M T A) :
  (∀ t s, f (set t s) = f s) → preserves f (zoom get set m).
Proof. intros Hset s. apply wp_zoom. unfold wp. by destruct (m _). Qed.
Lemma preserves_zoom_in {T A} (get : S → T) (set : T → S → S) (g : T → X) (m : M T A) :
  (∀ s, g (get s) = f s) → (∀ t s, f (set t s) = g t) → preserves g m → preserves f (zoom get set m).
Proof.
  intros Hget Hset Hm s. apply wp_zoom. eapply wp_conseq; [apply Hm|].
  intros a t Ht. cbn in Ht. by rewrite Hset, Ht.
Qed.
End preserves_rules.

Create HintDb preserves.
#[export] Hint Resolve preserves_ret preserves_stop preserves_gets preserves_from_opt
  preserves_add_s32 preserves_bind preserves_when preserves_for_each preserves_fold_m
  preserves_iter : preserves.

(** Follow a program: its binds, loops and branches. *)
Ltac solve_preserves :=
  repeat (intros; cbn beta iota zeta; first
    [ solve [auto with preserves]
    | apply preserves_bind | apply preserves_when | apply preserves_for_each
    | apply preserves_fold_m | apply preserves_iter
    | apply preserves_modify; reflexivity
    | case_match ]).

(** ** Operations that respect a preorder on states

    [respects R m]: whatever [m] does, if it returns, the state it leaves is
    related to the one it started from. *)
Definition respects {S A} (R : relation S) (m : M S A) : Prop :=
  ∀ s, wp m (λ _ s', R s s') (λ _, True) s.

Section respects_rules.
Context {S : Type} (R : relation S) `{!PreOrder R}.

Lemma respects_ret {A} (a : A) : respects R (mret a).
Proof. intros s. apply wp_ret. reflexivity. Qed.
Lemma respects_stop {A} e : respects R (stop (A := A) e).
Proof. by intros s. Qed.
Lemma respects_preserves {X A} (f : S → X) (m : M S A) :
  (∀ s s', f s' = f s → R s s') → preserves f m → respects R m.
Proof. intros HR Hm s. apply (preserves_wp f); [done|]. intros _ s'. apply HR. Qed.
Lemma respects_gets {A} (g : S → A) : respects R (gets g).
Proof. intros s. apply wp_gets. reflexivity. Qed.
Lemma respects_from_opt {A} e (o : option A) : respects R (from_opt e o).
Proof. destruct o; [apply respects_ret|apply respects_stop]. Qed.
Lemma respects_add_s32 a b : respects R (add_s32 a b).
Proof. unfold add_s32. case_bool_decide; [apply respects_ret|apply respects_stop]. Qed.
Lemma respects_bind {A B} (m : M S A) (k : A → M S B) :
  respects R m → (∀ a, respects R (k a)) → respects R (m ≫= k).
Proof.
  intros Hm Hk s. apply wp_bind. eapply wp_conseq; [apply Hm|]. intros a s1 H1.
  eapply wp_conseq; [apply Hk|]. intros b s2 H2. exact (transitivity H1 H2).
Qed.
Lemma respects_from_opt_bind {A B} e (o : option A) (k : A → M S B) :
  (∀ a, o = Some a → respects R (k a)) → respects R (from_opt e o ≫= k).
Proof. intros Hk. destruct o as [a|]; [exact (Hk a eq_refl)|by intros s]. Qed.
Lemma respects_when b m : respects R m → respects R (when b m).
Proof. intros Hm. destruct b; [done|apply respects_ret]. Qed.
Lemma respects_for_each {B} (l : list B) (g : B → M S unit) :
  (∀ x, respects R (g x)) → respects R (for_each l g).
Proof.
  intros Hg. induction l as [|x l IH]; cbn; [apply respects_ret|]. by apply respects_bind.
Qed.
Lemma respects_fold_m {A B} (l : list B) (g : A → B → M S A) :
  (∀ a x, respects R (g a x)) → ∀ a, respects R (fold_m l g a).
Proof.
  intros Hg. induction l as [|x l IH]; intros a; cbn; [apply respects_ret|]. by apply respects_bind.
Qed.
Lemma respects_iter {A B} fuel (g : B → M S (B + A)) :
  (∀ b, respects R (g b)) → ∀ b, respects R (iter fuel g b).
Proof.
  intros Hg. induction fuel as [|fuel IH]; intros b; cbn; [apply respects_stop|].
  apply respects_bind; [done|]. intros [b'|a]; [apply IH|apply respects_ret].
Qed.
Lemma respects_zoom {T A} (get : S → T) (set : T → S → S) (R' : relation T) (m : M T A) :
  (∀ s t, R' (get s) t → R s (set t s)) → respects R' m → respects R (zoom get set m).
Proof.
  intros Hset Hm s. apply wp_zoom. eapply wp_conseq; [apply Hm|]. intros a t. apply Hset.
Qed.
End respects_rules.

Create HintDb respects.
#[export] Hint Resolve respects_ret respects_stop respects_gets respects_from_opt
  respects_add_s32 : respects.

(** Follow a program whose parts are known to respect [R]. *)
Ltac solve_respects :=
  repeat (intros; cbn beta iota zeta; first
    [ solve [eauto with respects typeclass_instances]
    | apply respects_bind | apply respects_when | apply respects_for_each
    | apply respects_fold_m | apply respects_iter
    | case_match ]).

(** ** Arrays indexed by C integers *)
Definition zget {A} (l : list A) (i : Z) : option A :=
  if 0 <=? i then l !! Z.to_nat i else None.
Definition zset {A} (l : list A) (i : Z) (x : A) : list A := <[Z.to_nat i := x]> l.
Definition slice {A} (off n : Z) (l : list A) : list A :=
  take (Z.to_nat n) (drop (Z.to_nat off) l).
Definition zlen {A} (l : list A) : Z := Z.of_nat (length l).

#[global] Arguments zget : simpl never.
#[global] Arguments zset : simpl never.
#[global] Arguments slice : simpl never.

Lemma zget_nat {A} (l : list A) (i : nat) : zget l (Z.of_nat i) = l !! i.
Proof. unfold zget. rewrite (proj2 (Z.leb_le _ _)), Nat2Z.id; [done|lia]. Qed.

Lemma zget_Some {A} (l : list A) i x :
  zget l i = Some x ↔ 0 ≤ i ∧ l !! Z.to_nat i = Some x.
Proof. unfold zget. destruct (Z.leb_spec 0 i); naive_solver lia. Qed.

Lemma zget_range {A} (l : list A) i : 0 ≤ i < zlen l → ∃ x, zget l i = Some x.
Proof.
  intros H. unfold zlen in H.
  destruct (lookup_lt_is_Some_2 l (Z.to_nat i)) as [x Hx]; [lia|].
  exists x. apply zget_Some. split; [lia|done].
Qed.

Lemma zget_oob {A} (l : list A) i : zlen l ≤ i → zget l i = None.
Proof.
  intros H. unfold zget, zlen in *. destruct (Z.leb_spec 0 i); [|done].
  apply lookup_ge_None_2. lia.
Qed.

Lemma zlen_zset {A} (l : list A) i x : zlen (zset l i x) = zlen l.
Proof. unfold zlen, zset. by rewrite length_insert. Qed.

Lemma zget_zset_eq {A} (l : list A) i x : 0 ≤ i < zlen l → zget (zset l i x) i = Some x.
Proof.
  intros H. unfold zlen in H. apply zget_Some. split; [lia|].
  apply list_lookup_insert_eq. lia.
Qed.

Lemma zget_zset_ne {A} (l : list A) i j x : 0 ≤ i → i ≠ j → zget (zset l i x) j = zget l j.
Proof.
  intros Hi Hne. unfold zget, zset. destruct (Z.leb_spec 0 j) as [Hj|Hj]; [|done].
  apply list_lookup_insert_ne. lia.
Qed.

Lemma length_slice {A} off n (l : list A) :
  0 ≤ off → 0 ≤ n → off + n ≤ zlen l → zlen (slice off n l) = n.
Proof. unfold zlen, slice. intros. rewrite length_take, length_drop. lia. Qed.

Lemma slice_app {A} off n m (l : list A) :
  0 ≤ off → 0 ≤ n → 0 ≤ m →
  slice off n l ++ slice (off + n) m l = slice off (n + m) l.
Proof.
  intros. unfold slice.
  rewrite (Z2Nat.inj_add off n), (Z2Nat.inj_add n m) by lia.
  rewrite <- (drop_drop l). by rewrite take_take_drop.
Qed.

Lemma slice_all {A} n (l : list A) : zlen l ≤ n → slice 0 n l = l.
Proof. intros H. unfold slice, zlen in *. rewrite take_ge; [done|]. rewrite length_drop. lia. Qed.

Lemma zlen_app {A} (l k : list A) : zlen (l ++ k) = zlen l + zlen k.
Proof. unfold zlen. rewrite length_app. lia. Qed.

Lemma zlen_nonneg {A} (l : list A) : 0 ≤ zlen l.
Proof. unfold zlen. lia. Qed.

Lemma zlen_slice_le {A} off n (l : list A) : 0 ≤ n → zlen (slice off n l) ≤ n.
Proof. unfold zlen, slice. rewrite length_take. lia. Qed.

Lemma zlen_slice {A} off n (l : list A) : 0 ≤ off → 0 ≤ n →
  zlen (slice off n l) = Z.min n (Z.max 0 (zlen l - off)).
Proof. intros. unfold zlen, slice. rewrite length_take, length_drop. lia. Qed.

Lemma slice_prefix {A} off n m (l : list A) : 0 ≤ n ≤ m → slice 0 n (slice off m l) = slice off n l.
Proof. intros. unfold slice. rewrite drop_0, take_take. f_equal. lia. Qed.

Lemma slice_slice {A} i n off m (l : list A) : 0 ≤ off → 0 ≤ i → 0 ≤ n → i + n ≤ m →
  slice i n (slice off m l) = slice (off + i) n l.
Proof.
  intros. unfold slice. rewrite skipn_firstn_comm, drop_drop, take_take. f_equal; [lia|]. f_equal. lia.
Qed.

Lemma slice_app_l {A} n (l k : list A) : zlen l = n → slice 0 n (l ++ k) = l.
Proof. intros <-. unfold slice, zlen. by rewrite drop_0, Nat2Z.id, take_app_length. Qed.

Lemma drop_zlen_app {A} n (l k : list A) : zlen l = n → drop (Z.to_nat n) (l ++ k) = k.
Proof. intros <-. unfold zlen. by rewrite Nat2Z.id, drop_app_length. Qed.

Lemma zlen_7 {A} (l : list A) : zlen l = 7 →
  ∃ a1 a2 a3 a4 a5 a6 a7, l = [a1; a2; a3; a4; a5; a6; a7].
Proof.
  unfold zlen. intros H. do 7 (destruct l as [|? l]; [cbn in H; lia|]).
  destruct l; [|cbn in H; lia]. by do 7 eexists.
Qed.

Lemma zlen_8 {A} (l : list A) : zlen l = 8 →
  ∃ a0 a1 a2 a3 a4 a5 a6 a7, l = [a0; a1; a2; a3; a4; a5; a6; a7].
Proof.
  unfold zlen. intros H. do 8 (destruct l as [|? l]; [cbn in H; lia|]).
  destruct l; [|cbn in H; lia]. by do 8 eexists.
Qed.

Lemma slice_0 {A} off (l : list A) : slice off 0 l = [].
Proof. done. Qed.

Lemma filter_ext_elem {A} (P Q : A → Prop) `{!∀ x, Decision (P x), !∀ x, Decision (Q x)} (l : list A) :
  (∀ x, x ∈ l → P x ↔ Q x) → filter P l = filter Q l.
Proof.
  induction l as [|x l IH]; intros Hpq; [done|]. rewrite !filter_cons.
  rewrite IH by (intros y Hy; apply Hpq; by right).
  destruct (decide (P x)) as [Hp|Hp].
  - rewrite decide_True; [done|]. apply Hpq; [by left|done].
  - rewrite decide_False; [done|]. intros Hq. apply Hp, Hpq; [by left|done].
Qed.

Lemma filter_id {A} (P : A → Prop) `{!∀ x, Decision (P x)} (l : list A) :
  (∀ x, x ∈ l → P x) → filter P l = l.
Proof.
  induction l as [|x l IH]; intros HP; [done|].
  rewrite filter_cons_True by (apply HP; by left). f_equal. apply IH. intros y Hy. apply HP. by right.
Qed.

(** ** Bytes and little-endian loads

    The program reads hashes through [uint64_t *] and [uint16_t *] casts; the
    target is little-endian (x86-64). *)
Definition is_byte (b : Z) : Prop := 0 ≤ b < 256.
Definition bytes (l : list Z) : Prop := Forall is_byte l.

#[export] Instance is_byte_dec b : Decision (is_byte b).
Proof. unfold is_byte. apply _. Defined.
#[export] Instance bytes_dec l : Decision (bytes l).
Proof. unfold bytes. apply _. Defined.

Fixpoint le_val (bs : list Z) : Z :=
  match bs with [] => 0 | b :: bs' => b + 256 * le_val bs' end.
Fixpoint le_bytes (n : nat) (z : Z) : list Z :=
  match n with O => [] | S n' => z mod 256 :: le_bytes n' (z / 256) end.

Definition u64_at (bs : list Z) (k : Z) : Z := le_val (slice (8 * k) 8 bs).
Definition u16_at (bs : list Z) (k : Z) : Z := le_val (slice (2 * k) 2 bs).

#[global] Arguments u64_at : simpl never.
#[global] Arguments u16_at : simpl never.

(** [htonl] and [ntohl]: the bytes of a 32-bit value in the opposite order. *)
Definition swap32 (z : Z) : Z := le_val (rev (le_bytes 4 z)).

(** [htons] and [ntohs], for 16 bits. *)
Definition swap16 (z : Z) : Z := le_val (rev (le_bytes 2 z)).

(** The C string at the start of a buffer; [None] if it has no terminator. *)
Fixpoint cstr (buf : list Z) : option (list Z) :=
  match buf with
  | [] => None
  | b :: buf' => if b =? 0 then Some [] else cons b <$> cstr buf'
  end.

(** The bytes of a string literal. *)
Definition str (s : string) : list Z :=
  (λ c, Z.of_N (Ascii.N_of_ascii c)) <$> String.list_ascii_of_string s.

Lemma le_val_bound bs : bytes bs → 0 ≤ le_val bs < 256 ^ zlen bs.
Proof.
  unfold zlen. induction 1 as [|b bs Hb _ IH]; [cbn; lia|].
  cbn [le_val length]. rewrite Nat2Z.inj_succ, Z.pow_succ_r by lia.
  unfold is_byte in Hb. lia.
Qed.

Lemma le_val_inj bs bs' :
  length bs = length bs' → bytes bs → bytes bs' → le_val bs = le_val bs' → bs = bs'.
Proof.
  intros Hlen Hbs. revert bs' Hlen.
  induction Hbs as [|b bs Hb _ IH]; intros [|b' bs'] Hlen; try done.
  intros Hbs'%Forall_cons. destruct Hbs' as [Hb' Hbs']. cbn. intros Heq.
  unfold is_byte in *. assert (b = b') by lia. subst.
  f_equal. apply IH; [by injection Hlen|done|lia].
Qed.

Lemma length_le_bytes n z : length (le_bytes n z) = n.
Proof. revert z. induction n; intros; cbn; auto. Qed.

Lemma le_bytes_bytes n z : bytes (le_bytes n z).
Proof.
  revert z. induction n as [|n IH]; intros z; constructor; [|apply IH].
  apply Z.mod_pos_bound. lia.
Qed.

Lemma le_val_le_bytes n z : 0 ≤ z < 256 ^ Z.of_nat n → le_val (le_bytes n z) = z.
Proof.
  revert z. induction n as [|n IH]; intros z Hz; [cbn in *; lia|].
  cbn [le_bytes le_val]. rewrite Nat2Z.inj_succ, Z.pow_succ_r in Hz by lia.
  rewrite IH; [pose proof (Z.div_mod z 256); lia|].
  split; [apply Z.div_pos; lia|]. apply Z.div_lt_upper_bound; lia.
Qed.

Lemma le_bytes_le_val bs : bytes bs → le_bytes (length bs) (le_val bs) = bs.
Proof.
  intros H. apply le_val_inj; [apply length_le_bytes|apply le_bytes_bytes|done|].
  apply le_val_le_bytes. by apply le_val_bound.
Qed.

Lemma bytes_rev bs : bytes bs → bytes (rev bs).
Proof. unfold bytes. rewrite !Forall_forall. intros H x Hx. apply H. apply list_elem_of_In. by apply in_rev, list_elem_of_In. Qed.

Lemma reversed_involutive n z : 0 ≤ z < 256 ^ Z.of_nat n →
  le_val (rev (le_bytes n (le_val (rev (le_bytes n z))))) = z.
Proof.
  intros Hz. assert (Hlen : length (rev (le_bytes n z)) = n) by (by rewrite length_rev, length_le_bytes).
  rewrite <- Hlen at 1. rewrite le_bytes_le_val by apply bytes_rev, le_bytes_bytes.
  rewrite rev_involutive. by apply le_val_le_bytes.
Qed.

Lemma swap32_involutive z : 0 ≤ z < 2 ^ 32 → swap32 (swap32 z) = z.
Proof. apply (reversed_involutive 4). Qed.

Lemma swap16_involutive z : 0 ≤ z < 2 ^ 16 → swap16 (swap16 z) = z.
Proof. apply (reversed_involutive 2). Qed.

Lemma cstr_terminated s rest : Forall (λ b, b ≠ 0) s → cstr (s ++ 0 :: rest) = Some s.
Proof.
  induction 1 as [|b s Hb _ IH]; [done|]. cbn.
  destruct (Z.eqb_spec b 0); [done|]. by rewrite IH.
Qed.

Lemma cstr_Some buf s : cstr buf = Some s → ∃ rest, buf = s ++ 0 :: rest ∧ Forall (λ b, b ≠ 0) s.
Proof.
  revert s. induction buf as [|b buf IH]; intros s Hs; [done|]. cbn in Hs.
  destruct (Z.eqb_spec b 0) as [->|Hb]; [injection Hs as <-; by exists buf|].
  destruct (cstr buf) as [s'|]; [|done]. injection Hs as <-.
  destruct (IH s' eq_refl) as (rest & -> & Hs'). exists rest. split; [done|by constructor].
Qed.

Lemma bytes_slice off n bs : bytes bs → bytes (slice off n bs).
Proof. intros H. by apply Forall_take, Forall_drop. Qed.

Lemma bytes_app bs bs' : bytes (bs ++ bs') ↔ bytes bs ∧ bytes bs'.
Proof. apply Forall_app. Qed.

(** ** Proof automation

    [wp_step] applies the rule for the first operation of a monadic program;
    [wp_steps] repeats it while the program is in one of the common forms. *)
Ltac wp_step :=
  lazymatch goal with
  | |- wp (mbind _ _) _ _ _ => apply wp_bind
  | |- wp (mret _) _ _ _ => apply wp_ret
  | |- wp (gets _) _ _ _ => apply wp_gets
  | |- wp (modify _) _ _ _ => apply wp_modify
  | |- wp (stop _) _ _ _ => apply wp_stop
  | |- wp (when _ _) _ _ _ => apply wp_when; intros ?
  | |- wp (let _ := _ in _) _ _ _ => cbv zeta
  end.
Ltac wp_steps := repeat (wp_step; cbn beta).

(** Boolean tests in the hypotheses, reflected into [Prop]. *)
Ltac reflect_tests :=
  repeat match goal with
  | H : (_ && _) = true |- _ => apply andb_true_iff in H; destruct H
  | H : (_ && _) = false |- _ => apply andb_false_iff in H
  | H : (_ =? _) = true |- _ => apply Z.eqb_eq in H
  | H : (_ =? _) = false |- _ => apply Z.eqb_neq in H
  | H : (_ <? _) = true |- _ => apply Z.ltb_lt in H
  | H : (_ <? _) = false |- _ => apply Z.ltb_ge in H
  | H : (_ <=? _) = true |- _ => apply Z.leb_le in H
  | H : (_ <=? _) = false |- _ => apply Z.leb_gt in H
  | H : bool_decide _ = true |- _ => apply bool_decide_eq_true in H
  | H : bool_decide _ = false |- _ => apply bool_decide_eq_false in H
  end.

(** Facts about array accesses and machine integers, for [eauto with grin]
    and [autorewrite with grin_rw]. *)
Create HintDb grin.
Create Rewrite HintDb grin_rw.
#[export] Hint Resolve le_bytes_bytes bytes_slice bytes_rev : grin.
#[export] Hint Rewrite @zlen_zset length_le_bytes @slice_0 : grin_rw.
