(* ===== verification/OS.v ===== *)
(** * The operating system the client runs on

    Grintorrent calls POSIX for files, mapped memory and sockets, and OpenSSL
    for MD5.  None of that code is in the repository, so it is a parameter:
    the class [OS] has the calls as functions of an abstract world [W], and
    [MD5_API] the digest functions.  What the program relies on is in
    [FileLaws], [SockLaws] and [MD5Laws]; they are stated on [os_view], the
    part of the world a process can observe. *)
From S2P Require Import Prelude.

(** The two combinations of flags the program passes to [open]. *)
Inductive open_mode : Type := O_RDONLY | O_CREAT_RDWR.

Definition MAP_FAILED : Z := -1.

(** [struct sockaddr_in], with the fields in network byte order. *)
Record sockaddr_in : Type := SockAddr {
  sin_family : Z;
  sin_port : Z;
  sin_addr : Z
}.

#[export] Instance sockaddr_in_eq_dec : EqDecision sockaddr_in.
Proof. solve_decision. Defined.

Definition AF_INET : Z := 2.
Definition INADDR_ANY : Z := 0.

(** The calls, each a function of the world.  A call whose result the program
    never looks at only gives the new world. *)
Class OS (W : Type) := {
  (** Is a block of that many bytes given ([malloc], [calloc], [realloc])? *)
  os_malloc : Z → W → bool * W;
  os_open : list Z → open_mode → W → Z * W;
  os_close : Z → W → W;
  os_lseek : Z → Z → W → W;
  os_fstat_size : Z → W → Z;
  os_ftruncate : Z → Z → W → W;
  os_read : Z → Z → W → Z * list Z * W;
  os_mmap : Z → Z → W → Z * W;
  os_msync : Z → Z → W → Z * W;
  os_munmap : Z → Z → W → Z * W;
  (** Length of the region mapped at an address, and accesses inside it. *)
  os_region : Z → W → option Z;
  os_load : Z → Z → Z → W → list Z;
  os_store : Z → Z → list Z → W → W;
  os_write : Z → list Z → W → Z * W;
  os_recv_peek : Z → Z → W → Z * list Z * W;
  os_recv_trunc : Z → Z → W → Z * W;
  os_socket : W → Z * W;
  os_connect : Z → sockaddr_in → Z → W → Z * W;
  os_bind : Z → sockaddr_in → W → Z * W;
  os_getsockname : Z → W → Z * sockaddr_in * W;
  os_listen : Z → Z → W → Z * W;
  (** [accept] is told the room for the address and says its length. *)
  os_accept : Z → Z → W → Z * sockaddr_in * Z * W;
  os_gethostbyname : list Z → W → option Z
}.

Class MD5_API := {
  MD5_CTX : Type;
  MD5_Init : MD5_CTX;
  MD5_Update : MD5_CTX → list Z → MD5_CTX;
  MD5_Final : MD5_CTX → list Z;
  MD5 : list Z → list Z
}.

Definition MD5_DIGEST_LENGTH : Z := 16.

(** ** What a process observes

    Files by path, open descriptors with their file and offset, mapped
    regions with their file and length, the open sockets, and for a socket
    the bytes its peer sends that are not read yet and the bytes written to
    it. *)
Record osview : Type := OSView {
  v_files : gmap (list Z) (list Z);
  v_fds : gmap Z (list Z * Z);
  v_maps : gmap Z (list Z * Z);
  v_socks : gset Z;
  v_in : gmap Z (list Z);
  v_out : gmap Z (list Z)
}.

Definition set_files f v := OSView (f (v_files v)) (v_fds v) (v_maps v) (v_socks v) (v_in v) (v_out v).
Definition set_fds f v := OSView (v_files v) (f (v_fds v)) (v_maps v) (v_socks v) (v_in v) (v_out v).
Definition set_maps f v := OSView (v_files v) (v_fds v) (f (v_maps v)) (v_socks v) (v_in v) (v_out v).
Definition set_socks f v := OSView (v_files v) (v_fds v) (v_maps v) (f (v_socks v)) (v_in v) (v_out v).
Definition set_in f v := OSView (v_files v) (v_fds v) (v_maps v) (v_socks v) (f (v_in v)) (v_out v).
Definition set_out f v := OSView (v_files v) (v_fds v) (v_maps v) (v_socks v) (v_in v) (f (v_out v)).

(** A file cut or padded with zeros to [n] bytes, and overwritten at [off]. *)
Definition truncated (n : Z) (c : list Z) : list Z :=
  take (Z.to_nat n) c ++ replicate (Z.to_nat n - length c)%nat 0.
Definition splice (off : Z) (data c : list Z) : list Z :=
  slice 0 off c ++ data ++ drop (Z.to_nat (off + zlen data)) c.

Class OSViewOf (W : Type) := os_view : W → osview.

(** Files and mapped memory (POSIX; [read] on a regular file is short only at
    the end of the file). *)
Class FileLaws (W : Type) `{OS W, OSViewOf W} : Prop := {
  law_malloc n w : os_view (os_malloc n w).2 = os_view w;
  law_open_rdonly p w fd w' : os_open p O_RDONLY w = (fd, w') →
    (fd = -1 ∧ os_view w' = os_view w) ∨
    (0 ≤ fd ∧ v_fds (os_view w) !! fd = None ∧ (fd ∉ v_socks (os_view w)) ∧ is_Some (v_files (os_view w) !! p) ∧
     os_view w' = set_fds (<[fd := (p, 0)]>) (os_view w));
  law_open_creat p w fd w' : os_open p O_CREAT_RDWR w = (fd, w') →
    (fd = -1 ∧ os_view w' = os_view w) ∨
    (0 ≤ fd ∧ v_fds (os_view w) !! fd = None ∧ (fd ∉ v_socks (os_view w)) ∧
     os_view w' = set_fds (<[fd := (p, 0)]>)
       (set_files (λ fs, <[p := default [] (fs !! p)]> fs) (os_view w)));
  law_close fd w :
    os_view (os_close fd w) = set_socks (λ s, s ∖ {[fd]}) (set_fds (delete fd) (os_view w));
  law_lseek fd off w p o : v_fds (os_view w) !! fd = Some (p, o) → 0 ≤ off →
    os_view (os_lseek fd off w) = set_fds (<[fd := (p, off)]>) (os_view w);
  law_fstat fd w p o c : v_fds (os_view w) !! fd = Some (p, o) →
    v_files (os_view w) !! p = Some c → os_fstat_size fd w = zlen c;
  law_read_file fd n w p o c rc data w' : v_fds (os_view w) !! fd = Some (p, o) →
    v_files (os_view w) !! p = Some c → 0 ≤ n → os_read fd n w = (rc, data, w') →
    data = slice o n c ∧ rc = zlen data ∧
    os_view w' = set_fds (<[fd := (p, o + rc)]>) (os_view w);
  law_mmap n fd w p o a w' : v_fds (os_view w) !! fd = Some (p, o) → 0 < n →
    os_mmap n fd w = (a, w') →
    (a = MAP_FAILED ∧ os_view w' = os_view w) ∨
    (0 < a ∧ v_maps (os_view w) !! a = None ∧
     os_view w' = set_maps (<[a := (p, n)]>) (os_view w));
  law_msync a n w : os_view (os_msync a n w).2 = os_view w;
  law_munmap a n w rc w' : os_munmap a n w = (rc, w') →
    os_view w' = if rc =? 0 then set_maps (delete a) (os_view w) else os_view w;
  law_region a w : os_region a w = snd <$> v_maps (os_view w) !! a;
  law_load a off n w p len c : v_maps (os_view w) !! a = Some (p, len) →
    v_files (os_view w) !! p = Some c → 0 ≤ off → 0 ≤ n → off + n ≤ len → off + n ≤ zlen c →
    os_load a off n w = slice off n c;
  law_store a off data w p len c : v_maps (os_view w) !! a = Some (p, len) →
    v_files (os_view w) !! p = Some c → 0 ≤ off → off + zlen data ≤ len → off + zlen data ≤ zlen c →
    os_view (os_store a off data w) = set_files (<[p := splice off data c]>) (os_view w)
}.

(** [ftruncate] has room on the device. *)
Class DiskRoom (W : Type) `{OS W, OSViewOf W} : Prop :=
  law_ftruncate fd n w p o c : v_fds (os_view w) !! fd = Some (p, o) →
    v_files (os_view w) !! p = Some c → 0 ≤ n →
    os_view (os_ftruncate fd n w) = set_files (<[p := truncated n c]>) (os_view w).

(** There is a free descriptor for every file that can be opened. *)
Class FdRoom (W : Type) `{OS W, OSViewOf W} : Prop :=
  law_open_room p m w : m = O_CREAT_RDWR ∨ is_Some (v_files (os_view w) !! p) →
    (os_open p m w).1 ≠ -1.

(** There is address space for every mapping. *)
Class MapRoom (W : Type) `{OS W, OSViewOf W} : Prop :=
  law_mmap_room n fd w : is_Some (v_fds (os_view w) !! fd) → 0 < n →
    (os_mmap n fd w).1 ≠ MAP_FAILED.

(** Memory is never exhausted. *)
Class MemoryRoom (W : Type) `{OS W} : Prop :=
  law_malloc_ok n w : (os_malloc n w).1 = true.

(** What [read] stores are bytes. *)
Class ByteReads (W : Type) `{OS W} : Prop :=
  law_read_bytes fd n w : bytes (os_read fd n w).1.2.

(** The sizes that [fstat] reports are of type [off_t]. *)
Class FileSizes (W : Type) `{OS W} : Prop :=
  law_fstat_size fd w : - 2 ^ 63 ≤ os_fstat_size fd w < 2 ^ 63.

(** A new descriptor of a socket. *)
Definition opened_sock (v v' : osview) (fd : Z) : Prop :=
  0 ≤ fd ∧ (fd ∉ v_socks v) ∧ v_fds v !! fd = None ∧ v' = set_socks (union {[fd]}) v.

(** Stream sockets: a call transfers between 1 and the requested number of
    bytes, or fails with [-1] ([0] and [-1] transfer nothing). *)
Class SockLaws (W : Type) `{OS W, OSViewOf W} : Prop := {
  law_write fd buf w rc w' : os_write fd buf w = (rc, w') →
    -1 ≤ rc ≤ zlen buf ∧
    os_view w' = if 0 <? rc
      then set_out (<[fd := (v_out (os_view w) !!! fd) ++ slice 0 rc buf]>) (os_view w)
      else os_view w;
  law_read_sock fd n w rc data w' : v_fds (os_view w) !! fd = None → 0 ≤ n →
    os_read fd n w = (rc, data, w') →
    -1 ≤ rc ≤ n ∧ rc ≤ zlen (v_in (os_view w) !!! fd) ∧
    if 0 <? rc
      then data = slice 0 rc (v_in (os_view w) !!! fd) ∧
           os_view w' = set_in (<[fd := drop (Z.to_nat rc) (v_in (os_view w) !!! fd)]>) (os_view w)
      else data = [] ∧ os_view w' = os_view w;
  law_recv_peek fd n w rc data w' : 0 ≤ n → os_recv_peek fd n w = (rc, data, w') →
    -1 ≤ rc ≤ n ∧ rc ≤ zlen (v_in (os_view w) !!! fd) ∧ os_view w' = os_view w ∧
    (0 < rc → data = slice 0 rc (v_in (os_view w) !!! fd));
  law_recv_trunc fd n w rc w' : 0 ≤ n → os_recv_trunc fd n w = (rc, w') →
    -1 ≤ rc ≤ n ∧ rc ≤ zlen (v_in (os_view w) !!! fd) ∧
    os_view w' = if 0 <? rc
      then set_in (<[fd := drop (Z.to_nat rc) (v_in (os_view w) !!! fd)]>) (os_view w)
      else os_view w;
  law_socket w fd w' : os_socket w = (fd, w') →
    (fd = -1 ∧ os_view w' = os_view w) ∨ opened_sock (os_view w) (os_view w') fd;
  law_connect fd a len w : os_view (os_connect fd a len w).2 = os_view w;
  law_bind fd a w : os_view (os_bind fd a w).2 = os_view w;
  law_getsockname fd w : os_view (os_getsockname fd w).2 = os_view w;
  law_listen fd n w : os_view (os_listen fd n w).2 = os_view w;
  law_accept fd len w c a len' w' : os_accept fd len w = (c, a, len', w') →
    (c = -1 ∧ os_view w' = os_view w) ∨ opened_sock (os_view w) (os_view w') c
}.

(** OpenSSL's incremental interface computes the one-shot digest. *)
Class MD5Laws `{MD5_API} : Prop := {
  law_md5 blocks : MD5_Final (foldl MD5_Update MD5_Init blocks) = MD5 (concat blocks);
  law_md5_length m : zlen (MD5 m) = MD5_DIGEST_LENGTH;
  law_md5_bytes m : bytes (MD5 m)
}.

(** No digest is all zeros. *)
Class NonzeroDigest `{MD5_API} : Prop := law_md5_nonzero m : MD5 m ≠ replicate 16 0.

(** An operating-system call as an operation of the monad. *)
Definition sys {W A} (call : W → A * W) : M W A := λ w, let '(a, w') := call w in Done a w'.
Definition sys_ (W : Type) (call : W → W) : M W unit := λ w, Done tt (call w).
Arguments sys_ {W} call.

Lemma wp_sys {W A} (call : W → A * W) (Q : A → W → Prop) E w :
  (∀ a w', call w = (a, w') → Q a w') → wp (sys call) Q E w.
Proof. unfold wp, sys. intros H. destruct (call w) eqn:Hc. by apply H. Qed.

Lemma wp_sys_ {W} (call : W → W) (Q : unit → W → Prop) E w :
  Q tt (call w) → wp (sys_ call) Q E w.
Proof. done. Qed.
