(* ===== verification/Curses.v ===== *)
(** * The terminal

    The calls of the curses and form libraries that ui.c makes, as functions
    of the world, and what the theorems use of them.  Fields and forms are
    handles; the request and key codes are the library's constants. *)
From S2P Require Import Prelude OS.

Class CURSES (W : Type) := {
  KEY_BACKSPACE : Z;
  KEY_ENTER : Z;
  REQ_NEW_LINE : Z;
  REQ_DEL_PREV : Z;
  REQ_NEXT_FIELD : Z;
  REQ_CLR_FIELD : Z;
  COLOR_GREEN : Z;
  COLOR_RED : Z;
  COLOR_WHITE : Z;
  O_STATIC : Z;
  O_AUTOSKIP : Z;
  O_WRAP : Z;
  initscr : W → W;
  has_colors : W → bool;
  start_color : W → W;
  init_pair : Z → Z → Z → W → W;
  cbreak : W → W;
  noecho : W → W;
  curs_set : Z → W → W;
  timeout : Z → W → W;
  keypad : bool → W → W;
  getmaxyx : W → Z * Z;
  (** Height, width, first row, first column, rows off screen, buffers. *)
  new_field : Z → Z → Z → Z → Z → Z → W → Z * W;
  field_opts_off : Z → Z → W → W;
  new_form : Z → W → Z * W;
  post_form : Z → W → W;
  unpost_form : Z → W → W;
  free_form : Z → W → W;
  free_field : Z → W → W;
  refresh : W → W;
  endwin : W → W;
  mvprintw : Z → Z → list Z → W → W;
  getch : W → Z * W;
  form_driver : Z → Z → W → W;
  (** The string in the first buffer of a field. *)
  field_buffer : Z → W → list Z
}.

(** What was sent to the forms, in order: the form and the request or
    character. *)
Class ScreenOf (W : Type) := screen : W → list (Z * Z).

Class CursesLaws (W : Type) `{CURSES W, ScreenOf W, OSViewOf W} : Prop := {
  law_form_driver form c w : screen (form_driver form c w) = screen w ++ [(form, c)];
  law_form_driver_view form c w : os_view (form_driver form c w) = os_view w
}.

(** Allocating memory does not touch the terminal. *)
Class MallocScreen (W : Type) `{OS W, ScreenOf W} : Prop :=
  law_malloc_screen n w : screen (os_malloc n w).2 = screen w.
