(* ===== verification/Sim.v ===== *)
(** * A simulated operating system

    An instance of [OS] whose world is the observed state itself, with a bound
    on the bytes one socket call transfers and a set of descriptors whose
    writes fail.  New descriptors and addresses are above all those in use.  It
    satisfies every law of [OS.v], so the hypotheses of the theorems about the
    program can be met; the witnesses run on it.  [Sim.md5] is a digest with
    the interface of OpenSSL's, a polynomial checksum of 16 bytes. *)
From S2P Require Import Prelude OS Curses.

Module Sim.

(** The terminal: the requests to the forms so far, the keys to come, and the
    content of the input field. *)
Record console : Type := Console {
  c_screen : list (Z * Z);
  c_keys : list Z;
  c_field : list Z
}.

Record world : Type := MkWorld {
  view : osview;
  quota : Z;
  broken : gset Z;
  term : console
}.
Definition World (v : osview) (q : Z) (b : gset Z) : world := MkWorld v q b (Console [] [] []).

Definition set_view (f : osview → osview) (w : world) : world :=
  MkWorld (f (view w)) (quota w) (broken w) (term w).
Definition set_term (f : console → console) (w : world) : world :=
  MkWorld (view w) (quota w) (broken w) (f (term w)).

(** One more than every element, and at least [lo + 1]. *)
Definition above (lo : Z) (X : gset Z) : Z := 1 + foldr Z.max lo (elements X).
Definition fresh_fd (w : world) : Z := above 2 (dom (v_fds (view w)) ∪ v_socks (view w)).
Definition fresh_addr (w : world) : Z := above 0 (dom (v_maps (view w))).

Definition open (p : list Z) (m : open_mode) (w : world) : Z * world :=
  let fd := fresh_fd w in
  match m, v_files (view w) !! p with
  | O_RDONLY, None => (-1, w)
  | O_RDONLY, Some _ => (fd, set_view (set_fds (<[fd := (p, 0)]>)) w)
  | O_CREAT_RDWR, o =>
      (fd, set_view (λ v, set_fds (<[fd := (p, 0)]>)
             (set_files (λ fs, <[p := default [] (fs !! p)]> fs) v)) w)
  end.

Definition new_sock (w : world) : Z * world :=
  (fresh_fd w, set_view (set_socks (union {[fresh_fd w]})) w).

(** Content of the file behind a descriptor, with the path and offset. *)
Definition fd_file (fd : Z) (w : world) : option (list Z * Z * list Z) :=
  match v_fds (view w) !! fd with
  | Some (p, o) => match v_files (view w) !! p with Some c => Some (p, o, c) | None => None end
  | None => None
  end.

Definition limit (n : Z) (w : world) : Z := Z.min n (Z.max 1 (quota w)).

Definition read (fd n : Z) (w : world) : Z * list Z * world :=
  match v_fds (view w) !! fd with
  | Some (p, o) =>
      match v_files (view w) !! p with
      | Some c =>
          let data := slice o n c in
          (zlen data, data, set_view (set_fds (<[fd := (p, o + zlen data)]>)) w)
      | None => (-1, [], w)
      end
  | None =>
      let pending := v_in (view w) !!! fd in
      let rc := Z.min (zlen pending) (limit n w) in
      if 0 <? rc
      then (rc, slice 0 rc pending, set_view (set_in (<[fd := drop (Z.to_nat rc) pending]>)) w)
      else (0, [], w)
  end.

Definition write (fd : Z) (buf : list Z) (w : world) : Z * world :=
  if bool_decide (fd ∈ broken w) then (-1, w)
  else
    let rc := limit (zlen buf) w in
    if 0 <? rc
    then (rc, set_view (set_out (<[fd := v_out (view w) !!! fd ++ slice 0 rc buf]>)) w)
    else (0, w).

Definition recv_peek (fd n : Z) (w : world) : Z * list Z * world :=
  let rc := Z.min n (zlen (v_in (view w) !!! fd)) in
  (rc, slice 0 rc (v_in (view w) !!! fd), w).

Definition recv_trunc (fd n : Z) (w : world) : Z * world :=
  let pending := v_in (view w) !!! fd in
  let rc := Z.min (zlen pending) (limit n w) in
  if 0 <? rc then (rc, set_view (set_in (<[fd := drop (Z.to_nat rc) pending]>)) w)
  else (0, w).

Definition mmap (n fd : Z) (w : world) : Z * world :=
  match v_fds (view w) !! fd with
  | Some (p, _) =>
      (fresh_addr w, set_view (set_maps (<[fresh_addr w := (p, n)]>)) w)
  | None => (MAP_FAILED, w)
  end.

Definition load (a off n : Z) (w : world) : list Z :=
  match v_maps (view w) !! a with
  | Some (p, _) => slice off n (v_files (view w) !!! p)
  | None => []
  end.

Definition store (a off : Z) (data : list Z) (w : world) : world :=
  match v_maps (view w) !! a with
  | Some (p, _) => set_view (set_files (λ fs, <[p := splice off data (fs !!! p)]> fs)) w
  | None => w
  end.

Definition ftruncate (fd n : Z) (w : world) : world :=
  match v_fds (view w) !! fd with
  | Some (p, _) => set_view (set_files (λ fs, <[p := truncated n (fs !!! p)]> fs)) w
  | None => w
  end.

(** [os_with true] never runs out of memory, [os_with false] has none. *)
Definition os_with (memory : bool) : OS world := {|
  os_malloc _ w := (memory, w);
  os_open := open;
  os_close fd := set_view (λ v, set_socks (λ s, s ∖ {[fd]}) (set_fds (delete fd) v));
  os_lseek fd off w :=
    match v_fds (view w) !! fd with
    | Some (p, _) => set_view (set_fds (<[fd := (p, off)]>)) w
    | None => w
    end;
  os_fstat_size fd w := match fd_file fd w with Some (_, _, c) => zlen c | None => 0 end;
  os_ftruncate := ftruncate;
  os_read := read;
  os_mmap := mmap;
  os_msync _ _ w := (0, w);
  os_munmap a _ w := (0, set_view (set_maps (delete a)) w);
  os_region a w := snd <$> v_maps (view w) !! a;
  os_load := load;
  os_store := store;
  os_write := write;
  os_recv_peek := recv_peek;
  os_recv_trunc := recv_trunc;
  os_socket := new_sock;
  os_connect fd _ len w := (if (len <? 16) || bool_decide (fd ∈ broken w) then -1 else 0, w);
  os_bind _ _ w := (0, w);
  os_getsockname _ w := (0, SockAddr AF_INET 5000 INADDR_ANY, w);
  os_listen _ _ w := (0, w);
  os_accept _ _ w := let '(fd, w') := new_sock w in (fd, SockAddr AF_INET 5001 INADDR_ANY, 16, w');
  os_gethostbyname _ _ := Some 16777343
|}.
#[export] Instance os : OS world := os_with true.

(** The same with the content of files and sockets read as bytes, and sizes
    of type [off_t]. *)
Definition os_bytes : OS world := {|
  os_malloc := os_malloc;
  os_open := os_open;
  os_close := os_close;
  os_lseek := os_lseek;
  os_fstat_size fd w := (os_fstat_size fd w + 2 ^ 63) mod 2 ^ 64 - 2 ^ 63;
  os_ftruncate := os_ftruncate;
  os_read fd n w := let '(rc, data, w') := read fd n w in (rc, (λ x, x mod 256) <$> data, w');
  os_mmap := os_mmap;
  os_msync := os_msync;
  os_munmap := os_munmap;
  os_region := os_region;
  os_load := os_load;
  os_store := os_store;
  os_write := os_write;
  os_recv_peek := os_recv_peek;
  os_recv_trunc := os_recv_trunc;
  os_socket := os_socket;
  os_connect := os_connect;
  os_bind := os_bind;
  os_getsockname := os_getsockname;
  os_listen := os_listen;
  os_accept := os_accept;
  os_gethostbyname := os_gethostbyname
|}.
Lemma byte_reads : @ByteReads world os_bytes.
Proof.
  intros fd n w. cbn. destruct (read fd n w) as [[rc data] w']. cbn. apply Forall_fmap, Forall_forall.
  intros x _. unfold is_byte. cbn. pose proof (Z.mod_pos_bound x 256). lia.
Qed.
Lemma file_sizes : @FileSizes world os_bytes.
Proof. intros fd w. cbn. match goal with |- _ ≤ ?x mod _ - _ < _ => pose proof (Z.mod_pos_bound x (2 ^ 64)) end. lia. Qed.
Lemma memory_room_bytes : @MemoryRoom world os_bytes.
Proof. done. Qed.

#[export] Instance os_view_of : OSViewOf world := view.

(** The terminal: keys come from a list, then the last call for a key fails;
    the field that is typed in keeps its content. *)
#[export] Instance curses : CURSES world := {|
  KEY_BACKSPACE := 263;
  KEY_ENTER := 343;
  REQ_NEW_LINE := 530;
  REQ_DEL_PREV := 536;
  REQ_NEXT_FIELD := 516;
  REQ_CLR_FIELD := 543;
  COLOR_GREEN := 2;
  COLOR_RED := 1;
  COLOR_WHITE := 7;
  O_STATIC := 512;
  O_AUTOSKIP := 128;
  O_WRAP := 16;
  initscr w := w;
  has_colors _ := true;
  start_color w := w;
  init_pair _ _ _ w := w;
  cbreak w := w;
  noecho w := w;
  curs_set _ w := w;
  timeout _ w := w;
  keypad _ w := w;
  getmaxyx _ := (24, 80);
  new_field _ _ row _ _ _ w := (1 + row, w);
  field_opts_off _ _ w := w;
  new_form field w := (100 + field, w);
  post_form _ w := w;
  unpost_form _ w := w;
  free_form _ w := w;
  free_field _ w := w;
  refresh w := w;
  endwin w := w;
  mvprintw _ _ _ w := w;
  getch w :=
    match c_keys (term w) with
    | [] => (-1, w)
    | k :: ks => (k, set_term (λ t, Console (c_screen t) ks (c_field t)) w)
    end;
  form_driver form c w := set_term (λ t, Console (c_screen t ++ [(form, c)]) (c_keys t) (c_field t)) w;
  field_buffer _ w := c_field (term w)
|}.

#[export] Instance screen_of : ScreenOf world := λ w, c_screen (term w).

#[export] Instance curses_laws : CursesLaws world.
Proof. by split. Qed.

#[export] Instance malloc_screen : MallocScreen world.
Proof. done. Qed.

Lemma above_spec lo X : lo < above lo X ∧ above lo X ∉ X.
Proof.
  unfold above. assert (∀ l, lo ≤ foldr Z.max lo l ∧ ∀ x, x ∈ l → x ≤ foldr Z.max lo l) as Hmax.
  { induction l as [|y l [IH1 IH2]]; cbn; [split; [lia|set_solver]|].
    split; [lia|]. intros x [->|Hx%IH2]%elem_of_cons; lia. }
  destruct (Hmax (elements X)) as [H1 H2]. split; [lia|].
  intros Hin%elem_of_elements%H2. lia.
Qed.

Lemma fresh_fd_spec w :
  0 ≤ fresh_fd w ∧ v_fds (view w) !! fresh_fd w = None ∧ fresh_fd w ∉ v_socks (view w).
Proof.
  unfold fresh_fd. destruct (above_spec 2 (dom (v_fds (view w)) ∪ v_socks (view w))) as [Hlt Hni].
  split_and!; [lia|apply not_elem_of_dom; set_solver|set_solver].
Qed.

Lemma fresh_addr_spec w : 0 < fresh_addr w ∧ v_maps (view w) !! fresh_addr w = None.
Proof.
  unfold fresh_addr. destruct (above_spec 0 (dom (v_maps (view w)))) as [Hlt Hni].
  split; [lia|]. by apply not_elem_of_dom.
Qed.

Lemma slice_length_le {A} off n (l : list A) : 0 ≤ n → zlen (slice off n l) ≤ n.
Proof. unfold zlen, slice. rewrite length_take. lia. Qed.

#[export] Instance file_laws memory : @FileLaws world (os_with memory) _.
Proof.
  split; cbn.
  - done.
  - unfold open, os_view, os_view_of. intros p w fd w'.
    pose proof (fresh_fd_spec w) as (? & ? & ?).
    destruct (v_files (view w) !! p) eqn:Hp; intros [= <- <-]; [|naive_solver].
    right. naive_solver.
  - unfold open, os_view, os_view_of. intros p w fd w'.
    pose proof (fresh_fd_spec w) as (? & ? & ?). intros [= <- <-]. right. naive_solver.
  - done.
  - unfold os_view, os_view_of. intros fd off w p o Hfd _. by rewrite Hfd.
  - unfold os_view, os_view_of, fd_file. intros fd w p o c Hfd Hp. by rewrite Hfd, Hp.
  - unfold os_view, os_view_of, read. intros fd n w p o c rc data w' Hfd Hp Hn.
    rewrite Hfd, Hp. by intros [= <- <- <-].
  - unfold os_view, os_view_of, mmap. intros n fd w p o a w' Hfd Hn. rewrite Hfd.
    pose proof (fresh_addr_spec w) as [? ?]. intros [= <- <-]. by right.
  - done.
  - by intros a n w rc w' [= <- <-].
  - done.
  - unfold os_view, os_view_of. unfold load. intros a off n w p len c Ha Hp _ _ _ _.
    rewrite Ha. by rewrite (lookup_total_correct _ _ _ Hp).
  - unfold os_view, os_view_of, store. intros a off data w p len c Ha Hp _ _ _.
    rewrite Ha. cbn. unfold set_files. by rewrite (lookup_total_correct _ _ _ Hp).
Qed.

#[export] Instance disk_room memory : @DiskRoom world (os_with memory) _.
Proof.
  intros fd n w p o c Hfd Hp Hn. unfold os_view, os_view_of in *. cbn. unfold ftruncate.
  rewrite Hfd. cbn. unfold set_files. by rewrite (lookup_total_correct _ _ _ Hp).
Qed.

#[export] Instance fd_room memory : @FdRoom world (os_with memory) _.
Proof.
  intros p m w Hm. cbn. unfold open. pose proof (fresh_fd_spec w) as (? & _ & _).
  destruct m, (v_files (view w) !! p) eqn:Hp; cbn; try lia.
  destruct Hm as [|[c Hc]]; [done|]. unfold os_view, os_view_of in Hc. congruence.
Qed.

#[export] Instance map_room memory : @MapRoom world (os_with memory) _.
Proof.
  intros n fd w [[p o] Hfd] Hn. unfold os_view, os_view_of in Hfd. cbn. unfold mmap. rewrite Hfd.
  pose proof (fresh_addr_spec w) as [? _]. cbn. unfold MAP_FAILED. lia.
Qed.

#[export] Instance memory_room : MemoryRoom world.
Proof. done. Qed.

#[export] Instance sock_laws memory : @SockLaws world (os_with memory) _.
Proof.
  split; cbn; unfold os_view, os_view_of.
  - unfold write, limit. intros fd buf w rc w'.
    case_bool_decide; [intros [= <- <-]; unfold zlen; split; [lia|done]|].
    destruct (Z.ltb_spec 0 (Z.min (zlen buf) (Z.max 1 (quota w)))) as [Hlt|Hge];
      intros [= <- <-].
    + split; [lia|]. by rewrite (proj2 (Z.ltb_lt _ _) Hlt).
    + unfold zlen in *. split; [lia|done].
  - unfold read, limit. intros fd n w rc data w' Hfd Hn. rewrite Hfd. cbv zeta.
    destruct (Z.ltb_spec 0 (Z.min (zlen (v_in (view w) !!! fd)) (Z.min n (Z.max 1 (quota w)))))
      as [Hlt|Hge]; intros [= <- <- <-].
    + split_and!; [lia|lia|lia|]. by rewrite (proj2 (Z.ltb_lt _ _) Hlt).
    + unfold zlen in *. split_and!; [lia|lia|lia|done..].
  - unfold recv_peek. intros fd n w rc data w' Hn [= <- <- <-].
    unfold zlen in *. split_and!; [lia|lia|lia|done|done].
  - unfold recv_trunc, limit. intros fd n w rc w' Hn.
    destruct (Z.ltb_spec 0 (Z.min (zlen (v_in (view w) !!! fd)) (Z.min n (Z.max 1 (quota w)))))
      as [Hlt|Hge]; intros [= <- <-].
    + split_and!; [lia|lia|lia|]. by rewrite (proj2 (Z.ltb_lt _ _) Hlt).
    + unfold zlen in *. split_and!; [lia|lia|lia|done..].
  - unfold new_sock. intros w fd w'. pose proof (fresh_fd_spec w) as (? & ? & ?). intros [= <- <-]. right. done.
  - done.
  - done.
  - done.
  - done.
  - unfold new_sock. intros fd len w c a len' w'. pose proof (fresh_fd_spec w) as (? & ? & ?).
    intros [= <- <- <- <-]. by right.
Qed.

(** The same with a network that never fails: a write takes everything, and
    every connection is made. *)
Definition write_all (fd : Z) (buf : list Z) (w : world) : Z * world :=
  if 0 <? zlen buf then (zlen buf, set_view (set_out (<[fd := v_out (view w) !!! fd ++ buf]>)) w)
  else (0, w).
Definition os_reliable : OS world := {|
  os_malloc := os_malloc;
  os_open := os_open;
  os_close := os_close;
  os_lseek := os_lseek;
  os_fstat_size := os_fstat_size;
  os_ftruncate := os_ftruncate;
  os_read := os_read;
  os_mmap := os_mmap;
  os_msync := os_msync;
  os_munmap := os_munmap;
  os_region := os_region;
  os_load := os_load;
  os_store := os_store;
  os_write := write_all;
  os_recv_peek := os_recv_peek;
  os_recv_trunc := os_recv_trunc;
  os_socket := os_socket;
  os_connect _ _ _ w := (0, w);
  os_bind := os_bind;
  os_getsockname := os_getsockname;
  os_listen := os_listen;
  os_accept := os_accept;
  os_gethostbyname := os_gethostbyname
|}.
Lemma reliable_files : @FileLaws world os_reliable _.
Proof. destruct (file_laws true). by split. Qed.
Lemma reliable_socks : @SockLaws world os_reliable _.
Proof.
  destruct (sock_laws true) as [_ Hread Hpeek Htrunc Hsock _ Hbind Hname Hlisten Haccept].
  split; [|exact Hread|exact Hpeek|exact Htrunc|exact Hsock|done|exact Hbind|exact Hname|exact Hlisten|exact Haccept].
  cbn. unfold write_all, os_view, os_view_of. intros fd buf w rc w'.
  destruct (Z.ltb_spec 0 (zlen buf)) as [Hlt|Hge]; intros [= <- <-]; unfold zlen in *.
  - split; [lia|]. rewrite (proj2 (Z.ltb_lt _ _) Hlt). cbn. unfold slice. rewrite drop_0, take_ge by lia. done.
  - by split; [lia|].
Qed.
Lemma reliable_memory : @MemoryRoom world os_reliable.
Proof. done. Qed.

(** A world with the given files and nothing open. *)
Definition boot (files : list (list Z * list Z)) : world :=
  World (OSView (list_to_map files) ∅ ∅ ∅ ∅ ∅) (2 ^ 20) ∅.

(** A 16-byte polynomial checksum with the interface of MD5. *)
Definition checksum (m : list Z) : Z := foldl (λ h b, wrapu 128 (h * 257 + b + 1)) 7 m.

#[export] Instance md5 : MD5_API := {
  MD5_CTX := list Z;
  MD5_Init := [];
  MD5_Update c b := c ++ b;
  MD5_Final c := le_bytes 16 (checksum c);
  MD5 m := le_bytes 16 (checksum m)
}.

#[export] Instance md5_laws : MD5Laws.
Proof.
  split.
  - cbn. intros blocks. enough (∀ c, foldl (λ c b, c ++ b) c blocks = c ++ concat blocks) as ->; [done|].
    induction blocks as [|b bs IH]; intros c; cbn; [by rewrite app_nil_r|].
    by rewrite IH, app_assoc.
  - done.
  - intros m. apply le_bytes_bytes.
Qed.

(** The same with a first byte that is never zero. *)
Definition md5_nonzero : MD5_API := {|
  MD5_CTX := list Z;
  MD5_Init := [];
  MD5_Update c b := c ++ b;
  MD5_Final c := 1 :: le_bytes 15 (checksum c);
  MD5 m := 1 :: le_bytes 15 (checksum m)
|}.
Lemma md5_nonzero_laws : @MD5Laws md5_nonzero.
Proof.
  destruct md5_laws as [Hmd5 _ _]. split.
  - intros blocks. specialize (Hmd5 blocks). cbn in *.
    enough (∀ c, foldl (λ c b, c ++ b) c blocks = c ++ concat blocks) as ->; [done|]. clear.
    induction blocks as [|b bs IH]; intros c; cbn; [by rewrite app_nil_r|]. by rewrite IH, app_assoc.
  - done.
  - intros m. constructor; [done|apply le_bytes_bytes].
Qed.
Lemma nonzero_digest : @NonzeroDigest md5_nonzero.
Proof. by intros m [=]. Qed.

End Sim.
