(* ===== verification/HTable.v ===== *)
(** * The hash table of tfiles (file.h, htable.c)

    The data of [file.h] and the open-addressing table of [htable.c], an
    operation per C function, and the refinement of the table to a finite map
    from hashes to tfiles. *)
From S2P Require Import Prelude OS Sim.

(** ** Data (file.h) *)
Definition NUM_CHUNKS : Z := 8.
Definition NAME_LEN : Z := 32.
Definition VERIFIED_FILE : Z := 0xFF.
Definition UNVERIFIED_FILE : Z := 0x00.

(** [tfile_def_t]: the character arrays are byte lists of their array's length. *)
Record tfile_def_t : Type := TFileDef {
  td_name : list Z;
  td_f_hash : list Z;
  td_c_hashes : list (list Z);
  td_size : Z
}.

#[export] Instance tfile_def_t_eq_dec : EqDecision tfile_def_t.
Proof. solve_decision. Defined.

(** The [char *f_location]: null, a block of its own holding a string, or the
    [name] array inside a slot of the table itself. *)
Inductive f_location_t : Type :=
  | FNull
  | FHeap (path : list Z)
  | FName (slot : Z).

#[export] Instance f_location_t_eq_dec : EqDecision f_location_t.
Proof. solve_decision. Defined.

(** [tfile_t]; [t_m_location] is the address of the mapped region, 0 for NULL. *)
Record tfile_t : Type := TFile {
  t_tdef : tfile_def_t;
  t_f_location : f_location_t;
  t_m_location : Z
}.

#[export] Instance tfile_t_eq_dec : EqDecision tfile_t.
Proof. solve_decision. Defined.

(** [htable_t]; a table of [None] is the null pointer. *)
Record htable_t : Type := HTable {
  ht_capacity : Z;
  ht_size : Z;
  ht_table : option (list tfile_t)
}.

Definition sizeof_tfile_t : Z := 200.

Definition set_tdef (d : tfile_def_t) (t : tfile_t) : tfile_t :=
  TFile d (t_f_location t) (t_m_location t).
Definition set_locations (f : f_location_t) (m : Z) (t : tfile_t) : tfile_t :=
  TFile (t_tdef t) f m.

(** A slot as [calloc] gives it. *)
Definition zero_tdef : tfile_def_t :=
  TFileDef (replicate 32 0) (replicate 16 0) (replicate 8 (replicate 16 0)) 0.
Definition zero_tfile : tfile_t := TFile zero_tdef FNull 0.

Definition STARTING_CAPACITY : Z := 256.

(** The state the table's operations run on: the table and the world. *)
Record store (W : Type) : Type := Store {
  st_ht : htable_t;
  st_os : W
}.
Arguments Store {W} st_ht st_os.
Arguments st_ht {W} s.
Arguments st_os {W} s.

Section htable.
Context {W : Type} `{OS W}.

Definition set_ht (f : htable_t → htable_t) : M (store W) unit :=
  modify (λ s, Store (f (st_ht s)) (st_os s)).
Definition on_os {A} (m : M W A) : M (store W) A :=
  zoom st_os (λ w s, Store (st_ht s) w) m.

(** [&htable->table[index]] read, and written. *)
Definition slot (index : Z) : M (store W) tfile_t :=
  ht ← gets st_ht;
  tbl ← from_opt NullDeref (ht_table ht);
  from_opt OutOfBounds (zget tbl index).
Definition update_slot (index : Z) (f : tfile_t → tfile_t) : M (store W) unit :=
  t ← slot index;
  set_ht (λ ht, HTable (ht_capacity ht) (ht_size ht)
                       ((λ tbl, zset tbl index (f t)) <$> ht_table ht)).

(** htable.c: init_htable *)
Definition init_htable : M (store W) unit :=
  ok ← on_os (sys (os_malloc (sizeof_tfile_t * STARTING_CAPACITY)));
  set_ht (λ _, HTable STARTING_CAPACITY 0
                 (if ok : bool then Some (replicate (Z.to_nat STARTING_CAPACITY) zero_tfile)
                  else None)).

(** [free] of one [f_location]: only a block of its own, or NULL, may be freed. *)
Definition free_f_location (l : f_location_t) : M (store W) unit :=
  match l with
  | FNull | FHeap _ => mret tt
  | FName _ => stop BadFree
  end.

(** htable.c: free_htable *)
Definition free_body (i : Z) : M (store W) (Z + unit) :=
  ht ← gets st_ht;
  if i <? ht_capacity ht then
    t ← slot i;
    _ ← free_f_location (t_f_location t);
    i' ← add_s32 i 1;
    mret (inl i')
  else mret (inr tt).

Definition free_htable (fuel : nat) : M (store W) unit :=
  _ ← iter fuel free_body 0;
  set_ht (λ ht, HTable (ht_capacity ht) (ht_size ht) None).

(** The step of the probe loops: [if (index >= capacity) index = 0 else index++]. *)
Definition next_index (ht : htable_t) (index : Z) : Z :=
  if ht_capacity ht <=? index then 0 else wrapu 64 (index + 1).

Definition start_index (ht : htable_t) (hash1 : Z) : Z :=
  Z.land hash1 (wrapu 64 (ht_capacity ht - 1)).

(** htable.c: search_htable; a slot is returned as its index. *)
Definition search_body (hash1 hash2 : Z) (index : Z) : M (store W) (Z + option Z) :=
  t ← slot index;
  let test_hash1 := u64_at (td_f_hash (t_tdef t)) 0 in
  let test_hash2 := u64_at (td_f_hash (t_tdef t)) 1 in
  if (test_hash1 =? 0) && (test_hash2 =? 0) then mret (inr None)
  else if (hash1 =? test_hash1) && (hash2 =? test_hash2) then mret (inr (Some index))
  else
    ht ← gets st_ht;
    mret (inl (next_index ht index)).

Definition search_htable (fuel : nat) (hash : list Z) : M (store W) (option Z) :=
  let hash1 := u64_at hash 0 in
  let hash2 := u64_at hash 1 in
  ht ← gets st_ht;
  iter fuel (search_body hash1 hash2) (start_index ht hash1).

(** htable.c: add_htable.  [resize] is the call of [resize_htable]. *)
Definition add_body (tdef : tfile_def_t) (hash1 hash2 : Z) (index : Z)
    : M (store W) (Z + option Z) :=
  t ← slot index;
  let test_hash1 := u64_at (td_f_hash (t_tdef t)) 0 in
  let test_hash2 := u64_at (td_f_hash (t_tdef t)) 1 in
  if (test_hash1 =? 0) && (test_hash2 =? 0) then
    _ ← update_slot index (set_tdef tdef);
    _ ← set_ht (λ ht, HTable (ht_capacity ht) (wrapu 64 (ht_size ht + 1)) (ht_table ht));
    mret (inr (Some index))
  else if (hash1 =? test_hash1) && (hash2 =? test_hash2) then mret (inr None)
  else
    ht ← gets st_ht;
    mret (inl (next_index ht index)).

Definition add_with (resize : M (store W) Z) (fuel : nat) (tdef : tfile_def_t)
    : M (store W) (option Z) :=
  ht ← gets st_ht;
  _ ← when (ht_capacity ht <? wrapu 64 (ht_size ht * 2)) (_ ← resize; mret tt);
  let hash1 := u64_at (td_f_hash tdef) 0 in
  let hash2 := u64_at (td_f_hash tdef) 1 in
  ht ← gets st_ht;
  iter fuel (add_body tdef hash1 hash2) (start_index ht hash1).

(** htable.c: resize_htable.  [add] is the call of [add_htable]. *)
Definition resize_body (add : tfile_def_t → M (store W) (option Z)) (i : Z)
    : M (store W) (Z + unit) :=
  ht ← gets st_ht;
  if i <? ht_capacity ht then
    t ← slot i;
    let test_hash := u16_at (td_f_hash (t_tdef t)) 0 in
    _ ← when (test_hash =? 0) (
      r ← add (t_tdef t);
      t' ← from_opt NullDeref r;
      u ← slot i;
      _ ← update_slot t' (λ x, set_locations (t_f_location u) (t_m_location x) x);
      u ← slot i;
      update_slot t' (λ x, set_locations (t_f_location x) (t_m_location u) x));
    i' ← add_s32 i 1;
    mret (inl i')
  else mret (inr tt).

Definition resize_with (add : tfile_def_t → M (store W) (option Z)) (fuel : nat)
    : M (store W) Z :=
  ht ← gets st_ht;
  let new_capacity := wraps32 (ht_capacity ht * 2) in
  ok ← on_os (sys (os_malloc (wrapu 64 (sizeof_tfile_t * new_capacity))));
  if negb ok then mret (-1)
  else
    _ ← iter fuel (resize_body add) 0;
    _ ← set_ht (λ ht, HTable (wrapu 64 new_capacity) (ht_size ht)
                         (Some (replicate (Z.to_nat new_capacity) zero_tfile)));
    mret 1.

(** The two functions call each other; [depth] bounds the calls. *)
Fixpoint add_htable_n (depth : nat) (fuel : nat) (tdef : tfile_def_t) : M (store W) (option Z) :=
  match depth with
  | O => stop OutOfFuel
  | S depth' => add_with (resize_with (add_htable_n depth' fuel) fuel) fuel tdef
  end.

Definition add_htable (fuel : nat) : tfile_def_t → M (store W) (option Z) := add_htable_n fuel fuel.
Definition resize_htable (fuel : nat) : M (store W) Z := resize_with (add_htable fuel) fuel.
End htable.

(** ** Hashes as keys *)
Definition key (t : tfile_t) : list Z := td_f_hash (t_tdef t).
Definition zero_hash : list Z := replicate 16 0.
Definition hash_ok (h : list Z) : Prop := zlen h = MD5_DIGEST_LENGTH ∧ bytes h.
Definition occupied (t : tfile_t) : Prop := key t ≠ zero_hash.

#[export] Instance occupied_dec t : Decision (occupied t).
Proof. unfold occupied. apply _. Defined.
(** A slot that was ever stored to. *)
Definition taken (t : tfile_t) : Prop := t ≠ zero_tfile.

#[export] Instance taken_dec t : Decision (taken t).
Proof. unfold taken. apply _. Defined.
Lemma occupied_taken t : occupied t → taken t.
Proof. intros Ho ->. by apply Ho. Qed.

#[export] Instance hash_ok_dec h : Decision (hash_ok h).
Proof. unfold hash_ok. apply _. Defined.

Lemma zero_hash_ok : hash_ok zero_hash.
Proof. by apply (bool_decide_unpack (hash_ok zero_hash)). Qed.

Lemma u64_at_bytes h k : hash_ok h → 0 ≤ k < 2 → bytes (slice (8 * k) 8 h) ∧ zlen (slice (8 * k) 8 h) = 8.
Proof.
  intros [Hlen Hb] Hk. unfold MD5_DIGEST_LENGTH in *.
  split; [by apply bytes_slice|apply length_slice; lia].
Qed.

Lemma hash_halves h h' : hash_ok h → hash_ok h' →
  u64_at h 0 = u64_at h' 0 → u64_at h 1 = u64_at h' 1 → h = h'.
Proof.
  intros Hh Hh' H0 H1.
  assert (Hhalf : ∀ k, 0 ≤ k < 2 → u64_at h k = u64_at h' k → slice (8 * k) 8 h = slice (8 * k) 8 h').
  { intros k Hk Heq.
    destruct (u64_at_bytes h k Hh Hk) as [Hb Hl], (u64_at_bytes h' k Hh' Hk) as [Hb' Hl'].
    apply le_val_inj; auto. unfold zlen in *. lia. }
  destruct Hh as [Hl _], Hh' as [Hl' _]. unfold MD5_DIGEST_LENGTH in *.
  rewrite <- (slice_all (8 + 8) h), <- (slice_all (8 + 8) h') by lia.
  rewrite <- !slice_app by lia.
  f_equal; [exact (Hhalf 0 ltac:(lia) H0)|exact (Hhalf 1 ltac:(lia) H1)].
Qed.

(** The comparison of two hashes through their 64-bit halves is equality. *)
Lemma hash_eqb_spec h h' : hash_ok h → hash_ok h' →
  (u64_at h 0 =? u64_at h' 0) && (u64_at h 1 =? u64_at h' 1) = bool_decide (h = h').
Proof.
  intros Hh Hh'. apply eq_bool_prop_intro. rewrite bool_decide_spec, andb_True.
  rewrite !Is_true_true, !Z.eqb_eq.
  split; [intros [??]; by apply hash_halves|by intros ->].
Qed.

Lemma hash_zerob_spec h : hash_ok h →
  (u64_at h 0 =? 0) && (u64_at h 1 =? 0) = bool_decide (h = zero_hash).
Proof. intros Hh. rewrite <- (hash_eqb_spec h zero_hash Hh zero_hash_ok). done. Qed.

(** ** Probe sequences

    A probe for [h] stops at a slot that is empty or holds [h]. *)
Definition stops (h : list Z) (t : tfile_t) : Prop := ¬ occupied t ∨ key t = h.

#[export] Instance stops_dec h t : Decision (stops h t).
Proof. unfold stops. apply _. Defined.

Definition home (cap : Z) (h : list Z) : nat := Z.to_nat (u64_at h 0 mod cap).
Definition probe (cap : Z) (tbl : list tfile_t) (h : list Z) : option (nat * tfile_t) :=
  prod_map (λ k, home cap h + k)%nat id <$> list_find (stops h) (drop (home cap h) tbl).

(** A loop that looks at the slots from [i] on until one stops the probe runs
    off the end of the table when none does. *)
Lemma probe_loop {W A} (body : Z → M (store W) (Z + A)) (st : store W) h tbl
    (fin : nat → tfile_t → A * store W) :
  (∀ i t, tbl !! i = Some t → stops h t →
     body (Z.of_nat i) st = Done (inr (fin i t).1) (fin i t).2) →
  (∀ i t, tbl !! i = Some t → ¬ stops h t →
     body (Z.of_nat i) st = Done (inl (Z.of_nat (S i))) st) →
  body (Z.of_nat (length tbl)) st = Stop OutOfBounds →
  ∀ l i fuel, drop i tbl = l → (i ≤ length tbl)%nat → (length l < fuel)%nat →
    iter fuel body (Z.of_nat i) st =
      match list_find (stops h) l with
      | Some (k, t) => Done (fin (i + k)%nat t).1 (fin (i + k)%nat t).2
      | None => Stop OutOfBounds
      end.
Proof.
  intros Hstop Hnext Hoob l. induction l as [|t l IH]; intros i fuel Hl Hi Hf;
    (destruct fuel as [|fuel]; [cbn in Hf; lia|]); cbn [iter].
  - assert (length tbl ≤ i)%nat as Hge by (apply (f_equal length) in Hl; rewrite length_drop in Hl; cbn in Hl; lia).
    replace i with (length tbl) by lia. by rewrite (bind_stop _ _ _ _ Hoob).
  - assert (Ht : tbl !! i = Some t).
    { rewrite <- (Nat.add_0_r i), <- lookup_drop, Hl. done. }
    cbn [list_find]. destruct (decide (stops h t)) as [Hs|Hs].
    + rewrite (bind_done _ _ _ _ _ (Hstop i t Ht Hs)). by rewrite Nat.add_0_r.
    + rewrite (bind_done _ _ _ _ _ (Hnext i t Ht Hs)).
      apply lookup_lt_Some in Ht. cbn in Hf. rewrite IH; [|  |lia|lia].
      * destruct (list_find (stops h) l) as [[k u]|]; cbn; [|done].
        by rewrite Nat.add_succ_r.
      * replace (S i) with (i + 1)%nat by lia. by rewrite <- drop_drop, Hl.
Qed.

(** ** The invariant of the table *)
Record wf (ht : htable_t) (tbl : list tfile_t) : Prop := Wf {
  wf_table : ht_table ht = Some tbl;
  wf_length : zlen tbl = ht_capacity ht;
  wf_pow2 : ∃ k, 0 ≤ k ≤ 40 ∧ ht_capacity ht = 2 ^ k;
  wf_hashes : ∀ i t, tbl !! i = Some t → hash_ok (key t);
  (** an empty slot has no location; it may hold a definition with a zero hash *)
  wf_empty : ∀ i t, tbl !! i = Some t → ¬ occupied t → t_f_location t = FNull ∧ t_m_location t = 0;
  (** every definition in the table was counted *)
  wf_size : zlen (filter taken tbl) ≤ ht_size ht ≤ ht_capacity ht;
  (** no empty slot between the home of an entry and the entry *)
  wf_chain : ∀ i t, tbl !! i = Some t → occupied t →
    (home (ht_capacity ht) (key t) ≤ i)%nat ∧
    ∀ j u, (home (ht_capacity ht) (key t) ≤ j < i)%nat → tbl !! j = Some u → occupied u;
  wf_distinct : ∀ i j t u, tbl !! i = Some t → tbl !! j = Some u → occupied t →
    key t = key u → i = j
}.

(** The tables in which no definition with a zero hash was stored: [size] is
    the number of entries, and the other slots are as [calloc] gave them. *)
Definition no_ghosts (ht : htable_t) (tbl : list tfile_t) : Prop :=
  ht_size ht = zlen (filter occupied tbl) ∧
  ∀ i t, tbl !! i = Some t → ¬ occupied t → t = zero_tfile.

Lemma filter_taken (tbl : list tfile_t) : (∀ i t, tbl !! i = Some t → ¬ occupied t → t = zero_tfile) →
  filter taken tbl = filter occupied tbl.
Proof.
  intros He. apply filter_ext_elem. intros t [i Hi]%list_elem_of_lookup.
  split; [|apply occupied_taken]. intros Ht Hn. apply Ht. apply (He i t Hi). by intros ?.
Qed.

(** The finite map a table stands for. *)
Definition abs (tbl : list tfile_t) : gmap (list Z) tfile_t :=
  list_to_map ((λ t, (key t, t)) <$> filter occupied tbl).

(** The slots from [i] on are all taken. *)
Definition full_from (tbl : list tfile_t) (i : nat) : Prop :=
  ∀ j t, (i ≤ j)%nat → tbl !! j = Some t → occupied t.

Section wf_facts.
Context (ht : htable_t) (tbl : list tfile_t) (Hwf : wf ht tbl).

Lemma wf_capacity_bound : 1 ≤ ht_capacity ht ≤ 2 ^ 40.
Proof.
  destruct (wf_pow2 _ _ Hwf) as (k & Hk & ->). split.
  - pose proof (Z.pow_pos_nonneg 2 k). lia.
  - apply Z.pow_le_mono_r; lia.
Qed.

Lemma wf_size_bound : 0 ≤ ht_size ht ≤ ht_capacity ht.
Proof.
  pose proof (wf_size _ _ Hwf). pose proof (zlen_nonneg (filter taken tbl)). lia.
Qed.

Lemma home_bound h : (home (ht_capacity ht) h < length tbl)%nat.
Proof.
  pose proof wf_capacity_bound. pose proof (wf_length _ _ Hwf) as Hl. unfold zlen in Hl.
  unfold home. pose proof (Z.mod_pos_bound (u64_at h 0) (ht_capacity ht)). lia.
Qed.

Lemma start_index_home h : start_index ht (u64_at h 0) = Z.of_nat (home (ht_capacity ht) h).
Proof.
  pose proof wf_capacity_bound as Hb. unfold start_index, home.
  pose proof (Z.mod_pos_bound (u64_at h 0) (ht_capacity ht) ltac:(lia)).
  rewrite wrapu_small by lia. rewrite Z2Nat.id by lia.
  destruct (wf_pow2 _ _ Hwf) as (k & Hk & ->).
  rewrite <- (Z.land_ones _ k) by lia. by rewrite Z.ones_equiv, Z.sub_1_r.
Qed.

Lemma next_index_in i : (i < length tbl)%nat →
  next_index ht (Z.of_nat i) = Z.of_nat (S i).
Proof.
  intros Hi. pose proof wf_capacity_bound. pose proof (wf_length _ _ Hwf) as Hl. unfold zlen in Hl.
  unfold next_index. destruct (Z.leb_spec (ht_capacity ht) (Z.of_nat i)); [lia|].
  rewrite wrapu_small by lia. lia.
Qed.

Lemma filter_occupied_elem t : t ∈ filter occupied tbl ↔ occupied t ∧ ∃ i, tbl !! i = Some t.
Proof. by rewrite list_elem_of_filter, list_elem_of_lookup. Qed.

Lemma keys_NoDup : NoDup (key <$> filter occupied tbl).
Proof.
  pose proof (wf_distinct _ _ Hwf) as Hd. clear Hwf.
  induction tbl as [|t l IH]; [constructor|]. rewrite filter_cons.
  assert (IHl : NoDup (key <$> filter occupied l)).
  { apply IH. intros i j u v Hi Hj Ho Hk.
    by pose proof (Hd (S i) (S j) u v Hi Hj Ho Hk) as [= ->]. }
  destruct (decide (occupied t)) as [Ho|]; [|done].
  rewrite fmap_cons. constructor; [|done].
  rewrite list_elem_of_fmap. intros (u & Hk & Hu).
  apply list_elem_of_filter in Hu as [_ Hu]. apply list_elem_of_lookup in Hu as [j Hj].
  by pose proof (Hd 0%nat (S j) t u eq_refl Hj Ho Hk).
Qed.

(** The map has exactly the entries of the occupied slots. *)
Lemma abs_lookup h t :
  abs tbl !! h = Some t ↔ occupied t ∧ key t = h ∧ ∃ i, tbl !! i = Some t.
Proof.
  unfold abs. rewrite <- elem_of_list_to_map.
  - rewrite list_elem_of_fmap. setoid_rewrite filter_occupied_elem. naive_solver.
  - rewrite <- list_fmap_compose. apply keys_NoDup.
Qed.

Lemma abs_lookup_at i t : tbl !! i = Some t → occupied t → abs tbl !! key t = Some t.
Proof. intros. apply abs_lookup. eauto. Qed.
End wf_facts.

(** What a probe finds is what the map has. *)
Lemma list_find_drop_Some h (tbl : list tfile_t) i k t :
  list_find (stops h) (drop i tbl) = Some (k, t) →
  tbl !! (i + k)%nat = Some t ∧ stops h t ∧
  ∀ j u, (i ≤ j < i + k)%nat → tbl !! j = Some u → ¬ stops h u.
Proof.
  intros (Ht & Hs & Hmin)%list_find_Some. rewrite lookup_drop in Ht.
  split_and!; [done|done|]. intros j u Hj Hu. apply (Hmin (j - i)%nat u); [|lia].
  rewrite lookup_drop. by replace (i + (j - i))%nat with j by lia.
Qed.

Lemma probe_Some ht tbl h i t :
  probe (ht_capacity ht) tbl h = Some (i, t) →
  (home (ht_capacity ht) h ≤ i)%nat ∧ tbl !! i = Some t ∧ stops h t ∧
  ∀ j u, (home (ht_capacity ht) h ≤ j < i)%nat → tbl !! j = Some u → ¬ stops h u.
Proof.
  unfold probe. destruct (list_find _ _) as [[k u]|] eqn:Hf; [|done].
  cbn. intros [= <- <-]. apply list_find_drop_Some in Hf. naive_solver lia.
Qed.

Lemma probe_None cap tbl h j t :
  probe cap tbl h = None → (home cap h ≤ j)%nat → tbl !! j = Some t → ¬ stops h t.
Proof.
  unfold probe. destruct (list_find _ _) as [[k u]|] eqn:Hf; [done|].
  intros _ Hj Ht Hs. apply list_find_None in Hf. rewrite Forall_forall in Hf.
  apply (Hf t); [|done]. apply list_elem_of_lookup. exists (j - home cap h)%nat.
  rewrite lookup_drop. by replace (home cap h + (j - home cap h))%nat with j by lia.
Qed.

Section probe_abs.
Context (ht : htable_t) (tbl : list tfile_t) (Hwf : wf ht tbl).
Context (h : list Z) (Hnz : h ≠ zero_hash).

Lemma probe_hit i t : probe (ht_capacity ht) tbl h = Some (i, t) → occupied t →
  key t = h ∧ tbl !! i = Some t ∧ abs tbl !! h = Some t.
Proof.
  intros (_ & Ht & Hs & _)%probe_Some Ho. destruct Hs as [Hs|<-]; [done|].
  split_and!; [done|done|]. by eapply abs_lookup_at.
Qed.

Lemma probe_absent :
  (∀ j u, tbl !! j = Some u → key u = h →
     ∃ k v, (home (ht_capacity ht) h ≤ k < j)%nat ∧ tbl !! k = Some v ∧ ¬ occupied v) →
  abs tbl !! h = None.
Proof.
  intros Hno. apply eq_None_not_Some. intros [u Hu].
  apply (abs_lookup ht tbl Hwf) in Hu as (Ho & <- & j & Hj).
  destruct (Hno j u Hj eq_refl) as (k & v & Hk & Hv & He). apply He.
  by eapply (proj2 (wf_chain _ _ Hwf j u Hj Ho)).
Qed.

Lemma probe_miss i t : probe (ht_capacity ht) tbl h = Some (i, t) → ¬ occupied t →
  abs tbl !! h = None ∧ ∀ d, set_tdef d t = TFile d FNull 0.
Proof.
  intros (Hi & Ht & _ & Hmin)%probe_Some He. split.
  2: { intros d. destruct (wf_empty _ _ Hwf i t Ht He) as [Hf Hm]. unfold set_tdef. by rewrite Hf, Hm. }
  apply probe_absent. intros j u Hj <-. exists i, t.
  assert (occupied u) as Ho by done.
  destruct (wf_chain _ _ Hwf j u Hj Ho) as [Hhome _].
  destruct (decide (i < j)%nat); [by split_and!|]. exfalso.
  destruct (decide (i = j)) as [->|]; [by simplify_eq|].
  apply (Hmin j u); [lia|done|]. by right.
Qed.

Lemma probe_out : probe (ht_capacity ht) tbl h = None →
  abs tbl !! h = None ∧ full_from tbl (home (ht_capacity ht) h).
Proof.
  intros Hp. split.
  - apply probe_absent. intros j u Hj <-. exfalso.
    assert (occupied u) as Ho by done.
    destruct (wf_chain _ _ Hwf j u Hj Ho) as [Hhome _].
    apply (probe_None _ _ _ _ _ Hp Hhome Hj). by right.
  - intros j u Hj Hu. destruct (decide (occupied u)) as [|He]; [done|].
    exfalso. apply (probe_None _ _ _ _ _ Hp Hj Hu). by left.
Qed.
End probe_abs.

(** ** The C functions compute the probe *)
Lemma slot_at {W} (ht : htable_t) tbl (w : W) i t : ht_table ht = Some tbl →
  tbl !! i = Some t → slot (Z.of_nat i) (Store ht w) = Done t (Store ht w).
Proof.
  intros Htbl Ht. unfold slot, mbind, M_bind, gets. cbn. rewrite Htbl. cbn.
  by rewrite zget_nat, Ht.
Qed.

Section runs.
Context {W : Type} `{OS W}.
Context (ht : htable_t) (tbl : list tfile_t) (Hwf : wf ht tbl) (w : W).

Lemma slot_run i t : tbl !! i = Some t → slot (Z.of_nat i) (Store ht w) = Done t (Store ht w).
Proof. apply slot_at, (wf_table _ _ Hwf). Qed.

Lemma slot_end : slot (Z.of_nat (length tbl)) (Store ht w) = Stop OutOfBounds.
Proof.
  unfold slot, mbind, M_bind, gets. cbn. rewrite (wf_table _ _ Hwf). cbn.
  by rewrite zget_nat, lookup_ge_None_2.
Qed.

Lemma slot_stops h i t : hash_ok h → tbl !! i = Some t →
  (u64_at (key t) 0 =? 0) && (u64_at (key t) 1 =? 0) = (if decide (occupied t) then false else true) ∧
  (u64_at h 0 =? u64_at (key t) 0) && (u64_at h 1 =? u64_at (key t) 1) =
    (if decide (h = key t) then true else false).
Proof.
  intros Hh Ht. pose proof (wf_hashes _ _ Hwf i t Ht) as Hk.
  rewrite hash_eqb_spec, hash_zerob_spec by done. split; [|done].
  destruct (decide (occupied t)) as [Ho|Ho]; [by apply bool_decide_false|].
  apply bool_decide_true. by apply dec_stable.
Qed.

Definition probe_result (h : list Z) : outcome (store W) (option Z) :=
  match probe (ht_capacity ht) tbl h with
  | Some (i, t) => Done (if decide (occupied t) then Some (Z.of_nat i) else None) (Store ht w)
  | None => Stop OutOfBounds
  end.

Lemma search_htable_run h fuel : hash_ok h → (length tbl < fuel)%nat →
  search_htable fuel h (Store ht w) = probe_result h.
Proof.
  intros Hh Hf. unfold search_htable. rewrite (bind_done _ _ _ ht (Store ht w)) by done.
  rewrite (start_index_home ht tbl Hwf).
  rewrite (probe_loop _ _ h tbl (λ i t,
    (if decide (occupied t) then Some (Z.of_nat i) else None, Store ht w))
    ) with (l := drop (home (ht_capacity ht) h) tbl).
  - unfold probe_result, probe. by destruct (list_find _ _) as [[k t]|].
  - intros i t Ht Hs. unfold search_body. rewrite (bind_done _ _ _ _ _ (slot_run i t Ht)).
    destruct (slot_stops h i t Hh Ht) as [E1 E2]. fold (key t). rewrite E1, E2. cbn.
    destruct (decide (occupied t)); [|done]. destruct Hs as [Hs|<-]; [done|].
    by rewrite decide_True.
  - intros i t Ht Hs. unfold search_body. rewrite (bind_done _ _ _ _ _ (slot_run i t Ht)).
    destruct (slot_stops h i t Hh Ht) as [E1 E2]. fold (key t). rewrite E1, E2. cbn.
    destruct (decide (occupied t)); [|by destruct Hs; left].
    rewrite decide_False by (intros ->; apply Hs; by right).
    rewrite (bind_done _ _ _ ht (Store ht w)) by done. cbn. unfold mret, M_ret.
    rewrite (next_index_in ht tbl Hwf); [done|]. by eapply lookup_lt_Some.
  - unfold search_body. by rewrite (bind_stop _ _ _ _ slot_end).
  - done.
  - pose proof (home_bound ht tbl Hwf h). lia.
  - rewrite length_drop. lia.
Qed.

(** The table after [tdef] is stored in slot [i]. *)
Definition stored (d : tfile_def_t) (i : nat) (t : tfile_t) : htable_t :=
  HTable (ht_capacity ht) (wrapu 64 (ht_size ht + 1)) (Some (<[i := set_tdef d t]> tbl)).

Definition add_result (d : tfile_def_t) : outcome (store W) (option Z) :=
  match probe (ht_capacity ht) tbl (td_f_hash d) with
  | Some (i, t) =>
      if decide (occupied t) then Done None (Store ht w)
      else Done (Some (Z.of_nat i)) (Store (stored d i t) w)
  | None => Stop OutOfBounds
  end.

Lemma update_slot_run i t f : tbl !! i = Some t →
  update_slot (Z.of_nat i) f (Store ht w) =
    Done tt (Store (HTable (ht_capacity ht) (ht_size ht) (Some (<[i := f t]> tbl))) w).
Proof.
  intros Ht. unfold update_slot. rewrite (bind_done _ _ _ _ _ (slot_run i t Ht)).
  unfold set_ht, modify. cbn. rewrite (wf_table _ _ Hwf). cbn.
  unfold zset. by rewrite Nat2Z.id.
Qed.

Lemma probe_add_run d fuel : hash_ok (td_f_hash d) → (length tbl < fuel)%nat →
  iter fuel (add_body d (u64_at (td_f_hash d) 0) (u64_at (td_f_hash d) 1))
    (start_index ht (u64_at (td_f_hash d) 0)) (Store ht w) = add_result d.
Proof.
  intros Hh Hf. set (h := td_f_hash d) in *.
  rewrite (start_index_home ht tbl Hwf).
  rewrite (probe_loop _ _ h tbl (λ i t,
    if decide (occupied t) then (None, Store ht w)
    else (Some (Z.of_nat i), Store (stored d i t) w)))
    with (l := drop (home (ht_capacity ht) h) tbl).
  - unfold add_result, probe. fold h. destruct (list_find _ _) as [[k t]|]; [|done].
    cbn. by destruct (decide _).
  - intros i t Ht Hs. unfold add_body. rewrite (bind_done _ _ _ _ _ (slot_run i t Ht)).
    destruct (slot_stops h i t Hh Ht) as [E1 E2]. fold (key t). rewrite E1, E2. cbn.
    destruct (decide (occupied t)).
    + destruct Hs as [Hs|<-]; [done|]. by rewrite decide_True.
    + by rewrite (bind_done _ _ _ _ _ (update_slot_run i t _ Ht)).
  - intros i t Ht Hs. unfold add_body. rewrite (bind_done _ _ _ _ _ (slot_run i t Ht)).
    destruct (slot_stops h i t Hh Ht) as [E1 E2]. fold (key t). rewrite E1, E2. cbn.
    destruct (decide (occupied t)); [|by destruct Hs; left].
    rewrite decide_False by (intros ->; apply Hs; by right).
    rewrite (bind_done _ _ _ ht (Store ht w)) by done. cbn. unfold mret, M_ret.
    rewrite (next_index_in ht tbl Hwf); [done|]. by eapply lookup_lt_Some.
  - unfold add_body. by rewrite (bind_stop _ _ _ _ slot_end).
  - done.
  - pose proof (home_bound ht tbl Hwf h). lia.
  - rewrite length_drop. lia.
Qed.

Lemma add_htable_run d fuel : hash_ok (td_f_hash d) → (length tbl < fuel)%nat →
  ht_size ht * 2 ≤ ht_capacity ht →
  add_htable fuel d (Store ht w) = add_result d.
Proof.
  intros Hh Hf Hload. destruct fuel as [|fuel]; [lia|].
  unfold add_htable. cbn [add_htable_n]. unfold add_with.
  rewrite (bind_done _ _ _ ht (Store ht w)) by done.
  pose proof (wf_capacity_bound ht tbl Hwf). pose proof (wf_size_bound ht tbl Hwf).
  rewrite wrapu_small by lia. rewrite (proj2 (Z.ltb_ge _ _)) by lia.
  rewrite (bind_done _ _ _ tt (Store ht w)) by done.
  rewrite (bind_done _ _ _ ht (Store ht w)) by done.
  by apply probe_add_run.
Qed.
End runs.

(** ** Updates of one slot *)
Lemma filter_insert_length (P : tfile_t → Prop) `{!∀ t, Decision (P t)} (l : list tfile_t) i t u :
  l !! i = Some t → P u →
  length (filter P (<[i := u]> l)) = (length (filter P l) + if decide (P t) then 0 else 1)%nat.
Proof.
  revert i. induction l as [|x l IH]; intros [|i] Hi Hu; try done; cbn in Hi.
  - injection Hi as ->. cbn [insert list_insert]. rewrite !filter_cons, decide_True by done.
    destruct (decide (P t)); cbn; lia.
  - change (<[S i := u]> (x :: l)) with (x :: <[i := u]> l). rewrite !filter_cons.
    destruct (decide (P x)); cbn; rewrite (IH i Hi Hu); lia.
Qed.

Lemma filter_insert_le (P : tfile_t → Prop) `{!∀ t, Decision (P t)} (l : list tfile_t) i u :
  (length (filter P (<[i := u]> l)) ≤ length (filter P l) + 1)%nat.
Proof.
  revert i. induction l as [|x l IH]; intros [|i]; [cbn; lia..| |].
  - change (<[O := u]> (x :: l)) with (u :: l). rewrite !filter_cons.
    destruct (decide (P u)), (decide (P x)); cbn; lia.
  - change (<[S i := u]> (x :: l)) with (x :: <[i := u]> l). rewrite !filter_cons.
    specialize (IH i). destruct (decide (P x)); cbn; lia.
Qed.

Lemma filter_all (l : list tfile_t) : Forall occupied l → filter occupied l = l.
Proof. induction 1; [done|]. rewrite filter_cons_True by done. by f_equal. Qed.

(** A table with fewer entries than slots has an empty slot. *)
Lemma occupied_count (tbl : list tfile_t) : (length (filter occupied tbl) ≤ length (filter taken tbl))%nat.
Proof.
  induction tbl as [|t l IH]; [done|]. rewrite !filter_cons. pose proof (occupied_taken t).
  destruct (decide (occupied t)), (decide (taken t)); cbn; (tauto || lia).
Qed.
Lemma wf_has_room ht tbl : wf ht tbl → ht_size ht < ht_capacity ht →
  ∃ k t, tbl !! k = Some t ∧ key t = zero_hash.
Proof.
  intros Hwf Hfree. pose proof (wf_size _ _ Hwf) as Hs. pose proof (occupied_count tbl).
  rewrite <- (wf_length _ _ Hwf) in *.
  unfold zlen in *.
  destruct (decide (Forall occupied tbl)) as [Hall|Hex]; [rewrite (filter_all tbl) in * by done; lia|].
  apply not_Forall_Exists in Hex; [|apply _].
  apply Exists_exists in Hex as (t & [k Hk]%list_elem_of_lookup & He).
  exists k, t. split; [done|]. by apply dec_stable.
Qed.

Section updates.
Context (ht : htable_t) (tbl : list tfile_t) (Hwf : wf ht tbl).
Context (i : nat) (t u : tfile_t) (Ht : tbl !! i = Some t) (Hu : occupied u) (Hok : hash_ok (key u)).

Lemma lookup_updated j v : <[i := u]> tbl !! j = Some v →
  (j = i ∧ v = u) ∨ (j ≠ i ∧ tbl !! j = Some v).
Proof. intros [(-> & -> & _)|[Hne Hv]]%list_lookup_insert_Some; naive_solver. Qed.

Lemma lookup_updated_eq : <[i := u]> tbl !! i = Some u.
Proof. apply list_lookup_insert_eq. by eapply lookup_lt_Some. Qed.

Lemma wf_hashes_updated j v : <[i := u]> tbl !! j = Some v → hash_ok (key v).
Proof. intros [[-> ->]|[_ Hv]]%lookup_updated; [done|by eapply wf_hashes]. Qed.

Lemma wf_empty_updated j v : <[i := u]> tbl !! j = Some v → ¬ occupied v →
  t_f_location v = FNull ∧ t_m_location v = 0.
Proof. intros [[-> ->]|[_ Hv]]%lookup_updated; [done|by eapply wf_empty]. Qed.

(** No probe that passed the slot is cut: the slot stays or becomes taken. *)
Lemma wf_chain_updated :
  (home (ht_capacity ht) (key u) ≤ i)%nat →
  (∀ j v, (home (ht_capacity ht) (key u) ≤ j < i)%nat → tbl !! j = Some v → occupied v) →
  ∀ j v, <[i := u]> tbl !! j = Some v → occupied v →
    (home (ht_capacity ht) (key v) ≤ j)%nat ∧
    ∀ k x, (home (ht_capacity ht) (key v) ≤ k < j)%nat → <[i := u]> tbl !! k = Some x → occupied x.
Proof.
  intros Hhome Hrun j v Hv Ho.
  assert (Hold : (home (ht_capacity ht) (key v) ≤ j)%nat ∧
    ∀ k x, (home (ht_capacity ht) (key v) ≤ k < j)%nat → tbl !! k = Some x → occupied x).
  { apply lookup_updated in Hv as [[-> ->]|[_ Hv]]; [done|by apply (wf_chain _ _ Hwf)]. }
  destruct Hold as [Hh Hold]. split; [done|].
  intros k x Hk [[-> ->]|[_ Hx]]%lookup_updated; [done|by eapply Hold].
Qed.

Lemma wf_distinct_updated :
  (∀ j v, tbl !! j = Some v → key v = key u → j = i) →
  ∀ j k v x, <[i := u]> tbl !! j = Some v → <[i := u]> tbl !! k = Some x → occupied v →
    key v = key x → j = k.
Proof.
  intros Hnew j k v x [[-> ->]|[Hj Hv]]%lookup_updated [[-> ->]|[Hk Hx]]%lookup_updated Ho Hkey;
    [done| | |by eapply (wf_distinct _ _ Hwf)].
  - symmetry. by eapply Hnew.
  - by eapply Hnew.
Qed.

Lemma abs_updated (ht' : htable_t) : wf ht' (<[i := u]> tbl) →
  (¬ occupied t ∨ key t = key u) → abs (<[i := u]> tbl) = <[key u := u]> (abs tbl).
Proof.
  intros Hwf' Hkey. apply map_eq. intros h. apply option_eq. intros v.
  rewrite (abs_lookup _ _ Hwf'), lookup_insert_Some, (abs_lookup _ _ Hwf).
  split.
  - intros (Ho & <- & j & [[-> ->]|[Hj Hv]]%lookup_updated); [by left|].
    right. split; [|by eauto]. intros Heq. apply Hj.
    eapply (wf_distinct _ _ Hwf'); [|apply lookup_updated_eq|done|done].
    by rewrite list_lookup_insert_ne.
  - intros [[<- <-]|(Hne & Ho & <- & j & Hv)].
    + split_and!; [done|done|]. exists i. apply lookup_updated_eq.
    + split_and!; [done|done|]. exists j. rewrite list_lookup_insert_ne; [done|].
      intros <-. simplify_eq. destruct Hkey; [done|]. by apply Hne.
Qed.
End updates.

(** Storing a new definition at the slot its probe gives. *)
Section store_new.
Context (ht : htable_t) (tbl : list tfile_t) (Hwf : wf ht tbl).
Context (d : tfile_def_t) (Hok : hash_ok (td_f_hash d)) (Hnz : td_f_hash d ≠ zero_hash).
Context (i : nat) (t : tfile_t).
Context (Hp : probe (ht_capacity ht) tbl (td_f_hash d) = Some (i, t)) (He : ¬ occupied t).
Context (Hroom : ht_size ht < ht_capacity ht).

Lemma wf_stored : wf (stored ht tbl d i t) (<[i := set_tdef d t]> tbl).
Proof.
  pose proof (probe_Some _ _ _ _ _ Hp) as (Hi & Ht & _ & Hmin).
  destruct (probe_miss ht tbl Hwf _ Hnz _ _ Hp He) as [Habs _].
  assert (Hu : occupied (set_tdef d t)) by done.
  split; cbn.
  - done.
  - unfold zlen. rewrite length_insert. apply (wf_length _ _ Hwf).
  - apply (wf_pow2 _ _ Hwf).
  - intros j v. eapply wf_hashes_updated; [done|exact Ht|done|done].
  - intros j v. eapply wf_empty_updated; [done|exact Ht|done|done].
  - pose proof (wf_capacity_bound ht tbl Hwf). pose proof (wf_size_bound ht tbl Hwf).
    pose proof (wf_size _ _ Hwf) as Hsize. unfold zlen in *.
    rewrite wrapu_small, (filter_insert_length taken _ _ _ _ Ht (occupied_taken _ Hu)) by (done || lia).
    destruct (decide (taken t)); lia.
  - eapply wf_chain_updated; [done|exact Ht|done|done|done|].
    intros j v Hj Hv. apply dec_stable. intros Hn. apply (Hmin j v Hj Hv). by left.
  - eapply wf_distinct_updated; [done|exact Ht|done|done|].
    intros j v Hv Hkey. exfalso.
    assert (occupied v) as Ho by (unfold occupied; by rewrite Hkey).
    pose proof (abs_lookup_at _ _ Hwf _ _ Hv Ho) as Hv'. rewrite Hkey in Hv'.
    change (key (set_tdef d t)) with (td_f_hash d) in Hv'. by rewrite Habs in Hv'.
Qed.

Lemma abs_stored : abs (<[i := set_tdef d t]> tbl) = <[td_f_hash d := TFile d FNull 0]> (abs tbl).
Proof.
  pose proof (probe_Some _ _ _ _ _ Hp) as (_ & Ht & _ & _).
  destruct (probe_miss ht tbl Hwf _ Hnz _ _ Hp He) as [_ E].
  pose proof wf_stored as Hw.
  erewrite abs_updated; [|exact Hwf|exact Ht|done|done|exact Hw|by left].
  by rewrite E.
Qed.
End store_new.

(** Changing the locations of an entry. *)
Lemma wf_relocate ht tbl i t f m : wf ht tbl → tbl !! i = Some t → occupied t →
  wf (HTable (ht_capacity ht) (ht_size ht) (Some (<[i := set_locations f m t]> tbl)))
     (<[i := set_locations f m t]> tbl) ∧
  abs (<[i := set_locations f m t]> tbl) = <[key t := set_locations f m t]> (abs tbl).
Proof.
  intros Hwf Ht Ho. set (u := set_locations f m t).
  assert (Hu : occupied u) by done.
  assert (Hok : hash_ok (key u)) by (by apply (wf_hashes _ _ Hwf i t)).
  assert (Hw : wf (HTable (ht_capacity ht) (ht_size ht) (Some (<[i := u]> tbl))) (<[i := u]> tbl)).
  { destruct (wf_chain _ _ Hwf i t Ht Ho) as [Hi Hrun]. split; cbn.
    - done.
    - unfold zlen. rewrite length_insert. apply (wf_length _ _ Hwf).
    - apply (wf_pow2 _ _ Hwf).
    - intros j v. eapply wf_hashes_updated; [done|exact Ht|done|done].
    - intros j v. eapply wf_empty_updated; [done|exact Ht|done|done].
    - pose proof (wf_size _ _ Hwf) as Hsize. unfold zlen in *.
      rewrite (filter_insert_length taken _ _ _ _ Ht (occupied_taken _ Hu)).
      rewrite decide_True by (by apply occupied_taken). lia.
    - eapply wf_chain_updated; [done|exact Ht|done|done|done|done].
    - eapply wf_distinct_updated; [done|exact Ht|done|done|]. intros j v Hv Hkey. symmetry.
      by apply (wf_distinct _ _ Hwf i j t v). }
  split; [done|]. eapply (abs_updated ht tbl Hwf i t u); [done|done|done|exact Hw|by right].
Qed.

(** A definition with a zero hash goes to the first empty slot, which stays
    empty for every search: only [size] changes. *)
Section store_ghost.
Context (ht : htable_t) (tbl : list tfile_t) (Hwf : wf ht tbl).
Context (d : tfile_def_t) (Hz : td_f_hash d = zero_hash) (Hroom : ht_size ht < ht_capacity ht).

Lemma home_zero cap : home cap zero_hash = 0%nat.
Proof. unfold home. change (u64_at zero_hash 0) with 0. by rewrite Zmod_0_l. Qed.

Lemma probe_ghost : ∃ i t, probe (ht_capacity ht) tbl zero_hash = Some (i, t) ∧ ¬ occupied t.
Proof.
  destruct (wf_has_room ht tbl Hwf Hroom) as (k & u & Hk & Hu).
  destruct (probe _ _ _) as [[i t]|] eqn:Hp.
  - exists i, t. split; [done|].
    destruct (probe_Some ht _ _ _ _ Hp) as (_ & _ & [Hn|Hkey] & _); [done|].
    intros Ho. by apply Ho.
  - destruct (probe_None _ _ _ k u Hp); [rewrite home_zero; lia|done|].
    left. intros Ho. by apply Ho.
Qed.

Context (i : nat) (t : tfile_t) (Ht : tbl !! i = Some t) (He : ¬ occupied t).

Lemma ghost_lookup j v : <[i := set_tdef d t]> tbl !! j = Some v →
  tbl !! j = Some v ∨ v = set_tdef d t ∧ j = i.
Proof. intros [(-> & -> & _)|[Hne Hv]]%list_lookup_insert_Some; naive_solver. Qed.
Lemma ghost_occupied j v : <[i := set_tdef d t]> tbl !! j = Some v → occupied v → tbl !! j = Some v.
Proof. intros [Hv|[-> ->]]%ghost_lookup Ho; [done|]. by destruct Ho. Qed.
Lemma ghost_occupied_inv j v : tbl !! j = Some v → occupied v → <[i := set_tdef d t]> tbl !! j = Some v.
Proof. intros Hv Ho. rewrite list_lookup_insert_ne; [done|]. intros ->. by simplify_eq. Qed.

Lemma wf_ghost : wf (stored ht tbl d i t) (<[i := set_tdef d t]> tbl).
Proof.
  destruct (wf_empty _ _ Hwf i t Ht He) as [Hf Hm].
  pose proof (wf_capacity_bound ht tbl Hwf). pose proof (wf_size_bound ht tbl Hwf).
  split; cbn.
  - done.
  - unfold zlen. rewrite length_insert. apply (wf_length _ _ Hwf).
  - apply (wf_pow2 _ _ Hwf).
  - intros j v [Hv|[-> ->]]%ghost_lookup; [by eapply wf_hashes|]. unfold key. cbn. rewrite Hz. apply zero_hash_ok.
  - intros j v [Hv|[-> ->]]%ghost_lookup Hv'; [by eapply wf_empty|done].
  - pose proof (wf_size _ _ Hwf) as Hsize. rewrite wrapu_small by lia. split; [|lia].
    pose proof (filter_insert_le taken tbl i (set_tdef d t)). unfold zlen in *. lia.
  - intros j v Hv Ho. destruct (wf_chain _ _ Hwf j v (ghost_occupied j v Hv Ho) Ho) as [Hh Hrun].
    split; [done|]. intros k x Hk [Hx|[-> ->]]%ghost_lookup; [by apply (Hrun k)|].
    destruct He. by apply (Hrun i).
  - intros j k v x Hv Hx Ho Hkey. eapply (wf_distinct _ _ Hwf); [by apply ghost_occupied| |done|done].
    apply ghost_occupied; [done|]. unfold occupied in *. by rewrite <- Hkey.
Qed.

Lemma abs_ghost : abs (<[i := set_tdef d t]> tbl) = abs tbl.
Proof.
  pose proof wf_ghost as Hw. apply map_eq. intros h. apply option_eq. intros v.
  rewrite (abs_lookup _ _ Hw), (abs_lookup _ _ Hwf). split.
  - intros (Ho & Hk & j & Hv). split_and!; [done|done|]. exists j. by apply ghost_occupied.
  - intros (Ho & Hk & j & Hv). split_and!; [done|done|]. exists j. by apply ghost_occupied_inv.
Qed.
End store_ghost.

(** ** Deciding the invariant on a concrete table *)
Section check.
Context (ht : htable_t) (tbl : list tfile_t).

Definition slotb (i : nat) (f : tfile_t → bool) : bool :=
  match tbl !! i with Some t => f t | None => true end.
Definition slotsb (lo n : nat) (f : nat → tfile_t → bool) : bool :=
  forallb (λ i, slotb i (f i)) (seq lo n).

Definition entry_ok (i : nat) (t : tfile_t) : bool :=
  let hm := home (ht_capacity ht) (key t) in
  (hm <=? i)%nat &&
  slotsb hm (i - hm) (λ _ u, bool_decide (occupied u)) &&
  slotsb 0 (length tbl) (λ j u, (i =? j)%nat || bool_decide (key t ≠ key u)).

Definition wfb : bool :=
  bool_decide (ht_table ht = Some tbl) && (zlen tbl =? ht_capacity ht) &&
  existsb (λ k, ht_capacity ht =? 2 ^ Z.of_nat k) (seq 0 41) &&
  (ht_size ht =? zlen (filter occupied tbl)) &&
  slotsb 0 (length tbl) (λ i t,
    bool_decide (hash_ok (key t)) &&
    if bool_decide (occupied t) then entry_ok i t else bool_decide (t = zero_tfile)).

Lemma slotsb_spec lo n f i t : slotsb lo n f = true → (lo ≤ i < lo + n)%nat →
  tbl !! i = Some t → f i t = true.
Proof.
  unfold slotsb. rewrite forallb_forall. intros Hall Hi Ht.
  specialize (Hall i). unfold slotb in Hall. rewrite Ht in Hall. apply Hall.
  apply in_seq. lia.
Qed.

Lemma slotsb_all f i t : slotsb 0 (length tbl) f = true → tbl !! i = Some t → f i t = true.
Proof.
  intros Hall Ht. eapply slotsb_spec; [exact Hall| |done].
  apply lookup_lt_Some in Ht. lia.
Qed.

Lemma entry_ok_spec i t : entry_ok i t = true →
  (home (ht_capacity ht) (key t) ≤ i)%nat ∧
  (∀ j u, (home (ht_capacity ht) (key t) ≤ j < i)%nat → tbl !! j = Some u → occupied u) ∧
  (∀ j u, tbl !! j = Some u → key t = key u → i = j).
Proof.
  unfold entry_ok. rewrite !andb_true_iff, Nat.leb_le. intros [[Hh Hrun] Hd]. split_and!; [done| |].
  - intros j u Hj Hu. apply (bool_decide_eq_true (occupied u)).
    apply (slotsb_spec _ _ _ j u Hrun); [lia|done].
  - intros j u Hu Hk.
    pose proof (slotsb_all _ j u Hd Hu) as Hor. apply orb_true_iff in Hor as [Hij%Nat.eqb_eq|Hne%bool_decide_eq_true]; done.
Qed.

Lemma wfb_slot i t : wfb = true → tbl !! i = Some t → hash_ok (key t) ∧
  if bool_decide (occupied t) then entry_ok i t = true else t = zero_tfile.
Proof.
  unfold wfb. rewrite !andb_true_iff. intros [_ Hall] Hi.
  pose proof (slotsb_all _ i t Hall Hi) as Hb. apply andb_true_iff in Hb as [Hb1%bool_decide_eq_true Hb2].
  split; [done|]. case_bool_decide; [done|]. by apply bool_decide_eq_true in Hb2.
Qed.

Lemma wfb_no_ghosts : wfb = true → no_ghosts ht tbl.
Proof.
  intros Hb. split.
  - unfold wfb in Hb. rewrite !andb_true_iff, !Z.eqb_eq in Hb. by destruct Hb as [[_ Hs] _].
  - intros i t Hi Hn. destruct (wfb_slot i t Hb Hi) as [_ He]. by rewrite bool_decide_false in He.
Qed.

Lemma wfb_sound : wfb = true → wf ht tbl.
Proof.
  intros Hb. destruct (wfb_no_ghosts Hb) as [Hsize Hempty].
  assert (Hocc : ∀ i t, tbl !! i = Some t → occupied t → entry_ok i t = true).
  { intros i t Hi Ho. destruct (wfb_slot i t Hb Hi) as [_ He]. by rewrite bool_decide_true in He. }
  pose proof Hb as Hparts. unfold wfb in Hparts.
  rewrite !andb_true_iff, bool_decide_eq_true, !Z.eqb_eq in Hparts.
  destruct Hparts as [[[[Ht Hl] Hk] _] _].
  split; [done|done| |intros i t Hi; by apply (wfb_slot i t Hb Hi)| | | |].
  - apply existsb_exists in Hk as (k & Hin%in_seq & Hk%Z.eqb_eq). exists (Z.of_nat k). lia.
  - intros i t Hi Hn. by rewrite (Hempty i t Hi Hn).
  - rewrite Hsize, <- Hl, (filter_taken tbl Hempty). unfold zlen.
    pose proof (length_filter occupied tbl). lia.
  - intros i t Hi Ho. destruct (entry_ok_spec i t (Hocc i t Hi Ho)) as (H1 & H2 & _). done.
  - intros i j t u Hi Hj Ho Hkey. destruct (entry_ok_spec i t (Hocc i t Hi Ho)) as (_ & _ & H3). eauto.
Qed.
End check.

(** ** A table that is more than half full: [resize_htable] *)
Section resize.
Context {W : Type} `{OS W}.

Lemma resize_body_end ht (add : tfile_def_t → M (store W) (option Z)) w i :
  ht_capacity ht ≤ i → resize_body add i (Store ht w) = Done (inr tt) (Store ht w).
Proof.
  intros Hi. unfold resize_body. rewrite (bind_done _ _ _ ht (Store ht w)) by done.
  by rewrite (proj2 (Z.ltb_ge _ _)).
Qed.

Lemma resize_body_skip ht tbl (add : tfile_def_t → M (store W) (option Z)) w i t :
  ht_table ht = Some tbl → tbl !! i = Some t → u16_at (key t) 0 ≠ 0 →
  Z.of_nat i < ht_capacity ht < 2 ^ 31 →
  resize_body add (Z.of_nat i) (Store ht w) = Done (inl (Z.of_nat (S i))) (Store ht w).
Proof.
  intros Htbl Ht Hnz Hi. unfold resize_body. rewrite (bind_done _ _ _ ht (Store ht w)) by done.
  rewrite (proj2 (Z.ltb_lt _ _)) by lia.
  rewrite (bind_done _ _ _ _ _ (slot_at ht tbl w i t Htbl Ht)). fold (key t).
  rewrite (proj2 (Z.eqb_neq _ _)) by done. cbn [when].
  rewrite (bind_done _ _ _ tt (Store ht w)) by done.
  rewrite (bind_done _ _ _ (Z.of_nat i + 1) (Store ht w))
    by (unfold add_s32; by rewrite bool_decide_true by lia).
  by rewrite Nat2Z.inj_succ.
Qed.

Lemma resize_loop_stuck ht tbl k t (add : tfile_def_t → M (store W) (option Z)) :
  ht_table ht = Some tbl → tbl !! k = Some t → u16_at (key t) 0 = 0 →
  Z.of_nat k < ht_capacity ht < 2 ^ 31 →
  (∀ d w, add d (Store ht w) = Stop OutOfFuel) →
  ∀ fuel i w, (i ≤ k)%nat → iter fuel (resize_body add) (Z.of_nat i) (Store ht w) = Stop OutOfFuel.
Proof.
  intros Htbl Ht H0 Hk Hadd fuel i w Hi.
  apply iter_diverges with (I := λ j s, ∃ i w, (i ≤ k)%nat ∧ j = Z.of_nat i ∧ s = Store ht w);
    [|by exists i, w].
  clear dependent fuel i w. intros ? ? (i & w & Hi & -> & ->).
  destruct (lookup_lt_is_Some_2 tbl i) as [u Hu].
  { apply lookup_lt_Some in Ht. lia. }
  destruct (decide (u16_at (key u) 0 = 0)) as [Hz|Hnz].
  - unfold wp, resize_body. rewrite (bind_done _ _ _ ht (Store ht w)) by done.
    rewrite (proj2 (Z.ltb_lt _ _)) by lia.
    rewrite (bind_done _ _ _ _ _ (slot_at ht tbl w i u Htbl Hu)). fold (key u).
    rewrite Hz. cbn [when Z.eqb]. by rewrite (bind_stop _ _ _ _ (bind_stop _ _ _ _ (Hadd _ _))).
  - assert (i ≠ k) by (intros ->; simplify_eq).
    eapply wp_of_run; [apply (resize_body_skip ht tbl add w i u Htbl Hu Hnz); lia|].
    exists (Z.of_nat (S i)). split; [done|]. exists (S i), w. split_and!; [lia|done|done].
Qed.

Lemma malloc_run `{!MemoryRoom W} ht n w : ∃ w',
  on_os (sys (os_malloc n)) (Store ht w) = Done true (Store ht w').
Proof.
  pose proof (law_malloc_ok n w) as Hok. unfold on_os, zoom, sys. cbn.
  destruct (os_malloc n w) as [ok w']. cbn in Hok. subst. eauto.
Qed.

(** Every call of [add_htable] on such a table calls [resize_htable], which
    calls [add_htable] on the same table. *)
Lemma add_htable_stuck `{!MemoryRoom W} ht tbl k t :
  ht_table ht = Some tbl → tbl !! k = Some t → u16_at (key t) 0 = 0 →
  Z.of_nat k < ht_capacity ht < 2 ^ 31 → ht_capacity ht < wrapu 64 (ht_size ht * 2) →
  ∀ depth fuel d w, add_htable_n depth fuel d (Store ht w) = Stop OutOfFuel.
Proof.
  intros Htbl Ht H0 Hk Hload depth fuel. induction depth as [|depth IH]; intros d w; [done|].
  cbn [add_htable_n]. unfold add_with.
  rewrite (bind_done _ _ _ ht (Store ht w)) by done.
  rewrite (proj2 (Z.ltb_lt _ _)) by done. cbn [when].
  apply bind_stop, bind_stop. unfold resize_with.
  rewrite (bind_done _ _ _ ht (Store ht w)) by done.
  destruct (malloc_run ht (wrapu 64 (sizeof_tfile_t * wraps32 (ht_capacity ht * 2))) w) as [w' Hm].
  rewrite (bind_done _ _ _ _ _ Hm). cbn [negb]. apply bind_stop.
  by apply (resize_loop_stuck ht tbl k t _ Htbl Ht H0 Hk IH fuel 0 w' (Nat.le_0_l k)).
Qed.

(** When no slot has a hash that starts with two zero bytes, nothing is
    copied to the new table. *)
Lemma resize_loop_idle ht tbl (add : tfile_def_t → M (store W) (option Z)) w :
  ht_table ht = Some tbl → zlen tbl = ht_capacity ht → ht_capacity ht < 2 ^ 31 →
  (∀ i t, tbl !! i = Some t → u16_at (key t) 0 ≠ 0) →
  ∀ n i fuel, (i + n = length tbl)%nat → (n < fuel)%nat →
    iter fuel (resize_body add) (Z.of_nat i) (Store ht w) = Done tt (Store ht w).
Proof.
  intros Htbl Hlen Hcap Hnz n. unfold zlen in Hlen.
  induction n as [|n IH]; intros i fuel Hi Hf; (destruct fuel as [|fuel]; [lia|]); cbn [iter].
  - by rewrite (bind_done _ _ _ _ _ (resize_body_end ht add w (Z.of_nat i) ltac:(lia))).
  - destruct (lookup_lt_is_Some_2 tbl i) as [u Hu]; [lia|].
    rewrite (bind_done _ _ _ _ _ (resize_body_skip ht tbl add w i u Htbl Hu (Hnz i u Hu) ltac:(lia))).
    apply IH; lia.
Qed.
End resize.

(** ** [free_htable] *)
Definition freeable (t : tfile_t) : Prop :=
  match t_f_location t with FName _ => False | _ => True end.

#[export] Instance freeable_dec t : Decision (freeable t).
Proof. unfold freeable. destruct (t_f_location t); apply _. Defined.

Section free.
Context {W : Type} `{OS W} (ht : htable_t) (tbl : list tfile_t) (w : W).
Context (Htbl : ht_table ht = Some tbl).

Lemma free_body_end i : ht_capacity ht ≤ i → free_body i (Store ht w) = Done (inr tt) (Store ht w).
Proof.
  intros Hi. unfold free_body. rewrite (bind_done _ _ _ ht (Store ht w)) by done.
  by rewrite (proj2 (Z.ltb_ge _ _)).
Qed.

Lemma free_body_at i t : tbl !! i = Some t → Z.of_nat i < ht_capacity ht < 2 ^ 31 →
  free_body (Z.of_nat i) (Store ht w) =
    if decide (freeable t) then Done (inl (Z.of_nat (S i))) (Store ht w) else Stop BadFree.
Proof.
  intros Ht Hi. unfold free_body. rewrite (bind_done _ _ _ ht (Store ht w)) by done.
  rewrite (proj2 (Z.ltb_lt _ _)) by lia.
  rewrite (bind_done _ _ _ _ _ (slot_at ht tbl w i t Htbl Ht)).
  unfold mbind, M_bind, add_s32. rewrite bool_decide_true, Nat2Z.inj_succ by lia.
  destruct (decide (freeable t)) as [Hfr|Hfr]; unfold freeable in Hfr;
    by destruct (t_f_location t).
Qed.

Lemma free_loop l : ∀ i fuel, drop i tbl = l → (i + length l = length tbl)%nat →
  (length l < fuel)%nat → zlen tbl = ht_capacity ht → ht_capacity ht < 2 ^ 31 →
  iter fuel free_body (Z.of_nat i) (Store ht w) =
    if decide (Forall freeable l) then Done tt (Store ht w) else Stop BadFree.
Proof.
  unfold zlen. induction l as [|t l IH]; intros i fuel Hl Hi Hf Hlen Hcap;
    (destruct fuel as [|fuel]; [cbn in Hf; lia|]); cbn [iter]; cbn in Hi, Hf.
  - rewrite (bind_done _ _ _ _ _ (free_body_end (Z.of_nat i) ltac:(lia))). by rewrite decide_True.
  - assert (Ht : tbl !! i = Some t) by (by rewrite <- (Nat.add_0_r i), <- lookup_drop, Hl).
    pose proof (free_body_at i t Ht ltac:(lia)) as Hb.
    destruct (decide (freeable t)) as [Ht'|Ht'].
    + rewrite (drop_S _ _ _ Ht) in Hl. injection Hl as Hl.
      rewrite (bind_done _ _ _ _ _ Hb), (IH (S i)) by (done || lia).
      destruct (decide (Forall freeable l)); [rewrite decide_True; [done|by constructor]|].
      rewrite decide_False; [done|]. by intros [_ ?]%Forall_cons.
    + rewrite (bind_stop _ _ _ _ Hb), decide_False; [done|]. by intros [? _]%Forall_cons.
Qed.
End free.

(** The slot a successful [add_htable] returns is the one its probe finds. *)
Lemma add_result_Some {W} ht tbl (w : W) d i s : wf ht tbl →
  add_result ht tbl w d = Done (Some i) s →
  ∃ j t, probe (ht_capacity ht) tbl (td_f_hash d) = Some (j, t) ∧ ¬ occupied t ∧
         i = Z.of_nat j ∧ s = Store (stored ht tbl d j t) w.
Proof.
  unfold add_result. destruct (probe _ _ _) as [[j t]|]; [|done].
  destruct (decide (occupied t)); [done|]. intros _ [= <- <-]. by exists j, t.
Qed.

Lemma probe_present ht tbl h i t : wf ht tbl → tbl !! i = Some t → occupied t → key t = h →
  probe (ht_capacity ht) tbl h = Some (i, t).
Proof.
  intros Hwf Ht Ho <-. pose proof (abs_lookup_at ht tbl Hwf i t Ht Ho) as Habs.
  destruct (probe _ _ _) as [[j u]|] eqn:Hp.
  - destruct (decide (occupied u)) as [Hu|Hu].
    + destruct (probe_hit ht tbl Hwf _ Ho _ _ Hp Hu) as (Hk & Hj & _).
      pose proof (wf_distinct _ _ Hwf i j t u Ht Hj Ho (eq_sym Hk)) as <-. by simplify_eq.
    + destruct (probe_miss ht tbl Hwf _ Ho _ _ Hp Hu) as [Hn _]. congruence.
  - destruct (probe_out ht tbl Hwf _ Ho Hp) as [Hn _]. congruence.
Qed.

(** The outcome of a search for an entry, and for a missing hash when the
    last slot is empty. *)
Lemma search_present {W} ht tbl (w : W) i t fuel : wf ht tbl → tbl !! i = Some t → occupied t →
  (length tbl < fuel)%nat →
  search_htable fuel (key t) (Store ht w) = Done (Some (Z.of_nat i)) (Store ht w).
Proof.
  intros Hwf Ht Ho Hf.
  rewrite (search_htable_run ht tbl Hwf w (key t) fuel) by (done || by eapply wf_hashes).
  unfold probe_result. rewrite (probe_present ht tbl (key t) i t Hwf Ht Ho eq_refl).
  by rewrite decide_True.
Qed.

Definition last_free (tbl : list tfile_t) : Prop := tbl !! (length tbl - 1)%nat = Some zero_tfile.

Lemma last_free_not_full ht tbl h : wf ht tbl → last_free tbl →
  ¬ full_from tbl (home (ht_capacity ht) h).
Proof.
  intros Hwf Hl Hfull. pose proof (home_bound ht tbl Hwf h).
  by destruct (Hfull (length tbl - 1)%nat zero_tfile ltac:(lia) Hl).
Qed.

Lemma search_absent {W} ht tbl (w : W) h fuel : wf ht tbl → last_free tbl →
  hash_ok h → h ≠ zero_hash → abs tbl !! h = None → (length tbl < fuel)%nat →
  search_htable fuel h (Store ht w) = Done None (Store ht w).
Proof.
  intros Hwf Hl Hh Hnz Ha Hf. rewrite (search_htable_run ht tbl Hwf w h fuel Hh Hf).
  unfold probe_result. destruct (probe _ _ _) as [[i t]|] eqn:Hp.
  - destruct (decide (occupied t)) as [Ho|]; [|done].
    destruct (probe_hit ht tbl Hwf h Hnz i t Hp Ho) as (_ & _ & Hs). congruence.
  - destruct (probe_out ht tbl Hwf h Hnz Hp) as [_ Hfull].
    by destruct (last_free_not_full ht tbl h Hwf Hl).
Qed.

(** An [add_htable] of a missing hash into a table at most half full whose
    last slot is empty. *)
Lemma add_absent {W} `{OS W} ht tbl (w : W) d fuel : wf ht tbl → last_free tbl →
  hash_ok (td_f_hash d) → td_f_hash d ≠ zero_hash → abs tbl !! td_f_hash d = None →
  (length tbl < fuel)%nat → ht_size ht * 2 ≤ ht_capacity ht →
  ∃ i ht' tbl', add_htable fuel d (Store ht w) = Done (Some (Z.of_nat i)) (Store ht' w) ∧
    wf ht' tbl' ∧ abs tbl' = <[td_f_hash d := TFile d FNull 0]> (abs tbl) ∧
    tbl' !! i = Some (TFile d FNull 0) ∧ length tbl' = length tbl ∧
    ht_size ht' = ht_size ht + 1 ∧ ht_capacity ht' = ht_capacity ht.
Proof.
  intros Hwf Hl Hh Hnz Ha Hf Hload. rewrite (add_htable_run ht tbl Hwf w d fuel Hh Hf Hload).
  unfold add_result. destruct (probe _ _ _) as [[i t]|] eqn:Hp.
  - destruct (decide (occupied t)) as [Ho|He].
    { destruct (probe_hit ht tbl Hwf _ Hnz i t Hp Ho) as (_ & _ & Hs). congruence. }
    pose proof (probe_Some _ _ _ _ _ Hp) as (_ & Ht & _ & _).
    destruct (probe_miss ht tbl Hwf _ Hnz i t Hp He) as [_ E].
    pose proof (wf_size_bound ht tbl Hwf). pose proof (wf_capacity_bound ht tbl Hwf).
    exists i, (stored ht tbl d i t), (<[i := set_tdef d t]> tbl).
    split_and!; [done|apply wf_stored; (done || lia)|by apply (abs_stored ht tbl Hwf d Hh Hnz i t Hp He); lia| | | |done].
    + rewrite <- (E d). apply list_lookup_insert_eq. by eapply lookup_lt_Some.
    + by rewrite length_insert.
    + cbn. apply wrapu_small. lia.
  - destruct (probe_out ht tbl Hwf _ Hnz Hp) as [_ Hfull].
    by destruct (last_free_not_full ht tbl (td_f_hash d) Hwf Hl).
Qed.

(** Adding a definition with a zero hash. *)
Lemma add_ghost {W} `{OS W} ht tbl (w : W) d fuel : wf ht tbl → td_f_hash d = zero_hash →
  (length tbl < fuel)%nat → ht_size ht * 2 ≤ ht_capacity ht →
  ∃ i ht' tbl', add_htable fuel d (Store ht w) = Done (Some (Z.of_nat i)) (Store ht' w) ∧
    wf ht' tbl' ∧ abs tbl' = abs tbl ∧ length tbl' = length tbl ∧
    ht_size ht' = ht_size ht + 1 ∧ ht_capacity ht' = ht_capacity ht.
Proof.
  intros Hwf Hz Hf Hload. pose proof (wf_size_bound ht tbl Hwf). pose proof (wf_capacity_bound ht tbl Hwf).
  destruct (probe_ghost ht tbl Hwf ltac:(lia)) as (i & t & Hp & He).
  pose proof (probe_Some ht _ _ _ _ Hp) as (_ & Ht & _ & _).
  rewrite (add_htable_run ht tbl Hwf w d fuel) by (done || rewrite Hz; apply zero_hash_ok).
  unfold add_result. rewrite Hz, Hp, decide_False by done.
  exists i, (stored ht tbl d i t), (<[i := set_tdef d t]> tbl).
  split_and!; [done|by apply wf_ghost; (done || lia)|by apply (abs_ghost ht tbl Hwf d Hz ltac:(lia) i t)|
    by rewrite length_insert|cbn; apply wrapu_small; lia|done].
Qed.

(** Tables for the witnesses: [n] as a hash, a definition with that hash, and
    a table of four slots with the entries 5 (at its home 1) and 9 (moved to
    2). *)
Module Examples.
Definition hash (n : Z) : list Z := le_bytes 16 n.
Definition def (n : Z) : tfile_def_t :=
  TFileDef (replicate 31 97 ++ [0]) (hash n) (replicate 8 (hash 0)) 1000.
Definition entry (n : Z) : tfile_t := TFile (def n) FNull 0.
Definition table4 : list tfile_t := [zero_tfile; entry 5; entry 9; zero_tfile].
Definition ht4 : htable_t := HTable 4 2 (Some table4).
Definition tail4 : list tfile_t := [zero_tfile; zero_tfile; zero_tfile; entry 7].
Definition ht_tail4 : htable_t := HTable 4 1 (Some tail4).
Definition table_full : list tfile_t := [zero_tfile; entry 5; entry 9; entry 3].
Definition ht_full : htable_t := HTable 4 3 (Some table_full).
Definition packed : list tfile_t := [entry 4; entry 5; entry 6; entry 7].
Definition ht_packed : htable_t := HTable 4 4 (Some packed).
Definition world : Sim.world := Sim.boot [].

Lemma ht4_wf : wf ht4 table4.
Proof. apply wfb_sound. by vm_compute. Qed.
Lemma ht_tail4_wf : wf ht_tail4 tail4.
Proof. apply wfb_sound. by vm_compute. Qed.
Lemma ht_full_wf : wf ht_full table_full.
Proof. apply wfb_sound. by vm_compute. Qed.
Lemma ht_packed_wf : wf ht_packed packed.
Proof. apply wfb_sound. by vm_compute. Qed.
Lemma hash_nonzero_ok n : 0 < n < 2 ^ 128 → hash_ok (hash n) ∧ hash n ≠ zero_hash.
Proof.
  intros Hn. split.
  - split; [unfold zlen, hash; by rewrite length_le_bytes|apply le_bytes_bytes].
  - intros Heq%(f_equal le_val). unfold hash in Heq.
    rewrite le_val_le_bytes in Heq by lia. cbn in Heq. lia.
Qed.
End Examples.

(** ** Properties of the table *)
Section properties.
Context {W : Type} `{OS W}.
Implicit Types (ht : htable_t) (tbl : list tfile_t) (w : W).

(** C1. [search_htable] refines lookup in the map the table stands for: on
    a well-formed table it returns the slot of the entry with that hash, or
    NULL when the map has none, and leaves the table as it was; it always
    ends within [capacity + 1] probes, and it can only go wrong by reading
    the slot behind the table, when all slots from the home of a missing
    hash to the end are taken. *)
Theorem search_htable_refines ht tbl w h fuel :
  wf ht tbl → hash_ok h → h ≠ zero_hash → (length tbl < fuel)%nat →
  match search_htable fuel h (Store ht w) with
  | Done (Some i) s => s = Store ht w ∧ ∃ t, zget tbl i = Some t ∧ abs tbl !! h = Some t
  | Done None s => s = Store ht w ∧ abs tbl !! h = None
  | Stop e => e = OutOfBounds ∧ abs tbl !! h = None ∧
              full_from tbl (home (ht_capacity ht) h)
  end.
Proof.
  intros Hwf Hh Hnz Hf. rewrite (search_htable_run ht tbl Hwf w h fuel Hh Hf).
  unfold probe_result. destruct (probe _ _ _) as [[i t]|] eqn:Hp.
  - destruct (decide (occupied t)) as [Ho|He].
    + destruct (probe_hit ht tbl Hwf h Hnz i t Hp Ho) as (_ & Ht & Ha).
      split; [done|]. exists t. by rewrite zget_nat.
    + by destruct (probe_miss ht tbl Hwf h Hnz i t Hp He).
  - by destruct (probe_out ht tbl Hwf h Hnz Hp).
Qed.

(** C2. [add_htable] on a table at most half full refines insertion of a
    missing key: it stores the definition with null locations, keeps the
    invariant and counts it; a hash already present is rejected with NULL
    and nothing changes; it can only go wrong by running off the end. *)
Theorem add_htable_refines ht tbl w d fuel :
  wf ht tbl → hash_ok (td_f_hash d) → td_f_hash d ≠ zero_hash →
  (length tbl < fuel)%nat → ht_size ht * 2 ≤ ht_capacity ht →
  match add_htable fuel d (Store ht w) with
  | Done (Some i) s => st_os s = w ∧ ∃ tbl', wf (st_ht s) tbl' ∧
      abs tbl !! td_f_hash d = None ∧
      abs tbl' = <[td_f_hash d := TFile d FNull 0]> (abs tbl) ∧
      zget tbl' i = Some (TFile d FNull 0) ∧
      ht_capacity (st_ht s) = ht_capacity ht ∧ ht_size (st_ht s) = ht_size ht + 1
  | Done None s => s = Store ht w ∧ is_Some (abs tbl !! td_f_hash d)
  | Stop e => e = OutOfBounds ∧ abs tbl !! td_f_hash d = None ∧
              full_from tbl (home (ht_capacity ht) (td_f_hash d))
  end.
Proof.
  intros Hwf Hh Hnz Hf Hload. rewrite (add_htable_run ht tbl Hwf w d fuel Hh Hf Hload).
  unfold add_result. destruct (probe _ _ _) as [[i t]|] eqn:Hp.
  - destruct (decide (occupied t)) as [Ho|He].
    + destruct (probe_hit ht tbl Hwf _ Hnz i t Hp Ho) as (_ & _ & ->). by split.
    + destruct (probe_miss ht tbl Hwf _ Hnz i t Hp He) as [Hnone E].
      pose proof (probe_Some _ _ _ _ _ Hp) as (_ & Ht & _ & _).
      pose proof (wf_size_bound ht tbl Hwf). pose proof (wf_capacity_bound ht tbl Hwf).
      pose proof (wf_stored ht tbl Hwf d Hh Hnz i t Hp He ltac:(lia)) as Hwf'.
      split; [done|]. eexists. split_and!; [exact Hwf'|done| | |done|].
      * apply (abs_stored ht tbl Hwf d Hh Hnz i t Hp He); lia.
      * rewrite zget_nat, <- (E d). apply list_lookup_insert_eq. by eapply lookup_lt_Some.
      * cbn. apply wrapu_small. lia.
  - by destruct (probe_out ht tbl Hwf _ Hnz Hp).
Qed.

(** A definition that was added is found, at the slot [add_htable]
    returned, in the table [add_htable] left. *)
Theorem add_search_roundtrip ht tbl w d fuel i s :
  wf ht tbl → hash_ok (td_f_hash d) → td_f_hash d ≠ zero_hash →
  (length tbl < fuel)%nat → ht_size ht * 2 ≤ ht_capacity ht →
  add_htable fuel d (Store ht w) = Done (Some i) s →
  search_htable fuel (td_f_hash d) s = Done (Some i) s.
Proof.
  intros Hwf Hh Hnz Hf Hload. rewrite (add_htable_run ht tbl Hwf w d fuel Hh Hf Hload).
  intros (j & t & Hp & He & -> & ->)%add_result_Some; [|done].
  pose proof (wf_size_bound ht tbl Hwf). pose proof (wf_capacity_bound ht tbl Hwf).
  pose proof (wf_stored ht tbl Hwf d Hh Hnz j t Hp He ltac:(lia)) as Hwf'.
  pose proof (probe_Some _ _ _ _ _ Hp) as (_ & Ht & _ & _).
  rewrite (search_htable_run _ _ Hwf' w _ fuel Hh) by (by rewrite length_insert).
  unfold probe_result. rewrite (probe_present _ _ _ j (set_tdef d t) Hwf'); [|..|done].
  - by rewrite decide_True.
  - apply list_lookup_insert_eq. by eapply lookup_lt_Some.
  - done.
Qed.

(** The two probe loops read past the end of the table exactly when the
    hash is missing and every slot from its home to the last is taken: the
    wrap-around test [index >= capacity] comes one step too late. *)
Theorem search_overruns_iff ht tbl w h fuel :
  wf ht tbl → hash_ok h → h ≠ zero_hash → (length tbl < fuel)%nat →
  search_htable fuel h (Store ht w) = Stop OutOfBounds ↔
  abs tbl !! h = None ∧ full_from tbl (home (ht_capacity ht) h).
Proof.
  intros Hwf Hh Hnz Hf. rewrite (search_htable_run ht tbl Hwf w h fuel Hh Hf).
  unfold probe_result. destruct (probe _ _ _) as [[i t]|] eqn:Hp.
  - split; [done|]. intros [Hnone Hfull]. exfalso.
    destruct (probe_Some _ _ _ _ _ Hp) as (Hi & Ht & _ & _).
    destruct (probe_hit ht tbl Hwf h Hnz i t Hp (Hfull i t Hi Ht)) as (_ & _ & Ha). congruence.
  - split; [|done]. intros _. by apply probe_out.
Qed.

(** C34. Once more than half of the slots are taken, [add_htable] calls
    [resize_htable], which calls [add_htable] for the first empty slot
    before it has changed the table: the recursion has no end, whatever the
    depth allowed. *)
Theorem add_htable_recursion `{!MemoryRoom W} ht tbl w d fuel :
  wf ht tbl → ht_capacity ht < 2 ^ 31 →
  ht_size ht < ht_capacity ht → ht_capacity ht < ht_size ht * 2 →
  add_htable fuel d (Store ht w) = Stop OutOfFuel.
Proof.
  intros Hwf Hcap Hfree Hload. destruct (wf_has_room ht tbl Hwf Hfree) as (k & t & Hk & Hz).
  pose proof (wf_size_bound ht tbl Hwf). pose proof (wf_length _ _ Hwf) as Hlen. unfold zlen in Hlen.
  apply (add_htable_stuck ht tbl k t); [apply Hwf|done|by rewrite Hz| |].
  - apply lookup_lt_Some in Hk. lia.
  - by rewrite wrapu_small by lia.
Qed.

(** Without an empty slot (and with no hash starting with two zero
    bytes) [resize_htable] does return 1, but the new table is empty while
    [size] still counts the entries: every tfile is lost. *)
Theorem resize_htable_loses_entries `{!MemoryRoom W} ht tbl w fuel :
  wf ht tbl → ht_capacity ht < 2 ^ 30 → (length tbl < fuel)%nat →
  (∀ i t, tbl !! i = Some t → u16_at (key t) 0 ≠ 0) →
  ∃ w', resize_htable fuel (Store ht w) =
    Done 1 (Store (HTable (ht_capacity ht * 2) (ht_size ht)
              (Some (replicate (Z.to_nat (ht_capacity ht * 2)) zero_tfile))) w').
Proof.
  intros Hwf Hcap Hf Hnz. pose proof (wf_capacity_bound ht tbl Hwf).
  unfold resize_htable, resize_with. rewrite (bind_done _ _ _ ht (Store ht w)) by done.
  destruct (malloc_run ht (wrapu 64 (sizeof_tfile_t * wraps32 (ht_capacity ht * 2))) w) as [w' Hm].
  rewrite (bind_done _ _ _ _ _ Hm). cbn [negb].
  rewrite (bind_done _ _ _ tt (Store ht w')).
  - rewrite wraps32_small, wrapu_small by lia. by exists w'.
  - apply (resize_loop_idle ht tbl _ w' (wf_table _ _ Hwf) (wf_length _ _ Hwf) ltac:(lia) Hnz
             (length tbl) 0 fuel); lia.
Qed.

(** [init_htable] establishes the invariant, with the empty map. *)
Lemma init_htable_wf `{!MemoryRoom W} ht w :
  ∃ w', init_htable (Store ht w) =
      Done tt (Store (HTable 256 0 (Some (replicate 256 zero_tfile))) w') ∧
    wf (HTable 256 0 (Some (replicate 256 zero_tfile))) (replicate 256 zero_tfile) ∧
    abs (replicate 256 zero_tfile) = ∅.
Proof.
  unfold init_htable. destruct (malloc_run ht (sizeof_tfile_t * STARTING_CAPACITY) w) as [w' Hm].
  rewrite (bind_done _ _ _ _ _ Hm). exists w'.
  split_and!; [done| |done]. apply wfb_sound. by vm_compute.
Qed.

(** [free_htable] frees every [f_location] and the table, unless some
    [f_location] is the name inside a slot (as [open_tfile] sets it): then
    it frees a pointer that [malloc] never returned. *)
Theorem free_htable_spec ht tbl w fuel :
  ht_table ht = Some tbl → zlen tbl = ht_capacity ht → ht_capacity ht < 2 ^ 31 →
  (length tbl < fuel)%nat →
  free_htable fuel (Store ht w) =
    if bool_decide (Forall freeable tbl)
    then Done tt (Store (HTable (ht_capacity ht) (ht_size ht) None) w)
    else Stop BadFree.
Proof.
  intros Htbl Hlen Hcap Hf. unfold free_htable.
  pose proof (free_loop ht tbl w Htbl tbl 0 fuel eq_refl eq_refl Hf Hlen Hcap) as Hloop.
  change (Z.of_nat 0) with 0 in Hloop.
  case_bool_decide.
  - rewrite decide_True in Hloop by done. by rewrite (bind_done _ _ _ _ _ Hloop).
  - rewrite decide_False in Hloop by done. by rewrite (bind_stop _ _ _ _ Hloop).
Qed.
End properties.

Module HTableWitness.
Import Sim Examples.

Lemma search_htable_refines_witness :
  search_htable 9 (hash 9) (Store ht4 world) = Done (Some 2) (Store ht4 world) ∧
  match search_htable 9 (hash 9) (Store ht4 world) with
  | Done (Some i) s => s = Store ht4 world ∧ ∃ t, zget table4 i = Some t ∧ abs table4 !! hash 9 = Some t
  | Done None s => s = Store ht4 world ∧ abs table4 !! hash 9 = None
  | Stop e => e = OutOfBounds ∧ abs table4 !! hash 9 = None ∧
              full_from table4 (home (ht_capacity ht4) (hash 9))
  end.
Proof.
  split; [by vm_compute|].
  apply (search_htable_refines ht4 table4 world (hash 9) 9 ht4_wf);
    [apply hash_nonzero_ok; lia..|cbn; lia].
Defined.

Lemma add_htable_refines_witness :
  (∃ s, add_htable 9 (def 10) (Store ht4 world) = Done (Some 3) s) ∧
  match add_htable 9 (def 10) (Store ht4 world) with
  | Done (Some i) s => st_os s = world ∧ ∃ tbl', wf (st_ht s) tbl' ∧
      abs table4 !! hash 10 = None ∧
      abs tbl' = <[hash 10 := TFile (def 10) FNull 0]> (abs table4) ∧
      zget tbl' i = Some (TFile (def 10) FNull 0) ∧
      ht_capacity (st_ht s) = ht_capacity ht4 ∧ ht_size (st_ht s) = ht_size ht4 + 1
  | Done None s => s = Store ht4 world ∧ is_Some (abs table4 !! hash 10)
  | Stop e => e = OutOfBounds ∧ abs table4 !! hash 10 = None ∧
              full_from table4 (home (ht_capacity ht4) (hash 10))
  end.
Proof.
  split; [eexists; by vm_compute|].
  apply (add_htable_refines ht4 table4 world (def 10) 9 ht4_wf);
    [apply hash_nonzero_ok; lia..|cbn; lia|cbn; lia].
Defined.

Lemma add_search_roundtrip_witness :
  ∃ s, add_htable 9 (def 10) (Store ht4 world) = Done (Some 3) s ∧
       search_htable 9 (hash 10) s = Done (Some 3) s.
Proof.
  eexists. assert (Hadd : add_htable 9 (def 10) (Store ht4 world) = Done (Some 3) _)
    by (vm_compute; reflexivity).
  split; [exact Hadd|].
  apply (add_search_roundtrip ht4 table4 world (def 10) 9 3 _ ht4_wf);
    [apply hash_nonzero_ok; lia..|cbn; lia|cbn; lia|exact Hadd].
Defined.

Lemma search_overruns_iff_witness :
  search_htable 9 (hash 11) (Store ht_tail4 world) = Stop OutOfBounds ∧
  (search_htable 9 (hash 11) (Store ht_tail4 world) = Stop OutOfBounds ↔
   abs tail4 !! hash 11 = None ∧ full_from tail4 (home (ht_capacity ht_tail4) (hash 11))).
Proof.
  split; [by vm_compute|].
  apply (search_overruns_iff ht_tail4 tail4 world (hash 11) 9 ht_tail4_wf);
    [apply hash_nonzero_ok; lia..|cbn; lia].
Defined.

Lemma add_htable_recursion_witness :
  add_htable 1000 (def 8) (Store ht_full world) = Stop OutOfFuel.
Proof. apply (add_htable_recursion ht_full table_full world (def 8) 1000 ht_full_wf); cbn; lia. Defined.

Lemma resize_htable_loses_entries_witness :
  ∃ w', resize_htable 9 (Store ht_packed world) =
    Done 1 (Store (HTable (ht_capacity ht_packed * 2) (ht_size ht_packed)
              (Some (replicate (Z.to_nat (ht_capacity ht_packed * 2)) zero_tfile))) w').
Proof.
  apply (resize_htable_loses_entries ht_packed packed world 9 ht_packed_wf); [cbn; lia|cbn; lia|].
  intros i t Hi. assert (Hall : forallb (λ t, negb (u16_at (key t) 0 =? 0)) packed = true) by (by vm_compute).
  rewrite forallb_forall in Hall. apply Z.eqb_neq, negb_true_iff, Hall.
  by eapply list_elem_of_In, list_elem_of_lookup_2.
Defined.

Lemma free_htable_spec_witness :
  free_htable 9 (Store (HTable 4 1 (Some [zero_tfile; TFile (def 5) (FName 1) 1; zero_tfile; zero_tfile])) world)
    = Stop BadFree.
Proof.
  rewrite (free_htable_spec (HTable 4 1 (Some [zero_tfile; TFile (def 5) (FName 1) 1; zero_tfile; zero_tfile]))
    [zero_tfile; TFile (def 5) (FName 1) 1; zero_tfile; zero_tfile] world 9); cbn; [done|done|done|lia|lia].
Defined.
End HTableWitness.
