(* ===== verification/File.v ===== *)
(** * Torrent files (file.c)

    Generation, listing, mapping, saving and verification of tfiles, on the
    hash table of [HTable.v], the files of [OS.v] and the digest of [MD5_API]. *)
From S2P Require Import Prelude OS Sim HTable.

Definition BLOCK_READ_SIZE : Z := 8192.
Definition MIN_SIZE : Z := 256.

(** A [char *] into a mapped region: its base address and the distance. *)
Definition location_t : Type := Z * Z.

Definition set_name n d := TFileDef n (td_f_hash d) (td_c_hashes d) (td_size d).
Definition set_f_hash h d := TFileDef (td_name d) h (td_c_hashes d) (td_size d).
Definition set_c_hash i h d :=
  TFileDef (td_name d) (td_f_hash d) (zset (td_c_hashes d) i h) (td_size d).
Definition set_size n d := TFileDef (td_name d) (td_f_hash d) (td_c_hashes d) n.

(** Two hashes compared through their 64-bit halves. *)
Definition same_hash (h h' : list Z) : bool :=
  (u64_at h 0 =? u64_at h' 0) && (u64_at h 1 =? u64_at h' 1).

Section file.
Context {W : Type} `{OS W} `{MD5_API}.

(** [read] into the 8192-byte [data_block]. *)
Definition read_block (fd n : Z) : M W (Z * list Z) :=
  r ← sys (os_read fd n);
  if BLOCK_READ_SIZE <? zlen r.2 then stop OutOfBounds else mret r.

(** file.c: md5_hash.  The result is the return code and the content of
    [*hash] afterwards. *)
Definition md5_block (fd size : Z) (x : Z * MD5_CTX) : M W (Z * MD5_CTX + option MD5_CTX) :=
  let '(i, c) := x in
  if i <? Z.quot size BLOCK_READ_SIZE then
    r ← read_block fd BLOCK_READ_SIZE;
    if negb (r.1 =? BLOCK_READ_SIZE) then mret (inr None)
    else
      i' ← add_s32 i 1;
      mret (inl (i', MD5_Update c r.2))
  else mret (inr (Some c)).

Definition md5_hash (fuel : nat) (fd offset size : Z) (hash : list Z) : M W (Z * list Z) :=
  _ ← sys_ (os_lseek fd offset);
  oc ← iter fuel (md5_block fd size) (0, MD5_Init);
  match oc with
  | None => mret (1, hash)
  | Some c =>
      r ← read_block fd (wrapu 64 (Z.rem size BLOCK_READ_SIZE));
      if negb (r.1 =? Z.rem size BLOCK_READ_SIZE) then mret (1, hash)
      else mret (0, MD5_Final (MD5_Update c r.2))
  end.

(** The hashes of the chunks [is] of an open file, each stored at its index
    of the hash array ([md5_hash] into [c_hashes[i]]). *)
Definition hash_fd_chunk (fuel : nat) (fd i offset size : Z) (hs : list (list Z))
    : M W (list (list Z)) :=
  old ← from_opt OutOfBounds (zget hs i);
  r ← md5_hash fuel fd offset size old;
  mret (zset hs i r.2).

(** The last chunk first, then the others. *)
Definition hash_fd_chunks (fuel : nat) (fd total : Z) (hs : list (list Z)) : M W (list (list Z)) :=
  let c_size := Z.quot total NUM_CHUNKS in
  let offset := c_size * (NUM_CHUNKS - 1) in
  hs ← hash_fd_chunk fuel fd (NUM_CHUNKS - 1) offset (total - offset) hs;
  fold_m (seqZ 0 (NUM_CHUNKS - 1))
    (λ hs i, hash_fd_chunk fuel fd i (i * c_size) c_size hs) hs.

(** file.c: generate_tfile.  [tdef] is the content of [*tdef] before and,
    in the result, after the call; [file_path] and [name] are the buffers
    behind the two pointers. *)
Definition generate_tfile (fuel : nat) (tdef : tfile_def_t) (file_path name : list Z)
    : M (store W) (Z * tfile_def_t) :=
  path ← from_opt OutOfBounds (cstr file_path);
  fd ← on_os (sys (os_open path O_RDONLY));
  if fd =? -1 then mret (-1, tdef)
  else
    st_size ← on_os (gets (os_fstat_size fd));
    if st_size <? MIN_SIZE then mret (-1, tdef)
    else
      r ← on_os (md5_hash fuel fd 0 st_size (td_f_hash tdef));
      let tdef := set_f_hash r.2 tdef in
      t ← search_htable fuel (td_f_hash tdef);
      match t with
      | Some _ => mret (-1, tdef)
      | None =>
          let tdef := set_size st_size tdef in
          hs ← on_os (hash_fd_chunks fuel fd st_size (td_c_hashes tdef));
          let tdef := TFileDef (td_name tdef) (td_f_hash tdef) hs (td_size tdef) in
          _ ← on_os (sys_ (os_close fd));
          _ ← when (zlen name <? NAME_LEN) (stop OutOfBounds);
          let tdef := set_name (slice 0 NAME_LEN name) tdef in
          r ← add_htable fuel tdef;
          ok ← on_os (sys (os_malloc (zlen path + 1)));
          t ← from_opt NullDeref r;
          _ ← when (negb ok) (stop NullDeref);
          _ ← update_slot t (set_locations (FHeap path) 0);
          mret (0, tdef)
      end.

(** file.c: add_tfile *)
Definition add_tfile (fuel : nat) (tfile_def : tfile_def_t) : M (store W) (option Z) :=
  r ← add_htable fuel tfile_def;
  match r with
  | None => mret None
  | Some tfile =>
      _ ← update_slot tfile (set_locations FNull 0);
      mret (Some tfile)
  end.

(** file.c: list_tfiles; the array behind [*tf_list] grows with [j]. *)
Definition list_body (ok : bool) (x : Z * list tfile_def_t)
    : M (store W) (Z * list tfile_def_t + list tfile_def_t) :=
  let '(i, tf_list) := x in
  ht ← gets st_ht;
  if (i <? ht_capacity ht) && (zlen tf_list <? ht_size ht) then
    tf ← slot i;
    _ ← when ((0 <? td_size (t_tdef tf)) && negb ok) (stop NullDeref);
    i' ← add_s32 i 1;
    mret (inl (i', if 0 <? td_size (t_tdef tf) then tf_list ++ [t_tdef tf] else tf_list))
  else mret (inr tf_list).

Definition list_tfiles (fuel : nat) : M (store W) (Z * list tfile_def_t) :=
  ht ← gets st_ht;
  ok ← on_os (sys (os_malloc (wrapu 64 (ht_size ht * sizeof_tfile_t))));
  tf_list ← iter fuel (list_body ok) (0, []);
  mret (zlen tf_list, tf_list).

(** The string [f_location] points to. *)
Definition f_path (l : f_location_t) : M (store W) (list Z) :=
  match l with
  | FNull => stop NullDeref
  | FHeap p => mret p
  | FName s =>
      tf ← slot s;
      from_opt OutOfBounds (cstr (td_name (t_tdef tf)))
  end.

(** file.c: open_tfile, lines 166-191: map the file of slot [i]. *)
Definition map_tfile (i : Z) : M (store W) bool :=
  tf ← slot i;
  _ ← when (bool_decide (t_f_location tf = FNull))
        (update_slot i (λ t, set_locations (FName i) (t_m_location t) t));
  tf ← slot i;
  path ← f_path (t_f_location tf);
  fd ← on_os (sys (os_open path O_CREAT_RDWR));
  if fd =? -1 then mret false
  else
    _ ← on_os (sys_ (os_ftruncate fd (td_size (t_tdef tf))));
    m_location ← on_os (sys (os_mmap (wrapu 64 (td_size (t_tdef tf))) fd));
    tf ← slot i;
    if t_m_location tf =? MAP_FAILED then mret false
    else if m_location =? MAP_FAILED then mret false
    else
      _ ← update_slot i (λ t, set_locations (t_f_location t) m_location t);
      _ ← on_os (sys_ (os_close fd));
      mret true.

(** file.c: open_tfile.  The result is the chunk's size (or -1) and what
    [*location] is set to, if it is. *)
Definition open_tfile (fuel : nat) (hash : list Z) (chunk : Z)
    : M (store W) (Z * option location_t) :=
  if NUM_CHUNKS <=? chunk then mret (-1, None)
  else
    r ← search_htable fuel hash;
    match r with
    | None => mret (-1, None)
    | Some i =>
        tf ← slot i;
        mapped ← (if t_m_location tf =? 0 then map_tfile i else mret true);
        if negb mapped then mret (-1, None)
        else
          tf ← slot i;
          let size := td_size (t_tdef tf) in
          let chunk_size := Z.quot size NUM_CHUNKS in
          let location := (t_m_location tf, chunk * chunk_size) in
          let chunk_size :=
            if chunk =? NUM_CHUNKS - 1 then size - chunk * chunk_size else chunk_size in
          mret (chunk_size, Some location)
    end.

(** file.c: save_tfile *)
Definition save_tfile (fuel : nat) (hash : list Z) : M (store W) Z :=
  r ← search_htable fuel hash;
  match r with
  | None => mret (-1)
  | Some i =>
      tf ← slot i;
      if t_m_location tf =? 0 then mret 0
      else
        rc ← on_os (sys (os_msync (t_m_location tf) (td_size (t_tdef tf))));
        if negb (rc =? 0) then mret (-1)
        else
          rc ← on_os (sys (os_munmap (t_m_location tf) (td_size (t_tdef tf))));
          if negb (rc =? 0) then mret (-1)
          else
            _ ← update_slot i (λ t, set_locations (t_f_location t) 0 t);
            mret 0
  end.

(** [n] bytes read from, or written to, mapped memory: only inside the region. *)
Definition in_region (p : location_t) (n : Z) : M W unit :=
  _ ← when (p.1 =? 0) (stop NullDeref);
  olen ← gets (os_region p.1);
  len ← from_opt OutOfBounds olen;
  when (negb ((0 <=? p.2) && (p.2 + n <=? len))) (stop OutOfBounds).
Definition mem_load (p : location_t) (n : Z) : M W (list Z) :=
  _ ← in_region p n;
  gets (os_load p.1 p.2 n).
Definition mem_store (p : location_t) (data : list Z) : M W unit :=
  _ ← in_region p (zlen data);
  sys_ (os_store p.1 p.2 data).

(** [MD5] of mapped memory. *)
Definition md5_mem (p : location_t) (n : Z) : M W (list Z) :=
  data ← mem_load p (wrapu 64 n);
  mret (MD5 data).

(** The hashes of the chunks of a mapped file, the last chunk first. *)
Definition hash_mem_chunks (base total : Z) (hs : list (list Z)) : M W (list (list Z)) :=
  let chunk_size := Z.quot total NUM_CHUNKS in
  let offset := chunk_size * (NUM_CHUNKS - 1) in
  h ← md5_mem (base, offset) (total - offset);
  fold_m (seqZ 0 (NUM_CHUNKS - 1)) (λ hs i,
    h ← md5_mem (base, chunk_size * i) chunk_size;
    mret (zset hs i h)) (zset hs (NUM_CHUNKS - 1) h).

(** file.c: verify_tfile, lines 319-330: one bit per matching chunk. *)
Definition compare_chunks (hs c_hashes : list (list Z)) : M W Z :=
  fold_m (seqZ 0 NUM_CHUNKS) (λ verified_chunks i,
    t ← from_opt OutOfBounds (zget hs i);
    c ← from_opt OutOfBounds (zget c_hashes i);
    mret (wrapu 8 (Z.lor verified_chunks
            (Z.shiftl (b2z (same_hash t c)) (NUM_CHUNKS - 1 - i)))))
    UNVERIFIED_FILE.

(** file.c: verify_tfile.  [c_hashes] and [test_hash] are the contents of the
    two uninitialised arrays on the stack. *)
Definition verify_tfile (fuel : nat) (hash : list Z)
    (c_hashes : list (list Z)) (test_hash : list Z) : M (store W) Z :=
  r ← search_htable fuel hash;
  match r with
  | None => mret UNVERIFIED_FILE
  | Some i =>
      tf ← slot i;
      let d := t_tdef tf in
      if negb (t_m_location tf =? 0) then
        test_hash ← on_os (md5_mem (t_m_location tf, 0) (td_size d));
        if same_hash test_hash (td_f_hash d) then mret VERIFIED_FILE
        else
          c_hashes ← on_os (hash_mem_chunks (t_m_location tf) (td_size d) c_hashes);
          on_os (compare_chunks c_hashes (td_c_hashes d))
      else if negb (bool_decide (t_f_location tf = FNull)) then
        path ← f_path (t_f_location tf);
        fd ← on_os (sys (os_open path O_RDONLY));
        if fd =? -1 then mret UNVERIFIED_FILE
        else
          st_size ← on_os (gets (os_fstat_size fd));
          r ← on_os (md5_hash fuel fd 0 st_size test_hash);
          if same_hash r.2 (td_f_hash d) then mret VERIFIED_FILE
          else
            c_hashes ← on_os (hash_fd_chunks fuel fd (td_size d) c_hashes);
            on_os (compare_chunks c_hashes (td_c_hashes d))
      else mret UNVERIFIED_FILE
  end.
End file.

(** file.c: is_chunk_verified *)
Definition is_chunk_verified (chunks chunk_index : Z) : bool :=
  if (chunk_index <? 0) || (NUM_CHUNKS <=? chunk_index) then false
  else negb (Z.land (Z.shiftr chunks (NUM_CHUNKS - 1 - chunk_index)) 0x01 =? 0).

(** ** [md5_hash] *)
Lemma concat_snoc {A} (ls : list (list A)) l : concat (ls ++ [l]) = concat ls ++ l.
Proof. rewrite concat_app. cbn. by rewrite app_nil_r. Qed.

(** Lengths of slices and blocks, everywhere. *)
Ltac slice_lens :=
  unfold BLOCK_READ_SIZE in *;
  repeat match goal with
  | H : context [zlen (slice ?a ?n ?l)] |- _ => rewrite (zlen_slice a n l) in H by lia
  | |- context [zlen (slice ?a ?n ?l)] => rewrite (zlen_slice a n l) by lia
  end.

Section md5.
Context {W : Type} `{OS W, OSViewOf W, !FileLaws W}.

(** From [w] to [w'] only the offset of [fd] (open on [p]) changed. *)
Definition moved (w w' : W) (fd : Z) (p : list Z) (o : Z) : Prop :=
  os_view w' = set_fds (<[fd := (p, o)]>) (os_view w).

Lemma moved_trans w w1 w2 fd p o1 o2 :
  moved w w1 fd p o1 → moved w1 w2 fd p o2 → moved w w2 fd p o2.
Proof.
  unfold moved. intros H1 ->. rewrite H1. unfold set_fds. cbn. by rewrite insert_insert_eq.
Qed.

Lemma moved_fd w w' fd p o : moved w w' fd p o → v_fds (os_view w') !! fd = Some (p, o).
Proof. intros ->. apply lookup_insert_eq. Qed.

Lemma moved_files w w' fd p o : moved w w' fd p o → v_files (os_view w') = v_files (os_view w).
Proof. by intros ->. Qed.

Lemma wp_read_block fd n p o c w (Q : Z * list Z → W → Prop) E :
  v_fds (os_view w) !! fd = Some (p, o) → v_files (os_view w) !! p = Some c →
  0 ≤ n ≤ BLOCK_READ_SIZE →
  (∀ w', moved w w' fd p (o + zlen (slice o n c)) → Q (zlen (slice o n c), slice o n c) w') →
  wp (read_block fd n) Q E w.
Proof.
  intros Hfd Hp Hn HQ. unfold read_block. apply wp_bind, wp_sys. intros [rc data] w' Hr.
  destruct (law_read_file _ _ _ _ _ _ _ _ _ Hfd Hp (proj1 Hn) Hr) as (-> & -> & Hv).
  cbn. pose proof (zlen_slice_le o n c (proj1 Hn)).
  destruct (Z.ltb_spec BLOCK_READ_SIZE (zlen (slice o n c))); [lia|].
  apply wp_ret, HQ, Hv.
Qed.

Context `{MD5_API, !MD5Laws}.

(** The digest state after the first [i] blocks of the section at [off]. *)
Definition digested (c : list Z) (off i : Z) (ctx : MD5_CTX) : Prop :=
  ∃ blocks, ctx = foldl MD5_Update MD5_Init blocks ∧
    concat blocks = slice off (BLOCK_READ_SIZE * i) c ∧
    zlen (slice off (BLOCK_READ_SIZE * i) c) = BLOCK_READ_SIZE * i.

Lemma digested_0 c off : digested c off 0 MD5_Init.
Proof. exists []. by rewrite Z.mul_0_r, slice_0. Qed.

Lemma digested_block c off i ctx : 0 ≤ off → 0 ≤ i →
  zlen (slice (off + BLOCK_READ_SIZE * i) BLOCK_READ_SIZE c) = BLOCK_READ_SIZE →
  digested c off i ctx →
  digested c off (i + 1) (MD5_Update ctx (slice (off + BLOCK_READ_SIZE * i) BLOCK_READ_SIZE c)).
Proof.
  unfold BLOCK_READ_SIZE. intros Hoff Hi Hlen (blocks & -> & Hc & Hl).
  exists (blocks ++ [slice (off + 8192 * i) 8192 c]).
  rewrite foldl_app, concat_snoc, Hc, Z.mul_add_distr_l. rewrite slice_app by lia. split_and!; [done|done|].
  slice_lens. lia.
Qed.

Lemma digested_final c off i n ctx : 0 ≤ off → 0 ≤ i → 0 ≤ n → digested c off i ctx →
  MD5_Final (MD5_Update ctx (slice (off + BLOCK_READ_SIZE * i) n c)) =
    MD5 (slice off (BLOCK_READ_SIZE * i + n) c).
Proof.
  unfold BLOCK_READ_SIZE. intros Hoff Hi Hn (blocks & -> & Hc & _).
  trans (MD5_Final (foldl MD5_Update MD5_Init (blocks ++ [slice (off + 8192 * i) n c])));
    [by rewrite foldl_app|].
  by rewrite law_md5, concat_snoc, Hc, slice_app by lia.
Qed.

(** The loop of whole blocks: it ends with the digest of them, or fails when
    the file is too short. *)
Lemma md5_loop fuel fd p c off n w :
  v_fds (os_view w) !! fd = Some (p, off) → v_files (os_view w) !! p = Some c →
  0 ≤ off → 0 ≤ n < 2 ^ 44 → (Z.to_nat n < fuel)%nat →
  wp (iter fuel (md5_block fd n) (0, MD5_Init)) (λ r w',
    ∃ o, moved w w' fd p o ∧
      match r with
      | Some ctx => o = off + BLOCK_READ_SIZE * (n / BLOCK_READ_SIZE) ∧
                    digested c off (n / BLOCK_READ_SIZE) ctx
      | None => zlen (slice off n c) < n
      end) no_fault w.
Proof.
  intros Hfd Hp Hoff Hn Hf. set (k := n / BLOCK_READ_SIZE).
  assert (Hk : 0 ≤ k < 2 ^ 31 ∧ BLOCK_READ_SIZE * k ≤ n).
  { subst k. unfold BLOCK_READ_SIZE. split_and!; [by apply Z.div_pos; lia| |by apply Z.mul_div_le].
    apply Z.div_lt_upper_bound; lia. }
  assert (Hw : moved w w fd p off).
  { unfold moved, set_fds. rewrite insert_id by done. by destruct (os_view w). }
  apply wp_iter with
    (I := λ x w', 0 ≤ x.1 ≤ k ∧ moved w w' fd p (off + BLOCK_READ_SIZE * x.1) ∧ digested c off x.1 x.2)
    (μ := λ x _, Z.to_nat (k - x.1)).
  - intros [i ctx] w1 (Hi & Hm & Hd). cbn [fst snd] in *. unfold md5_block.
    rewrite Z.quot_div_nonneg by (unfold BLOCK_READ_SIZE; lia). fold k.
    destruct (Z.ltb_spec i k) as [Hlt|Hge].
    + apply wp_bind. eapply wp_read_block;
        [by eapply moved_fd|by rewrite (moved_files _ _ _ _ _ Hm)|unfold BLOCK_READ_SIZE; lia|].
      intros w2 Hm2. cbn [fst snd]. pose proof (moved_trans _ _ _ _ _ _ _ Hm Hm2) as Hm'.
      destruct (Z.eqb_spec (zlen (slice (off + BLOCK_READ_SIZE * i) BLOCK_READ_SIZE c)) BLOCK_READ_SIZE)
        as [Hfull|Hshort]; cbn [negb].
      * apply wp_bind, wp_add_s32; [lia|]. apply wp_ret. cbn [fst snd].
        split; [|lia]. split_and!; [lia|lia| |apply digested_block; [done|lia|done|done]].
        rewrite Hfull in Hm'. by replace (off + BLOCK_READ_SIZE * (i + 1))
          with (off + BLOCK_READ_SIZE * i + BLOCK_READ_SIZE) by lia.
      * apply wp_ret. eexists. split; [exact Hm'|].
        unfold BLOCK_READ_SIZE in *. slice_lens. lia.
    + apply wp_ret. assert (i = k) as -> by lia. eexists. split; [exact Hm|done].
  - cbn. split_and!; [lia|lia| |apply digested_0]. by rewrite Z.mul_0_r, Z.add_0_r.
  - cbn [fst]. unfold BLOCK_READ_SIZE in *. lia.
Qed.

(** [md5_hash] gives 0 and the digest of the [n] bytes at [off], or 1 and an
    untouched [hash] when the file ends before. *)
Lemma md5_hash_spec fuel fd p o c off n hash w :
  v_fds (os_view w) !! fd = Some (p, o) → v_files (os_view w) !! p = Some c →
  0 ≤ off → 0 ≤ n < 2 ^ 44 → (Z.to_nat n < fuel)%nat →
  wp (md5_hash fuel fd off n hash) (λ r w',
    (∃ o', moved w w' fd p o') ∧
    r = if zlen (slice off n c) =? n then (0, MD5 (slice off n c)) else (1, hash)) no_fault w.
Proof.
  intros Hfd Hp Hoff Hn Hf. unfold md5_hash.
  apply wp_bind, wp_sys_. pose proof (law_lseek fd off w p o Hfd Hoff) as Hm.
  set (w1 := os_lseek fd off w) in *. fold (moved w w1 fd p off) in Hm.
  apply wp_bind. eapply wp_conseq.
  { apply md5_loop with (p := p) (c := c) (off := off); [by eapply moved_fd| |done|done|done].
    by rewrite (moved_files _ _ _ _ _ Hm). }
  intros [ctx|] w2 (o2 & Hm2 & Hres); pose proof (moved_trans _ _ _ _ _ _ _ Hm Hm2) as Hm'.
  - destruct Hres as [-> Hd].
    pose proof (Z.div_mod n BLOCK_READ_SIZE ltac:(done)) as Hdm.
    pose proof (Z.mod_pos_bound n BLOCK_READ_SIZE ltac:(done)) as Hmod.
    pose proof (Z.div_pos n BLOCK_READ_SIZE ltac:(lia) ltac:(done)) as Hdiv.
    rewrite Z.rem_mod_nonneg by (unfold BLOCK_READ_SIZE; lia).
    rewrite wrapu_small by (unfold BLOCK_READ_SIZE in *; lia).
    apply wp_bind. eapply wp_read_block;
      [by eapply moved_fd|by rewrite (moved_files _ _ _ _ _ Hm')|unfold BLOCK_READ_SIZE in *; lia|].
    intros w3 Hm3. cbn [fst snd]. pose proof (moved_trans _ _ _ _ _ _ _ Hm' Hm3) as Hm4.
    rewrite (digested_final c off) by (done || lia). rewrite <- Hdm.
    destruct Hd as (_ & _ & _ & Hl). unfold BLOCK_READ_SIZE in *.
    slice_lens.
    case_match; case_match; reflect_tests; try lia; apply wp_ret; (split; [by eexists|done]).
  - apply wp_ret. split; [by eexists|]. by rewrite (proj2 (Z.eqb_neq _ _)) by lia.
Qed.
End md5.

(** ** The chunks of a file *)
Definition chunk_off (total i : Z) : Z := i * (total / NUM_CHUNKS).
Definition chunk_len (total i : Z) : Z :=
  if i =? NUM_CHUNKS - 1 then total - (NUM_CHUNKS - 1) * (total / NUM_CHUNKS)
  else total / NUM_CHUNKS.
Definition chunk (total : Z) (c : list Z) (i : Z) : list Z :=
  slice (chunk_off total i) (chunk_len total i) c.

Lemma div_8_bounds total : 0 ≤ total → 0 ≤ total / 8 ∧ 8 * (total / 8) ≤ total.
Proof. intros. split; [by apply Z.div_pos; lia|by apply Z.mul_div_le]. Qed.

Lemma chunk_bounds total i : 0 ≤ total → 0 ≤ i < NUM_CHUNKS →
  0 ≤ chunk_off total i ∧ 0 ≤ chunk_len total i ≤ total ∧
  chunk_off total i + chunk_len total i ≤ total.
Proof.
  unfold chunk_off, chunk_len, NUM_CHUNKS. intros Ht Hi.
  pose proof (div_8_bounds total Ht). destruct (Z.eqb_spec i (8 - 1)); nia.
Qed.

(** Filling an array of 8 hashes, the last slot first and then the others. *)
Lemma wp_fill {S} (step : list (list Z) → Z → M S (list (list Z))) (new : Z → list Z)
    (J : S → Prop) E hs0 s :
  zlen hs0 = 8 → J s →
  (∀ hs i s, 0 ≤ i < 7 → zlen hs = 8 → zget hs i = zget hs0 i → J s →
     wp (step hs i) (λ hs' s', hs' = zset hs i (new i) ∧ J s') E s) →
  wp (fold_m (seqZ 0 7) step (zset hs0 7 (new 7)))
    (λ hs' s', hs' = new <$> seqZ 0 8 ∧ J s') E s.
Proof.
  intros Hlen HJ Hstep. apply zlen_8 in Hlen as (a0 & a1 & a2 & a3 & a4 & a5 & a6 & a7 & ->).
  change (seqZ 0 7) with [0; 1; 2; 3; 4; 5; 6]. cbn [fold_m].
  do 7 (apply wp_bind; eapply wp_conseq;
        [apply Hstep; [lia|reflexivity|reflexivity|exact HJ]|];
        clear HJ s; intros ? s [-> HJ]).
  by apply wp_ret.
Qed.

Section chunks.
Context {W : Type} `{OS W, OSViewOf W, !FileLaws W, MD5_API, !MD5Laws}.

(** The hash [md5_hash] leaves for chunk [i]: an old value when the file is
    too short for the chunk. *)
Definition fd_chunk_hash (total : Z) (c : list Z) (hs : list (list Z)) (i : Z) : list Z :=
  if zlen (chunk total c i) =? chunk_len total i then MD5 (chunk total c i)
  else default [] (zget hs i).

Lemma hash_fd_chunk_spec fuel fd p o c total i hs w :
  v_fds (os_view w) !! fd = Some (p, o) → v_files (os_view w) !! p = Some c →
  0 ≤ total < 2 ^ 44 → 0 ≤ i < NUM_CHUNKS → zlen hs = 8 → (Z.to_nat total < fuel)%nat →
  wp (hash_fd_chunk fuel fd i (chunk_off total i) (chunk_len total i) hs) (λ hs' w',
    hs' = zset hs i (fd_chunk_hash total c hs i) ∧ ∃ o', moved w w' fd p o') no_fault w.
Proof.
  intros Hfd Hp Ht Hi Hhs Hf. pose proof (chunk_bounds total i (proj1 Ht) Hi).
  destruct (zget_range hs i) as [old Hold]; [rewrite Hhs; done|].
  unfold hash_fd_chunk. apply wp_bind. eapply wp_from_opt; [done|].
  apply wp_bind. eapply wp_conseq.
  { apply md5_hash_spec with (p := p) (o := o) (c := c); [done|done|lia|lia|lia]. }
  intros r w' [Hm ->]. apply wp_ret. split; [|done].
  unfold fd_chunk_hash, chunk. rewrite Hold. cbn [default].
  by destruct (_ =? _).
Qed.

Lemma hash_fd_chunks_spec fuel fd p o c total hs w :
  v_fds (os_view w) !! fd = Some (p, o) → v_files (os_view w) !! p = Some c →
  0 ≤ total < 2 ^ 44 → zlen hs = 8 → (Z.to_nat total < fuel)%nat →
  wp (hash_fd_chunks fuel fd total hs) (λ hs' w',
    hs' = fd_chunk_hash total c hs <$> seqZ 0 8 ∧ ∃ o', moved w w' fd p o') no_fault w.
Proof.
  intros Hfd Hp Ht Hhs Hf. unfold hash_fd_chunks.
  rewrite Z.quot_div_nonneg by (unfold NUM_CHUNKS; lia).
  apply wp_bind. eapply wp_conseq.
  { rewrite (Z.mul_comm (total / NUM_CHUNKS)). change (total - _) with (chunk_len total 7).
    change ((NUM_CHUNKS - 1) * _) with (chunk_off total 7).
    apply hash_fd_chunk_spec with (p := p) (o := o) (c := c); done. }
  cbv beta. intros ? w1 [-> Hm].
  apply (wp_fill _ (fd_chunk_hash total c hs) (λ w', ∃ o', moved w w' fd p o')); [done|done|].
  clear w1 Hm. intros hs1 i w1 Hi Hlen Hget [o1 Hm].
  change (i * _) with (chunk_off total i).
  replace (total / NUM_CHUNKS) with (chunk_len total i).
  - eapply wp_conseq.
    { eapply (hash_fd_chunk_spec fuel fd p o1 c total i hs1);
        [by eapply moved_fd|by rewrite (moved_files _ _ _ _ _ Hm)|done|unfold NUM_CHUNKS; lia|done|done]. }
    cbv beta. intros ? w2 [-> [o2 Hm2]]. split; [|exists o2; by eapply moved_trans].
    unfold fd_chunk_hash. by rewrite Hget.
  - unfold chunk_len. by rewrite (proj2 (Z.eqb_neq _ _)) by (unfold NUM_CHUNKS; lia).
Qed.
End chunks.

(** ** The mask of verified chunks *)
Definition mask (f : Z → bool) : Z :=
  foldl (λ m i, Z.lor m (Z.shiftl (b2z (f i)) (NUM_CHUNKS - 1 - i))) 0 (seqZ 0 8).

(** Functions on the chunk indices by cases on their eight values. *)
Ltac mask_cases f :=
  unfold mask; change (seqZ 0 8) with [0; 1; 2; 3; 4; 5; 6; 7]; cbn [foldl];
  destruct (f 0), (f 1), (f 2), (f 3), (f 4), (f 5), (f 6), (f 7).

Lemma mask_verified f i : 0 ≤ i < NUM_CHUNKS → is_chunk_verified (mask f) i = f i.
Proof.
  unfold NUM_CHUNKS. intros Hi.
  assert (i = 0 ∨ i = 1 ∨ i = 2 ∨ i = 3 ∨ i = 4 ∨ i = 5 ∨ i = 6 ∨ i = 7) as Hcases by lia.
  destruct Hcases as [->|[->|[->|[->|[->|[->|[->| ->]]]]]]]; by mask_cases f.
Qed.

Lemma mask_bound f : 0 ≤ mask f < 256.
Proof. mask_cases f; by vm_compute. Qed.

Lemma mask_full f : mask f = VERIFIED_FILE ↔ ∀ i, 0 ≤ i < NUM_CHUNKS → f i = true.
Proof.
  split.
  - intros Hm i Hi. rewrite <- (mask_verified f i Hi), Hm. unfold NUM_CHUNKS in Hi.
    assert (i = 0 ∨ i = 1 ∨ i = 2 ∨ i = 3 ∨ i = 4 ∨ i = 5 ∨ i = 6 ∨ i = 7) as Hcases by lia.
    by destruct Hcases as [->|[->|[->|[->|[->|[->|[->| ->]]]]]]].
  - intros Hall. unfold mask. change (seqZ 0 8) with [0; 1; 2; 3; 4; 5; 6; 7]. cbn [foldl].
    unfold NUM_CHUNKS in *. by rewrite !Hall by lia.
Qed.

Lemma mask_ext f g : (∀ i, 0 ≤ i < NUM_CHUNKS → f i = g i) → mask f = mask g.
Proof.
  intros Heq. unfold mask. change (seqZ 0 8) with [0; 1; 2; 3; 4; 5; 6; 7]. cbn [foldl].
  unfold NUM_CHUNKS in *. by rewrite !Heq by lia.
Qed.

(** Does the [i]-th hash of one array equal that of the other? *)
Definition hash_matches (hs cs : list (list Z)) (i : Z) : bool :=
  same_hash (default [] (zget hs i)) (default [] (zget cs i)).

Lemma compare_chunks_run {W} hs cs (w : W) : zlen hs = 8 → zlen cs = 8 →
  compare_chunks hs cs w = Done (mask (hash_matches hs cs)) w.
Proof.
  intros Hhs Hcs. unfold compare_chunks.
  rewrite (fold_m_run _ _ (λ m i, wrapu 8 (Z.lor m
    (Z.shiftl (b2z (hash_matches hs cs i)) (NUM_CHUNKS - 1 - i))))).
  - f_equal. change (seqZ 0 NUM_CHUNKS) with [0; 1; 2; 3; 4; 5; 6; 7].
    generalize (hash_matches hs cs) as f. intros f. by mask_cases f.
  - intros m i Hi%elem_of_seqZ. unfold hash_matches, NUM_CHUNKS in *.
    destruct (zget_range hs i) as [h Hh]; [lia|]. destruct (zget_range cs i) as [c Hc]; [lia|].
    by rewrite Hh, Hc.
Qed.

Lemma same_hash_spec h h' : hash_ok h → hash_ok h' → same_hash h h' = bool_decide (h = h').
Proof. apply hash_eqb_spec. Qed.

(** ** Mapped memory *)
Section memory.
Context {W : Type} `{OS W, OSViewOf W, !FileLaws W}.

(** At [a] a region of [len] bytes backed by the file [p] with content [c]. *)
Definition region_at (w : W) (a len : Z) (p c : list Z) : Prop :=
  0 < a ∧ v_maps (os_view w) !! a = Some (p, len) ∧ v_files (os_view w) !! p = Some c ∧
  len ≤ zlen c.

Lemma in_region_run w a len p c off n : region_at w a len p c → 0 ≤ off → off + n ≤ len →
  in_region (a, off) n w = Done tt w.
Proof.
  intros (Ha & Hm & Hp & Hl) Hoff Hn. unfold in_region, mbind, M_bind. cbn [fst snd].
  rewrite (proj2 (Z.eqb_neq _ _)) by lia. cbn. rewrite law_region, Hm. cbn.
  by rewrite (proj2 (Z.leb_le 0 off)), (proj2 (Z.leb_le (off + n) len)) by lia.
Qed.

Lemma mem_load_run w a len p c off n : region_at w a len p c → 0 ≤ off → 0 ≤ n → off + n ≤ len →
  mem_load (a, off) n w = Done (slice off n c) w.
Proof.
  intros Hr Hoff Hn Hlen. unfold mem_load.
  rewrite (bind_done _ _ _ _ _ (in_region_run w a len p c off n Hr Hoff Hlen)).
  destruct Hr as (Ha & Hm & Hp & Hl). unfold gets. cbn [fst snd].
  by rewrite (law_load a off n w p len c Hm Hp) by lia.
Qed.

(** An access that leaves the region is undefined behaviour. *)
Lemma in_region_oob w a len off n : 0 < a → v_maps (os_view w) !! a = Some len →
  off < 0 ∨ len.2 < off + n → in_region (a, off) n w = Stop OutOfBounds.
Proof.
  intros Ha Hm Hout. unfold in_region, mbind, M_bind. cbn [fst snd].
  rewrite (proj2 (Z.eqb_neq _ _)) by lia. cbn. rewrite law_region, Hm. cbn.
  destruct (Z.leb_spec 0 off), (Z.leb_spec (off + n) len.2); cbn; (done || lia).
Qed.

Context `{MD5_API, !MD5Laws}.

Lemma md5_mem_run w a len p c off n : region_at w a len p c → 0 ≤ off → 0 ≤ n < 2 ^ 44 →
  off + n ≤ len → md5_mem (a, off) n w = Done (MD5 (slice off n c)) w.
Proof.
  intros Hr Hoff Hn Hlen. unfold md5_mem. rewrite wrapu_small by lia.
  by rewrite (bind_done _ _ _ _ _ (mem_load_run w a len p c off n Hr Hoff (proj1 Hn) Hlen)).
Qed.

Definition mem_chunk_hash (total : Z) (c : list Z) (i : Z) : list Z := MD5 (chunk total c i).

Lemma hash_mem_chunks_run w a total p c hs : region_at w a total p c → 0 ≤ total < 2 ^ 44 →
  zlen hs = 8 →
  hash_mem_chunks a total hs w = Done (mem_chunk_hash total c <$> seqZ 0 8) w.
Proof.
  intros Hr Ht Hhs. unfold hash_mem_chunks.
  assert (Hmd5 : ∀ i, 0 ≤ i < NUM_CHUNKS →
    md5_mem (a, chunk_off total i) (chunk_len total i) w = Done (mem_chunk_hash total c i) w).
  { intros i Hi. pose proof (chunk_bounds total i (proj1 Ht) Hi).
    by apply (md5_mem_run w a total p c); [|lia..]. }
  rewrite Z.quot_div_nonneg by (unfold NUM_CHUNKS; lia).
  rewrite (Z.mul_comm (total / NUM_CHUNKS)).
  rewrite (bind_done _ _ _ _ _ (Hmd5 7 ltac:(unfold NUM_CHUNKS; lia))).
  destruct (wp_total (fold_m (seqZ 0 (NUM_CHUNKS - 1)) (λ hs i,
      h ← md5_mem (a, total / NUM_CHUNKS * i) (total / NUM_CHUNKS); mret (zset hs i h))
      (zset hs (NUM_CHUNKS - 1) (mem_chunk_hash total c 7)))
    (λ hs' w', hs' = mem_chunk_hash total c <$> seqZ 0 8 ∧ w' = w) w) as (? & ? & Hrun & -> & ->);
    [|exact Hrun].
  apply (wp_fill _ (mem_chunk_hash total c) (λ w', w' = w)); [done|done|].
  intros hs1 i w1 Hi _ _ ->. pose proof (Hmd5 i ltac:(unfold NUM_CHUNKS; lia)) as Hi'.
  unfold chunk_off, chunk_len in Hi'. rewrite (proj2 (Z.eqb_neq i _)) in Hi' by (unfold NUM_CHUNKS; lia).
  rewrite (Z.mul_comm _ i). unfold wp. by rewrite (bind_done _ _ _ _ _ Hi').
Qed.
End memory.

(** ** [verify_tfile] *)
Section verify.
Context {W : Type} `{OS W, OSViewOf W, !FileLaws W, MD5_API, !MD5Laws}.
Context (ht : htable_t) (tbl : list tfile_t) (Hwf : wf ht tbl).
Context (i : nat) (t : tfile_t) (Ht : tbl !! i = Some t) (Ho : occupied t).
Context (fuel : nat) (Hf : (length tbl < fuel)%nat).

(** What an up-to-date copy [c] of the file is worth: all chunks when the
    digest of the file is right, else the chunks whose digest is. *)
Definition verdict (d : tfile_def_t) (whole : list Z) (hs : list (list Z)) : Z :=
  if same_hash whole (td_f_hash d) then VERIFIED_FILE else mask (hash_matches hs (td_c_hashes d)).

Lemma on_os_run {A} (m : M W A) a w w' : m w = Done a w' →
  on_os m (Store ht w) = Done a (Store ht w').
Proof. unfold on_os, zoom. cbn. by intros ->. Qed.

Lemma verify_mapped w p c junk_hs junk :
  t_m_location t ≠ 0 → region_at w (t_m_location t) (td_size (t_tdef t)) p c →
  0 ≤ td_size (t_tdef t) < 2 ^ 44 → zlen (td_c_hashes (t_tdef t)) = 8 → zlen junk_hs = 8 →
  verify_tfile fuel (key t) junk_hs junk (Store ht w) =
    Done (verdict (t_tdef t) (MD5 (slice 0 (td_size (t_tdef t)) c))
           (mem_chunk_hash (td_size (t_tdef t)) c <$> seqZ 0 8)) (Store ht w).
Proof.
  intros Hm Hr Hsize Hcs Hjunk. unfold verify_tfile.
  rewrite (bind_done _ _ _ _ _ (search_present ht tbl w i t fuel Hwf Ht Ho Hf)).
  rewrite (bind_done _ _ _ _ _ (slot_run ht tbl Hwf w i t Ht)).
  rewrite (proj2 (Z.eqb_neq _ _)) by done. cbn [negb].
  rewrite (bind_done _ _ _ _ _ (on_os_run _ _ _ _ (md5_mem_run w _ _ p c 0 _ Hr ltac:(lia) Hsize ltac:(lia)))).
  unfold verdict. destruct (same_hash _ _); [done|].
  rewrite (bind_done _ _ _ _ _ (on_os_run _ _ _ _ (hash_mem_chunks_run w _ _ p c junk_hs Hr Hsize Hjunk))).
  apply on_os_run. by apply compare_chunks_run.
Qed.

(** The file is read from storage; the descriptor stays open. *)
Lemma verify_stored w path c junk_hs junk (Q : Z → store W → Prop) :
  t_m_location t = 0 → t_f_location t = FHeap path → v_files (os_view w) !! path = Some c →
  zlen c < 2 ^ 44 → 0 ≤ td_size (t_tdef t) < 2 ^ 44 →
  zlen (td_c_hashes (t_tdef t)) = 8 → zlen junk_hs = 8 →
  (Z.to_nat (zlen c) < fuel)%nat → (Z.to_nat (td_size (t_tdef t)) < fuel)%nat →
  (∀ w', (os_open path O_RDONLY w).1 = -1 → os_view w' = os_view w →
     Q UNVERIFIED_FILE (Store ht w')) →
  (∀ fd o w', v_fds (os_view w) !! fd = None →
     os_view w' = set_fds (<[fd := (path, o)]>) (os_view w) →
     Q (verdict (t_tdef t) (MD5 c) (fd_chunk_hash (td_size (t_tdef t)) c junk_hs <$> seqZ 0 8))
       (Store ht w')) →
  wp (verify_tfile fuel (key t) junk_hs junk) Q no_fault (Store ht w).
Proof.
  intros Hm Hl Hp Hc Hsize Hcs Hjunk Hf1 Hf2 HQ0 HQ. unfold verify_tfile.
  apply wp_bind. eapply wp_of_run; [by apply (search_present ht tbl w i t fuel)|].
  apply wp_bind. eapply wp_of_run; [by apply (slot_run ht tbl Hwf)|].
  rewrite Hm, Hl. cbn [Z.eqb negb]. rewrite bool_decide_false by done. cbn [negb].
  apply wp_bind, wp_ret. apply wp_bind, wp_zoom, wp_sys. cbn [st_os]. intros fd w1 Hopen.
  destruct (law_open_rdonly _ _ _ _ Hopen) as [[-> Hv]|(Hfd & Hnew & _ & _ & Hv)].
  { rewrite Z.eqb_refl. apply wp_ret. apply HQ0; [by rewrite Hopen|done]. }
  rewrite (proj2 (Z.eqb_neq fd (-1))) by lia. cbn [st_ht].
  assert (Hfd1 : v_fds (os_view w1) !! fd = Some (path, 0)) by (rewrite Hv; apply lookup_insert_eq).
  assert (Hp1 : v_files (os_view w1) !! path = Some c) by by rewrite Hv.
  apply wp_bind, wp_zoom, wp_gets. cbn [st_os st_ht]. rewrite (law_fstat fd w1 path 0 c Hfd1 Hp1).
  apply wp_bind, wp_zoom. eapply wp_conseq.
  { apply (md5_hash_spec fuel fd path 0 c 0 (zlen c)); [done|done|lia|unfold zlen in *; lia|done]. }
  cbv beta. intros r w2 [(o2 & Hm2) ->]. rewrite slice_all, Z.eqb_refl by done. cbn [fst snd].
  assert (Hdone : ∀ o' w', moved w1 w' fd path o' → os_view w' = set_fds (<[fd := (path, o')]>) (os_view w)).
  { unfold moved. intros o' w' ->. rewrite Hv. unfold set_fds. cbn. by rewrite insert_insert_eq. }
  destruct (same_hash (MD5 c) (td_f_hash (t_tdef t))) eqn:Hsame.
  - apply wp_ret. pose proof (HQ fd o2 w2 Hnew (Hdone _ _ Hm2)) as HQ'.
    unfold verdict in HQ'. by rewrite Hsame in HQ'.
  - apply wp_bind, wp_zoom. cbn [st_os]. eapply wp_conseq.
    { apply (hash_fd_chunks_spec fuel fd path o2 c (td_size (t_tdef t)));
        [by eapply moved_fd|by rewrite (moved_files _ _ _ _ _ Hm2)|done|done|done]. }
    cbv beta. intros ? w3 [-> (o3 & Hm3)]. cbn [st_ht st_os].
    eapply wp_of_run; [apply on_os_run, compare_chunks_run; done|].
    pose proof (HQ fd o3 w3 Hnew (Hdone _ _ (moved_trans _ _ _ _ _ _ _ Hm2 Hm3))) as HQ'.
    unfold verdict in HQ'. by rewrite Hsame in HQ'.
Qed.
End verify.

(** ** [generate_tfile] *)
Section generate.
Context {W : Type} `{OS W, OSViewOf W, !FileLaws W, MD5_API, !MD5Laws}.

(** The definition of a file with content [c]. *)
Definition tdef_of (name c : list Z) : tfile_def_t :=
  TFileDef (slice 0 NAME_LEN name) (MD5 c) (mem_chunk_hash (zlen c) c <$> seqZ 0 8) (zlen c).

Lemma fd_chunk_hash_full c hs : fd_chunk_hash (zlen c) c hs <$> seqZ 0 8 =
  mem_chunk_hash (zlen c) c <$> seqZ 0 8.
Proof.
  apply list_fmap_ext. intros k i Hi%list_elem_of_lookup_2%elem_of_seqZ. unfold fd_chunk_hash.
  assert (0 ≤ zlen c) as Hc by (unfold zlen; lia).
  pose proof (chunk_bounds (zlen c) i Hc ltac:(unfold NUM_CHUNKS; lia)) as Hb.
  unfold chunk at 1. rewrite length_slice by lia. by rewrite Z.eqb_refl.
Qed.

Lemma MD5_ok m : hash_ok (MD5 m).
Proof. split; [apply law_md5_length|apply law_md5_bytes]. Qed.

Lemma tdef_of_chunks name c : zlen (td_c_hashes (tdef_of name c)) = 8.
Proof. done. Qed.

(** After an open and a close of a new descriptor the process is where it was. *)
Lemma close_new w w1 w2 fd p o : v_fds (os_view w) !! fd = None → fd ∉ v_socks (os_view w) →
  os_view w1 = set_fds (<[fd := (p, o)]>) (os_view w) → w2 = os_close fd w1 →
  os_view w2 = os_view w.
Proof.
  intros Hfd Hs Hv ->. rewrite law_close, Hv. unfold set_socks, set_fds. cbn.
  rewrite delete_insert_id by done.
  replace (v_socks (os_view w) ∖ {[fd]}) with (v_socks (os_view w)) by set_solver.
  by destruct (os_view w).
Qed.

(** The last part of [generate_tfile]: add the definition, set its locations. *)
Lemma generate_add `{!MemoryRoom W} ht tbl w d path fuel (Q : Z * tfile_def_t → store W → Prop) :
  wf ht tbl → last_free tbl → ht_size ht * 2 ≤ ht_capacity ht → (length tbl < fuel)%nat →
  hash_ok (td_f_hash d) → td_f_hash d ≠ zero_hash → abs tbl !! td_f_hash d = None →
  (∀ ht' tbl' w', wf ht' tbl' → os_view w' = os_view w → length tbl' = length tbl →
     abs tbl' = <[td_f_hash d := TFile d (FHeap path) 0]> (abs tbl) →
     ht_size ht' = ht_size ht + 1 → ht_capacity ht' = ht_capacity ht → Q (0, d) (Store ht' w')) →
  wp (r ← add_htable fuel d;
      ok ← on_os (sys (os_malloc (zlen path + 1)));
      t ← from_opt NullDeref r;
      _ ← when (negb ok) (stop NullDeref);
      _ ← update_slot t (set_locations (FHeap path) 0);
      mret (0, d)) Q no_fault (Store ht w).
Proof.
  intros Hwf Hl Hload Hf Hh Hnz Ha HQ.
  destruct (add_absent ht tbl w d fuel Hwf Hl Hh Hnz Ha Hf Hload)
    as (i & ht' & tbl' & Hadd & Hwf' & Habs & Hi & Hlen & Hsize & Hcap).
  apply wp_bind. eapply wp_of_run; [exact Hadd|].
  apply wp_bind, wp_zoom, wp_sys. intros ok w1 Hm.
  pose proof (law_malloc_ok (zlen path + 1) w) as Hok. pose proof (law_malloc (zlen path + 1) w) as Hv.
  cbn [st_os] in Hm. rewrite Hm in Hok, Hv. cbn in Hok, Hv. subst ok. cbn [st_ht].
  apply wp_bind, wp_ret. apply wp_bind, wp_ret.
  apply wp_bind. eapply wp_of_run; [by apply (update_slot_run ht' tbl' Hwf' w1 i)|].
  apply wp_ret. destruct (wf_relocate ht' tbl' i _ (FHeap path) 0 Hwf' Hi Hnz) as [Hwf2 Habs2].
  eapply HQ; [exact Hwf2|done| | |done|done].
  - by rewrite length_insert.
  - rewrite Habs2, Habs. cbn. by rewrite insert_insert_eq.
Qed.

Lemma generate_spec `{!MemoryRoom W} ht tbl w d file_path name path c fuel
    (Q : Z * tfile_def_t → store W → Prop) :
  wf ht tbl → last_free tbl → ht_size ht * 2 ≤ ht_capacity ht →
  cstr file_path = Some path → v_files (os_view w) !! path = Some c →
  MIN_SIZE ≤ zlen c < 2 ^ 44 → NAME_LEN ≤ zlen name → zlen (td_c_hashes d) = 8 →
  MD5 c ≠ zero_hash → abs tbl !! MD5 c = None →
  (length tbl < fuel)%nat → (length c < fuel)%nat →
  (∀ w', (os_open path O_RDONLY w).1 = -1 → os_view w' = os_view w → Q (-1, d) (Store ht w')) →
  (∀ ht' tbl' w', wf ht' tbl' → os_view w' = os_view w → length tbl' = length tbl →
     abs tbl' = <[MD5 c := TFile (tdef_of name c) (FHeap path) 0]> (abs tbl) →
     ht_size ht' = ht_size ht + 1 → ht_capacity ht' = ht_capacity ht →
     Q (0, tdef_of name c) (Store ht' w')) →
  wp (generate_tfile fuel d file_path name) Q no_fault (Store ht w).
Proof.
  intros Hwf Hl Hload Hpath Hp Hc Hname Hhs Hnz Ha Hf Hf2 HQ1 HQ0. unfold generate_tfile.
  unfold MIN_SIZE in Hc. assert (Hzc : Z.to_nat (zlen c) = length c) by (unfold zlen; lia).
  apply wp_bind. eapply wp_from_opt; [exact Hpath|].
  apply wp_bind, wp_zoom, wp_sys. cbn [st_os]. intros fd w1 Hopen.
  destruct (law_open_rdonly _ _ _ _ Hopen) as [[-> Hv]|(Hfd & Hnew & Hns & _ & Hv)].
  { apply wp_ret. apply HQ1; [by rewrite Hopen|done]. }
  rewrite (proj2 (Z.eqb_neq fd (-1))) by lia. cbn [st_ht].
  assert (Hfd1 : v_fds (os_view w1) !! fd = Some (path, 0)) by (rewrite Hv; apply lookup_insert_eq).
  assert (Hp1 : v_files (os_view w1) !! path = Some c) by by rewrite Hv.
  apply wp_bind, wp_zoom, wp_gets. cbn [st_os st_ht]. rewrite (law_fstat fd w1 path 0 c Hfd1 Hp1).
  rewrite (proj2 (Z.ltb_ge _ _)) by (unfold MIN_SIZE; lia).
  apply wp_bind, wp_zoom. cbn [st_os]. eapply wp_conseq.
  { apply (md5_hash_spec fuel fd path 0 c 0 (zlen c)); [done|done|lia|lia|lia]. }
  cbv beta. intros r w2 [(o2 & Hm2) ->]. rewrite slice_all, Z.eqb_refl by done. cbn [fst snd st_ht].
  apply wp_bind. eapply wp_of_run.
  { apply (search_absent ht tbl w2 (MD5 c) fuel Hwf Hl (MD5_ok c) Hnz Ha Hf). }
  apply wp_bind, wp_zoom. cbn [st_os]. eapply wp_conseq.
  { apply (hash_fd_chunks_spec fuel fd path o2 c (zlen c));
      [by eapply moved_fd|by rewrite (moved_files _ _ _ _ _ Hm2)|lia|done|lia]. }
  cbv beta. intros ? w3 [-> (o3 & Hm3)]. rewrite fd_chunk_hash_full. cbn [st_ht].
  apply wp_bind, wp_zoom, wp_sys_. cbn [st_os st_ht].
  assert (Hv3 : os_view w3 = set_fds (<[fd := (path, o3)]>) (os_view w)).
  { pose proof (moved_trans _ _ _ _ _ _ _ Hm2 Hm3) as Hm'. unfold moved in Hm'. rewrite Hm', Hv.
    unfold set_fds. cbn. by rewrite insert_insert_eq. }
  pose proof (close_new w w3 _ fd path o3 Hnew Hns Hv3 eq_refl) as Hv4.
  apply wp_bind. rewrite (proj2 (Z.ltb_ge _ _)) by done. apply wp_ret.
  apply (generate_add ht tbl); [done|done|done|done|apply MD5_ok|done|done|].
  intros ht' tbl' w' Hwf' Hv' Hlen Habs Hsz Hcp. eapply HQ0; eauto. by rewrite Hv'.
Qed.
End generate.

(** ** [open_tfile] *)
Lemma zlen_truncated n c : 0 ≤ n → zlen (truncated n c) = n.
Proof. intros. unfold zlen, truncated. rewrite length_app, length_take, length_replicate. lia. Qed.

(** A file that has the right size already is not changed. *)
Lemma truncated_id c : truncated (zlen c) c = c.
Proof. unfold truncated, zlen. rewrite Nat2Z.id, firstn_all, Nat.sub_diag. by rewrite app_nil_r. Qed.

Section opening.
Context {W : Type} `{OS W, OSViewOf W, !FileLaws W}.
Context (ht : htable_t) (tbl : list tfile_t) (Hwf : wf ht tbl).
Context (i : nat) (t : tfile_t) (Ht : tbl !! i = Some t) (Ho : occupied t).

(** The table with another entry in slot [i]. *)
Definition with_entry (u : tfile_t) : htable_t :=
  HTable (ht_capacity ht) (ht_size ht) (Some (<[i := u]> tbl)).

Lemma with_entry_id : with_entry t = ht.
Proof.
  unfold with_entry. rewrite list_insert_id by done. rewrite <- (wf_table _ _ Hwf).
  by destruct ht.
Qed.

(** The file of the entry: its location, or its name in the working directory. *)
Definition file_of : option (list Z) :=
  match t_f_location t with
  | FHeap p => Some p
  | FNull => cstr (td_name (t_tdef t))
  | FName s => if s =? Z.of_nat i then cstr (td_name (t_tdef t)) else None
  end.
Definition opened_location : f_location_t :=
  match t_f_location t with FNull => FName (Z.of_nat i) | l => l end.

Definition located : tfile_t := set_locations opened_location (t_m_location t) t.

Lemma wf_located f m : wf (with_entry (set_locations f m t)) (<[i := set_locations f m t]> tbl).
Proof. by apply wf_relocate. Qed.

Lemma lookup_located u : <[i := u]> tbl !! i = Some u.
Proof. apply list_lookup_insert_eq. by eapply lookup_lt_Some. Qed.

(** The first part of [map_tfile]: a missing location becomes the name. *)
Lemma locate_run (w : W) p : file_of = Some p →
  (when (bool_decide (t_f_location t = FNull))
     (update_slot (Z.of_nat i) (λ t, set_locations (FName (Z.of_nat i)) (t_m_location t) t)))
    (Store ht w) = Done tt (Store (with_entry located) w) ∧
  f_path (t_f_location located) (Store (with_entry located) w) = Done p (Store (with_entry located) w).
Proof.
  unfold file_of. intros Hp. split.
  - case_bool_decide as Hl; cbn [when].
    + rewrite (update_slot_run ht tbl Hwf w i t _ Ht). unfold located, opened_location, with_entry. by rewrite Hl.
    + unfold located, opened_location, mret, M_ret. rewrite <- with_entry_id at 1. do 3 f_equal.
      destruct t as [d l m]. cbn in *. by destruct l.
  - pose proof (slot_run _ _ (wf_located opened_location (t_m_location t)) w i located (lookup_located _)) as Hs.
    change (with_entry (set_locations opened_location (t_m_location t) t)) with (with_entry located) in Hs.
    unfold located at 1. cbn [set_locations t_f_location]. unfold opened_location.
    destruct (t_f_location t) as [|q|s] eqn:Hl; cbn [f_path].
    + rewrite (bind_done _ _ _ _ _ Hs). cbn. by rewrite Hp.
    + by injection Hp as ->.
    + destruct (Z.eqb_spec s (Z.of_nat i)) as [->|]; [|done].
      rewrite (bind_done _ _ _ _ _ Hs). cbn. by rewrite Hp.
Qed.

(** What the process has after the file is mapped at [a]. *)
Definition mapped_view (p : list Z) (a : Z) (v : osview) : osview :=
  set_maps (<[a := (p, td_size (t_tdef t))]>)
    (set_files (<[p := truncated (td_size (t_tdef t)) (default [] (v_files v !! p))]>) v).

Lemma map_tfile_spec `{!DiskRoom W} w p (Q : bool → store W → Prop) :
  file_of = Some p → t_m_location t = 0 → 0 < td_size (t_tdef t) < 2 ^ 44 →
  (** [open] failed *)
  (∀ w', (os_open p O_CREAT_RDWR w).1 = -1 → os_view w' = os_view w →
     Q false (Store (with_entry located) w')) →
  (** [mmap] failed; the descriptor stays open *)
  (∀ fd w1 w', v_fds (os_view w1) !! fd = Some (p, 0) →
     os_mmap (td_size (t_tdef t)) fd w1 = (MAP_FAILED, w') → v_fds (os_view w') !! fd = Some (p, 0) →
     Q false (Store (with_entry located) w')) →
  (∀ a w', v_maps (os_view w) !! a = None → 0 < a →
     os_view w' = mapped_view p a (os_view w) →
     Q true (Store (with_entry (set_locations opened_location a t)) w')) →
  wp (map_tfile (Z.of_nat i)) Q no_fault (Store ht w).
Proof.
  intros Hp Hm Hsize HQ1 HQ2 HQ3. unfold map_tfile.
  destruct (locate_run w p Hp) as [Hloc Hpath].
  apply wp_bind. eapply wp_of_run; [by apply (slot_run ht tbl Hwf)|].
  apply wp_bind. eapply wp_of_run; [exact Hloc|].
  assert (Hslot : ∀ w : W, slot (Z.of_nat i) (Store (with_entry located) w) = Done located (Store (with_entry located) w)).
  { intros w'. apply (slot_run _ _ (wf_located _ _) w'), lookup_located. }
  apply wp_bind. eapply wp_of_run; [apply Hslot|].
  apply wp_bind. eapply wp_of_run; [exact Hpath|].
  apply wp_bind, wp_zoom, wp_sys. cbn [st_os st_ht]. intros fd w1 Hopen.
  destruct (law_open_creat _ _ _ _ Hopen) as [[-> Hv]|(Hfd & Hnew & Hns & Hv)].
  { rewrite Z.eqb_refl. apply wp_ret. apply HQ1; [by rewrite Hopen|done]. }
  rewrite (proj2 (Z.eqb_neq fd (-1))) by lia.
  set (c := default [] (v_files (os_view w) !! p)) in *.
  assert (Hfd1 : v_fds (os_view w1) !! fd = Some (p, 0)) by (rewrite Hv; apply lookup_insert_eq).
  assert (Hp1 : v_files (os_view w1) !! p = Some c) by (rewrite Hv; apply lookup_insert_eq).
  change (td_size (t_tdef located)) with (td_size (t_tdef t)).
  apply wp_bind, wp_zoom, wp_sys_. cbn [st_os st_ht].
  pose proof (law_ftruncate fd (td_size (t_tdef t)) w1 p 0 c Hfd1 Hp1 ltac:(lia)) as Hv2.
  set (w2 := os_ftruncate fd _ w1) in *. rewrite wrapu_small by lia.
  apply wp_bind, wp_zoom, wp_sys. cbn [st_os st_ht]. intros a w3 Hmap.
  assert (Hfd2 : v_fds (os_view w2) !! fd = Some (p, 0)) by by rewrite Hv2.
  apply wp_bind. eapply wp_of_run; [apply Hslot|].
  change (t_m_location located) with (t_m_location t). rewrite Hm. cbn [Z.eqb].
  destruct (law_mmap _ _ _ _ _ _ _ Hfd2 (proj1 Hsize) Hmap) as [[-> Hv3]|(Ha & Hna & Hv3)].
  { rewrite Z.eqb_refl. apply wp_ret. apply (HQ2 fd w2); [done|done|by rewrite Hv3]. }
  rewrite (proj2 (Z.eqb_neq a _)) by (unfold MAP_FAILED; lia).
  apply wp_bind. eapply wp_of_run.
  { apply (update_slot_run _ _ (wf_located _ _) w3 i _ _ (lookup_located _)). }
  apply wp_bind, wp_zoom, wp_sys_. cbn [st_os st_ht]. apply wp_ret.
  rewrite list_insert_insert_eq. apply HQ3; [by rewrite Hv2, Hv in Hna|done|].
  rewrite law_close, Hv3, Hv2, Hv. unfold mapped_view, set_maps, set_fds, set_files, set_socks. cbn.
  rewrite delete_insert_id by done. fold c. rewrite insert_insert_eq.
  f_equal; set_solver.
Qed.
End opening.

(** ** [list_tfiles] *)
Definition sized (l : list tfile_t) : list tfile_def_t :=
  t_tdef <$> filter (λ t, 0 < td_size (t_tdef t)) l.

Section listing.
Context {W : Type} `{OS W} (ht : htable_t) (tbl : list tfile_t) (w : W).
Context (Htbl : ht_table ht = Some tbl) (Hlen : zlen tbl = ht_capacity ht).
Context (Hcap : ht_capacity ht < 2 ^ 31).

Lemma list_body_at i t acc : tbl !! i = Some t → zlen acc < ht_size ht →
  list_body true (Z.of_nat i, acc) (Store ht w) =
    Done (inl (Z.of_nat (S i), if 0 <? td_size (t_tdef t) then acc ++ [t_tdef t] else acc)) (Store ht w).
Proof.
  intros Ht Hacc. unfold list_body. rewrite (bind_done _ _ _ ht (Store ht w)) by done.
  pose proof (lookup_lt_Some _ _ _ Ht) as Hi. unfold zlen in Hlen.
  rewrite (proj2 (Z.ltb_lt (Z.of_nat i) _)), (proj2 (Z.ltb_lt (zlen acc) _)) by lia. cbn [andb negb].
  rewrite (bind_done _ _ _ _ _ (slot_at ht tbl w i t Htbl Ht)), andb_false_r. cbn [when].
  unfold mbind, M_bind, add_s32. cbn. rewrite bool_decide_true by lia. cbn.
  by rewrite Nat2Z.inj_succ.
Qed.

Lemma list_body_end i acc : ht_capacity ht ≤ i ∨ ht_size ht ≤ zlen acc →
  list_body true (i, acc) (Store ht w) = Done (inr acc) (Store ht w).
Proof.
  intros Hend. unfold list_body. rewrite (bind_done _ _ _ ht (Store ht w)) by done.
  destruct (Z.ltb_spec i (ht_capacity ht)), (Z.ltb_spec (zlen acc) (ht_size ht)); (done || lia).
Qed.

Lemma sized_cons t l : sized (t :: l) =
  if 0 <? td_size (t_tdef t) then t_tdef t :: sized l else sized l.
Proof.
  unfold sized. rewrite filter_cons.
  destruct (Z.ltb_spec 0 (td_size (t_tdef t))); [by rewrite decide_True|by rewrite decide_False by lia].
Qed.

Lemma list_loop l : ∀ i acc fuel, drop i tbl = l → (i + length l = length tbl)%nat →
  (length l < fuel)%nat →
  iter fuel (list_body true) (Z.of_nat i, acc) (Store ht w) =
    Done (acc ++ take (Z.to_nat (ht_size ht - zlen acc)) (sized l)) (Store ht w).
Proof.
  induction l as [|t l IH]; intros i acc fuel Hl Hi Hf; (destruct fuel as [|fuel]; [cbn in Hf; lia|]);
    cbn [iter]; cbn [length] in Hi, Hf; unfold zlen in Hlen.
  - rewrite (bind_done _ _ _ _ _ (list_body_end (Z.of_nat i) acc ltac:(left; lia))).
    cbn. by rewrite take_nil, app_nil_r.
  - destruct (decide (zlen acc < ht_size ht)) as [Hlt|Hge].
    + assert (Ht : tbl !! i = Some t) by (by rewrite <- (Nat.add_0_r i), <- lookup_drop, Hl).
      rewrite (bind_done _ _ _ _ _ (list_body_at i t acc Ht Hlt)), sized_cons.
      rewrite (drop_S _ _ _ Ht) in Hl. injection Hl as Hl.
      rewrite IH by (done || lia). destruct (0 <? td_size (t_tdef t)); [|done].
      rewrite <- app_assoc. do 2 f_equal. unfold zlen in *. rewrite length_app. cbn [length].
      replace (Z.to_nat (ht_size ht - Z.of_nat (length acc)))
        with (S (Z.to_nat (ht_size ht - Z.of_nat (length acc + 1)))) by lia. done.
    + rewrite (bind_done _ _ _ _ _ (list_body_end (Z.of_nat i) acc ltac:(right; lia))).
      replace (Z.to_nat _) with 0%nat by lia. by rewrite take_0, app_nil_r.
Qed.
End listing.

(** The whole table is listed: what has a size was stored, and counted. *)
Lemma sized_taken ht tbl : wf ht tbl → zlen (sized tbl) ≤ ht_size ht.
Proof.
  intros Hwf. pose proof (wf_size _ _ Hwf) as [Hs _]. unfold sized, zlen in *. rewrite length_fmap.
  enough (length (filter (λ t, (0 < td_size (t_tdef t))%Z) tbl) ≤ length (filter taken tbl))%nat by lia.
  clear Hwf Hs. induction tbl as [|t l IH]; [done|]. rewrite !filter_cons.
  destruct (decide (0 < td_size (t_tdef t))) as [Hsz|], (decide (taken t)) as [|Hn]; cbn; [lia| |lia|lia].
  apply dec_stable in Hn. subst. done.
Qed.
Lemma sized_elem ht tbl d : wf ht tbl → td_f_hash d ≠ zero_hash → 0 < td_size d →
  d ∈ sized tbl ↔ ∃ t, abs tbl !! td_f_hash d = Some t ∧ t_tdef t = d.
Proof.
  intros Hwf Hnz Hsz. unfold sized. rewrite list_elem_of_fmap. setoid_rewrite list_elem_of_filter.
  setoid_rewrite list_elem_of_lookup. setoid_rewrite (abs_lookup ht tbl Hwf). split.
  - intros (t & -> & _ & i & Hi). exists t. split_and!; [done|done|by exists i|done].
  - intros (t & (Ho & Hk & i & Hi) & <-). exists t. split_and!; [done|done|by exists i].
Qed.
Lemma sized_once ht tbl : wf ht tbl → NoDup (filter (λ d, td_f_hash d ≠ zero_hash) (sized tbl)).
Proof.
  intros Hwf. apply (NoDup_fmap_1 td_f_hash). eapply sublist_NoDup; [by eapply keys_NoDup|]. clear Hwf.
  induction tbl as [|t l IH]; [done|]. rewrite sized_cons, (filter_cons occupied).
  destruct (0 <? td_size (t_tdef t)).
  - rewrite filter_cons. unfold occupied, key. destruct (decide _); cbn; [by constructor|done].
  - destruct (decide _); cbn; [by constructor|done].
Qed.
Lemma sized_all ht tbl : wf ht tbl → no_ghosts ht tbl →
  (∀ h t, abs tbl !! h = Some t → 0 < td_size (t_tdef t)) →
  sized tbl = t_tdef <$> filter occupied tbl ∧ zlen (sized tbl) = ht_size ht.
Proof.
  intros Hwf [Hsize Hempty] Hpos. assert (sized tbl = t_tdef <$> filter occupied tbl) as Heq.
  { unfold sized. f_equal. apply filter_ext_elem. intros t [i Hi]%list_elem_of_lookup.
    split; [|intros Ho; eapply Hpos; by eapply abs_lookup_at].
    intros Hsz Hz. pose proof (Hempty i t Hi ltac:(by intros ?)) as ->. cbn in Hsz. lia. }
  split; [done|]. rewrite Heq, Hsize. unfold zlen. by rewrite length_fmap.
Qed.

(** [list_tfiles] on a well-formed table. *)
Lemma list_tfiles_run {W} `{OS W, !MemoryRoom W} ht tbl (w : W) fuel :
  wf ht tbl → ht_capacity ht < 2 ^ 31 → (length tbl < fuel)%nat →
  ∃ w', on_os (sys (os_malloc (wrapu 64 (ht_size ht * sizeof_tfile_t)))) (Store ht w) =
      Done true (Store ht w') ∧
    list_tfiles fuel (Store ht w) = Done (zlen (sized tbl), sized tbl) (Store ht w').
Proof.
  intros Hwf Hcap Hf. destruct (malloc_run ht (wrapu 64 (ht_size ht * sizeof_tfile_t)) w) as [w' Hm].
  exists w'. split; [done|]. unfold list_tfiles. rewrite (bind_done _ _ _ ht (Store ht w)) by done.
  rewrite (bind_done _ _ _ _ _ Hm).
  assert (iter fuel (list_body true) (0, []) (Store ht w') = Done (sized tbl) (Store ht w')) as Hloop.
  { change 0 with (Z.of_nat 0).
    rewrite (list_loop ht tbl w' (wf_table _ _ Hwf) (wf_length _ _ Hwf) Hcap tbl) by done.
    rewrite take_ge; [done|]. pose proof (sized_taken ht tbl Hwf). unfold zlen in *. cbn. lia. }
  by rewrite (bind_done _ _ _ _ _ Hloop).
Qed.

(** ** Consequences for the verdict *)
Lemma zget_seqZ (g : Z → list Z) i : 0 ≤ i < 8 → zget (g <$> seqZ 0 8) i = Some (g i).
Proof.
  intros Hi. apply zget_Some. split; [lia|]. rewrite list_lookup_fmap, lookup_seqZ_lt by lia.
  cbn. by rewrite Z.add_0_l, Z2Nat.id by lia.
Qed.

Definition tdef_ok (d : tfile_def_t) : Prop :=
  hash_ok (td_f_hash d) ∧ zlen (td_c_hashes d) = 8 ∧ ∀ i h, zget (td_c_hashes d) i = Some h → hash_ok h.

Lemma verdict_verified d whole g i : tdef_ok d → hash_ok whole → hash_ok (g i) →
  0 ≤ i < NUM_CHUNKS →
  is_chunk_verified (verdict d whole (g <$> seqZ 0 8)) i = true ↔
  whole = td_f_hash d ∨ zget (td_c_hashes d) i = Some (g i).
Proof.
  intros (Hfh & Hcs & Hch) Hw Hg Hi. unfold verdict. rewrite same_hash_spec by done.
  case_bool_decide as Heq.
  - split; [by left|]. intros _. unfold NUM_CHUNKS in Hi.
    assert (i = 0 ∨ i = 1 ∨ i = 2 ∨ i = 3 ∨ i = 4 ∨ i = 5 ∨ i = 6 ∨ i = 7) as Hcases by lia.
    by destruct Hcases as [->|[->|[->|[->|[->|[->|[->| ->]]]]]]].
  - rewrite mask_verified by done. unfold hash_matches, NUM_CHUNKS in *. rewrite zget_seqZ by done.
    destruct (zget_range (td_c_hashes d) i) as [h Hh]; [lia|]. rewrite Hh. cbn.
    rewrite same_hash_spec, bool_decide_eq_true by (done || by eapply Hch). naive_solver.
Qed.

Lemma verdict_bound d whole hs : 0 ≤ verdict d whole hs < 256.
Proof. unfold verdict. destruct (same_hash _ _); [done|apply mask_bound]. Qed.

(** ** Properties of torrent files *)
Section properties.
Context {W : Type} `{OS W, OSViewOf W, !FileLaws W, MD5_API, !MD5Laws}.
Implicit Types (ht : htable_t) (tbl : list tfile_t) (w : W) (h : list Z).


(** C29. [verify_tfile] on a tfile in storage: chunk [i] counts as verified
    exactly when the digest of the file, or what is in slot [i] of the hash
    array afterwards, is the one in the definition; that slot has the digest
    of chunk [i] only when the file is long enough, and keeps its
    uninitialised content otherwise.  Each call leaves one more descriptor
    open. *)
Theorem verify_stored_correct `{!FdRoom W} ht tbl w h t path c fuel junk_hs junk i :
  wf ht tbl → abs tbl !! h = Some t → tdef_ok (t_tdef t) → (length tbl < fuel)%nat →
  t_m_location t = 0 → t_f_location t = FHeap path → v_files (os_view w) !! path = Some c →
  (length c < fuel)%nat → (Z.to_nat (td_size (t_tdef t)) < fuel)%nat →
  zlen c < 2 ^ 44 → 0 ≤ td_size (t_tdef t) < 2 ^ 44 →
  zlen junk_hs = 8 → (∀ j x, zget junk_hs j = Some x → hash_ok x) → 0 ≤ i < NUM_CHUNKS →
  ∃ v w' fd o, verify_tfile fuel h junk_hs junk (Store ht w) = Done v (Store ht w') ∧
    v_fds (os_view w) !! fd = None ∧
    os_view w' = set_fds (<[fd := (path, o)]>) (os_view w) ∧
    (is_chunk_verified v i = true ↔
     MD5 c = td_f_hash (t_tdef t) ∨
     zget (td_c_hashes (t_tdef t)) i =
       if zlen (chunk (td_size (t_tdef t)) c i) =? chunk_len (td_size (t_tdef t)) i
       then Some (MD5 (chunk (td_size (t_tdef t)) c i)) else zget junk_hs i).
Proof.
  intros Hwf (Ho & <- & k & Hk)%(abs_lookup ht tbl Hwf) Hok Hf Hm Hl Hp Hf1 Hf2 Hc Hsize Hjunk Hjok Hi.
  pose proof Hok as (_ & Hcs & _).
  destruct (wp_total (verify_tfile fuel (key t) junk_hs junk)
    (λ v s, ∃ w' fd o, s = Store ht w' ∧ v_fds (os_view w) !! fd = None ∧
       os_view w' = set_fds (<[fd := (path, o)]>) (os_view w) ∧
       v = verdict (t_tdef t) (MD5 c) (fd_chunk_hash (td_size (t_tdef t)) c junk_hs <$> seqZ 0 8))
    (Store ht w)) as (v & s & Hrun & w' & fd & o & -> & Hfd & Hv & ->).
  { apply (verify_stored ht tbl Hwf k t Hk Ho fuel Hf w path c); try done.
    - unfold zlen in *. lia.
    - intros w' Hopen. destruct (law_open_room path O_RDONLY w); [by right|done].
    - intros fd o w' Hfd Hv. by exists w', fd, o. }
  eexists _, w', fd, o. split_and!; [exact Hrun|done|done|].
  destruct (zget_range junk_hs i) as [x Hx]; [unfold NUM_CHUNKS in *; lia|].
  rewrite verdict_verified; [|done|apply MD5_ok| |done].
  - unfold fd_chunk_hash. rewrite Hx. by destruct (_ =? _).
  - unfold fd_chunk_hash. rewrite Hx. destruct (_ =? _); [apply MD5_ok|by eapply Hjok].
Qed.

(** C11. [generate_tfile] on a file that is not yet in the table: it
    returns 0 with the definition of the file (first 32 bytes of the name
    buffer, digest of the file, digests of the eight chunks, size), adds
    exactly that entry, with the path as its location, and closes the file. *)
Theorem generate_tfile_correct `{!FdRoom W, !MemoryRoom W} ht tbl w d file_path name path c fuel :
  wf ht tbl → last_free tbl → ht_size ht * 2 ≤ ht_capacity ht →
  cstr file_path = Some path → v_files (os_view w) !! path = Some c →
  MIN_SIZE ≤ zlen c < 2 ^ 44 → NAME_LEN ≤ zlen name → zlen (td_c_hashes d) = 8 →
  MD5 c ≠ zero_hash → abs tbl !! MD5 c = None →
  (length tbl < fuel)%nat → (length c < fuel)%nat →
  ∃ ht' tbl' w', generate_tfile fuel d file_path name (Store ht w) =
      Done (0, tdef_of name c) (Store ht' w') ∧
    wf ht' tbl' ∧ os_view w' = os_view w ∧ ht_size ht' = ht_size ht + 1 ∧
    abs tbl' = <[MD5 c := TFile (tdef_of name c) (FHeap path) 0]> (abs tbl).
Proof.
  intros Hwf Hl Hload Hpath Hp Hc Hname Hhs Hnz Ha Hf Hf2.
  destruct (wp_total (generate_tfile fuel d file_path name) (λ r s, ∃ ht' tbl' w',
      s = Store ht' w' ∧ wf ht' tbl' ∧ os_view w' = os_view w ∧ ht_size ht' = ht_size ht + 1 ∧
      abs tbl' = <[MD5 c := TFile (tdef_of name c) (FHeap path) 0]> (abs tbl) ∧
      r = (0, tdef_of name c)) (Store ht w)) as (r & s & Hrun & ht' & tbl' & w' & -> & Hrest).
  { apply (generate_spec ht tbl w d file_path name path c fuel); try done.
    - intros w' Hopen. destruct (law_open_room path O_RDONLY w); [by right|done].
    - intros ht' tbl' w' Hwf' Hv Hlen Habs Hs _. by exists ht', tbl', w'. }
  exists ht', tbl', w'. destruct Hrest as (? & ? & ? & ? & ->). by split_and!.
Qed.

(** C9. A tfile that [generate_tfile] just made verifies completely, as
    long as the file on disk is the same. *)
Theorem generate_then_verify `{!FdRoom W, !MemoryRoom W} ht tbl w d file_path name path c fuel
    junk_hs junk :
  wf ht tbl → last_free tbl → ht_size ht * 2 ≤ ht_capacity ht →
  cstr file_path = Some path → v_files (os_view w) !! path = Some c →
  MIN_SIZE ≤ zlen c < 2 ^ 44 → NAME_LEN ≤ zlen name → zlen (td_c_hashes d) = 8 →
  MD5 c ≠ zero_hash → abs tbl !! MD5 c = None →
  (length tbl < fuel)%nat → (length c < fuel)%nat → zlen junk_hs = 8 →
  wp (r ← generate_tfile fuel d file_path name;
      verify_tfile fuel (td_f_hash r.2) junk_hs junk)
    (λ v _, v = VERIFIED_FILE) no_fault (Store ht w).
Proof.
  intros Hwf Hl Hload Hpath Hp Hc Hname Hhs Hnz Ha Hf Hf2 Hjunk. unfold zlen in Hc.
  apply wp_bind, (generate_spec ht tbl w d file_path name path c fuel); try done.
  { intros w' Hopen. destruct (law_open_room path O_RDONLY w); [by right|done]. }
  intros ht' tbl' w' Hwf' Hv Hlen Habs _ _. cbn [snd].
  set (e := TFile (tdef_of name c) (FHeap path) 0) in *.
  assert (Hin : abs tbl' !! MD5 c = Some e) by (rewrite Habs; apply lookup_insert_eq).
  apply (abs_lookup ht' tbl' Hwf') in Hin as (Ho & _ & k & Hk).
  change (td_f_hash (tdef_of name c)) with (key e).
  apply (verify_stored ht' tbl' Hwf' k e Hk Ho fuel ltac:(by rewrite Hlen) w' path c); try done.
  all: try (cbn; unfold zlen in *; lia).
  - by rewrite Hv.
  - intros w2 Hopen. destruct (law_open_room path O_RDONLY w'); [right; rewrite Hv, Hp; by eexists|done].
  - intros fd o w2 _ _. unfold verdict.
    rewrite same_hash_spec by apply MD5_ok. by rewrite bool_decide_true.
Qed.

(** [open_tfile] on a mapped tfile only computes. *)
Lemma open_mapped_run ht tbl w h t fuel chunk :
  wf ht tbl → abs tbl !! h = Some t → (length tbl < fuel)%nat → t_m_location t ≠ 0 →
  0 ≤ td_size (t_tdef t) → chunk < NUM_CHUNKS →
  open_tfile fuel h chunk (Store ht w) =
    Done (chunk_len (td_size (t_tdef t)) chunk, Some (t_m_location t, chunk_off (td_size (t_tdef t)) chunk))
      (Store ht w).
Proof.
  intros Hwf (Ho & <- & k & Hk)%(abs_lookup ht tbl Hwf) Hf Hm Hsize Hc.
  unfold open_tfile. rewrite (proj2 (Z.leb_gt _ _)) by lia.
  rewrite (bind_done _ _ _ _ _ (search_present ht tbl w k t fuel Hwf Hk Ho Hf)).
  rewrite (bind_done _ _ _ _ _ (slot_run ht tbl Hwf w k t Hk)).
  rewrite (proj2 (Z.eqb_neq (t_m_location t) 0)) by done.
  rewrite (bind_done _ _ _ true (Store ht w)) by done. cbn [negb].
  rewrite (bind_done _ _ _ _ _ (slot_run ht tbl Hwf w k t Hk)).
  rewrite Z.quot_div_nonneg by (unfold NUM_CHUNKS; lia).
  unfold chunk_len, chunk_off. by destruct (Z.eqb_spec chunk (NUM_CHUNKS - 1)) as [->|].
Qed.

(** C24. [open_tfile] on a mapped tfile and a chunk index from 0 to 7
    changes nothing and returns the place and the size of the chunk; the
    eight chunks are adjacent, start at the base and end at the file's size. *)
Theorem open_tfile_mapped ht tbl w h t fuel :
  wf ht tbl → abs tbl !! h = Some t → (length tbl < fuel)%nat → t_m_location t ≠ 0 →
  0 ≤ td_size (t_tdef t) →
  let size := td_size (t_tdef t) in
  (∀ chunk, 0 ≤ chunk < NUM_CHUNKS → open_tfile fuel h chunk (Store ht w) =
     Done (chunk_len size chunk, Some (t_m_location t, chunk_off size chunk)) (Store ht w)) ∧
  chunk_off size 0 = 0 ∧
  (∀ chunk, 0 ≤ chunk < NUM_CHUNKS - 1 →
     chunk_off size (chunk + 1) = chunk_off size chunk + chunk_len size chunk) ∧
  chunk_off size 7 + chunk_len size 7 = size.
Proof.
  intros Hwf Ht Hf Hm Hsize size.
  split_and!; [|done| |change (chunk_len size 7) with (size - 7 * (size / NUM_CHUNKS)); unfold chunk_off; lia].
  - intros chunk Hc. apply (open_mapped_run ht tbl w h t fuel chunk Hwf Ht Hf Hm Hsize). lia.
  - intros chunk Hc. unfold chunk_off, chunk_len.
    rewrite (proj2 (Z.eqb_neq _ _)) by lia. lia.
Qed.

(** A negative chunk index passes the check [chunk >= NUM_CHUNKS]: the
    location [open_tfile] hands out lies in front of the mapped region, and
    any access to it is outside the object. *)
Theorem open_tfile_negative_chunk ht tbl w h t p fuel chunk n :
  wf ht tbl → abs tbl !! h = Some t → (length tbl < fuel)%nat →
  0 < t_m_location t → v_maps (os_view w) !! t_m_location t = Some (p, td_size (t_tdef t)) →
  NUM_CHUNKS ≤ td_size (t_tdef t) → chunk < 0 →
  ∃ len location, open_tfile fuel h chunk (Store ht w) = Done (len, Some location) (Store ht w) ∧
    0 < len ∧ location.2 < 0 ∧ in_region location n w = Stop OutOfBounds.
Proof.
  intros Hwf Ht Hf Hm Hmap Hsize Hc. unfold NUM_CHUNKS in Hsize.
  assert (1 ≤ td_size (t_tdef t) / 8) as Hq by (apply Z.div_le_lower_bound; lia).
  exists (td_size (t_tdef t) / 8), (t_m_location t, chunk * (td_size (t_tdef t) / 8)).
  split_and!; [|lia|cbn; nia|eapply in_region_oob; [done|exact Hmap|left; nia]].
  rewrite (open_mapped_run ht tbl w h t fuel chunk Hwf Ht Hf) by (unfold NUM_CHUNKS; lia).
  unfold chunk_len. by rewrite (proj2 (Z.eqb_neq _ _)) by (unfold NUM_CHUNKS; lia).
Qed.

(** C23. [open_tfile] on a tfile that is not mapped: it opens its file (in
    the working directory, by name, when it has no location), creates it if
    it is missing, gives it the size of the definition, maps it whole, and
    records the address; the chunk lies in the new region.  No descriptor
    stays open. *)
Theorem open_tfile_maps `{!FdRoom W, !DiskRoom W, !MapRoom W} ht tbl w h t p fuel chunk :
  wf ht tbl → abs tbl !! h = Some t → (length tbl < fuel)%nat → t_m_location t = 0 →
  match t_f_location t with
  | FHeap q => q = p
  | FNull => cstr (td_name (t_tdef t)) = Some p
  | FName _ => False
  end →
  0 < td_size (t_tdef t) < 2 ^ 44 → 0 ≤ chunk < NUM_CHUNKS →
  let size := td_size (t_tdef t) in
  let content := truncated size (default [] (v_files (os_view w) !! p)) in
  ∃ a f ht' tbl' w',
    open_tfile fuel h chunk (Store ht w) =
      Done (chunk_len size chunk, Some (a, chunk_off size chunk)) (Store ht' w') ∧
    wf ht' tbl' ∧ abs tbl' = <[h := set_locations f a t]> (abs tbl) ∧
    region_at w' a size p content ∧ v_fds (os_view w') = v_fds (os_view w) ∧
    v_files (os_view w') = <[p := content]> (v_files (os_view w)).
Proof.
  intros Hwf (Ho & <- & k & Hk)%(abs_lookup ht tbl Hwf) Hf Hm Hp Hsize Hc size content.
  assert (Hfile : file_of k t = Some p).
  { unfold file_of. destruct (t_f_location t); [done|by subst|done]. }
  destruct (wp_total (map_tfile (Z.of_nat k)) (λ b s, ∃ a w', b = true ∧
      s = Store (with_entry ht tbl k (set_locations (opened_location k t) a t)) w' ∧
      0 < a ∧ os_view w' = mapped_view t p a (os_view w)) (Store ht w))
    as (b & s & Hrun & a & w' & -> & -> & Ha & Hv).
  { apply (map_tfile_spec ht tbl Hwf k t Hk Ho w p); try done.
    - intros w' Hopen. destruct (law_open_room p O_CREAT_RDWR w); [by left|done].
    - intros fd w1 w' Hfd Hmap _.
      destruct (law_mmap_room (td_size (t_tdef t)) fd w1); [by eexists|lia|by rewrite Hmap].
    - intros a w' _ Ha Hv. by exists a, w'. }
  destruct (wf_relocate ht tbl k t (opened_location k t) a Hwf Hk Ho) as [Hwf' Habs].
  exists a, (opened_location k t), (with_entry ht tbl k (set_locations (opened_location k t) a t)).
  exists (<[k := set_locations (opened_location k t) a t]> tbl), w'.
  split_and!; [|done|done| |by rewrite Hv|by rewrite Hv].
  - unfold open_tfile. rewrite (proj2 (Z.leb_gt _ _)) by lia.
    rewrite (bind_done _ _ _ _ _ (search_present ht tbl w k t fuel Hwf Hk Ho Hf)).
    rewrite (bind_done _ _ _ _ _ (slot_run ht tbl Hwf w k t Hk)), Hm. cbn [Z.eqb].
    rewrite (bind_done _ _ _ _ _ Hrun). cbn [negb].
    rewrite (bind_done _ _ _ _ _ (slot_run _ _ Hwf' w' k _ (lookup_located tbl k t Hk _))).
    cbn [set_locations t_tdef t_m_location]. fold size.
    rewrite Z.quot_div_nonneg by (unfold NUM_CHUNKS; lia).
    unfold chunk_len, chunk_off. destruct (Z.eqb_spec chunk (NUM_CHUNKS - 1)) as [->|]; done.
  - split_and!; [done| | |].
    + rewrite Hv. cbn. apply lookup_insert_eq.
    + rewrite Hv. cbn. apply lookup_insert_eq.
    + subst content. rewrite zlen_truncated; lia.
Qed.

(** C25. [save_tfile] on a mapped tfile: it removes the mapping and the
    recorded address and nothing else (the file keeps what was written
    through the mapping), or returns -1 with everything as it was. *)
Theorem save_tfile_correct ht tbl w h t fuel :
  wf ht tbl → abs tbl !! h = Some t → (length tbl < fuel)%nat → t_m_location t ≠ 0 →
  match save_tfile fuel h (Store ht w) with
  | Done rc s =>
      (rc = 0 ∧ os_view (st_os s) = set_maps (delete (t_m_location t)) (os_view w) ∧
       ∃ tbl', wf (st_ht s) tbl' ∧ abs tbl' = <[h := set_locations (t_f_location t) 0 t]> (abs tbl)) ∨
      (rc = -1 ∧ st_ht s = ht ∧ os_view (st_os s) = os_view w)
  | Stop _ => False
  end.
Proof.
  intros Hwf (Ho & <- & k & Hk)%(abs_lookup ht tbl Hwf) Hf Hm.
  assert (wp (save_tfile fuel (key t)) (λ rc s,
    (rc = 0 ∧ os_view (st_os s) = set_maps (delete (t_m_location t)) (os_view w) ∧
       ∃ tbl', wf (st_ht s) tbl' ∧ abs tbl' = <[key t := set_locations (t_f_location t) 0 t]> (abs tbl)) ∨
    (rc = -1 ∧ st_ht s = ht ∧ os_view (st_os s) = os_view w)) no_fault (Store ht w)) as Hwp;
    [|by unfold wp in Hwp; destruct (save_tfile _ _ _)].
  unfold save_tfile. apply wp_bind. eapply wp_of_run; [by apply (search_present ht tbl w k t fuel)|].
  apply wp_bind. eapply wp_of_run; [by apply (slot_run ht tbl Hwf)|].
  rewrite (proj2 (Z.eqb_neq _ _)) by done.
  apply wp_bind, wp_zoom, wp_sys. cbn [st_os st_ht]. intros rc w1 Hsync.
  pose proof (law_msync (t_m_location t) (td_size (t_tdef t)) w) as Hv1. rewrite Hsync in Hv1. cbn in Hv1.
  destruct (Z.eqb_spec rc 0) as [->|]; cbn [negb]; [|apply wp_ret; by right].
  apply wp_bind, wp_zoom, wp_sys. cbn [st_os st_ht]. intros rc w2 Hun.
  pose proof (law_munmap _ _ _ _ _ Hun) as Hv2. rewrite Hv1 in Hv2.
  destruct (Z.eqb_spec rc 0) as [->|]; cbn [negb]; [|apply wp_ret; by right].
  apply wp_bind. eapply wp_of_run; [by apply (update_slot_run ht tbl Hwf w2 k t)|].
  apply wp_ret. left. split_and!; [done|done|].
  eexists. by apply (wf_relocate ht tbl k t (t_f_location t) 0 Hwf Hk Ho).
Qed.
End properties.

Section more_properties.
Context {W : Type} `{OS W}.
Implicit Types (ht : htable_t) (tbl : list tfile_t) (w : W).

(** [list_tfiles] reports what has a positive size, in slot order, and
    its result is their number: each tfile of the table once, whatever
    definitions with a zero hash were stored in between; without those, and
    when every definition in the table has a positive size, exactly the
    tfiles of the table, [htable->size] of them. *)
Theorem list_tfiles_correct `{!MemoryRoom W} ht tbl w fuel :
  wf ht tbl → ht_capacity ht < 2 ^ 31 → (length tbl < fuel)%nat →
  ∃ w' l, list_tfiles fuel (Store ht w) = Done (zlen l, l) (Store ht w') ∧
    NoDup (filter (λ d, td_f_hash d ≠ zero_hash) l) ∧
    (∀ d, td_f_hash d ≠ zero_hash → 0 < td_size d →
       (d ∈ l ↔ ∃ t, abs tbl !! td_f_hash d = Some t ∧ t_tdef t = d)) ∧
    (no_ghosts ht tbl → (∀ h t, abs tbl !! h = Some t → 0 < td_size (t_tdef t)) →
       l = t_tdef <$> filter occupied tbl ∧ zlen l = ht_size ht).
Proof.
  intros Hwf Hcap Hf. destruct (list_tfiles_run ht tbl w fuel Hwf Hcap Hf) as (w' & _ & Hrun).
  exists w', (sized tbl). split_and!; [done|by eapply sized_once| |].
  - intros d. by apply sized_elem with (ht := ht).
  - by apply sized_all.
Qed.

(** [is_chunk_verified] tests the bit of its chunk, chunk 0 being the
    most significant of the eight, and no index outside 0 to 7 is verified. *)
Theorem is_chunk_verified_bit chunks i :
  is_chunk_verified chunks i = (0 <=? i) && (i <? NUM_CHUNKS) && Z.testbit chunks (7 - i).
Proof.
  unfold is_chunk_verified, NUM_CHUNKS.
  destruct (Z.ltb_spec i 0), (Z.leb_spec 8 i), (Z.leb_spec 0 i), (Z.ltb_spec i 8);
    cbn [orb andb]; try done; try lia.
  assert (∀ x, Z.land x 1 = x mod 2) as -> by (intros x; by apply (Z.land_ones x 1)).
  rewrite <- (Z.bit0_mod (Z.shiftr chunks (8 - 1 - i))), Z.shiftr_spec by lia.
  replace (0 + (8 - 1 - i)) with (7 - i) by lia. by destruct (Z.testbit _ _).
Qed.
End more_properties.

(** ** The properties on concrete inputs *)
Module FileExamples.
Import Sim HTable.Examples.

Definition content : list Z := (λ n, n mod 251) <$> seqZ 0 300.
Definition name : list Z := replicate 31 97 ++ [0].
Definition path : list Z := [102; 105].
Definition file_path : list Z := [102; 105; 0].
Definition tdef : tfile_def_t := tdef_of name content.
Definition digest : list Z := td_f_hash tdef.
Definition stored : list tfile_t := [TFile tdef (FHeap path) 0].
Definition ht_stored : htable_t := HTable 1 1 (Some stored).
Definition mapped : list tfile_t := [TFile tdef (FHeap path) 1].
Definition ht_mapped : htable_t := HTable 1 1 (Some mapped).
Definition disk : Sim.world := Sim.boot [(path, content)].
Definition disk_mapped : Sim.world :=
  Sim.set_view (set_maps (<[1 := (path, 300)]>)) disk.
Definition empty4 : list tfile_t := replicate 4 zero_tfile.
Definition ht_empty4 : htable_t := HTable 4 0 (Some empty4).
Definition junk : list (list Z) := replicate 8 zero_hash.

Lemma ht_stored_wf : wf ht_stored stored.
Proof. apply wfb_sound. by vm_compute. Qed.
Lemma ht_mapped_wf : wf ht_mapped mapped.
Proof. apply wfb_sound. by vm_compute. Qed.
Lemma ht_empty4_wf : wf ht_empty4 empty4.
Proof. apply wfb_sound. by vm_compute. Qed.
Lemma tdef_tdef_ok : tdef_ok tdef.
Proof.
  split_and!; [apply MD5_ok|done|].
  intros i x Hi. unfold tdef, tdef_of in Hi. cbn [td_c_hashes] in Hi.
  assert (∃ m, x = MD5 m) as [m ->]; [|apply MD5_ok].
  revert Hi. unfold zget. destruct (0 <=? i); [|done].
  rewrite list_lookup_fmap. destruct (_ !! _); cbn; [|done]. intros [= <-]. by eexists.
Qed.
Lemma disk_mapped_region : region_at disk_mapped 1 300 path content.
Proof. unfold region_at. split_and!; by vm_compute. Qed.
Lemma junk_ok j x : zget junk j = Some x → hash_ok x.
Proof.
  unfold zget. destruct (0 <=? j); [|done]. intros [-> _]%lookup_replicate_1.
  split; [done|]. unfold bytes. repeat (constructor; [by vm_compute|]). constructor.
Qed.
End FileExamples.

Module FileWitness.
Import Sim HTable.Examples FileExamples.


Lemma verify_stored_correct_witness :
  ∃ v w' fd o, verify_tfile 400 digest junk zero_hash (Store ht_stored disk) =
      Done v (Store ht_stored w') ∧
    v_fds (os_view disk) !! fd = None ∧
    os_view w' = set_fds (<[fd := (path, o)]>) (os_view disk) ∧
    (is_chunk_verified v 7 = true ↔
     MD5 content = td_f_hash tdef ∨
     zget (td_c_hashes tdef) 7 =
       if zlen (chunk 300 content 7) =? chunk_len 300 7
       then Some (MD5 (chunk 300 content 7)) else zget junk 7).
Proof.
  apply (verify_stored_correct ht_stored stored disk digest (TFile tdef (FHeap path) 0)
           path content 400 junk zero_hash 7 ht_stored_wf);
    [by vm_compute|apply tdef_tdef_ok|cbn; lia|done|done|by vm_compute|
     by apply Nat.ltb_lt; vm_compute|by apply Nat.ltb_lt; vm_compute|done|done|done|
     apply junk_ok|unfold NUM_CHUNKS; lia].
Defined.

Lemma generate_tfile_correct_witness :
  ∃ ht' tbl' w', generate_tfile 400 (def 3) file_path name (Store ht_empty4 disk) =
      Done (0, tdef) (Store ht' w') ∧
    wf ht' tbl' ∧ os_view w' = os_view disk ∧ ht_size ht' = ht_size ht_empty4 + 1 ∧
    abs tbl' = <[MD5 content := TFile tdef (FHeap path) 0]> (abs empty4).
Proof.
  apply (generate_tfile_correct ht_empty4 empty4 disk (def 3) file_path name path content 400
           ht_empty4_wf);
    [by vm_compute|done|done|by vm_compute|done|done|done|by vm_compute|by vm_compute|
     by apply Nat.ltb_lt; vm_compute|by apply Nat.ltb_lt; vm_compute].
Defined.

Lemma generate_then_verify_witness :
  wp (r ← generate_tfile 400 (def 3) file_path name;
      verify_tfile 400 (td_f_hash r.2) junk zero_hash)
    (λ v _, v = VERIFIED_FILE) no_fault (Store ht_empty4 disk).
Proof.
  apply (generate_then_verify ht_empty4 empty4 disk (def 3) file_path name path content 400
           junk zero_hash ht_empty4_wf);
    [by vm_compute|done|done|by vm_compute|done|done|done|by vm_compute|by vm_compute|
     by apply Nat.ltb_lt; vm_compute|by apply Nat.ltb_lt; vm_compute|done].
Defined.

Lemma open_tfile_mapped_witness :
  let size := td_size tdef in
  (∀ chunk, 0 ≤ chunk < NUM_CHUNKS → open_tfile 9 digest chunk (Store ht_mapped disk_mapped) =
     Done (chunk_len size chunk, Some (1, chunk_off size chunk)) (Store ht_mapped disk_mapped)) ∧
  chunk_off size 0 = 0 ∧
  (∀ chunk, 0 ≤ chunk < NUM_CHUNKS - 1 →
     chunk_off size (chunk + 1) = chunk_off size chunk + chunk_len size chunk) ∧
  chunk_off size 7 + chunk_len size 7 = size.
Proof.
  apply (open_tfile_mapped ht_mapped mapped disk_mapped digest (TFile tdef (FHeap path) 1) 9
           ht_mapped_wf); [by vm_compute|cbn; lia|done|by vm_compute].
Defined.

Lemma open_tfile_negative_chunk_witness :
  ∃ len location, open_tfile 9 digest (-1) (Store ht_mapped disk_mapped) =
      Done (len, Some location) (Store ht_mapped disk_mapped) ∧
    0 < len ∧ location.2 < 0 ∧ in_region location 37 disk_mapped = Stop OutOfBounds.
Proof.
  apply (open_tfile_negative_chunk ht_mapped mapped disk_mapped digest
           (TFile tdef (FHeap path) 1) path 9 (-1) 37 ht_mapped_wf);
    [by vm_compute|cbn; lia|done|by vm_compute|by vm_compute|lia].
Defined.

Lemma open_tfile_maps_witness :
  let content := truncated 300 (default [] (v_files (os_view disk) !! path)) in
  ∃ a f ht' tbl' w',
    open_tfile 9 digest 7 (Store ht_stored disk) =
      Done (chunk_len 300 7, Some (a, chunk_off 300 7)) (Store ht' w') ∧
    wf ht' tbl' ∧
    abs tbl' = <[digest := set_locations f a (TFile tdef (FHeap path) 0)]> (abs stored) ∧
    region_at w' a 300 path content ∧ v_fds (os_view w') = v_fds (os_view disk) ∧
    v_files (os_view w') = <[path := content]> (v_files (os_view disk)).
Proof.
  apply (open_tfile_maps ht_stored stored disk digest (TFile tdef (FHeap path) 0) path 9 7
           ht_stored_wf); [by vm_compute|cbn; lia|done|done|by vm_compute|unfold NUM_CHUNKS; lia].
Defined.

Lemma save_tfile_correct_witness :
  match save_tfile 9 digest (Store ht_mapped disk_mapped) with
  | Done rc s =>
      (rc = 0 ∧ os_view (st_os s) = set_maps (delete 1) (os_view disk_mapped) ∧
       ∃ tbl', wf (st_ht s) tbl' ∧
         abs tbl' = <[digest := TFile tdef (FHeap path) 0]> (abs mapped)) ∨
      (rc = -1 ∧ st_ht s = ht_mapped ∧ os_view (st_os s) = os_view disk_mapped)
  | Stop _ => False
  end.
Proof.
  apply (save_tfile_correct ht_mapped mapped disk_mapped digest (TFile tdef (FHeap path) 1) 9
           ht_mapped_wf); [by vm_compute|cbn; lia|done].
Defined.

Lemma list_tfiles_correct_witness :
  ∃ w' l, list_tfiles 9 (Store ht_stored disk) = Done (zlen l, l) (Store ht_stored w') ∧
    NoDup (filter (λ d, td_f_hash d ≠ zero_hash) l) ∧
    (∀ d, td_f_hash d ≠ zero_hash → 0 < td_size d →
       (d ∈ l ↔ ∃ t, abs stored !! td_f_hash d = Some t ∧ t_tdef t = d)) ∧
    (no_ghosts ht_stored stored → (∀ h t, abs stored !! h = Some t → 0 < td_size (t_tdef t)) →
       l = t_tdef <$> filter occupied stored ∧ zlen l = ht_size ht_stored).
Proof. apply (list_tfiles_correct ht_stored stored disk 9 ht_stored_wf); [done|cbn; lia]. Defined.
End FileWitness.
