(* ===== verification/Message.v ===== *)
(** * Messages between peers (message.h, message.c)

    The header [message_info_t] with its layout in memory, sending, receiving
    and peeking, over the socket calls of [OS.v].  Bytes and lengths are the
    program's: [ssize_t] results compared with [size_t] wrap to 64 bits. *)
From S2P Require Import Prelude OS Sim.

Definition REQUEST_FILE_DATA : Z := 0xA.
Definition FILE_DATA : Z := 0xB.
Definition TFILE_DEF : Z := 0xC.
Definition ADDR_SELF : Z := 0xD.
Definition REQUEST_ADDR_SELF : Z := 0xE.

Definition FAILED : Z := -1.
Definition SUCCESS : Z := 0.

(** message.h: message_info_t, with the seven bytes of padding between its
    fields, which travel with it. *)
Record message_info_t : Type := MessageInfo {
  mi_type : Z;
  mi_pad : list Z;
  mi_size : Z
}.

Definition sizeof_message_info_t : Z := 16.

(** The bytes of the struct in memory, and back. *)
Definition encode_info (info : message_info_t) : list Z :=
  mi_type info :: mi_pad info ++ le_bytes 8 (mi_size info).
Definition decode_info (bs : list Z) : message_info_t :=
  MessageInfo (hd 0 bs) (slice 1 7 bs) (u64_at bs 1).

(** Signed 64-bit addition. *)
Definition add_s64 {S} (a b : Z) : M S Z :=
  if bool_decide (- 2 ^ 63 ≤ a + b < 2 ^ 63) then mret (a + b) else stop SignedOverflow.
Definition wraps64 (z : Z) : Z := (z + 2 ^ 63) mod 2 ^ 64 - 2 ^ 63.

#[global] Arguments wraps64 : simpl never.

Section message.
Context {W : Type} `{OS W}.

(** message.c: send_message, one round of the loop. *)
Definition send_body (fd : Z) (data : list Z) (size bytes_written : Z) : M W (Z + Z) :=
  if bytes_written <? size then
    _ ← when (zlen data <? size) (stop OutOfBounds);
    rc ← sys (os_write fd (slice bytes_written (size - bytes_written) data));
    if rc <=? 0 then mret (inr FAILED)
    else mret (inl (wrapu 64 (bytes_written + rc)))
  else mret (inr SUCCESS).

(** message.c: send_message; [data] is NULL or the buffer it points to. *)
Definition send_message (fuel : nat) (fd : Z) (info : message_info_t)
    (data : option (list Z)) : M W Z :=
  rc ← sys (os_write fd (encode_info info));
  if negb (wrapu 64 rc =? sizeof_message_info_t) then mret FAILED
  else
    match data with
    | None => mret SUCCESS
    | Some d => iter fuel (send_body fd d (mi_size info)) 0
    end.

(** message.c: receive_message, one round of the first loop: the buffer and
    the bytes read so far; it ends with the buffer and the bytes read, or with
    the buffer and a failed [read]. *)
Definition receive_body (fd size : Z) (x : list Z * Z)
    : M W (list Z * Z + list Z * option Z) :=
  let '(data, bytes_read) := x in
  if bytes_read <? size then
    r ← sys (os_read fd (size - bytes_read));
    if r.1 <=? 0 then mret (inr (data, None))
    else
      _ ← when (zlen data <? bytes_read + zlen r.2) (stop OutOfBounds);
      mret (inl (splice bytes_read r.2 data, wrapu 64 (bytes_read + r.1)))
  else mret (inr (data, Some bytes_read)).

(** message.c: receive_message, the loop that discards the rest. *)
Definition discard_body (fd extra_data bytes_discarded : Z) : M W (Z + unit) :=
  if bytes_discarded <=? extra_data then
    rc ← sys (os_recv_trunc fd (wrapu 64 (extra_data - bytes_discarded)));
    d ← add_s64 bytes_discarded rc;
    mret (inl d)
  else mret (inr tt).

(** message.c: receive_message.  The result is the return code and the
    content of the buffer afterwards. *)
Definition receive_message (fuel : nat) (fd : Z) (data : option (list Z)) (size : Z)
    : M W (Z * list Z) :=
  let size := match data with None => 0 | Some _ => size end in
  let buf := default [] data in
  r ← sys (os_read fd sizeof_message_info_t);
  if negb (wrapu 64 r.1 =? sizeof_message_info_t) then mret (FAILED, buf)
  else
    let info := decode_info r.2 in
    let size := if mi_size info <? size then mi_size info else size in
    res ← iter fuel (receive_body fd size) (buf, 0);
    match res with
    | (buf, None) => mret (FAILED, buf)
    | (buf, Some bytes_read) =>
        let extra_data := wraps64 (mi_size info - bytes_read) in
        _ ← when (negb (extra_data =? 0)) (iter fuel (discard_body fd extra_data) 0);
        mret (SUCCESS, buf)
    end.

(** message.c: incoming_message_info.  The result is the return code and what
    [*info] is set to, if it is. *)
Definition incoming_message_info (fd : Z) : M W (Z * option message_info_t) :=
  r ← sys (os_recv_peek fd sizeof_message_info_t);
  if negb (wrapu 64 r.1 =? sizeof_message_info_t) then mret (FAILED, None)
  else mret (SUCCESS, Some (decode_info r.2)).
End message.

(** ** The header *)
Definition info_ok (info : message_info_t) : Prop :=
  is_byte (mi_type info) ∧ zlen (mi_pad info) = 7 ∧ 0 ≤ mi_size info < 2 ^ 64.

Lemma encode_info_length info : info_ok info → zlen (encode_info info) = sizeof_message_info_t.
Proof.
  intros (_ & Hpad & _). unfold zlen, encode_info in *. cbn [length].
  rewrite length_app, length_le_bytes. unfold sizeof_message_info_t. lia.
Qed.

Lemma decode_encode_info info rest : info_ok info → decode_info (encode_info info ++ rest) = info.
Proof.
  intros (Hty & Hpad & Hs). unfold decode_info, encode_info, u64_at.
  destruct info as [ty pad n]. cbn [mi_type mi_pad mi_size app hd] in *.
  apply zlen_7 in Hpad as (b1 & b2 & b3 & b4 & b5 & b6 & b7 & ->).
  f_equal. trans (le_val (take 8 (le_bytes 8 n ++ rest))); [done|].
  rewrite take_app_length' by by rewrite length_le_bytes.
  by apply le_val_le_bytes.
Qed.

(** ** What a socket call leaves behind *)
Definition append_out (fd : Z) (sent : list Z) (m : gmap Z (list Z)) : gmap Z (list Z) :=
  if decide (sent = []) then m else <[fd := (m !!! fd) ++ sent]> m.
Definition skip_in (fd n : Z) (m : gmap Z (list Z)) : gmap Z (list Z) :=
  if n =? 0 then m else <[fd := drop (Z.to_nat n) (m !!! fd)]> m.

Lemma append_out_at fd sent m : append_out fd sent m !!! fd = (m !!! fd) ++ sent.
Proof.
  unfold append_out. destruct (decide _) as [->|]; [by rewrite app_nil_r|].
  by rewrite lookup_total_insert_eq.
Qed.

Lemma append_out_app fd s1 s2 m : append_out fd s2 (append_out fd s1 m) = append_out fd (s1 ++ s2) m.
Proof.
  unfold append_out.
  destruct (decide (s2 = [])) as [->|Hs2]; [by rewrite app_nil_r|].
  rewrite (decide_False (P := s1 ++ s2 = [])) by (by intros [??]%app_nil).
  destruct (decide (s1 = [])) as [->|]; [done|].
  by rewrite lookup_total_insert_eq, insert_insert_eq, app_assoc.
Qed.

Lemma skip_in_at fd n m : 0 ≤ n → skip_in fd n m !!! fd = drop (Z.to_nat n) (m !!! fd).
Proof.
  intros. unfold skip_in. destruct (Z.eqb_spec n 0) as [->|]; [done|].
  by rewrite lookup_total_insert_eq.
Qed.

Lemma skip_in_add fd n k m : 0 ≤ n → 0 ≤ k → skip_in fd k (skip_in fd n m) = skip_in fd (n + k) m.
Proof.
  intros. unfold skip_in. destruct (Z.eqb_spec k 0) as [->|]; [by rewrite Z.add_0_r|].
  rewrite (proj2 (Z.eqb_neq (n + k) 0)) by lia.
  destruct (Z.eqb_spec n 0) as [->|]; [done|].
  rewrite lookup_total_insert_eq, insert_insert_eq, drop_drop. do 2 f_equal. lia.
Qed.

Section traffic.
Context {W : Type} `{OS W, OSViewOf W, !SockLaws W}.
Implicit Types w : W.

(** From [w] to [w'] only: [sent] was written to [fd]; [n] bytes of [fd] were read. *)
Definition wrote (fd : Z) (sent : list Z) (w w' : W) : Prop :=
  os_view w' = set_out (append_out fd sent) (os_view w).
Definition consumed (fd n : Z) (w w' : W) : Prop :=
  0 ≤ n ∧ os_view w' = set_in (skip_in fd n) (os_view w).

Lemma wrote_nil fd w : wrote fd [] w w.
Proof. unfold wrote, set_out. cbn. by destruct (os_view w). Qed.

Lemma wrote_trans fd s1 s2 w1 w2 w3 :
  wrote fd s1 w1 w2 → wrote fd s2 w2 w3 → wrote fd (s1 ++ s2) w1 w3.
Proof. unfold wrote, set_out. intros H1 ->. rewrite H1. cbn. by rewrite append_out_app. Qed.

Lemma wrote_out fd s w w' : wrote fd s w w' → v_out (os_view w') !!! fd = (v_out (os_view w) !!! fd) ++ s.
Proof. intros ->. apply append_out_at. Qed.

Lemma consumed_0 fd w : consumed fd 0 w w.
Proof. unfold consumed, set_in. split; [done|]. cbn. by destruct (os_view w). Qed.

Lemma consumed_trans fd n k w1 w2 w3 :
  consumed fd n w1 w2 → consumed fd k w2 w3 → consumed fd (n + k) w1 w3.
Proof.
  unfold consumed, set_in. intros [Hn H1] [Hk ->]. rewrite H1. cbn.
  rewrite skip_in_add by done. split; [lia|done].
Qed.

Lemma consumed_in fd n w w' : consumed fd n w w' →
  v_in (os_view w') !!! fd = drop (Z.to_nat n) (v_in (os_view w) !!! fd).
Proof. intros [Hn ->]. by apply skip_in_at. Qed.

Lemma consumed_fds fd n w w' : consumed fd n w w' → v_fds (os_view w') = v_fds (os_view w).
Proof. by intros [_ ->]. Qed.

(** A write transfers a prefix of the buffer. *)
Lemma write_run fd buf w rc w' : os_write fd buf w = (rc, w') →
  -1 ≤ rc ≤ zlen buf ∧ wrote fd (slice 0 (Z.max 0 rc) buf) w w'.
Proof.
  intros Hw. destruct (law_write _ _ _ _ _ Hw) as [Hle Hv]. split; [done|].
  unfold wrote. rewrite Hv. destruct (Z.ltb_spec 0 rc) as [Hlt|Hge].
  - rewrite Z.max_r by lia. unfold set_out, append_out. rewrite decide_False; [done|].
    intros Hnil%(f_equal zlen). rewrite length_slice in Hnil by lia. change (zlen []) with 0 in Hnil. lia.
  - rewrite Z.max_l by lia. unfold set_out. cbn. by destruct (os_view w).
Qed.

(** A read transfers a prefix of what the peer has sent. *)
Lemma read_run fd n w rc data w' : v_fds (os_view w) !! fd = None → 0 ≤ n →
  os_read fd n w = (rc, data, w') →
  -1 ≤ rc ≤ n ∧ consumed fd (Z.max 0 rc) w w' ∧ zlen data = Z.max 0 rc ∧
  data = slice 0 (Z.max 0 rc) (v_in (os_view w) !!! fd).
Proof.
  intros Hfd Hn Hr. destruct (law_read_sock _ _ _ _ _ _ Hfd Hn Hr) as (Hle & Hle2 & Hv).
  split; [done|]. destruct (Z.ltb_spec 0 rc) as [Hlt|Hge]; destruct Hv as [-> Hv].
  - rewrite Z.max_r by lia. split_and!; [|rewrite length_slice; lia|done].
    split; [lia|]. rewrite Hv. unfold set_in, skip_in. by rewrite (proj2 (Z.eqb_neq _ _)) by lia.
  - rewrite Z.max_l by lia. split_and!; [|done|done].
    split; [lia|]. rewrite Hv. unfold set_in. cbn. by destruct (os_view w).
Qed.
End traffic.

(** ** Sending and receiving *)
Lemma splice_step a b (c : list Z) : splice (zlen a) b (splice 0 a c) = splice 0 (a ++ b) c.
Proof.
  unfold splice. rewrite slice_0, !app_nil_l, !Z.add_0_l.
  rewrite slice_app_l by done. rewrite zlen_app, <- app_assoc. do 2 f_equal.
  unfold zlen. rewrite <- Nat2Z.inj_add, !Nat2Z.id, drop_app, drop_drop.
  rewrite drop_ge by lia. cbn. f_equal. lia.
Qed.

Lemma zlen_splice_0 a (c : list Z) : zlen a ≤ zlen c → zlen (splice 0 a c) = zlen c.
Proof.
  unfold splice, zlen. rewrite slice_0, app_nil_l, length_app, length_drop. lia.
Qed.

Section loops.
Context {W : Type} `{OS W, OSViewOf W, !SockLaws W}.
Implicit Types w : W.

(** The header as a first write. *)
Lemma send_header fd info w (Q : Z → W → Prop) E :
  info_ok info →
  (∀ rc w' k, 0 ≤ k ≤ sizeof_message_info_t → wrote fd (slice 0 k (encode_info info)) w w' →
     (wrapu 64 rc = sizeof_message_info_t → k = sizeof_message_info_t) → Q rc w') →
  wp (sys (os_write fd (encode_info info))) Q E w.
Proof.
  intros Hok HQ. apply wp_sys. intros rc w' Hw.
  destruct (write_run _ _ _ _ _ Hw) as [Hle Hv]. rewrite encode_info_length in Hle by done.
  apply (HQ rc w' (Z.max 0 rc)); [unfold sizeof_message_info_t in *; lia|done|].
  unfold wrapu, sizeof_message_info_t in *. destruct (Z.leb_spec 0 rc).
  - rewrite Z.mod_small by lia. lia.
  - assert (rc = -1) as -> by lia. done.
Qed.

(** The loop of [send_message] writes a prefix of the data, all of it on success. *)
Lemma send_loop fuel fd data size w :
  0 ≤ size < 2 ^ 64 → size ≤ zlen data → (Z.to_nat size < fuel)%nat →
  wp (iter fuel (send_body fd data size) 0) (λ rc w', ∃ k, 0 ≤ k ≤ size ∧
    wrote fd (slice 0 k data) w w' ∧ (rc = SUCCESS ∧ k = size ∨ rc = FAILED)) no_fault w.
Proof.
  intros Hs Hd Hf.
  apply wp_iter with (I := λ b w', 0 ≤ b ≤ size ∧ wrote fd (slice 0 b data) w w')
    (μ := λ b _, Z.to_nat (size - b)); [|split; [lia|apply wrote_nil]|lia].
  intros b w1 [Hb Hw1]. unfold send_body. destruct (Z.ltb_spec b size).
  - apply wp_bind. rewrite (proj2 (Z.ltb_ge _ _)) by done. apply wp_ret.
    apply wp_bind, wp_sys. intros rc w2 Hw. destruct (write_run _ _ _ _ _ Hw) as [Hle Hw2].
    rewrite length_slice in Hle by lia.
    pose proof (wrote_trans _ _ _ _ _ _ Hw1 Hw2) as Hw3.
    rewrite slice_prefix, slice_app in Hw3 by lia.
    destruct (Z.leb_spec rc 0).
    + apply wp_ret. exists b. rewrite Z.max_l, Z.add_0_r in Hw3 by lia. split_and!; [lia|lia|done|by right].
    + apply wp_ret. rewrite Z.max_r in Hw3 by lia. rewrite wrapu_small by lia.
      split; [split; [lia|done]|lia].
  - apply wp_ret. assert (b = size) as -> by lia. exists size. split_and!; [lia|lia|done|by left].
Qed.

(** The first loop of [receive_message] moves the bytes from the socket to
    the front of the buffer. *)
Lemma receive_loop fuel fd size buf w :
  v_fds (os_view w) !! fd = None → 0 ≤ size < 2 ^ 64 → size ≤ zlen buf →
  (Z.to_nat size < fuel)%nat →
  wp (iter fuel (receive_body fd size) (buf, 0)) (λ r w', ∃ n, 0 ≤ n ≤ size ∧
    consumed fd n w w' ∧ r.1 = splice 0 (slice 0 n (v_in (os_view w) !!! fd)) buf ∧
    match r.2 with
    | Some b => b = size ∧ n = size ∧ size ≤ zlen (v_in (os_view w) !!! fd)
    | None => True
    end) no_fault w.
Proof.
  intros Hfd Hs Hbuf Hf. set (pend := v_in (os_view w) !!! fd).
  apply wp_iter with (I := λ x w', 0 ≤ x.2 ≤ size ∧ x.2 ≤ zlen pend ∧ consumed fd x.2 w w' ∧
      x.1 = splice 0 (slice 0 x.2 pend) buf)
    (μ := λ x _, Z.to_nat (size - x.2));
    [|split_and!; [cbn; lia..|cbn; apply zlen_nonneg|apply consumed_0|done]|cbn; lia].
  intros [d b] w1 (Hb & Hp & Hc & Hd). cbn [fst snd] in *. subst d. unfold receive_body.
  destruct (Z.ltb_spec b size).
  - apply wp_bind, wp_sys. intros [rc data] w2 Hr.
    destruct (read_run fd (size - b) w1 rc data w2) as (Hle & Hc2 & Hlen & Hdata);
      [by rewrite (consumed_fds _ _ _ _ Hc)|lia|done|].
    rewrite (consumed_in _ _ _ _ Hc) in Hdata. fold pend in Hdata.
    pose proof (consumed_trans _ _ _ _ _ _ Hc Hc2) as Hc3. cbn [fst snd].
    destruct (Z.leb_spec rc 0).
    + apply wp_ret. exists b. rewrite Z.max_l, Z.add_0_r in Hc3 by lia. by split_and!; try lia.
    + rewrite Z.max_r in * by lia.
      assert (data = slice b rc pend) as -> by (rewrite Hdata; unfold slice; by rewrite drop_0).
      rewrite zlen_slice in Hlen by lia.
      apply wp_bind. rewrite zlen_splice_0 by (rewrite length_slice; lia).
      rewrite zlen_slice, (proj2 (Z.ltb_ge _ _)) by lia. apply wp_ret.
      apply wp_ret. cbn [fst snd]. rewrite wrapu_small by lia. split; [|lia].
      split_and!; [lia|lia|lia|done|].
      assert (Hl : zlen (slice 0 b pend) = b) by (apply length_slice; lia).
      rewrite <- Hl at 1. rewrite splice_step, slice_app by lia. done.
  - apply wp_ret. assert (b = size) as -> by lia. exists size. cbn. by split_and!; try lia.
Qed.

(** The discarding loop has no end: [recv] never gives more bytes than it is
    asked for, and [bytes_discarded <= extra_data] also holds at the end. *)
Lemma discard_loop fuel fd extra w :
  0 ≤ extra < 2 ^ 63 →
  wp (iter fuel (discard_body fd extra) 0) (λ _ _, False) (λ _, True) w.
Proof.
  intros He. apply iter_never_returns with (I := λ b _, - 2 ^ 63 ≤ b ≤ extra); [|lia].
  clear w. intros b w Hb. unfold discard_body. rewrite (proj2 (Z.leb_le _ _)) by lia.
  apply wp_bind, wp_sys. intros rc w' Hr.
  rewrite wrapu_small in Hr by lia.
  destruct (law_recv_trunc fd (extra - b) w rc w') as (Hle & _ & _); [lia|done|].
  apply wp_bind. unfold add_s64. case_bool_decide; [|done].
  apply wp_ret, wp_ret. eexists. split; [done|lia].
Qed.
End loops.

Lemma zlen_splice off a (c : list Z) : 0 ≤ off → off + zlen a ≤ zlen c → zlen (splice off a c) = zlen c.
Proof.
  intros. unfold splice. rewrite !zlen_app, zlen_slice by lia. unfold zlen in *.
  rewrite length_drop. lia.
Qed.

Lemma wraps64_small z : - 2 ^ 63 ≤ z < 2 ^ 63 → wraps64 z = z.
Proof. intros. unfold wraps64. rewrite Z.mod_small; lia. Qed.

Section receiving.
Context {W : Type} `{OS W, OSViewOf W, !SockLaws W}.
Implicit Types w : W.

(** Whatever comes, the buffer keeps its length and holds bytes. *)
Lemma bytes_splice off a c : bytes a → bytes c → bytes (splice off a c).
Proof.
  intros Ha Hc. unfold splice. rewrite !bytes_app. split; [by apply bytes_slice|]. split; [done|].
  by apply Forall_drop.
Qed.
Definition same_buffer (n : nat) (buf : list Z) : Prop := bytes buf ∧ length buf = n.
Lemma receive_body_bytes `{!ByteReads W} fd size buf b w n : same_buffer n buf → 0 ≤ b →
  wp (receive_body fd size (buf, b)) (λ r _, match r with
    | inl (buf', b') => same_buffer n buf' ∧ 0 ≤ b'
    | inr (buf', _) => same_buffer n buf'
    end) (λ _, True) w.
Proof.
  intros [Hb Hn] Hb0. unfold receive_body. destruct (b <? size); [|done].
  apply wp_bind, wp_sys. intros [rc data] w' Hr. cbn [fst snd].
  pose proof (law_read_bytes fd (size - b) w) as Hd. rewrite Hr in Hd. cbn in Hd.
  destruct (rc <=? 0); [done|]. apply wp_bind. destruct (Z.ltb_spec (zlen buf) (b + zlen data)); [done|].
  apply wp_ret, wp_ret. split; [|by apply wrapu_bound]. split; [by apply bytes_splice|].
  pose proof (zlen_splice b data buf Hb0 ltac:(lia)). unfold zlen in *. lia.
Qed.
Lemma receive_message_bytes `{!ByteReads W} fuel fd buf size w n : same_buffer n buf →
  wp (receive_message fuel fd (Some buf) size) (λ r _, same_buffer n r.2) (λ _, True) w.
Proof.
  intros Hbuf. unfold receive_message. apply wp_bind, wp_any. intros r w1.
  destruct (negb _); [by apply wp_ret|]. apply wp_bind.
  eapply (wp_iter_partial (λ x _, same_buffer n x.1 ∧ 0 ≤ x.2)).
  - intros [buf1 b1] w2 [H1 H2]. eapply wp_conseq; [by apply receive_body_bytes|].
    intros [[buf2 b2]|[buf2 o]] w3; cbn; [done|]. intros H3. destruct o; [|by apply wp_ret].
    apply wp_bind, wp_any. intros _ w4. by apply wp_ret.
  - by split.
Qed.

(** The first loop of [receive_message] never gets past the end of the buffer. *)
Lemma overrun_loop fuel fd size buf w :
  v_fds (os_view w) !! fd = None → zlen buf < size < 2 ^ 64 →
  wp (iter fuel (receive_body fd size) (buf, 0)) (λ r _, r.2 = None) (λ _, True) w.
Proof.
  intros Hfd Hs.
  apply wp_iter_partial with (I := λ x w', 0 ≤ x.2 ≤ zlen x.1 ∧ zlen x.1 = zlen buf ∧
    v_fds (os_view w') !! fd = None); [|split_and!; [cbn; lia|cbn; apply zlen_nonneg|done|done]].
  clear w Hfd. intros [d b] w (Hb & Hd & Hfd). cbn [fst snd] in *. unfold receive_body.
  rewrite (proj2 (Z.ltb_lt _ _)) by lia. apply wp_bind, wp_sys. intros [rc data] w2 Hr.
  destruct (read_run fd (size - b) w rc data w2) as (Hle & Hc & Hlen & _); [done|lia|done|].
  cbn [fst snd]. destruct (Z.leb_spec rc 0); [by apply wp_ret|].
  apply wp_bind, wp_when; [by intros _|]. intros Hroom%Z.ltb_ge.
  apply wp_ret. cbn [fst snd]. rewrite wrapu_small by lia.
  rewrite (consumed_fds _ _ _ _ Hc), zlen_splice by lia. split_and!; [lia|lia|lia|done].
Qed.

(** The first read of [receive_message]: the header, when 16 bytes come. *)
Lemma receive_header fd w pend (Q : Z * list Z → W → Prop) E :
  v_fds (os_view w) !! fd = None → v_in (os_view w) !!! fd = pend →
  (∀ rc w' n, wrapu 64 rc ≠ sizeof_message_info_t → consumed fd n w w' →
     Q (rc, slice 0 n pend) w') →
  (∀ w', consumed fd sizeof_message_info_t w w' → sizeof_message_info_t ≤ zlen pend →
     Q (sizeof_message_info_t, slice 0 sizeof_message_info_t pend) w') →
  wp (sys (os_read fd sizeof_message_info_t)) Q E w.
Proof.
  intros Hfd <- Hshort Hfull. apply wp_sys. intros [rc data] w' Hr.
  destruct (read_run fd sizeof_message_info_t w rc data w') as (Hle & Hc & Hlen & ->); [done|done|done|].
  unfold sizeof_message_info_t in *. destruct (decide (rc = 16)) as [->|Hne].
  - apply Hfull; [done|]. rewrite zlen_slice in Hlen by lia. lia.
  - apply Hshort; [|done]. unfold wrapu. destruct (Z.leb_spec 0 rc).
    + by rewrite Z.mod_small by lia.
    + by assert (rc = -1) as -> by lia.
Qed.

(** [receive_message] on a whole message, with room for it. *)
Lemma receive_whole fuel fd info body rest buf size w :
  info_ok info → v_fds (os_view w) !! fd = None →
  v_in (os_view w) !!! fd = encode_info info ++ body ++ rest →
  zlen body = mi_size info → mi_size info ≤ size → mi_size info ≤ zlen buf →
  (Z.to_nat (mi_size info) < fuel)%nat →
  wp (receive_message fuel fd (Some buf) size) (λ r w', ∃ n, consumed fd n w w' ∧
    (r = (SUCCESS, splice 0 body buf) ∧ n = sizeof_message_info_t + mi_size info ∧
       v_in (os_view w') !!! fd = rest ∨
     r.1 = FAILED)) no_fault w.
Proof.
  intros Hok Hfd Hin Hbody Hsize Hbuf Hf. pose proof Hok as (_ & _ & Hmi).
  unfold receive_message. apply wp_bind.
  eapply receive_header; [done|exact Hin|..].
  { intros rc w' n Hrc Hc. cbn [fst]. rewrite (proj2 (Z.eqb_neq _ _)) by done.
    apply wp_ret. exists n. split; [done|by right]. }
  intros w1 Hc1 _. cbn [fst snd]. change (wrapu 64 _ =? _) with true. cbn [negb].
  rewrite slice_app_l by by apply encode_info_length.
  pose proof (decode_encode_info info [] Hok) as Hdec. rewrite app_nil_r in Hdec. rewrite Hdec.
  assert ((if mi_size info <? size then mi_size info else size) = mi_size info) as ->
    by (destruct (Z.ltb_spec (mi_size info) size); lia).
  apply wp_bind. eapply wp_conseq.
  { apply receive_loop; [by rewrite (consumed_fds _ _ _ _ Hc1)|done|done|done]. }
  intros [d [b|]] w2 (n & Hn & Hc2 & Hd & Hres); cbn [fst snd] in *;
    pose proof (consumed_trans _ _ _ _ _ _ Hc1 Hc2) as Hc.
  - destruct Hres as (-> & -> & _). rewrite Z.sub_diag. apply wp_bind.
    change (negb _) with false. apply wp_ret, wp_ret. eexists. split; [exact Hc|]. left.
    rewrite Hd, (consumed_in _ _ _ _ Hc1), Hin, drop_zlen_app by by apply encode_info_length.
    rewrite slice_app_l by done. split_and!; [done|done|].
    rewrite (consumed_in _ _ _ _ Hc), Hin, app_assoc, drop_zlen_app; [done|].
    rewrite zlen_app, encode_info_length by done. lia.
  - apply wp_ret. eexists. split; [exact Hc|by right].
Qed.

(** [incoming_message_info] looks at the header and leaves it there. *)
Lemma peek_spec fd w :
  wp (incoming_message_info fd) (λ r w', os_view w' = os_view w ∧
    (r = (FAILED, None) ∨
     sizeof_message_info_t ≤ zlen (v_in (os_view w) !!! fd) ∧
     r = (SUCCESS, Some (decode_info (slice 0 sizeof_message_info_t (v_in (os_view w) !!! fd)))))) no_fault w.
Proof.
  unfold incoming_message_info. apply wp_bind, wp_sys. intros [rc data] w' Hr.
  destruct (law_recv_peek fd sizeof_message_info_t w rc data w') as (Hle & Hle2 & Hv & Hdata); [done|done|].
  cbn [fst snd]. destruct (Z.eqb_spec (wrapu 64 rc) sizeof_message_info_t) as [Heq|Hne]; cbn [negb].
  - assert (rc = sizeof_message_info_t) as ->.
    { unfold wrapu, sizeof_message_info_t in *. destruct (Z.leb_spec 0 rc).
      - rewrite Z.mod_small in Heq by lia. lia.
      - assert (rc = -1) as -> by lia. done. }
    apply wp_ret. split; [done|]. right. by rewrite <- Hdata.
  - apply wp_ret. split; [done|by left].
Qed.
End receiving.

Section sending.
Context {W : Type} `{OS W, OSViewOf W, !SockLaws W}.
Implicit Types w : W.

(** [send_message] with all it writes. *)
Lemma send_whole fuel fd info data w :
  info_ok info → mi_size info ≤ zlen data → (Z.to_nat (mi_size info) < fuel)%nat →
  wp (send_message fuel fd info (Some data)) (λ rc w', ∃ sent, wrote fd sent w w' ∧
    sent `prefix_of` encode_info info ++ slice 0 (mi_size info) data ∧
    (rc = SUCCESS ∧ sent = encode_info info ++ slice 0 (mi_size info) data ∨ rc = FAILED))
    no_fault w.
Proof.
  intros Hok Hd Hf. pose proof Hok as (_ & _ & Hs). pose proof (encode_info_length info Hok) as Hl.
  unfold send_message. apply wp_bind, send_header; [done|].
  intros rc w1 k Hk Hw1 Hrc. destruct (Z.eqb_spec (wrapu 64 rc) sizeof_message_info_t) as [Heq|]; cbn [negb].
  - specialize (Hrc Heq). subst k. rewrite slice_all in Hw1 by lia.
    eapply wp_conseq; [by apply send_loop|]. intros r w2 (k & Hk2 & Hw2 & Hr).
    exists (encode_info info ++ slice 0 k data). split; [by eapply wrote_trans|]. split.
    + apply prefix_app. rewrite <- (slice_prefix 0 k (mi_size info) data) by lia. by apply prefix_take.
    + destruct Hr as [[-> ->]| ->]; [by left|by right].
  - apply wp_ret. eexists. split; [exact Hw1|]. split; [|by right].
    apply prefix_app_r. unfold slice. rewrite drop_0. by apply prefix_take.
Qed.

(** A socket that takes everything: the whole message is sent. *)
Definition whole_writes (fd : Z) : Prop := ∀ buf (w : W), (os_write fd buf w).1 = zlen buf.
Lemma send_not_failed fuel fd info data w : whole_writes fd → info_ok info → mi_size info ≤ zlen data →
  wp (send_message fuel fd info (Some data)) (λ rc _, rc = SUCCESS) (λ _, True) w.
Proof.
  intros Hfd Hok Hd. unfold send_message. apply wp_bind, wp_sys. intros rc w1 Hw.
  pose proof (Hfd (encode_info info) w) as Hrc. rewrite Hw, encode_info_length in Hrc by done. cbn in Hrc.
  subst rc. change (negb _) with false. cbn iota.
  apply (wp_iter_partial (λ b _, 0 ≤ b)); [|done]. intros b w2 Hb. unfold send_body.
  destruct (Z.ltb_spec b (mi_size info)); [|by apply wp_ret].
  apply wp_bind, wp_when; [done|]. intros _. apply wp_bind, wp_sys. intros rc w3 Hw3.
  pose proof (Hfd (slice b (mi_size info - b) data) w2) as Hrc. rewrite Hw3 in Hrc. cbn in Hrc.
  rewrite length_slice in Hrc by lia. rewrite (proj2 (Z.leb_gt _ _)) by lia. apply wp_ret.
  by apply wrapu_bound.
Qed.

(** What a message leaves on a socket, whatever becomes of it. *)
Lemma send_gets fuel fd info data w : info_ok info → mi_size info = zlen data →
  (Z.to_nat (mi_size info) < fuel)%nat →
  wp (send_message fuel fd info (Some data)) (λ rc w', ∃ sent,
    sent `prefix_of` encode_info info ++ data ∧ (whole_writes fd → sent = encode_info info ++ data) ∧
    os_view w' = set_out (append_out fd sent) (os_view w) ∧
    (rc = SUCCESS ∧ sent = encode_info info ++ data ∨ rc = FAILED ∧ ¬ whole_writes fd)) no_fault w.
Proof.
  intros Hok Hd Hf. pose proof (send_whole fuel fd info data w Hok ltac:(lia) Hf) as Hsend.
  rewrite slice_all in Hsend by lia.
  pose proof (λ Hfd, send_not_failed fuel fd info data w Hfd Hok ltac:(lia)) as Hall. unfold wp in *.
  destruct (send_message _ _ _ _ w) as [rc w'|]; [|done].
  destruct Hsend as (sent & Hw & Hpre & Hrc). exists sent. split_and!; [done| |done|].
  - intros Hfd. specialize (Hall Hfd). subst rc. by destruct Hrc as [[_ ?]|].
  - destruct Hrc as [Hs| ->]; [by left|right]. split; [done|]. intros Hfd. by specialize (Hall Hfd).
Qed.
End sending.

(** ** Properties of messages *)
Section properties.
Context {W : Type} `{OS W, OSViewOf W, !SockLaws W}.
Implicit Types w : W.

(** C26. [send_message] always returns, and its result is the truth: on
    SUCCESS exactly the 16 bytes of the header and the [size] bytes of the
    data were written to the socket, on FAILED a prefix of them; nothing else
    in the process changes. *)
Theorem send_message_correct fuel fd info data w :
  info_ok info → mi_size info ≤ zlen data → (Z.to_nat (mi_size info) < fuel)%nat →
  wp (send_message fuel fd info (Some data)) (λ rc w', ∃ sent, wrote fd sent w w' ∧
    sent `prefix_of` encode_info info ++ slice 0 (mi_size info) data ∧
    (rc = SUCCESS ∧ sent = encode_info info ++ slice 0 (mi_size info) data ∨ rc = FAILED))
    no_fault w.
Proof. apply send_whole. Qed.

(** C27. [receive_message] on a socket whose pending bytes start with a whole
    message, with a buffer and a size not smaller than it: it returns, on
    SUCCESS the data is at the start of the buffer, the rest of the buffer is
    as before, and exactly the message was taken from the socket; the other
    result is FAILED. *)
Theorem receive_message_correct fuel fd info body rest buf size w :
  info_ok info → v_fds (os_view w) !! fd = None →
  v_in (os_view w) !!! fd = encode_info info ++ body ++ rest →
  zlen body = mi_size info → mi_size info ≤ size → mi_size info ≤ zlen buf →
  (Z.to_nat (mi_size info) < fuel)%nat →
  wp (receive_message fuel fd (Some buf) size) (λ r w', ∃ n, consumed fd n w w' ∧
    (r = (SUCCESS, splice 0 body buf) ∧ n = sizeof_message_info_t + mi_size info ∧
       v_in (os_view w') !!! fd = rest ∨
     r.1 = FAILED)) no_fault w.
Proof. intros. by apply receive_whole. Qed.


(** C36. [receive_message] never returns success when it has to truncate: for
    a message longer than the size it was given, the loop that discards the
    rest goes on for ever, however much fuel it has. *)
Theorem receive_message_truncating fuel fd info body buf size w buf' w' :
  info_ok info → v_fds (os_view w) !! fd = None →
  v_in (os_view w) !!! fd = encode_info info ++ body →
  0 ≤ size < mi_size info → mi_size info < 2 ^ 63 → size ≤ zlen buf →
  (Z.to_nat size < fuel)%nat →
  receive_message fuel fd (Some buf) size w ≠ Done (SUCCESS, buf') w'.
Proof.
  intros Hok Hfd Hin Hsize Hmi Hbuf Hf Hdone.
  enough (wp (receive_message fuel fd (Some buf) size) (λ r _, r.1 = FAILED) (λ _, True) w) as Hwp
    by (unfold wp in Hwp; rewrite Hdone in Hwp; by cbn in Hwp).
  unfold receive_message. apply wp_bind. eapply receive_header; [done|exact Hin|..].
  { intros rc w1 n Hrc Hc. cbn [fst]. by rewrite (proj2 (Z.eqb_neq _ _)) by done. }
  intros w1 Hc1 _. cbn [fst snd]. change (wrapu 64 _ =? _) with true. cbn [negb].
  rewrite slice_app_l by by apply encode_info_length.
  pose proof (decode_encode_info info [] Hok) as Hdec. rewrite app_nil_r in Hdec. rewrite Hdec.
  rewrite (proj2 (Z.ltb_ge _ _)) by lia. apply wp_bind. eapply wp_mono.
  { apply receive_loop; [by rewrite (consumed_fds _ _ _ _ Hc1)|lia|done|done]. }
  2: done.
  intros [d [b|]] w2 (n & Hn & _ & _ & Hres); cbn [fst snd] in *; [|done].
  destruct Hres as (-> & _). apply wp_bind. rewrite wraps64_small by lia.
  rewrite (proj2 (Z.eqb_neq _ _)) by lia. eapply wp_conseq; [apply discard_loop; lia|done].
Qed.

(** C37. A message longer than the buffer, received with the size in its own
    header, is never received with success: the bytes that do not fit are
    written behind the buffer, or the socket fails before. *)
Theorem receive_message_overrun fuel fd info body buf w buf' w' :
  info_ok info → v_fds (os_view w) !! fd = None →
  v_in (os_view w) !!! fd = encode_info info ++ body →
  zlen buf < mi_size info →
  receive_message fuel fd (Some buf) (mi_size info) w ≠ Done (SUCCESS, buf') w'.
Proof.
  intros Hok Hfd Hin Hbuf Hdone. pose proof Hok as (_ & _ & Hs).
  enough (wp (receive_message fuel fd (Some buf) (mi_size info)) (λ r _, r.1 = FAILED) (λ _, True) w) as Hwp
    by (unfold wp in Hwp; rewrite Hdone in Hwp; by cbn in Hwp).
  unfold receive_message. apply wp_bind. eapply receive_header; [done|exact Hin|..].
  { intros rc w1 n Hrc Hc. cbn [fst]. by rewrite (proj2 (Z.eqb_neq _ _)) by done. }
  intros w1 Hc1 _. cbn [fst snd]. change (wrapu 64 _ =? _) with true. cbn [negb].
  rewrite slice_app_l by by apply encode_info_length.
  pose proof (decode_encode_info info [] Hok) as Hdec. rewrite app_nil_r in Hdec. rewrite Hdec.
  rewrite Z.ltb_irrefl. apply wp_bind. eapply wp_conseq.
  { apply overrun_loop; [by rewrite (consumed_fds _ _ _ _ Hc1)|]. split; [exact Hbuf|]. apply Hs. }
  by intros [d [b|]] w2 Hres.
Qed.
End properties.

(** ** The properties on concrete inputs *)
Module MessageWitness.
Import Sim.

Definition info : message_info_t := MessageInfo TFILE_DEF (replicate 7 0) 5.
Definition data : list Z := [1; 2; 3; 4; 5; 6].
Definition body : list Z := [1; 2; 3; 4; 5].
Definition out_world : Sim.world := World (OSView ∅ ∅ ∅ {[4]} ∅ ∅) 3 ∅.
Definition pending (m : list Z) : Sim.world := World (OSView ∅ ∅ ∅ {[4]} {[4 := m]} ∅) 20 ∅.
(** The sender's socket takes whole headers. *)
Definition ready : Sim.world := World (OSView ∅ ∅ ∅ {[4]} ∅ ∅) 20 ∅.

Lemma info_info_ok : info_ok info.
Proof. split_and!; by vm_compute. Qed.

Lemma send_message_correct_witness :
  send_message 9 4 info (Some data) out_world =
    Done FAILED (Sim.set_view (set_out (append_out 4 [0xC; 0; 0])) out_world) ∧
  (∃ w', send_message 9 4 info (Some data) ready = Done SUCCESS w') ∧
  wp (send_message 9 4 info (Some data)) (λ rc w', ∃ sent, wrote 4 sent ready w' ∧
    sent `prefix_of` encode_info info ++ slice 0 5 data ∧
    (rc = SUCCESS ∧ sent = encode_info info ++ slice 0 5 data ∨ rc = FAILED)) no_fault ready.
Proof.
  split_and!; [by vm_compute|eexists; by vm_compute|].
  apply (send_message_correct 9 4 info data ready info_info_ok); [done|by apply Nat.ltb_lt; vm_compute].
Defined.

Lemma receive_message_correct_witness :
  (∃ w', receive_message 9 4 (Some (replicate 8 7)) 5 (pending (encode_info info ++ body ++ [9])) =
     Done (SUCCESS, [1; 2; 3; 4; 5; 7; 7; 7]) w') ∧
  wp (receive_message 9 4 (Some (replicate 8 7)) 5) (λ r w', ∃ n,
    consumed 4 n (pending (encode_info info ++ body ++ [9])) w' ∧
    (r = (SUCCESS, splice 0 body (replicate 8 7)) ∧ n = 21 ∧ v_in (os_view w') !!! 4 = [9] ∨
     r.1 = FAILED)) no_fault (pending (encode_info info ++ body ++ [9])).
Proof.
  split; [eexists; by vm_compute|].
  apply (receive_message_correct 9 4 info body [9] (replicate 8 7) 5
           (pending (encode_info info ++ body ++ [9])) info_info_ok);
    [done|done|done|done|done|by apply Nat.ltb_lt; vm_compute].
Defined.

Definition sent_world : Sim.world :=
  Sim.set_view (set_out (append_out 4 (encode_info info ++ body))) ready.


Lemma receive_message_truncating_witness :
  receive_message 99 4 (Some []) 0 (pending (encode_info info ++ body)) ≠
    Done (SUCCESS, []) (pending []).
Proof.
  apply (receive_message_truncating 99 4 info body [] 0 (pending (encode_info info ++ body)) []
           (pending []) info_info_ok); [done|done|done|done|done|by apply Nat.ltb_lt; vm_compute].
Defined.

Lemma receive_message_overrun_witness :
  receive_message 99 4 (Some [7; 7]) 5 (pending (encode_info info ++ body)) = Stop OutOfBounds ∧
  receive_message 99 4 (Some [7; 7]) 5 (pending (encode_info info ++ body)) ≠
    Done (SUCCESS, [1; 2]) (pending []).
Proof.
  split; [by vm_compute|].
  apply (receive_message_overrun 99 4 info body [7; 7] (pending (encode_info info ++ body)) [1; 2]
           (pending []) info_info_ok); [done|done|done].
Defined.
End MessageWitness.
