(* ===== verification/Socket.v ===== *)
(** * Sockets (socket.h)

    Connecting, opening a server socket and accepting, with the sockets they
    open and close. *)
From S2P Require Import Prelude OS Sim.

Definition sizeof_sockaddr_in : Z := 16.

Section socket.
Context {W : Type} `{OS W}.

(** socket.h: socket_connect *)
Definition socket_connect (server_name : list Z) (port : Z) : M W Z :=
  server ← gets (os_gethostbyname server_name);
  match server with
  | None => mret (-1)
  | Some h_addr =>
      fd ← sys os_socket;
      if fd =? -1 then mret (-1)
      else
        rc ← sys (os_connect fd (SockAddr AF_INET (swap16 port) h_addr) sizeof_sockaddr_in);
        if negb (rc =? 0) then
          _ ← sys_ (os_close fd);
          mret (-1)
        else mret fd
  end.

(** socket.h: socket_connect_addr *)
Definition socket_connect_addr (server_addr : sockaddr_in) (server_addr_len : Z) : M W Z :=
  fd ← sys os_socket;
  if fd =? -1 then mret (-1)
  else
    rc ← sys (os_connect fd server_addr server_addr_len);
    if negb (rc =? 0) then
      _ ← sys_ (os_close fd);
      mret (-1)
    else mret fd.

(** socket.h: server_socket_open.  The result is the descriptor and the port
    written to [*port]. *)
Definition server_socket_open (port : Z) : M W (Z * Z) :=
  fd ← sys os_socket;
  if fd =? -1 then mret (-1, port)
  else
    rc ← sys (os_bind fd (SockAddr AF_INET (swap16 port) INADDR_ANY));
    if negb (rc =? 0) then
      _ ← sys_ (os_close fd);
      mret (-1, port)
    else
      r ← sys (os_getsockname fd);
      if negb (r.1 =? 0) then
        _ ← sys_ (os_close fd);
        mret (-1, port)
      else mret (fd, swap16 (sin_port r.2)).

(** socket.h: server_socket_accept *)
Definition server_socket_accept (server_socket_fd : Z) : M W Z :=
  r ← sys (os_accept server_socket_fd sizeof_sockaddr_in);
  if r.1.1 =? -1 then mret (-1) else mret r.1.1.

(** socket.h: server_socket_accept_addr.  [peer_addr_len] is the content of
    [*peer_addr_len] before the call; the result has the address and the
    length written. *)
Definition server_socket_accept_addr (server_socket_fd peer_addr_len : Z)
    : M W (Z * sockaddr_in * Z) :=
  r ← sys (os_accept server_socket_fd peer_addr_len);
  if r.1.1 =? -1 then mret (-1, r.1.2, r.2) else mret r.
End socket.

Section socket_rules.
Context {W : Type} `{OS W, OSViewOf W, !FileLaws W, !SockLaws W}.
Implicit Types w : W.

(** A call that opens a socket or fails: after a failure nothing is left open. *)
Definition opens (w : W) (fd : Z) (w' : W) : Prop :=
  (fd = -1 ∧ os_view w' = os_view w) ∨ opened_sock (os_view w) (os_view w') fd.

Lemma close_opened w w1 w2 fd : opened_sock (os_view w) (os_view w1) fd →
  os_view w2 = os_view w1 → os_view (os_close fd w2) = os_view w.
Proof.
  intros (_ & Hs & Hfd & Hv) Hv2. rewrite law_close, Hv2, Hv.
  destruct (os_view w) as [files fds maps socks inb outb]. unfold set_socks, set_fds. cbn in *.
  rewrite delete_id by done. f_equal. set_solver.
Qed.

Lemma wp_socket w (Q : Z → W → Prop) E :
  (∀ w', os_view w' = os_view w → Q (-1) w') →
  (∀ fd w', opened_sock (os_view w) (os_view w') fd → fd ≠ -1 → Q fd w') →
  wp (sys os_socket) Q E w.
Proof.
  intros Hfail Hok. apply wp_sys. intros fd w' Hs.
  destruct (law_socket _ _ _ Hs) as [[-> Hv]|Ho]; [by apply Hfail|].
  apply Hok; [done|]. destruct Ho as (? & _). lia.
Qed.

Lemma connect_tail fd w w1 w2 (rc : Z) E : opened_sock (os_view w) (os_view w1) fd →
  os_view w2 = os_view w1 →
  wp (if negb (rc =? 0) then _ ← sys_ (os_close fd); mret (-1) else mret fd) (opens w) E w2.
Proof.
  intros Ho Hv. destruct (rc =? 0); cbn [negb].
  - apply wp_ret. right. by rewrite Hv.
  - apply wp_bind, wp_sys_, wp_ret. left. split; [done|]. by eapply close_opened.
Qed.

Lemma socket_connect_addr_opens a len w :
  wp (socket_connect_addr a len) (opens w) no_fault w.
Proof.
  unfold socket_connect_addr. apply wp_bind, wp_socket.
  - intros w' Hv. apply wp_ret. by left.
  - intros fd w' Ho Hne. rewrite (proj2 (Z.eqb_neq _ _)) by done. apply wp_bind.
    apply wp_sys. intros rc w2 Hc. apply (connect_tail fd w w'); [done|].
    change w2 with (rc, w2).2. rewrite <- Hc. apply law_connect.
Qed.
End socket_rules.

(** ** Properties of sockets *)
Section properties.
Context {W : Type} `{OS W, OSViewOf W, !FileLaws W, !SockLaws W}.
Implicit Types w : W.

(** C32. [server_socket_open] never leaks: it returns -1, the port it was
    given and a process as before, or a new open socket (the only change) and
    the port the socket is bound to, in host byte order. *)
Theorem server_socket_open_correct port w :
  ∃ fd port' w', server_socket_open port w = Done (fd, port') w' ∧
    ((fd = -1 ∧ port' = port ∧ os_view w' = os_view w) ∨
     (opened_sock (os_view w) (os_view w') fd ∧
      ∃ w1, port' = swap16 (sin_port (os_getsockname fd w1).1.2) ∧
            os_view w1 = os_view w')).
Proof.
  destruct (wp_total (server_socket_open port) (λ r w',
    (r.1 = -1 ∧ r.2 = port ∧ os_view w' = os_view w) ∨
     (opened_sock (os_view w) (os_view w') r.1 ∧
      ∃ w1, r.2 = swap16 (sin_port (os_getsockname r.1 w1).1.2) ∧
            os_view w1 = os_view w')) w) as ([fd port'] & w' & Hrun & HQ); [|by exists fd, port', w'].
  unfold server_socket_open. apply wp_bind, wp_socket; [intros w' Hv; apply wp_ret; by left|].
  intros fd w1 Ho Hne. rewrite (proj2 (Z.eqb_neq _ _)) by done.
  apply wp_bind, wp_sys. intros rc w2 Hb.
  pose proof (law_bind fd (SockAddr AF_INET (swap16 port) INADDR_ANY) w1) as Hv2.
  rewrite Hb in Hv2. cbn in Hv2. destruct (rc =? 0); cbn [negb].
  - apply wp_bind, wp_sys. intros [rc3 a] w3 Hg. pose proof (law_getsockname fd w2) as Hv3.
    rewrite Hg in Hv3. cbn in Hv3. rewrite Hv2 in Hv3. cbn [fst snd]. destruct (rc3 =? 0); cbn [negb].
    + apply wp_ret. right. cbn [fst snd]. rewrite Hv3. split; [done|].
      exists w2. by rewrite Hg.
    + apply wp_bind, wp_sys_, wp_ret. left. split_and!; [done..|]. by eapply close_opened.
  - apply wp_bind, wp_sys_, wp_ret. left. split_and!; [done..|]. by eapply close_opened.
Qed.

(** Connecting, by name or by address, never leaks: the result is -1 and
    the process is as before, or it is a new open socket and nothing else
    changes. *)
Theorem socket_connect_opens server_name port a len w :
  wp (socket_connect server_name port) (opens w) no_fault w ∧
  wp (socket_connect_addr a len) (opens w) no_fault w.
Proof.
  split; [|apply socket_connect_addr_opens].
  unfold socket_connect. apply wp_bind, wp_gets. destruct (os_gethostbyname _ _); [|apply wp_ret; by left].
  apply wp_bind, wp_socket; [intros w' Hv; apply wp_ret; by left|].
  intros fd w' Ho Hne. rewrite (proj2 (Z.eqb_neq _ _)) by done. apply wp_bind, wp_sys.
  intros rc w2 Hc. apply (connect_tail fd w w'); [done|].
  change w2 with (rc, w2).2. rewrite <- Hc. apply law_connect.
Qed.
End properties.

(** ** The properties on concrete inputs *)
Module SocketWitness.
Import Sim.

Definition net : Sim.world := World (OSView ∅ ∅ ∅ {[3]} ∅ ∅) 20 {[5]}.

Lemma server_socket_open_correct_witness :
  ∃ fd port' w', server_socket_open 0 net = Done (fd, port') w' ∧
    ((fd = -1 ∧ port' = 0 ∧ os_view w' = os_view net) ∨
     (opened_sock (os_view net) (os_view w') fd ∧
      ∃ w1, port' = swap16 (sin_port (os_getsockname fd w1).1.2) ∧
            os_view w1 = os_view w')).
Proof. apply (server_socket_open_correct 0 net). Defined.

Lemma socket_connect_opens_witness :
  (∃ w', socket_connect [104] 5000 net = Done 4 w') ∧
  wp (socket_connect [104] 5000) (opens net) no_fault net ∧
  wp (socket_connect_addr (SockAddr AF_INET 1 INADDR_ANY) 8) (opens net) no_fault net.
Proof.
  split; [eexists; by vm_compute|].
  apply (socket_connect_opens [104] 5000 (SockAddr AF_INET 1 INADDR_ANY) 8 net).
Defined.
End SocketWitness.
