(* ===== verification/Peers.v ===== *)
(** * The peer list (client.h: peers_t; client.c: add_peer, remove_peer, remove_peers)

    An array of descriptors under a mutex.  A thread is named by an integer:
    the mutex is not recursive, so locking it again from the thread that
    holds it never returns ([Deadlock]); when another thread holds it the
    caller waits ([Blocked]). *)
From S2P Require Import Prelude OS Sim.

Definition tid : Type := Z.

(** client.h: peers_t.  A cell that was never written is [None]; [p_arr] is
    [None] for a null pointer. *)
Record peers_t : Type := Peers {
  p_lock : option tid;
  p_capacity : Z;
  p_size : Z;
  p_arr : option (list (option Z))
}.

Definition set_lock o p := Peers o (p_capacity p) (p_size p) (p_arr p).
Definition set_p_size n p := Peers (p_lock p) (p_capacity p) n (p_arr p).
Definition set_arr a p := Peers (p_lock p) (p_capacity p) (p_size p) a.

Definition sizeof_peer_fd_t : Z := 4.

(** The initial value of the global [peers]. *)
Definition initial_peers : peers_t := Peers None 100 0 None.

(** The state of the operations: the list and the world. *)
Record pstore (W : Type) : Type := PStore {
  ps_peers : peers_t;
  ps_os : W
}.
Arguments PStore {W} _ _.
Arguments ps_peers {W} _.
Arguments ps_os {W} _.

Section peers.
Context {W : Type} `{OS W}.

Definition get_peers : M (pstore W) peers_t := gets ps_peers.
Definition upd_peers (f : peers_t → peers_t) : M (pstore W) unit :=
  modify (λ s, PStore (f (ps_peers s)) (ps_os s)).
Definition peers_os {A} (m : M W A) : M (pstore W) A :=
  zoom ps_os (λ w s, PStore (ps_peers s) w) m.

(** pthread_mutex_lock and pthread_mutex_unlock of [peers->lock]. *)
Definition lock_peers (self : tid) : M (pstore W) unit :=
  p ← get_peers;
  match p_lock p with
  | None => upd_peers (set_lock (Some self))
  | Some t => stop (if t =? self then Deadlock else Blocked)
  end.
Definition unlock_peers : M (pstore W) unit := upd_peers (set_lock None).

(** [peers->arr[i]] read and written; an element is [None] when it was never
    written. *)
Definition peer_cell (i : Z) : M (pstore W) (option Z) :=
  p ← get_peers;
  cells ← from_opt NullDeref (p_arr p);
  from_opt OutOfBounds (zget cells i).
Definition set_peer_cell (i : Z) (c : option Z) : M (pstore W) unit :=
  _ ← peer_cell i;
  upd_peers (λ p, set_arr ((λ cells, zset cells i c) <$> p_arr p) p).
Definition peer_at (i : Z) : M (pstore W) Z :=
  c ← peer_cell i;
  from_opt Uninit c.

(** [malloc] and [realloc] of an array of [n] descriptors. *)
Definition resized (n : Z) (cells : list (option Z)) : list (option Z) :=
  take (Z.to_nat n) cells ++ replicate (Z.to_nat n - length cells)%nat None.
Definition realloc_peers (n : Z) : M (pstore W) unit :=
  ok ← peers_os (sys (os_malloc (wrapu 64 (n * sizeof_peer_fd_t))));
  upd_peers (λ p, set_arr (if ok : bool then Some (resized n (default [] (p_arr p))) else None) p).

(** [peers->arr[peers->size++] = peer]. *)
Definition append_peer (peer : Z) : M (pstore W) unit :=
  p ← get_peers;
  n ← add_s32 (p_size p) 1;
  _ ← set_peer_cell (p_size p) (Some peer);
  upd_peers (set_p_size n).

(** client.c: add_peer.  The test is made before the lock is taken; what
    follows depends on its outcome alone. *)
Definition add_peer_full : M (pstore W) bool :=
  p ← get_peers;
  mret (p_capacity p <=? p_size p).
Definition add_peer_locked (self : tid) (full : bool) (peer : Z) : M (pstore W) unit :=
  _ ← lock_peers self;
  p ← get_peers;
  _ ← when full (n ← add_s32 (p_capacity p) (p_capacity p); realloc_peers n);
  _ ← append_peer peer;
  unlock_peers.
Definition add_peer (self : tid) (peer : Z) : M (pstore W) unit :=
  full ← add_peer_full;
  add_peer_locked self full peer.

(** client.c: remove_peer *)
Definition remove_body (peer i : Z) : M (pstore W) (Z + unit) :=
  p ← get_peers;
  if i <? p_size p then
    fd ← peer_at i;
    if fd =? peer then
      _ ← upd_peers (set_p_size (p_size p - 1));
      c ← peer_cell (p_size p - 1);
      _ ← set_peer_cell i c;
      mret (inr tt)
    else
      i' ← add_s32 i 1;
      mret (inl i')
  else mret (inr tt).
Definition remove_peer (fuel : nat) (self : tid) (peer : Z) : M (pstore W) unit :=
  _ ← lock_peers self;
  _ ← iter fuel (remove_body peer) 0;
  unlock_peers.

(** client.c: remove_peers *)
Definition remove_peers (fuel : nat) (self : tid) (peers_to_remove : list Z) : M (pstore W) unit :=
  for_each peers_to_remove (remove_peer fuel self).
End peers.

(** ** The list of peers an array stands for

    The first [size] cells hold the peers; behind them may be more room. *)
Definition peers_are (p : peers_t) (l : list Z) : Prop :=
  p_size p = zlen l ∧ zlen l < 2 ^ 31 - 1 ∧
  ∃ room, p_arr p = Some ((Some <$> l) ++ room).

Lemma zget_middle {A} (l k : list A) x i : zlen l = i → zget (l ++ x :: k) i = Some x.
Proof.
  intros <-. apply zget_Some. split; [apply zlen_nonneg|]. unfold zlen.
  by rewrite Nat2Z.id, list_lookup_middle.
Qed.

Lemma zset_middle {A} (l k : list A) x y i : zlen l = i → zset (l ++ x :: k) i y = l ++ y :: k.
Proof.
  intros <-. unfold zset, zlen. rewrite Nat2Z.id, insert_app_r_alt, Nat.sub_diag by lia. done.
Qed.

Lemma zlen_fmap {A B} (f : A → B) l : zlen (f <$> l) = zlen l.
Proof. unfold zlen. by rewrite length_fmap. Qed.

Section peer_rules.
Context {W : Type} `{OS W}.
Implicit Types (p : peers_t) (w : W).

Lemma peer_cell_run p w cells i c : p_arr p = Some cells → zget cells i = Some c →
  peer_cell i (PStore p w) = Done c (PStore p w).
Proof. intros Ha Hc. unfold peer_cell, mbind, M_bind. cbn. rewrite Ha. cbn. by rewrite Hc. Qed.

Lemma peer_cell_end p w cells i : p_arr p = Some cells → zlen cells ≤ i →
  peer_cell i (PStore p w) = Stop OutOfBounds.
Proof. intros Ha Hi. unfold peer_cell, mbind, M_bind. cbn. rewrite Ha. cbn. by rewrite zget_oob. Qed.

Lemma set_peer_cell_run p w l k c c' i : p_arr p = Some (l ++ c :: k) → zlen l = i →
  set_peer_cell i c' (PStore p w) = Done tt (PStore (set_arr (Some (l ++ c' :: k)) p) w).
Proof.
  intros Ha Hi. unfold set_peer_cell.
  rewrite (bind_done _ _ _ _ _ (peer_cell_run p w _ i c Ha (zget_middle _ _ _ _ Hi))).
  unfold upd_peers, modify. cbn [ps_peers ps_os]. rewrite Ha. cbn. by rewrite (zset_middle _ _ _ _ _ Hi).
Qed.

(** Appending writes the cell behind the list, if there is one. *)
Lemma append_peer_run p w l peer : peers_are p l → ∀ room, p_arr p = Some ((Some <$> l) ++ room) →
  append_peer peer (PStore p w) =
    match room with
    | [] => Stop OutOfBounds
    | _ :: room' => Done tt (PStore (Peers (p_lock p) (p_capacity p) (p_size p + 1)
                               (Some ((Some <$> (l ++ [peer])) ++ room'))) w)
    end.
Proof.
  intros (Hs & Hb & _) room Ha. unfold append_peer.
  rewrite (bind_done _ _ _ p (PStore p w)) by done.
  pose proof (zlen_nonneg l).
  rewrite (bind_done _ _ _ (p_size p + 1) (PStore p w))
    by (unfold add_s32; by rewrite bool_decide_true by lia).
  destruct room as [|c room'].
  - rewrite (bind_stop _ _ _ OutOfBounds); [done|]. unfold set_peer_cell. apply bind_stop.
    rewrite app_nil_r in Ha. apply (peer_cell_end p w _ _ Ha). by rewrite zlen_fmap, Hs.
  - rewrite (bind_done _ _ _ tt (PStore (set_arr (Some ((Some <$> l) ++ Some peer :: room')) p) w)).
    + unfold upd_peers, modify. cbn. by rewrite fmap_app, <- app_assoc.
    + apply (set_peer_cell_run p w _ _ c); [done|]. by rewrite zlen_fmap.
Qed.

Lemma resized_prefix n l room : zlen l ≤ n →
  ∃ room', resized n ((Some <$> l) ++ room) = (Some <$> l) ++ room' ∧ zlen room' = n - zlen l.
Proof.
  unfold zlen. intros Hn. unfold resized. rewrite take_app_ge by (rewrite length_fmap; lia).
  rewrite <- app_assoc. eexists. split; [done|].
  rewrite !length_app, length_take, length_replicate, length_fmap. lia.
Qed.

Lemma resized_full n l room : 0 ≤ n ≤ zlen l →
  resized n ((Some <$> l) ++ room) = Some <$> take (Z.to_nat n) l.
Proof.
  unfold zlen. intros Hn. unfold resized. rewrite take_app_le by (rewrite length_fmap; lia).
  rewrite length_app, length_fmap. replace (_ - _)%nat with 0%nat by lia.
  cbn. by rewrite app_nil_r, fmap_take.
Qed.

(** The search of [remove_peer] passes over a peer that does not match. *)
Lemma remove_step peer p w l1 x l2 k :
  p_size p = zlen (l1 ++ x :: l2) → zlen (l1 ++ x :: l2) < 2 ^ 31 - 1 →
  p_arr p = Some ((Some <$> l1 ++ x :: l2) ++ k) → peer ≠ x →
  remove_body peer (zlen l1) (PStore p w) = Done (inl (zlen (l1 ++ [x]))) (PStore p w).
Proof.
  intros Hs Hb Ha Hne. unfold remove_body. rewrite (bind_done _ _ _ p (PStore p w)) by done.
  rewrite zlen_app in Hs, Hb. change (zlen (x :: l2)) with (Z.of_nat (S (length l2))) in *.
  rewrite (proj2 (Z.ltb_lt _ _)) by lia.
  rewrite (bind_done _ _ _ x (PStore p w)).
  - rewrite (proj2 (Z.eqb_neq _ _)) by done.
    rewrite (bind_done _ _ _ (zlen (l1 ++ [x])) (PStore p w)); [done|].
    unfold add_s32. rewrite zlen_app. change (zlen [x]) with 1.
    rewrite bool_decide_true; [done|]. pose proof (zlen_nonneg l1). lia.
  - unfold peer_at. rewrite (bind_done _ _ _ (Some x) (PStore p w)); [done|].
    apply (peer_cell_run p w _ _ _ Ha). rewrite fmap_app, <- app_assoc.
    apply zget_middle. apply zlen_fmap.
Qed.

Lemma remove_loop_absent peer p w k : ∀ l2 l1 fuel,
  p_size p = zlen (l1 ++ l2) → zlen (l1 ++ l2) < 2 ^ 31 - 1 →
  p_arr p = Some ((Some <$> l1 ++ l2) ++ k) → peer ∉ l2 → (length l2 < fuel)%nat →
  iter fuel (remove_body peer) (zlen l1) (PStore p w) = Done tt (PStore p w).
Proof.
  induction l2 as [|x l2 IH]; intros l1 [|fuel] Hs Hb Ha Hni Hf; try (cbn in Hf; lia); cbn [iter].
  - rewrite (bind_done _ _ _ (inr tt) (PStore p w)); [done|]. unfold remove_body.
    rewrite (bind_done _ _ _ p (PStore p w)) by done.
    rewrite app_nil_r in Hs. by rewrite Hs, Z.ltb_irrefl.
  - rewrite (bind_done _ _ _ _ _ (remove_step peer p w l1 x l2 k Hs Hb Ha ltac:(set_solver))).
    apply IH; rewrite <- ?app_assoc; [done|done|done|set_solver|cbn in Hf; lia].
Qed.

(** The list without the element between [l1] and [l2]: the last one takes
    its place. *)
Definition without (l1 l2 : list Z) : list Z :=
  match last l2 with
  | None => l1
  | Some y => l1 ++ y :: take (length l2 - 1) l2
  end.

Lemma without_nil l1 : without l1 [] = l1.
Proof. done. Qed.

Lemma without_snoc l1 l2 y : without l1 (l2 ++ [y]) = l1 ++ y :: l2.
Proof. unfold without. by rewrite last_snoc, length_app, take_app_length' by (cbn; lia). Qed.

Lemma without_perm l1 x l2 : l1 ++ x :: l2 ≡ₚ x :: without l1 l2.
Proof.
  destruct l2 as [|y l2 _] using rev_ind; [by rewrite without_nil, Permutation_app_comm|].
  rewrite without_snoc, <- Permutation_middle. constructor.
  by rewrite (Permutation_app_comm l2 [y]).
Qed.

(** The cell of the last peer, and the list after it is moved. *)
Lemma last_moved p k l1 x l3 :
  p_size p = zlen (l1 ++ x :: l3) → zlen (l1 ++ x :: l3) < 2 ^ 31 - 1 → ∃ c,
    zget ((Some <$> l1) ++ (Some <$> x :: l3) ++ k) (p_size p - 1) = Some (Some c) ∧
    peers_are (set_arr (Some ((Some <$> l1) ++ Some c :: (Some <$> l3) ++ k))
                 (set_p_size (p_size p - 1) p)) (without l1 l3).
Proof.
  intros Hs Hb. destruct l3 as [|y l3 _] using rev_ind.
  - exists x. rewrite without_nil. assert (Hn : p_size p - 1 = zlen l1)
      by (rewrite Hs, zlen_app; change (zlen [x]) with 1; lia).
    rewrite Hn. split; [apply zget_middle, zlen_fmap|].
    rewrite zlen_app in Hb. change (zlen [x]) with 1 in Hb.
    split_and!; [done|lia|by exists (Some x :: k)].
  - exists y. rewrite without_snoc.
    assert (Hl : zlen (l1 ++ x :: l3 ++ [y]) = zlen l1 + zlen l3 + 2)
      by (unfold zlen; cbn; rewrite length_app; cbn; rewrite length_app; cbn; lia).
    assert (Hl2 : ∀ z, zlen (l1 ++ z :: l3) = zlen l1 + zlen l3 + 1)
      by (intros z; unfold zlen; rewrite length_app; cbn; lia).
    split.
    + assert ((Some <$> l1) ++ (Some <$> x :: l3 ++ [y]) ++ k =
              (Some <$> l1 ++ x :: l3) ++ Some y :: k) as ->.
      { rewrite !fmap_app, <- !app_assoc. cbn. by rewrite fmap_app, <- app_assoc. }
      apply zget_middle. rewrite zlen_fmap, Hs, Hl2. lia.
    + split_and!; [cbn; rewrite Hs, Hl2; lia|rewrite Hl2; lia|].
      exists (Some y :: k). cbn [p_arr set_arr]. by rewrite !fmap_app, <- !app_assoc.
Qed.

(** The step that finds the peer. *)
Lemma remove_here peer p w k l1 l3 (f : Z → M (pstore W) unit) :
  p_size p = zlen (l1 ++ peer :: l3) → zlen (l1 ++ peer :: l3) < 2 ^ 31 - 1 →
  p_arr p = Some ((Some <$> l1 ++ peer :: l3) ++ k) →
  ∃ p', (r ← remove_body peer (zlen l1); match r with inl i => f i | inr a => mret a end) (PStore p w) =
      Done tt (PStore p' w) ∧
    peers_are p' (without l1 l3) ∧ p_lock p' = p_lock p ∧ p_capacity p' = p_capacity p.
Proof.
  intros Hs Hb Ha. rewrite fmap_app, <- app_assoc in Ha.
  set (q := set_p_size (p_size p - 1) p).
  pose proof (last_moved p k l1 peer l3 Hs Hb) as Hlast. fold q in Hlast.
  destruct Hlast as (c & Hc & Hare). eexists. split; [|split; [exact Hare|done]].
  unfold remove_body. unfold mbind at 1, M_bind at 1.
  rewrite (bind_done _ _ _ p (PStore p w)) by done.
  rewrite (proj2 (Z.ltb_lt _ _)) by (rewrite Hs, zlen_app; unfold zlen; cbn; lia).
  rewrite (bind_done _ _ _ peer (PStore p w)).
  - rewrite Z.eqb_refl.
    rewrite (bind_done _ _ _ tt (PStore q w)) by done.
    rewrite (bind_done _ _ _ (Some c) (PStore q w)) by (by eapply peer_cell_run).
    by rewrite (bind_done _ _ _ _ _ (set_peer_cell_run q w _ _ _ (Some c) (zlen l1) Ha (zlen_fmap _ _))).
  - unfold peer_at. rewrite (bind_done _ _ _ (Some peer) (PStore p w)); [done|].
    apply (peer_cell_run p w _ _ _ Ha). apply zget_middle. apply zlen_fmap.
Qed.

Lemma remove_loop_found peer p w k : ∀ l2 l1 l3 fuel,
  p_size p = zlen (l1 ++ l2 ++ peer :: l3) → zlen (l1 ++ l2 ++ peer :: l3) < 2 ^ 31 - 1 →
  p_arr p = Some ((Some <$> l1 ++ l2 ++ peer :: l3) ++ k) → peer ∉ l2 → (length l2 < fuel)%nat →
  ∃ p', iter fuel (remove_body peer) (zlen l1) (PStore p w) = Done tt (PStore p' w) ∧
    peers_are p' (without (l1 ++ l2) l3) ∧ p_lock p' = p_lock p ∧ p_capacity p' = p_capacity p.
Proof.
  induction l2 as [|x l2 IH]; intros l1 l3 [|fuel] Hs Hb Ha Hni Hf; try (cbn in Hf; lia); cbn [iter].
  - rewrite app_nil_r. cbn [app] in *. apply remove_here with (k := k); done.
  - rewrite (bind_done _ _ _ _ _ (remove_step peer p w l1 x (l2 ++ peer :: l3) k Hs Hb Ha ltac:(set_solver))).
    assert (Hsplit : ∀ r, l1 ++ (x :: l2) ++ r = (l1 ++ [x]) ++ l2 ++ r) by (intros r; by rewrite <- app_assoc).
    rewrite Hsplit in Hs, Hb, Ha. specialize (Hsplit []). rewrite !app_nil_r in Hsplit. rewrite Hsplit.
    apply (IH (l1 ++ [x]) l3 fuel); [done|done|done|set_solver|cbn in Hf; lia].
Qed.

Lemma lock_peers_run self p w : p_lock p = None →
  lock_peers self (PStore p w) = Done tt (PStore (set_lock (Some self) p) w).
Proof. intros Hl. unfold lock_peers, mbind, M_bind. cbn. by rewrite Hl. Qed.

(** The part of [add_peer] under the lock when there is a free cell, or none. *)
Lemma add_locked_run self peer p l w room :
  peers_are p l → p_lock p = None → p_arr p = Some ((Some <$> l) ++ room) →
  match room with
  | [] => add_peer_locked self false peer (PStore p w) = Stop OutOfBounds
  | _ :: room' => ∃ p', add_peer_locked self false peer (PStore p w) = Done tt (PStore p' w) ∧
      (zlen l + 1 < 2 ^ 31 - 1 → peers_are p' (l ++ [peer])) ∧ p_lock p' = None ∧
      p_capacity p' = p_capacity p ∧ p_arr p' = Some ((Some <$> (l ++ [peer])) ++ room')
  end.
Proof.
  intros Hp Hl Ha. set (q := set_lock (Some self) p).
  assert (Hq : peers_are q l) by done. pose proof (append_peer_run q w l peer Hq room Ha) as Happ.
  unfold add_peer_locked. destruct room as [|c room'];
    rewrite (bind_done _ _ _ _ _ (lock_peers_run self p w Hl));
    rewrite (bind_done get_peers _ _ q (PStore q w)) by done;
    rewrite (bind_done (when false _) _ _ tt (PStore q w)) by done.
  - by rewrite (bind_stop _ _ _ _ Happ).
  - rewrite (bind_done _ _ _ _ _ Happ). eexists. split; [done|].
    destruct Hp as (Hs & _ & _). split_and!; [|done|done|done].
    intros Hb. split_and!; [cbn; rewrite zlen_app, Hs; done|rewrite zlen_app; done|by eexists].
Qed.

Lemma add_locked_end self peer p w cells :
  p_lock p = None → p_arr p = Some cells → zlen cells ≤ p_size p < 2 ^ 31 - 1 →
  add_peer_locked self false peer (PStore p w) = Stop OutOfBounds.
Proof.
  intros Hl Ha Hs. pose proof (zlen_nonneg cells). set (q := set_lock (Some self) p).
  unfold add_peer_locked. rewrite (bind_done _ _ _ _ _ (lock_peers_run self p w Hl)).
  rewrite (bind_done get_peers _ _ q (PStore q w)) by done.
  rewrite (bind_done (when false _) _ _ tt (PStore q w)) by done.
  apply bind_stop. unfold append_peer. rewrite (bind_done get_peers _ _ q (PStore q w)) by done.
  rewrite (bind_done _ _ _ (p_size p + 1) (PStore q w))
    by (unfold add_s32; by rewrite bool_decide_true by (cbn; lia)).
  apply bind_stop. unfold set_peer_cell. apply bind_stop. apply (peer_cell_end q w cells); [done|cbn; lia].
Qed.

(** With the array moved first, it is as if it had always had that room. *)
Lemma add_full_run `{!MemoryRoom W} self peer p l w room :
  p_lock p = None → p_arr p = Some ((Some <$> l) ++ room) → 0 < p_capacity p < 2 ^ 28 →
  ∃ w', add_peer_locked self true peer (PStore p w) =
    add_peer_locked self false peer
      (PStore (set_arr (Some (resized (2 * p_capacity p) ((Some <$> l) ++ room))) p) w').
Proof.
  intros Hl Ha Hc. unfold add_peer_locked at 1.
  rewrite (bind_done _ _ _ _ _ (lock_peers_run self p w Hl)).
  rewrite (bind_done get_peers _ _ (set_lock (Some self) p) (PStore (set_lock (Some self) p) w)) by done.
  cbn [p_capacity set_lock when].
  set (n := p_capacity p + p_capacity p).
  set (w' := (os_malloc (wrapu 64 (n * sizeof_peer_fd_t)) w).2).
  assert (Hm : os_malloc (wrapu 64 (n * sizeof_peer_fd_t)) w = (true, w')).
  { pose proof (law_malloc_ok (wrapu 64 (n * sizeof_peer_fd_t)) w). subst w'.
    by destruct (os_malloc _ w) as [[]]. }
  exists w'. rewrite (bind_done _ _ _ tt (PStore (set_arr (Some (resized n ((Some <$> l) ++ room)))
                                            (set_lock (Some self) p)) w')).
  - replace (2 * p_capacity p) with n by lia. unfold add_peer_locked.
    by rewrite (bind_done _ _ _ _ _ (lock_peers_run self (set_arr _ p) w' Hl)).
  - unfold add_s32. rewrite (bind_done _ _ _ n (PStore (set_lock (Some self) p) w))
      by (by rewrite bool_decide_true by lia).
    unfold realloc_peers. rewrite (bind_done _ _ _ true (PStore (set_lock (Some self) p) w')).
    + unfold upd_peers, modify. cbn. by rewrite Ha.
    + unfold peers_os, zoom, sys. cbn. by rewrite Hm.
Qed.

Lemma peers_are_resized p l room n : peers_are p l → p_arr p = Some ((Some <$> l) ++ room) →
  zlen l ≤ n → ∃ room', peers_are (set_arr (Some (resized n ((Some <$> l) ++ room))) p) l ∧
    resized n ((Some <$> l) ++ room) = (Some <$> l) ++ room' ∧ zlen room' = n - zlen l.
Proof.
  intros (Hs & Hb & _) Ha Hn. destruct (resized_prefix n l room Hn) as (room' & Hr & Hl).
  exists room'. split; [|done]. split_and!; [done|done|]. exists room'. cbn. by rewrite Hr.
Qed.

(** The loop of [remove_peer]: one occurrence goes, or nothing happens. *)
Lemma remove_loop_run fuel peer p l w : peers_are p l → (length l < fuel)%nat →
  ∃ p' l', iter fuel (remove_body peer) 0 (PStore p w) = Done tt (PStore p' w) ∧
    peers_are p' l' ∧ p_capacity p' = p_capacity p ∧
    (if decide (peer ∈ l) then l ≡ₚ peer :: l' else l' = l).
Proof.
  intros (Hs & Hb & room & Ha) Hf. destruct (decide (peer ∈ l)) as [Hin|Hni].
  - apply list_elem_of_split_l in Hin as (l1 & l2 & -> & Hni).
    destruct (remove_loop_found peer p w room l1 [] l2 fuel) as (p' & Hrun & Hare & _ & Hcap);
      [done|done|done|done|rewrite length_app in Hf; lia|].
    exists p', (without l1 l2). split_and!; [done|done|done|]. apply without_perm.
  - exists p, l. split_and!; [by apply (remove_loop_absent peer p w room l [] fuel)| |done|done].
    split_and!; [done|done|by exists room].
Qed.

Lemma remove_run fuel self peer p l w :
  peers_are p l → p_lock p = None → (length l < fuel)%nat →
  ∃ p' l', remove_peer fuel self peer (PStore p w) = Done tt (PStore p' w) ∧
    peers_are p' l' ∧ p_lock p' = None ∧ p_capacity p' = p_capacity p ∧
    (if decide (peer ∈ l) then l ≡ₚ peer :: l' else l' = l).
Proof.
  intros Hp Hl Hf. set (q := set_lock (Some self) p). assert (Hq : peers_are q l) by done.
  unfold remove_peer. rewrite (bind_done _ _ _ _ _ (lock_peers_run self p w Hl)).
  destruct (remove_loop_run fuel peer q l w Hq Hf) as (p' & l' & Hrun & Hare & Hcap & Hl').
  rewrite (bind_done _ _ _ _ _ Hrun). by exists (set_lock None p'), l'.
Qed.
End peer_rules.

(** ** Properties of the peer list *)
Section properties.
Context {W : Type} `{OS W}.
Implicit Types (p : peers_t) (w : W).

(** C28. [add_peer], run alone: below the capacity it appends the peer; from
    then on each call moves the array to room for twice the capacity, which
    stays what it was, and appends, until the list is twice the capacity: the
    next call writes behind the array. *)
Theorem add_peer_correct `{!MemoryRoom W} self peer p l w room :
  peers_are p l → p_lock p = None → p_arr p = Some ((Some <$> l) ++ room) →
  p_capacity p ≤ zlen l + zlen room → 0 < p_capacity p < 2 ^ 28 →
  if zlen l <? 2 * p_capacity p
  then ∃ p' w', add_peer self peer (PStore p w) = Done tt (PStore p' w') ∧
         peers_are p' (l ++ [peer]) ∧ p_lock p' = None ∧ p_capacity p' = p_capacity p
  else add_peer self peer (PStore p w) = Stop OutOfBounds.
Proof.
  intros Hp Hl Ha Hroom Hc. unfold add_peer.
  rewrite (bind_done _ _ _ (p_capacity p <=? zlen l) (PStore p w))
    by (unfold add_peer_full, mbind, M_bind; cbn; by rewrite (proj1 Hp)).
  pose proof (zlen_nonneg room).
  destruct (Z.leb_spec (p_capacity p) (zlen l)) as [Hfull|Hfree].
  - destruct (add_full_run self peer p l w room Hl Ha Hc) as [w' ->].
    destruct (Z.ltb_spec (zlen l) (2 * p_capacity p)) as [Hlt|Hge].
    + destruct (peers_are_resized p l room (2 * p_capacity p) Hp Ha) as (room' & Hp' & Hr & Hlen); [lia|].
      rewrite Hr in Hp' |- *. pose proof (add_locked_run self peer _ l w' room' Hp' Hl eq_refl) as Hrun.
      destruct room' as [|c room']; [change (zlen []) with 0 in Hlen; lia|].
      destruct Hrun as (p' & -> & Hare & ? & ? & _). exists p', w'. split_and!; [done|apply Hare; lia|done|done].
    + rewrite resized_full by lia. destruct Hp as (Hs & Hb & _).
      eapply add_locked_end; [done|done|]. rewrite zlen_fmap. cbn [p_size set_arr].
      unfold zlen in *. rewrite length_take. lia.
  - rewrite (proj2 (Z.ltb_lt _ _)) by lia.
    pose proof (add_locked_run self peer p l w room Hp Hl Ha) as Hrun.
    destruct room as [|c room']; [change (zlen []) with 0 in Hroom; lia|].
    destruct Hrun as (p' & -> & Hare & ? & ? & _). exists p', w. split_and!; [done|apply Hare; lia|done|done].
Qed.

(** C40. The test of [add_peer] is made without the lock: of two threads that
    both see one free cell, the second writes behind the array. *)
Theorem add_peer_race t1 t2 peer1 peer2 p l c w :
  peers_are p l → p_lock p = None → p_arr p = Some ((Some <$> l) ++ [c]) →
  p_capacity p = zlen l + 1 → p_capacity p < 2 ^ 31 - 1 →
  (full1 ← add_peer_full; full2 ← add_peer_full;
   _ ← add_peer_locked t1 full1 peer1; add_peer_locked t2 full2 peer2) (PStore p w) =
    Stop OutOfBounds.
Proof.
  intros Hp Hl Ha Hc Hb.
  assert (Hfull : add_peer_full (PStore p w) = Done false (PStore p w)).
  { unfold add_peer_full, mbind, M_bind. cbn. rewrite (proj1 Hp), (proj2 (Z.leb_gt _ _)) by lia. done. }
  rewrite !(bind_done _ _ _ _ _ Hfull).
  destruct (add_locked_run t1 peer1 p l w [c] Hp Hl Ha) as (p1 & Hrun & Hp1 & Hl1 & _ & Ha1).
  rewrite (bind_done _ _ _ _ _ Hrun). destruct Hp1 as (Hs1 & Hb1 & _); [lia|].
  eapply add_locked_end; [done|done|]. rewrite app_nil_r, zlen_fmap. lia.
Qed.


(** [remove_peers] removes the descriptors it is given: what is left of
    a list without duplicates is, in some order, the other peers. *)
Theorem remove_peers_correct fuel self gone p l w :
  peers_are p l → p_lock p = None → (length l < fuel)%nat → NoDup l →
  ∃ p' l', remove_peers fuel self gone (PStore p w) = Done tt (PStore p' w) ∧
    peers_are p' l' ∧ p_lock p' = None ∧ l' ≡ₚ filter (λ x, x ∉ gone) l.
Proof.
  revert p l. induction gone as [|peer gone IH]; intros p l Hp Hl Hf Hnd; cbn [for_each].
  - exists p, l. split_and!; [done|done|done|]. rewrite filter_id; [done|]. set_solver.
  - destruct (remove_run fuel self peer p l w Hp Hl Hf) as (p1 & l1 & Hrun & Hp1 & Hl1 & _ & Hl1l).
    assert (Hnd1 : NoDup l1 ∧ l1 ≡ₚ filter (λ x, x ≠ peer) l).
    { destruct (decide (peer ∈ l)) as [Hin|Hni].
      - rewrite Hl1l in Hnd. apply NoDup_cons in Hnd as [Hni Hnd]. split; [done|].
        rewrite Hl1l, filter_cons_False by tauto. rewrite filter_id; [done|]. set_solver.
      - subst l1. split; [done|]. rewrite filter_id; [done|]. set_solver. }
    destruct Hnd1 as [Hnd1 Hperm].
    destruct (IH p1 l1 Hp1 Hl1) as (p' & l' & Hrun' & Hp' & Hl' & Hl'l); [|done|].
    { apply Permutation_length in Hperm. rewrite Hperm. eapply Nat.le_lt_trans; [apply length_filter|done]. }
    exists p', l'. split_and!; [|done|done|].
    + unfold remove_peers. cbn [for_each]. by rewrite (bind_done _ _ _ _ _ Hrun).
    + rewrite Hl'l, Hperm, list_filter_filter. apply reflexive_eq. apply filter_ext_elem. set_solver.
Qed.
End properties.

(** ** The properties on concrete inputs *)
Module PeersWitness.
Import Sim.

Definition world : Sim.world := Sim.boot [].
(** Room for two descriptors: one taken, two taken, and four after growing. *)
Definition one : peers_t := Peers None 2 1 (Some [Some 3; None]).
Definition two : peers_t := Peers None 2 2 (Some [Some 3; Some 4]).
Definition four : peers_t := Peers None 2 4 (Some [Some 3; Some 4; Some 5; Some 6]).

Lemma one_are : peers_are one [3].
Proof. split_and!; [done|done|by exists [None]]. Qed.
Lemma two_are : peers_are two [3; 4].
Proof. split_and!; [done|done|by exists []]. Qed.
Lemma four_are : peers_are four [3; 4; 5; 6].
Proof. split_and!; [done|done|by exists []]. Qed.

Lemma add_peer_correct_witness :
  (∃ p' w', add_peer 1 9 (PStore two world) = Done tt (PStore p' w') ∧
     peers_are p' [3; 4; 9] ∧ p_lock p' = None ∧ p_capacity p' = 2) ∧
  add_peer 1 9 (PStore four world) = Stop OutOfBounds.
Proof.
  split.
  - apply (add_peer_correct 1 9 two [3; 4] world [] two_are); done.
  - apply (add_peer_correct 1 9 four [3; 4; 5; 6] world [] four_are); done.
Defined.

Lemma add_peer_race_witness :
  (full1 ← add_peer_full; full2 ← add_peer_full;
   _ ← add_peer_locked 1 full1 8; add_peer_locked 2 full2 9) (PStore one world) =
    Stop OutOfBounds.
Proof. apply (add_peer_race 1 2 8 9 one [3] None world one_are); done. Defined.


Lemma remove_peers_correct_witness :
  ∃ p' l', remove_peers 9 1 [6; 3] (PStore four world) = Done tt (PStore p' world) ∧
    peers_are p' l' ∧ p_lock p' = None ∧ l' ≡ₚ filter (λ x, x ∉ [6; 3]) [3; 4; 5; 6].
Proof.
  apply (remove_peers_correct 9 1 [6; 3] four [3; 4; 5; 6] world four_are);
    [done|by apply Nat.ltb_lt; vm_compute|].
  apply (bool_decide_unpack _). by vm_compute.
Defined.
End PeersWitness.
