(* ===== verification/Ui.v ===== *)
(** * The user interface (ui.h, ui.c)

    The queue of messages between the threads and the interface, which is a
    linked list in allocated memory under a recursive mutex, and the
    interface's main loop on the terminal of [Curses.v]. *)
From S2P Require Import Prelude OS Curses Sim Peers.

Definition INPUT_HEIGHT : Z := 3.
Definition INPUT_TIMEOUT_MS : Z := 10.

(** ui.c: struct ui_message.  Strings are the bytes in front of the
    terminator; [None] is a null pointer. *)
Record ui_message : Type := UiMessage {
  um_name : option (list Z);
  um_message : option (list Z);
  um_next : option Z
}.

(** The globals of ui.c.  The queue's nodes are in [u_heap] by address.  The
    mutex is recursive: the thread that holds it and how often.  [u_freed]
    says that the fields and forms were freed. *)
Record ui_t : Type := Ui {
  u_heap : gmap Z ui_message;
  u_head : option Z;
  u_tail : option Z;
  u_lock : option (tid * nat);
  u_running : bool;
  u_input_callback : bool;
  u_file_list_callback : bool;
  u_display_field : Z;
  u_input_field : Z;
  u_display_form : Z;
  u_input_form : Z;
  u_freed : bool
}.

Definition initial_ui : ui_t :=
  Ui ∅ None None None false false false 0 0 0 0 false.

Definition set_queue h hd tl u :=
  Ui h hd tl (u_lock u) (u_running u) (u_input_callback u) (u_file_list_callback u)
     (u_display_field u) (u_input_field u) (u_display_form u) (u_input_form u) (u_freed u).
Definition set_ui_lock l u :=
  Ui (u_heap u) (u_head u) (u_tail u) l (u_running u) (u_input_callback u) (u_file_list_callback u)
     (u_display_field u) (u_input_field u) (u_display_form u) (u_input_form u) (u_freed u).
Definition set_running b u :=
  Ui (u_heap u) (u_head u) (u_tail u) (u_lock u) b (u_input_callback u) (u_file_list_callback u)
     (u_display_field u) (u_input_field u) (u_display_form u) (u_input_form u) (u_freed u).
Definition set_input_callback b u :=
  Ui (u_heap u) (u_head u) (u_tail u) (u_lock u) (u_running u) b (u_file_list_callback u)
     (u_display_field u) (u_input_field u) (u_display_form u) (u_input_form u) (u_freed u).
Definition set_file_list_callback b u :=
  Ui (u_heap u) (u_head u) (u_tail u) (u_lock u) (u_running u) (u_input_callback u) b
     (u_display_field u) (u_input_field u) (u_display_form u) (u_input_form u) (u_freed u).
Definition set_forms df inf dfo ifo freed u :=
  Ui (u_heap u) (u_head u) (u_tail u) (u_lock u) (u_running u) (u_input_callback u)
     (u_file_list_callback u) df inf dfo ifo freed.
Definition set_heap h u := set_queue h (u_head u) (u_tail u) u.
Definition set_head p u := set_queue (u_heap u) p (u_tail u) u.
Definition set_tail p u := set_queue (u_heap u) (u_head u) p u.

Record ustore (W : Type) : Type := UStore {
  us_ui : ui_t;
  us_os : W
}.
Arguments UStore {W} _ _.
Arguments us_ui {W} _.
Arguments us_os {W} _.

(** ** The queue *)
Section queue.
Context {W : Type} `{OS W}.

Definition get_ui : M (ustore W) ui_t := gets us_ui.
Definition upd_ui (f : ui_t → ui_t) : M (ustore W) unit :=
  modify (λ s, UStore (f (us_ui s)) (us_os s)).
Definition ui_os {A} (m : M W A) : M (ustore W) A :=
  zoom us_os (λ w s, UStore (us_ui s) w) m.

(** The recursive mutex [ui_lock]. *)
Definition lock_ui (self : tid) : M (ustore W) unit :=
  u ← get_ui;
  match u_lock u with
  | None => upd_ui (set_ui_lock (Some (self, 1%nat)))
  | Some (t, n) =>
      if t =? self then upd_ui (set_ui_lock (Some (t, S n))) else stop Blocked
  end.
Definition unlock_ui : M (ustore W) unit :=
  u ← get_ui;
  match u_lock u with
  | Some (t, S (S n)) => upd_ui (set_ui_lock (Some (t, S n)))
  | _ => upd_ui (set_ui_lock None)
  end.

(** [strdup], and the nodes in memory: a node of the queue is read or written
    only while it is allocated. *)
Definition strdup (s : list Z) : M (ustore W) (option (list Z)) :=
  ok ← ui_os (sys (os_malloc (wrapu 64 (zlen s + 1))));
  mret (if ok : bool then Some s else None).
Definition node_at (a : Z) : M (ustore W) ui_message :=
  u ← get_ui;
  from_opt OutOfBounds (u_heap u !! a).
Definition set_node (a : Z) (n : ui_message) : M (ustore W) unit :=
  upd_ui (λ u, set_heap (<[a := n]> (u_heap u)) u).
Definition free_node (a : Z) : M (ustore W) unit :=
  u ← get_ui;
  match u_heap u !! a with
  | None => stop BadFree
  | Some _ => upd_ui (λ u, set_heap (delete a (u_heap u)) u)
  end.

Definition sizeof_ui_message : Z := 24.

(** ui.c: insert_m.  The node gets an address that is not in use. *)
Definition insert_m (self : tid) (name message : list Z) : M (ustore W) unit :=
  ok ← ui_os (sys (os_malloc sizeof_ui_message));
  if negb ok then mret tt
  else
    u ← get_ui;
    let new_node := fresh (dom (u_heap u)) in
    name' ← strdup name;
    message' ← strdup message;
    _ ← set_node new_node (UiMessage name' message' None);
    _ ← lock_ui self;
    u ← get_ui;
    _ ← match u_tail u with
        | None =>
            _ ← upd_ui (set_tail (Some new_node));
            upd_ui (set_head (Some new_node))
        | Some t =>
            n ← node_at t;
            _ ← set_node t (UiMessage (um_name n) (um_message n) (Some new_node));
            upd_ui (set_tail (Some new_node))
        end;
    unlock_ui.

(** ui.c: remove_m; the result is the address of the node, or NULL. *)
Definition remove_m (self : tid) : M (ustore W) (option Z) :=
  _ ← lock_ui self;
  u ← get_ui;
  let top := u_head u in
  _ ← match top with
      | None => mret tt
      | Some a =>
          n ← node_at a;
          _ ← upd_ui (set_head (um_next n));
          when (bool_decide (um_next n = None)) (upd_ui (set_tail None))
      end;
  _ ← unlock_ui;
  mret top.

(** ui.c: ui_display *)
Definition ui_display (self : tid) (username message : list Z) : M (ustore W) unit :=
  insert_m self username message.

(** ui.c: ui_register_file_list_callback; [cb] says that the pointer is not NULL. *)
Definition ui_register_file_list_callback (cb : bool) : M (ustore W) unit :=
  upd_ui (set_file_list_callback cb).
End queue.

(** ** Trimming *)
(** [isspace] in the C locale. *)
Definition isspace (c : Z) : bool := ((9 <=? c) && (c <=? 13)) || (c =? 32).

(** ui.c: safe_trim: the loop from the [n]-th character down, on the buffer;
    it stops at the first character of the string. *)
Fixpoint trim_from (str : list Z) (n : nat) : list Z :=
  match n with
  | O => str
  | S e =>
      match str !! e with
      | Some c => if isspace c then trim_from (<[e := 0]> str) e else str
      | None => str
      end
  end.
Lemma trim_from_spec s : ∀ rest, ∃ s' spaces rest',
  trim_from (s ++ 0 :: rest) (length s) = s' ++ 0 :: rest' ∧
  length (s' ++ 0 :: rest') = length (s ++ 0 :: rest) ∧ s = s' ++ spaces ∧
  Forall (λ c, isspace c = true) spaces ∧ (∀ c, last s' = Some c → isspace c = false).
Proof.
  induction s as [|c s IH] using rev_ind; intros rest.
  - exists [], [], rest. by split_and!.
  - rewrite length_app, Nat.add_comm. cbn [length Nat.add trim_from].
    rewrite <- app_assoc. cbn [app]. rewrite list_lookup_middle by done.
    destruct (isspace c) eqn:Hc.
    + rewrite insert_app_r_alt, Nat.sub_diag by done. cbn [insert list_insert].
      destruct (IH (0 :: rest)) as (s' & spaces & rest' & Ht & Hlen & -> & Hsp & Hlast).
      exists s', (spaces ++ [c]), rest'. split_and!; [done|by rewrite Hlen, !length_app|by rewrite app_assoc| |done].
      apply Forall_app. by split; [|constructor].
    + exists (s ++ [c]), [], rest. rewrite <- app_assoc, app_nil_r. split_and!; try done.
      intros c'. rewrite last_snoc. by intros [= <-].
Qed.

Definition safe_trim {S} (str : list Z) : M S (list Z) :=
  s ← from_opt OutOfBounds (cstr str);
  if zlen s =? 0 then mret str else mret (trim_from str (length s)).

(** ** The main loop *)
Section run.
Context {W : Type} `{OS W, CURSES W}.

(** Characters sent to a form one by one. *)
Definition drive (form c : Z) : M (ustore W) unit := ui_os (sys_ (form_driver form c)).
Definition drive_string (form : Z) (s : list Z) : M (ustore W) unit := for_each s (drive form).

(** ui.c: ui_init *)
Definition ui_init (callback : bool) : M (ustore W) unit :=
  _ ← ui_os (sys_ initscr);
  hc ← ui_os (gets has_colors);
  _ ← when hc (ui_os (_ ← sys_ start_color;
                      _ ← sys_ (init_pair 1 COLOR_GREEN COLOR_WHITE);
                      sys_ (init_pair 2 COLOR_RED COLOR_WHITE)));
  _ ← ui_os (_ ← sys_ cbreak; _ ← sys_ noecho; _ ← sys_ (curs_set 0);
             _ ← sys_ (timeout INPUT_TIMEOUT_MS); sys_ (keypad true));
  size ← ui_os (gets getmaxyx);
  let '(rows, cols) := size : Z * Z in
  let display_height := rows - INPUT_HEIGHT - 1 in
  display ← ui_os (sys (new_field display_height cols 0 0 0 0));
  input ← ui_os (sys (new_field INPUT_HEIGHT cols (display_height + 1) 0 0 0));
  _ ← ui_os (_ ← sys_ (field_opts_off display O_STATIC);
             _ ← sys_ (field_opts_off input O_AUTOSKIP);
             _ ← sys_ (field_opts_off input O_WRAP);
             sys_ (field_opts_off display O_WRAP));
  display_form ← ui_os (sys (new_form display));
  input_form ← ui_os (sys (new_form input));
  _ ← upd_ui (set_forms display input display_form input_form false);
  _ ← ui_os (_ ← sys_ (post_form display_form); _ ← sys_ (post_form input_form); sys_ refresh);
  _ ← for_each (seqZ 0 cols) (λ i, ui_os (sys_ (mvprintw display_height i (str "-"))));
  _ ← ui_os (sys_ refresh);
  _ ← upd_ui (set_input_callback callback);
  _ ← upd_ui (set_ui_lock None);
  upd_ui (set_running true).

(** ui.c: ui_exit.  The forms and fields are freed every time. *)
Definition ui_exit (self : tid) : M (ustore W) unit :=
  _ ← lock_ui self;
  _ ← upd_ui (set_running false);
  u ← get_ui;
  _ ← when (u_freed u) (stop BadFree);
  _ ← ui_os (_ ← sys_ (unpost_form (u_display_form u));
             _ ← sys_ (unpost_form (u_input_form u));
             _ ← sys_ (free_form (u_display_form u));
             _ ← sys_ (free_form (u_input_form u));
             _ ← sys_ (free_field (u_display_field u));
             _ ← sys_ (free_field (u_input_field u));
             sys_ endwin);
  _ ← upd_ui (λ u, set_forms (u_display_field u) (u_input_field u) (u_display_form u)
                     (u_input_form u) true u);
  unlock_ui.

(** ui.c: ui_run, the loop over the waiting messages. *)
Definition drain_body (self : tid) (_ : unit) : M (ustore W) (unit + unit) :=
  message ← remove_m self;
  match message with
  | None => mret (inr tt)
  | Some a =>
      u ← get_ui;
      _ ← drive (u_display_form u) REQ_NEW_LINE;
      n ← node_at a;
      name ← from_opt NullDeref (um_name n);
      _ ← drive_string (u_display_form u) name;
      _ ← drive (u_display_form u) 58;
      _ ← drive (u_display_form u) 32;
      text ← from_opt NullDeref (um_message n);
      _ ← drive_string (u_display_form u) text;
      _ ← free_node a;
      mret (inl tt)
  end.
Definition drain (fuel : nat) (self : tid) : M (ustore W) unit := iter fuel (drain_body self) tt.

(** The two callbacks run on a larger state [S] that holds the interface's. *)
Context {S : Type} (get : S → ustore W) (set : ustore W → S → S).
Context (file_list_callback : M S (list (option (list Z)))) (input_callback : list Z → M S unit).

Definition on_ui {A} (m : M (ustore W) A) : M S A := zoom get set m.

Definition files_header : list Z := str "[ Network Files ]".

(** ui.c: ui_run, ENTER on an empty line; a file name is [None] when its
    [strdup] failed. *)
Definition show_files : M S unit :=
  u ← on_ui get_ui;
  when (u_file_list_callback u)
    (files ← file_list_callback;
     on_ui (_ ← drive (u_display_form u) REQ_NEW_LINE;
            _ ← drive (u_display_form u) REQ_NEW_LINE;
            _ ← drive_string (u_display_form u) files_header;
            for_each files (λ f,
              _ ← drive (u_display_form u) REQ_NEW_LINE;
              name ← from_opt NullDeref f;
              drive_string (u_display_form u) name))).

(** ui.c: ui_run, lines 283-342: ENTER.  [strdup] may fail; the copy is then
    a null pointer. *)
Definition on_enter : M S unit :=
  u ← on_ui get_ui;
  _ ← on_ui (drive (u_input_form u) REQ_NEXT_FIELD);
  raw ← on_ui (ui_os (gets (field_buffer (u_input_field u))));
  copy ← on_ui (strdup raw);
  str ← from_opt NullDeref copy;
  buf ← safe_trim (str ++ [0]);
  text ← from_opt OutOfBounds (cstr buf);
  _ ← (if zlen text =? 0 then show_files
       else when (u_input_callback u) (input_callback text));
  u ← on_ui get_ui;
  when (u_running u) (on_ui (drive (u_input_form u) REQ_CLR_FIELD)).

(** ui.c: ui_run *)
Definition run_body (fuel : nat) (self : tid) (_ : unit) : M S (unit + unit) :=
  u ← on_ui get_ui;
  if negb (u_running u) then mret (inr tt)
  else
    ch ← on_ui (ui_os (sys getch));
    if ch =? -1 then mret (inl tt)
    else
      _ ← on_ui (drain fuel self);
      _ ← (if (ch =? KEY_BACKSPACE) || (ch =? 127)
           then on_ui (drive (u_input_form u) REQ_DEL_PREV)
           else if (ch =? 10) || (ch =? KEY_ENTER) then on_enter
           else on_ui (drive (u_input_form u) ch));
      _ ← on_ui (ui_os (sys_ refresh));
      mret (inl tt).
Definition ui_run (fuel : nat) (self : tid) : M S unit :=
  _ ← on_ui (ui_os (sys_ refresh));
  iter fuel (run_body fuel self) tt.
End run.

(** ** The list behind the queue *)
(** The nodes from [p] on: their addresses and contents, in order. *)
Fixpoint chain (h : gmap Z ui_message) (p : option Z)
    (ms : list (Z * (option (list Z) * option (list Z)))) : Prop :=
  match ms with
  | [] => p = None
  | (a, (name, text)) :: ms' =>
      p = Some a ∧ ∃ q, h !! a = Some (UiMessage name text q) ∧ chain h q ms'
  end.
Definition queue_is (u : ui_t) (ms : list (Z * (option (list Z) * option (list Z)))) : Prop :=
  chain (u_heap u) (u_head u) ms ∧ NoDup ms.*1 ∧ u_tail u = last ms.*1.

Lemma chain_frame h h' : ∀ ms p, chain h p ms → (∀ a, a ∈ ms.*1 → h' !! a = h !! a) → chain h' p ms.
Proof.
  induction ms as [|[a [name text]] ms IH]; intros p Hc Hh; [done|].
  destruct Hc as (-> & q & Hq & Hc). split; [done|]. exists q. split.
  - rewrite Hh; [done|]. by left.
  - apply IH; [done|]. intros b Hb. apply Hh. by right.
Qed.

Lemma chain_in h : ∀ ms p a, chain h p ms → a ∈ ms.*1 → is_Some (h !! a).
Proof.
  induction ms as [|[b [name text]] ms IH]; intros p a Hc Ha; [by apply not_elem_of_nil in Ha|].
  destruct Hc as (-> & q & Hq & Hc). cbn in Ha. apply elem_of_cons in Ha as [->|Ha]; [by eexists|].
  by eapply IH.
Qed.

(** Linking a new node behind the last one. *)
Lemma chain_snoc h a name text : ∀ ms p t, chain h p ms → NoDup ms.*1 → last ms.*1 = Some t →
  a ∉ ms.*1 → ∃ n, h !! t = Some n ∧
  chain (<[t := UiMessage (um_name n) (um_message n) (Some a)]>
          (<[a := UiMessage name text None]> h)) p (ms ++ [(a, (name, text))]).
Proof.
  induction ms as [|[b [nm tx]] ms IH]; intros p t Hc Hnd Hlast Hni; [done|].
  destruct Hc as (-> & q & Hq & Hc). cbn in Hnd, Hni.
  apply NoDup_cons in Hnd as [Hb Hnd]. apply not_elem_of_cons in Hni as [Hab Hni].
  destruct ms as [|[c x] ms].
  - cbn in Hlast, Hc. injection Hlast as <-. subst q. exists (UiMessage nm tx None).
    split; [done|]. cbn. split; [done|]. exists (Some a). rewrite lookup_insert_eq.
    split; [done|]. split; [done|]. exists None. rewrite lookup_insert_ne, lookup_insert_eq by done. done.
  - destruct (IH q t Hc Hnd) as (n & Hn & Hc'); [done|done|].
    exists n. split; [done|]. cbn [app chain]. split; [done|]. exists q. split; [|done].
    assert (b ≠ t) as Hbt.
    { intros ->. apply Hb. cbn. eapply (last_Some_elem_of ((c :: ms.*1))). done. }
    by rewrite !lookup_insert_ne by done.
Qed.

Lemma snoc_fst {A B} (ms : list (A * B)) a x : (ms ++ [(a, x)]).*1 = ms.*1 ++ [a].
Proof. by rewrite fmap_app. Qed.

Section queue_rules.
Context {W : Type} `{OS W}.
Implicit Types (u : ui_t) (w : W).

Lemma lock_ui_run self u w : u_lock u = None →
  lock_ui self (UStore u w) = Done tt (UStore (set_ui_lock (Some (self, 1%nat)) u) w).
Proof. intros Hl. unfold lock_ui, mbind, M_bind. cbn. by rewrite Hl. Qed.

Lemma unlock_ui_run self u w : u_lock u = Some (self, 1%nat) →
  unlock_ui (UStore u w) = Done tt (UStore (set_ui_lock None u) w).
Proof. intros Hl. unfold unlock_ui, mbind, M_bind. cbn. by rewrite Hl. Qed.

Lemma node_at_run a n u w : u_heap u !! a = Some n → node_at a (UStore u w) = Done n (UStore u w).
Proof. intros Hn. unfold node_at, mbind, M_bind. cbn. by rewrite Hn. Qed.

Lemma ui_malloc_run `{!MemoryRoom W} n u w :
  ui_os (sys (os_malloc n)) (UStore u w) = Done true (UStore u (os_malloc n w).2).
Proof.
  pose proof (law_malloc_ok n w) as Hok. unfold ui_os, zoom, sys. cbn.
  destruct (os_malloc n w) as [b w'] eqn:Hm. cbn in Hok. by subst b.
Qed.

Lemma strdup_run `{!MemoryRoom W} s u w :
  strdup s (UStore u w) = Done (Some s) (UStore u (os_malloc (wrapu 64 (zlen s + 1)) w).2).
Proof. unfold strdup. by rewrite (bind_done _ _ _ _ _ (ui_malloc_run _ u w)). Qed.

(** The world after the three allocations of [insert_m]. *)
Definition insert_allocs (name text : list Z) (w : W) : W :=
  (os_malloc (wrapu 64 (zlen text + 1))
     (os_malloc (wrapu 64 (zlen name + 1)) (os_malloc sizeof_ui_message w).2).2).2.

(** The state [insert_m] leaves, with the new node at [a]. *)
Definition inserted (a : Z) (name text : list Z) (u : ui_t) : ui_t :=
  let node := UiMessage (Some name) (Some text) None in
  match u_tail u with
  | None => set_queue (<[a := node]> (u_heap u)) (Some a) (Some a) u
  | Some t =>
      let n := default node (u_heap u !! t) in
      set_queue (<[t := UiMessage (um_name n) (um_message n) (Some a)]> (<[a := node]> (u_heap u)))
        (u_head u) (Some a) u
  end.

Lemma inserted_queue a name text u ms : queue_is u ms → u_heap u !! a = None →
  queue_is (inserted a name text u) (ms ++ [(a, (Some name, Some text))]).
Proof.
  intros (Hc & Hnd & Htail) Ha.
  assert (Hni : a ∉ ms.*1).
  { intros Hin. destruct (chain_in _ _ _ _ Hc Hin) as [x Hx]. congruence. }
  unfold inserted. destruct (u_tail u) as [t|] eqn:Ht; split_and!; cbn.
  - destruct (chain_snoc (u_heap u) a (Some name) (Some text) ms (u_head u) t Hc Hnd (eq_sym Htail) Hni)
      as (n & Hn & Hc'). by rewrite Hn.
  - rewrite snoc_fst. apply NoDup_app. split_and!; [done| |apply NoDup_singleton]. set_solver.
  - by rewrite snoc_fst, last_snoc.
  - destruct ms as [|x ms] using rev_ind; [|destruct x; by rewrite snoc_fst, last_snoc in Htail].
    cbn. split; [done|]. exists None. by rewrite lookup_insert_eq.
  - rewrite snoc_fst. apply NoDup_app. split_and!; [done| |apply NoDup_singleton]. set_solver.
  - by rewrite snoc_fst, last_snoc.
Qed.

Lemma inserted_frame a name text u ms b : queue_is u ms → b ≠ a → b ∉ ms.*1 →
  u_heap (inserted a name text u) !! b = u_heap u !! b.
Proof.
  intros (_ & _ & Htail) Hba Hb. unfold inserted.
  destruct (u_tail u) as [t|]; cbn; [|by rewrite lookup_insert_ne by done].
  assert (b ≠ t) as Hbt by (intros ->; by apply Hb, last_Some_elem_of).
  by rewrite !lookup_insert_ne by done.
Qed.

Lemma insert_m_run `{!MemoryRoom W} self name text u ms w :
  queue_is u ms → u_lock u = None →
  insert_m self name text (UStore u w) =
    Done tt (UStore (inserted (fresh (dom (u_heap u))) name text u) (insert_allocs name text w)).
Proof.
  intros Hq Hl. unfold insert_m.
  rewrite (bind_done _ _ _ _ _ (ui_malloc_run sizeof_ui_message u w)). cbn [negb].
  set (w1 := (os_malloc sizeof_ui_message w).2).
  rewrite (bind_done get_ui _ _ u (UStore u w1)) by done.
  rewrite (bind_done _ _ _ _ _ (strdup_run name u w1)).
  rewrite (bind_done _ _ _ _ _ (strdup_run text u _)).
  change (os_malloc _ (os_malloc _ w1).2).2 with (insert_allocs name text w).
  set (w3 := insert_allocs name text w).
  set (a := fresh (dom (u_heap u))). set (node := UiMessage (Some name) (Some text) None).
  set (u1 := set_heap (<[a := node]> (u_heap u)) u).
  rewrite (bind_done (set_node a node) _ _ tt (UStore u1 w3)) by done.
  rewrite (bind_done _ _ _ _ _ (lock_ui_run self u1 w3 Hl)).
  set (u2 := set_ui_lock _ u1). rewrite (bind_done get_ui _ _ u2 (UStore u2 w3)) by done.
  unfold inserted. fold a node. change (u_tail u2) with (u_tail u).
  destruct (u_tail u) as [t|] eqn:Ht.
  - destruct Hq as (Hc & Hnd & Htail). rewrite Ht in Htail.
    assert (Hin : is_Some (u_heap u !! t)).
    { eapply chain_in; [exact Hc|]. by apply last_Some_elem_of. }
    destruct Hin as [n Hn]. rewrite Hn. cbn [default].
    assert (t ≠ a) as Hta.
    { intros ->. apply (elem_of_dom_2 (D := gset Z)) in Hn. by apply is_fresh in Hn. }
    rewrite (bind_done _ _ _ tt (UStore (set_queue (<[t := UiMessage (um_name n) (um_message n) (Some a)]>
               (<[a := node]> (u_heap u))) (u_head u) (Some a) u2) w3)).
    + erewrite unlock_ui_run by done. do 2 f_equal. unfold set_ui_lock, set_queue. cbn. by rewrite Hl.
    + rewrite (bind_done _ _ _ n (UStore u2 w3)); [done|]. apply node_at_run.
      cbn. by rewrite lookup_insert_ne.
  - rewrite (bind_done _ _ _ tt (UStore (set_queue (<[a := node]> (u_heap u)) (Some a) (Some a) u2) w3)) by done.
    erewrite unlock_ui_run by done. do 2 f_equal. unfold set_ui_lock, set_queue. cbn. by rewrite Hl.
Qed.

(** The state [remove_m] leaves. *)
Definition removed (u : ui_t) (q : option Z) : ui_t :=
  set_queue (u_heap u) q (if bool_decide (q = None) then None else u_tail u) u.

Lemma remove_m_run self u ms w : queue_is u ms → u_lock u = None →
  match ms with
  | [] => remove_m self (UStore u w) = Done None (UStore u w)
  | (a, (name, text)) :: ms' => ∃ q,
      remove_m self (UStore u w) = Done (Some a) (UStore (removed u q) w) ∧
      u_heap u !! a = Some (UiMessage name text q) ∧ queue_is (removed u q) ms'
  end.
Proof.
  intros (Hc & Hnd & Htail) Hl. unfold remove_m.
  destruct ms as [|[a [name text]] ms'];
    rewrite (bind_done _ _ _ _ _ (lock_ui_run self u w Hl));
    set (u1 := set_ui_lock _ u); rewrite (bind_done get_ui _ _ u1 (UStore u1 w)) by done;
    change (u_head u1) with (u_head u).
  - cbn in Hc. rewrite Hc. rewrite (bind_done (mret tt) _ _ tt (UStore u1 w)) by done.
    erewrite (bind_done unlock_ui) by (by eapply unlock_ui_run). do 2 f_equal.
    unfold u1, set_ui_lock. cbn. destruct u. cbn in *. by subst.
  - destruct Hc as (Hh & q & Hq & Hc). rewrite Hh. exists q. cbn in Hnd, Htail.
    apply NoDup_cons in Hnd as [Ha Hnd]. split_and!; [|done|].
    + rewrite (bind_done _ _ _ tt (UStore (set_ui_lock (Some (self, 1%nat)) (removed u q)) w)).
      * erewrite (bind_done unlock_ui) by (by eapply unlock_ui_run).
        do 2 f_equal. unfold set_ui_lock, removed, set_queue. cbn. by rewrite Hl.
      * rewrite (bind_done _ _ _ (UiMessage name text q) (UStore u1 w)) by (by apply node_at_run).
        rewrite (bind_done (upd_ui _) _ _ tt (UStore (set_head q u1) w)) by done.
        unfold removed. cbn [um_next]. by destruct (bool_decide (q = None)).
    + split_and!; [done|done|]. cbn. case_bool_decide as Hqn.
      * subst q. destruct ms' as [|[b [??]] ms']; [done|]. by destruct Hc.
      * destruct ms' as [|[b [??]] ms']; [done|]. exact Htail.
Qed.
End queue_rules.

Section drain_rules.
Context {W : Type} `{OS W, CURSES W, ScreenOf W, OSViewOf W, !CursesLaws W}.
Implicit Types (u : ui_t) (w : W).

(** What one message looks like on the form. *)
Definition rendered (form : Z) (m : list Z * list Z) : list (Z * Z) :=
  pair form <$> REQ_NEW_LINE :: m.1 ++ [58; 32] ++ m.2.

(** From [w] to [w'] only [l] was sent to the forms. *)
Definition shown (l : list (Z * Z)) (w w' : W) : Prop :=
  screen w' = screen w ++ l ∧ os_view w' = os_view w.

Lemma shown_trans l1 l2 w1 w2 w3 : shown l1 w1 w2 → shown l2 w2 w3 → shown (l1 ++ l2) w1 w3.
Proof. intros [Hs1 V1] [Hs2 V2]. split; [by rewrite Hs2, Hs1, app_assoc|congruence]. Qed.

Lemma shown_nil w : shown [] w w.
Proof. split; [by rewrite app_nil_r|done]. Qed.

Lemma drive_run form c u w :
  drive form c (UStore u w) = Done tt (UStore u (form_driver form c w)) ∧
  shown [(form, c)] w (form_driver form c w).
Proof. split; [done|]. split; [apply law_form_driver|apply law_form_driver_view]. Qed.

Lemma drive_string_run form s : ∀ u w, ∃ w',
  drive_string form s (UStore u w) = Done tt (UStore u w') ∧ shown (pair form <$> s) w w'.
Proof.
  induction s as [|c s IH]; intros u w.
  - exists w. split; [done|apply shown_nil].
  - destruct (drive_run form c u w) as [Hrun Hs].
    destruct (IH u (form_driver form c w)) as (w' & Hrun' & Hs'). exists w'. split.
    + unfold drive_string. cbn [for_each]. by rewrite (bind_done _ _ _ _ _ Hrun).
    + by apply (shown_trans [_] _ _ _ _ Hs).
Qed.

(** One round of the loop: the first message is shown and its node freed. *)
Lemma drain_step self u ms w a name text :
  queue_is u ((a, (Some name, Some text)) :: ms) → u_lock u = None →
  ∃ q w', drain_body self tt (UStore u w) =
      Done (inl tt) (UStore (set_heap (delete a (u_heap u)) (removed u q)) w') ∧
    queue_is (set_heap (delete a (u_heap u)) (removed u q)) ms ∧
    shown (rendered (u_display_form u) (name, text)) w w'.
Proof.
  intros Hq Hl. destruct (remove_m_run self u _ w Hq Hl) as (q & Hrun & Ha & Hq').
  set (form := u_display_form u). set (u1 := removed u q) in *.
  destruct (drive_run form REQ_NEW_LINE u1 w) as [Hr1 S1].
  destruct (drive_string_run form name u1 (form_driver form REQ_NEW_LINE w)) as (w2 & Hr2 & S2).
  destruct (drive_run form 58 u1 w2) as [Hr3 S3].
  destruct (drive_run form 32 u1 (form_driver form 58 w2)) as [Hr4 S4].
  destruct (drive_string_run form text u1 (form_driver form 32 (form_driver form 58 w2))) as (w5 & Hr5 & S5).
  exists q, w5. split_and!.
  - unfold drain_body. rewrite (bind_done _ _ _ _ _ Hrun).
    rewrite (bind_done get_ui _ _ u1 (UStore u1 w)) by done. change (u_display_form u1) with form.
    rewrite (bind_done _ _ _ _ _ Hr1).
    assert (Hn : node_at a (UStore u1 (form_driver form REQ_NEW_LINE w)) =
              Done (UiMessage (Some name) (Some text) q) (UStore u1 (form_driver form REQ_NEW_LINE w)))
      by (by apply node_at_run).
    rewrite (bind_done _ _ _ _ _ Hn). cbn [um_name um_message from_opt].
    rewrite (bind_done (mret name) _ _ name (UStore u1 (form_driver form REQ_NEW_LINE w))) by done.
    rewrite (bind_done _ _ _ _ _ Hr2), (bind_done _ _ _ _ _ Hr3), (bind_done _ _ _ _ _ Hr4).
    rewrite (bind_done (mret text) _ _ text (UStore u1 (form_driver form 32 (form_driver form 58 w2)))) by done.
    rewrite (bind_done _ _ _ _ _ Hr5).
    rewrite (bind_done _ _ _ tt (UStore (set_heap (delete a (u_heap u)) u1) w5)); [done|].
    unfold free_node. rewrite (bind_done get_ui _ _ u1 (UStore u1 w5)) by done.
    change (u_heap u1) with (u_heap u). rewrite Ha. done.
  - destruct Hq as (_ & Hnd & _). apply NoDup_cons in Hnd as [Hni _].
    destruct Hq' as (Hc & Hnd & Htail). split_and!; [|done|done].
    eapply chain_frame; [exact Hc|]. intros b Hb. cbn. rewrite lookup_delete_ne; [done|].
    intros ->. done.
  - pose proof (shown_trans _ _ _ _ _ (shown_trans _ _ _ _ _ (shown_trans _ _ _ _ _
      (shown_trans _ _ _ _ _ S1 S2) S3) S4) S5) as S.
    unfold rendered. cbn [fst snd fmap list_fmap]. rewrite !fmap_app.
    rewrite <- !app_assoc in S. exact S.
Qed.

Definition full (m : list Z * list Z) : option (list Z) * option (list Z) := (Some m.1, Some m.2).

Lemma drain_run fuel self : ∀ ms u w l, queue_is u ms → u_lock u = None → ms.*2 = full <$> l →
  (length l < fuel)%nat →
  ∃ u' w', drain fuel self (UStore u w) = Done tt (UStore u' w') ∧ queue_is u' [] ∧
    u_lock u' = None ∧ shown (l ≫= rendered (u_display_form u)) w w' ∧
    (∀ a, u_heap u' !! a = if decide (a ∈ ms.*1) then None else u_heap u !! a).
Proof.
  unfold drain. induction fuel as [|fuel IH]; intros ms u w l Hq Hl Hms Hf; [lia|].
  destruct ms as [|[a x] ms], l as [|m l]; try done; cbn [iter].
  - pose proof (remove_m_run self u [] w Hq Hl) as Hrun.
    rewrite (bind_done _ _ _ (inr tt) (UStore u w)).
    + exists u, w. split_and!; [done|done|done|apply shown_nil|done].
    + unfold drain_body. by rewrite (bind_done _ _ _ _ _ Hrun).
  - cbn in Hms. injection Hms as -> Hms.
    destruct (drain_step self u ms w a m.1 m.2 Hq Hl) as (q & w1 & Hrun & Hq1 & Hs1).
    rewrite (bind_done _ _ _ _ _ Hrun).
    destruct (IH ms _ w1 l Hq1 Hl Hms) as (u' & w' & Hrun' & Hq' & Hl' & Hs' & Hheap);
      [cbn in Hf; lia|].
    exists u', w'. split_and!; [done|done|done| |].
    + destruct m as [name text]. by apply (shown_trans _ _ _ _ _ Hs1).
    + intros b. rewrite Hheap. cbn [u_heap set_heap set_queue fmap list_fmap fst].
      destruct (decide (b = a)) as [->|Hne].
      * rewrite lookup_delete_eq. destruct (decide (a ∈ a :: ms.*1)) as [|Hn]; [by destruct (decide _)|].
        destruct Hn. by left.
      * rewrite lookup_delete_ne by done.
        destruct (decide (b ∈ ms.*1)) as [Hb|Hb], (decide (b ∈ a :: ms.*1)) as [Hc|Hc]; try done.
        -- destruct Hc. by right.
        -- by apply elem_of_cons in Hc as [->|?].
Qed.
End drain_rules.

(** ** Properties of the interface *)
Section properties.
Context {W : Type} `{OS W, CURSES W, ScreenOf W, OSViewOf W, !CursesLaws W, !MemoryRoom W, !MallocScreen W}.
Implicit Types (u : ui_t) (w : W).

(** A number of calls of [ui_display], each by some thread. *)
Definition displays (l : list (tid * (list Z * list Z))) : M (ustore W) unit :=
  for_each l (λ x, ui_display x.1 x.2.1 x.2.2).

Lemma displays_run l : ∀ u w ms, queue_is u ms → u_lock u = None →
  ∃ u' w' ms', displays l (UStore u w) = Done tt (UStore u' w') ∧
    queue_is u' (ms ++ ms') ∧ ms'.*2 = full <$> l.*2 ∧ u_lock u' = None ∧
    u_display_form u' = u_display_form u ∧ screen w' = screen w ∧
    (∀ a, a ∉ (ms ++ ms').*1 → u_heap u' !! a = u_heap u !! a) ∧
    (∀ a, a ∈ ms'.*1 → u_heap u !! a = None).
Proof.
  induction l as [|[t [name text]] l IH]; intros u w ms Hq Hl.
  - exists u, w, []. rewrite app_nil_r. split_and!; try done. by intros a Ha%not_elem_of_nil.
  - set (a := fresh (dom (u_heap u))). set (u1 := inserted a name text u).
    assert (Ha : u_heap u !! a = None) by (apply not_elem_of_dom, is_fresh).
    pose proof (inserted_queue a name text u ms Hq Ha) as Hq1.
    assert (Hu1 : u_lock u1 = u_lock u ∧ u_display_form u1 = u_display_form u)
      by (unfold u1, inserted; by destruct (u_tail u)).
    destruct Hu1 as [Hl1 Hf1].
    destruct (IH u1 (insert_allocs name text w) _ Hq1) as (u' & w' & ms' & Hrun & Hq' & Hms & Hl' & Hf & Hs & Hframe & Hnew);
      [by rewrite Hl1|].
    exists u', w', ((a, (Some name, Some text)) :: ms'). rewrite <- app_assoc in Hq', Hframe. cbn in Hq', Hframe.
    split_and!; [|done|by cbn; rewrite Hms|done|congruence| | |].
    + unfold displays. cbn [for_each fst snd]. unfold ui_display at 1.
      by rewrite (bind_done _ _ _ _ _ (insert_m_run t name text u ms w Hq Hl)).
    + rewrite Hs. unfold insert_allocs. by rewrite !law_malloc_screen.
    + intros b Hb. rewrite (Hframe b Hb). rewrite fmap_app in Hb. cbn in Hb.
      apply not_elem_of_app in Hb as [Hb1 [Hb2 _]%not_elem_of_cons].
      by apply (inserted_frame a name text u ms b Hq).
    + intros b Hb. cbn in Hb. apply elem_of_cons in Hb as [->|Hb]; [done|].
      destruct (u_heap u !! b) as [n|] eqn:Hn; [|done]. exfalso.
      assert (b ≠ a) as Hba by congruence.
      assert (Hni : b ∉ ms.*1).
      { intros Hin. destruct Hq' as (_ & Hnd & _). rewrite fmap_app in Hnd.
        apply NoDup_app in Hnd as (_ & Hdisj & _). apply (Hdisj b Hin). cbn. by right. }
      pose proof (Hnew b Hb) as Hnone. unfold u1 in Hnone.
      rewrite (inserted_frame a name text u ms b Hq Hba Hni) in Hnone. congruence.
Qed.

(** C21. Messages given to [ui_display], by whatever threads, come out of the
    queue in that order: the loop of [ui_run] then sends each of them once to
    the display form, as a new line, the name, a colon, a space and the text,
    empties the queue, frees all the nodes and ends. *)
Theorem ui_display_fifo fuel self l u w :
  queue_is u [] → u_lock u = None → (length l < fuel)%nat →
  ∃ u' w', (_ ← displays l; drain fuel self) (UStore u w) = Done tt (UStore u' w') ∧
    queue_is u' [] ∧ u_lock u' = None ∧
    screen w' = screen w ++ (l.*2 ≫= rendered (u_display_form u)) ∧
    u_heap u' = u_heap u.
Proof.
  intros Hq Hl Hf. destruct (displays_run l u w [] Hq Hl)
    as (u1 & w1 & ms & Hrun & Hq1 & Hms & Hl1 & Hform & Hs & Hframe & Hnew).
  destruct (drain_run fuel self ms u1 w1 l.*2 Hq1 Hl1 Hms) as (u' & w' & Hrun' & Hq' & Hl' & Hshown & Hheap);
    [by rewrite length_fmap|].
  exists u', w'. split_and!; [by rewrite (bind_done _ _ _ _ _ Hrun)|done|done| |].
  - destruct Hshown as [-> _]. by rewrite Hs, Hform.
  - apply map_eq. intros a. rewrite Hheap. destruct (decide (a ∈ ms.*1)) as [Hin|Hni].
    + by rewrite Hnew.
    + by apply Hframe.
Qed.

(** A message waits for a key: when [getch] gives -1, as it does after
    each time-out, the loop of [ui_run] goes round without taking anything
    from the queue. *)
Theorem messages_wait_for_key {S} (get : S → ustore W) (set : ustore W → S → S) files input fuel self s :
  (∀ x, get (set x s) = x) → (∀ x y, set y (set x s) = set y s) → set (get s) s = s →
  u_running (us_ui (get s)) = true → (getch (us_os (get s))).1 = -1 →
  run_body get set files input fuel self tt s =
    Done (inl tt) (set (UStore (us_ui (get s)) (getch (us_os (get s))).2) s).
Proof.
  intros Hget Hset Hid Hrun Hkey. unfold run_body, on_ui.
  rewrite (bind_done _ _ _ (us_ui (get s)) s).
  - rewrite Hrun. cbn [negb].
    rewrite (bind_done _ _ _ (-1) (set (UStore (us_ui (get s)) (getch (us_os (get s))).2) s)); [done|].
    unfold zoom, ui_os, zoom, sys. destruct (getch (us_os (get s))) as [ch w'] eqn:Hch.
    cbn in Hkey. by subst ch.
  - unfold zoom, get_ui, gets. by rewrite Hid.
Qed.

(** [ui_exit] frees the forms and fields; the second call, which [main]
    makes when [ui_run] has returned because of the first, frees them again. *)
Lemma ui_exit_twice self u w :
  u_lock u = None → u_freed u = false →
  wp (ui_exit self) (λ _ s, u_running (us_ui s) = false ∧ u_lock (us_ui s) = None ∧
    u_freed (us_ui s) = true) no_fault (UStore u w) ∧
  (_ ← ui_exit self; ui_exit self) (UStore u w) = Stop BadFree.
Proof.
  intros Hl Hfr. unfold ui_exit, lock_ui, unlock_ui, wp, mbind, M_bind. cbn.
  rewrite Hl. cbn. rewrite Hfr. cbn. done.
Qed.
End properties.

(** [safe_trim] cuts exactly the trailing white space off the string in
    the buffer, whatever the string, and stays inside the buffer. *)
Theorem safe_trim_correct {S} str s (st : S) : cstr str = Some s →
  ∃ str' s' spaces, safe_trim str st = Done str' st ∧ length str' = length str ∧
    cstr str' = Some s' ∧ s = s' ++ spaces ∧ Forall (λ c, isspace c = true) spaces ∧
    (∀ c, last s' = Some c → isspace c = false).
Proof.
  intros Hs. destruct (cstr_Some _ _ Hs) as (rest & -> & Hnz). clear Hs.
  assert (Hs : cstr (s ++ 0 :: rest) = Some s) by by apply cstr_terminated.
  assert (Htrim : ∃ s' spaces rest', trim_from (s ++ 0 :: rest) (length s) = s' ++ 0 :: rest' ∧
    length (s' ++ 0 :: rest') = length (s ++ 0 :: rest) ∧ s = s' ++ spaces ∧
    Forall (λ c, isspace c = true) spaces ∧ (∀ c, last s' = Some c → isspace c = false)).
  { apply trim_from_spec. }
  destruct Htrim as (s' & spaces & rest' & Htrim & Hlen & -> & Hsp & Hlast).
  apply Forall_app in Hnz as [Hnz _].
  unfold safe_trim. rewrite Hs. cbn [from_opt]. unfold mbind, M_bind. cbn [mret M_ret].
  destruct (Z.eqb_spec (zlen (s' ++ spaces)) 0) as [Hz|Hz].
  - exists ((s' ++ spaces) ++ 0 :: rest), (s' ++ spaces), [].
    assert (s' ++ spaces = []) as -> by (apply length_zero_iff_nil; unfold zlen in Hz; lia).
    by split_and!.
  - exists (s' ++ 0 :: rest'), s', spaces. split_and!; try done; [|by apply cstr_terminated].
    by rewrite Htrim.
Qed.

(** ** The properties on concrete inputs *)
Module UiWitness.
Import Sim.

Definition world : Sim.world := Sim.boot [].
Definition ready : ui_t := set_running true (set_forms 1 22 101 122 false initial_ui).
Definition hello : list Z := [104; 105].

Lemma ready_empty : queue_is ready [].
Proof. split_and!; [done|constructor|done]. Qed.

Lemma ui_display_fifo_witness :
  ∃ u' w', (_ ← displays [(1, (hello, [49])); (2, (hello, [50]))]; drain 9 1) (UStore ready world) =
      Done tt (UStore u' w') ∧
    queue_is u' [] ∧ u_lock u' = None ∧
    screen w' = screen world ++ ([(1, (hello, [49])); (2, (hello, [50]))].*2 ≫= rendered 101) ∧
    u_heap u' = u_heap ready.
Proof.
  apply (ui_display_fifo 9 1 [(1, (hello, [49])); (2, (hello, [50]))] ready world ready_empty);
    [done|by apply Nat.ltb_lt; vm_compute].
Defined.

Lemma messages_wait_for_key_witness :
  run_body id (λ x _, x) (mret []) (λ _, mret tt) 9 1 tt
      (UStore (inserted 5 hello hello ready) world) =
    Done (inl tt) (UStore (inserted 5 hello hello ready) world).
Proof.
  exact (messages_wait_for_key id (λ x _, x) (mret []) (λ _, mret tt) 9 1
           (UStore (inserted 5 hello hello ready) world)
           (λ _, eq_refl) (λ _ _, eq_refl) eq_refl eq_refl eq_refl).
Defined.

Lemma safe_trim_correct_witness :
  ∃ str' s' spaces, safe_trim [104; 32; 105; 32; 9; 0; 7] world = Done str' world ∧
    length str' = 7%nat ∧
    cstr str' = Some s' ∧ [104; 32; 105; 32; 9] = s' ++ spaces ∧
    Forall (λ c, isspace c = true) spaces ∧
    (∀ c, last s' = Some c → isspace c = false).
Proof. apply (safe_trim_correct [104; 32; 105; 32; 9; 0; 7] [104; 32; 105; 32; 9] world). done. Defined.
End UiWitness.
