(* ===== verification/Wire.v ===== *)
(** * The structs that travel between peers (client.h, file.h)

    The bytes of [tfile_def_t], [sockaddr_in], [chunk_request_t] and
    [chunk_payload_t] in memory (x86-64, little-endian, with the compiler's
    padding), which are the bodies of the messages. *)
From S2P Require Import Prelude OS HTable Message.

(** The [n]-byte little-endian value at an offset, unsigned and signed. *)
Definition u_at (n off : Z) (bs : list Z) : Z := le_val (slice off n bs).
Definition s32_at (off : Z) (bs : list Z) : Z := wraps32 (u_at 4 off bs).
Definition s64_at (off : Z) (bs : list Z) : Z := wraps64 (u_at 8 off bs).

(** ** [tfile_def_t] *)
Definition sizeof_tfile_def_t : Z := 184.

Definition encode_tdef (d : tfile_def_t) : list Z :=
  td_name d ++ td_f_hash d ++ concat (td_c_hashes d) ++ le_bytes 8 (wrapu 64 (td_size d)).
Definition decode_tdef (bs : list Z) : tfile_def_t :=
  TFileDef (slice 0 NAME_LEN bs) (slice 32 16 bs)
    ((λ i, slice (48 + 16 * i) 16 bs) <$> seqZ 0 NUM_CHUNKS) (s64_at 176 bs).

(** ** [sockaddr_in], with its eight bytes of [sin_zero] *)
Definition encode_addr (a : sockaddr_in) : list Z :=
  le_bytes 2 (sin_family a) ++ le_bytes 2 (sin_port a) ++ le_bytes 4 (sin_addr a) ++ replicate 8 0.
Definition decode_addr (bs : list Z) : sockaddr_in :=
  SockAddr (u_at 2 0 bs) (u_at 2 2 bs) (u_at 4 4 bs).

(** ** [chunk_request_t] *)
Record chunk_request_t : Type := ChunkRequest {
  req_file_hash : list Z;
  req_chunk_index : Z;
  req_return_addr : sockaddr_in;
  req_return_addr_len : Z;
  req_ttl : Z
}.

Definition sizeof_chunk_request_t : Z := 44.

Definition encode_request (r : chunk_request_t) : list Z :=
  req_file_hash r ++ le_bytes 4 (wrapu 32 (req_chunk_index r)) ++ encode_addr (req_return_addr r) ++
  le_bytes 4 (req_return_addr_len r) ++ [req_ttl r] ++ replicate 3 0.
Definition decode_request (bs : list Z) : chunk_request_t :=
  ChunkRequest (slice 0 16 bs) (s32_at 16 bs) (decode_addr (slice 20 16 bs)) (u_at 4 36 bs) (u_at 1 40 bs).

(** ** [chunk_payload_t], the header in front of a chunk's bytes *)
Record chunk_payload_t : Type := ChunkPayload {
  pl_file_hash : list Z;
  pl_chunk_index : Z;
  pl_chunk_size : Z
}.

Definition sizeof_chunk_payload_t : Z := 24.

Definition encode_payload (p : chunk_payload_t) : list Z :=
  pl_file_hash p ++ le_bytes 4 (wrapu 32 (pl_chunk_index p)) ++ le_bytes 4 (pl_chunk_size p).
Definition decode_payload (bs : list Z) : chunk_payload_t :=
  ChunkPayload (slice 0 16 bs) (s32_at 16 bs) (u_at 4 20 bs).

(** ** Round trips *)
Lemma slice_skip {A} off n k (a r : list A) : zlen a = k → 0 ≤ n → k ≤ off →
  slice off n (a ++ r) = slice (off - k) n r.
Proof.
  unfold zlen, slice. intros <- Hn Hk. f_equal. rewrite drop_app_ge by lia. f_equal. lia.
Qed.

Lemma zlen_le_bytes n z : zlen (le_bytes n z) = Z.of_nat n.
Proof. unfold zlen. by rewrite length_le_bytes. Qed.

(** The length of a field: known by a hypothesis, or an integer's. *)
Ltac field_len := first [eassumption | apply zlen_le_bytes | reflexivity].
(** Cut a field out of a struct: skip the fields in front of it. *)
Ltac cut_field :=
  rewrite <- ?app_assoc;
  repeat (erewrite slice_skip; [|field_len|lia|lia]; cbn [Z.sub Z.add Z.opp Z.pos_sub Pos.pred_double Z.succ_double Z.pred_double Z.double Z.of_nat Pos.of_succ_nat Pos.succ Pos.sub Pos.sub_mask Pos.double_mask Pos.succ_double_mask Pos.double_pred_mask Pos.add]);
  first [rewrite slice_app_l by field_len | rewrite slice_all by (eapply Z.eq_le_incl; field_len)].

Definition addr_ok (a : sockaddr_in) : Prop :=
  0 ≤ sin_family a < 2 ^ 16 ∧ 0 ≤ sin_port a < 2 ^ 16 ∧ 0 ≤ sin_addr a < 2 ^ 32.
Definition request_ok (r : chunk_request_t) : Prop :=
  zlen (req_file_hash r) = 16 ∧ - 2 ^ 31 ≤ req_chunk_index r < 2 ^ 31 ∧ addr_ok (req_return_addr r) ∧
  0 ≤ req_return_addr_len r < 2 ^ 32 ∧ is_byte (req_ttl r).
Definition payload_ok (p : chunk_payload_t) : Prop :=
  zlen (pl_file_hash p) = 16 ∧ - 2 ^ 31 ≤ pl_chunk_index p < 2 ^ 31 ∧ 0 ≤ pl_chunk_size p < 2 ^ 32.
Definition tdef_shape (d : tfile_def_t) : Prop :=
  zlen (td_name d) = NAME_LEN ∧ zlen (td_f_hash d) = 16 ∧ zlen (td_c_hashes d) = NUM_CHUNKS ∧
  Forall (λ h, zlen h = 16) (td_c_hashes d) ∧ - 2 ^ 63 ≤ td_size d < 2 ^ 63.

(** A value of the C type [tfile_def_t]. *)
Definition tdef_typed (d : tfile_def_t) : Prop := tdef_shape d ∧ bytes (td_f_hash d).
#[export] Instance tdef_typed_dec d : Decision (tdef_typed d).
Proof. unfold tdef_typed, tdef_shape. apply _. Defined.

Lemma tdef_typed_hash d : tdef_typed d → hash_ok (td_f_hash d).
Proof. intros [(_ & Hlen & _) Hb]. by split. Qed.
Lemma zero_tdef_typed : tdef_typed zero_tdef.
Proof. split; [|by repeat constructor]. split_and!; [done|done|done|by repeat constructor|done|done]. Qed.

(** What is read from a buffer of bytes is one, whatever the bytes. *)
Lemma decode_tdef_typed bs : bytes bs → sizeof_tfile_def_t ≤ zlen bs → tdef_typed (decode_tdef bs).
Proof.
  unfold sizeof_tfile_def_t. intros Hb Hlen. split; [|by apply bytes_slice].
  split_and!; [apply length_slice; unfold NAME_LEN; lia|apply length_slice; lia| | | |].
  - unfold zlen. cbn. done.
  - apply Forall_fmap, Forall_forall. intros i Hi%elem_of_seqZ. unfold NUM_CHUNKS in Hi.
    apply length_slice; lia.
  - unfold decode_tdef, s64_at, wraps64. cbn [td_size]. pose proof (Z.mod_pos_bound (u_at 8 176 bs + 2 ^ 63) (2 ^ 64)). lia.
  - unfold decode_tdef, s64_at, wraps64. cbn [td_size]. pose proof (Z.mod_pos_bound (u_at 8 176 bs + 2 ^ 63) (2 ^ 64)). lia.
Qed.

Lemma wraps32_wrapu z : - 2 ^ 31 ≤ z < 2 ^ 31 → wraps32 (wrapu 32 z) = z.
Proof.
  intros Hz. unfold wraps32, wrapu. rewrite Z.add_mod_idemp_l by done.
  rewrite Z.mod_small; lia.
Qed.

Lemma wraps64_wrapu z : - 2 ^ 63 ≤ z < 2 ^ 63 → wraps64 (wrapu 64 z) = z.
Proof.
  intros Hz. unfold wraps64, wrapu. rewrite Z.add_mod_idemp_l by done.
  rewrite Z.mod_small; lia.
Qed.

Lemma decode_encode_addr a rest : addr_ok a → decode_addr (encode_addr a ++ rest) = a.
Proof.
  intros (Hf & Hp & Ha). destruct a as [f p ad]. unfold decode_addr, encode_addr, u_at.
  cbn [sin_family sin_port sin_addr] in *.
  f_equal; cut_field; apply le_val_le_bytes; done.
Qed.

Lemma decode_encode_payload p rest : payload_ok p → decode_payload (encode_payload p ++ rest) = p.
Proof.
  intros (Hh & Hi & Hs). destruct p as [h i s]. unfold decode_payload, encode_payload, s32_at, u_at.
  cbn [pl_file_hash pl_chunk_index pl_chunk_size] in *. f_equal.
  - by cut_field.
  - cut_field. rewrite le_val_le_bytes by (apply wrapu_bound; lia). by apply wraps32_wrapu.
  - cut_field. by apply le_val_le_bytes.
Qed.

Lemma decode_encode_request r rest : request_ok r → decode_request (encode_request r ++ rest) = r.
Proof.
  intros (Hh & Hi & Ha & Hl & Ht). destruct r as [h i a l t].
  unfold decode_request, encode_request, s32_at, u_at.
  cbn [req_file_hash req_chunk_index req_return_addr req_return_addr_len req_ttl] in *.
  assert (Hlen : zlen (encode_addr a) = 16) by done. f_equal.
  - by cut_field.
  - cut_field. rewrite le_val_le_bytes by (apply wrapu_bound; lia). by apply wraps32_wrapu.
  - cut_field. rewrite <- (app_nil_r (encode_addr a)). by apply decode_encode_addr.
  - cut_field. by apply le_val_le_bytes.
  - cut_field. cbn. lia.
Qed.

Lemma decode_encode_tdef d rest : tdef_shape d → decode_tdef (encode_tdef d ++ rest) = d.
Proof.
  intros (Hn & Hf & Hcs & Hc & Hs). destruct d as [n f cs sz].
  unfold decode_tdef, encode_tdef, s64_at, u_at, NUM_CHUNKS, NAME_LEN in *.
  cbn [td_name td_f_hash td_c_hashes td_size] in *.
  apply zlen_8 in Hcs as (c0 & c1 & c2 & c3 & c4 & c5 & c6 & c7 & ->).
  rewrite !Forall_cons in Hc. destruct Hc as (H0 & H1 & H2 & H3 & H4 & H5 & H6 & H7 & _).
  change (seqZ 0 8) with [0; 1; 2; 3; 4; 5; 6; 7]. cbn [concat fmap list_fmap]. rewrite app_nil_r.
  f_equal.
  - by cut_field.
  - by cut_field.
  - repeat f_equal; by cut_field.
  - cut_field. rewrite le_val_le_bytes by (apply wrapu_bound; lia). by apply wraps64_wrapu.
Qed.

(** The three structs survive the trip as the bodies of messages: what a
    peer reads from the front of its buffer is what the other one wrote,
    whatever is behind it. *)
Theorem wire_roundtrip d r p rest : tdef_shape d → request_ok r → payload_ok p →
  decode_tdef (encode_tdef d ++ rest) = d ∧
  decode_request (encode_request r ++ rest) = r ∧
  decode_payload (encode_payload p ++ rest) = p.
Proof.
  intros Hd Hr Hp. split_and!; [by apply decode_encode_tdef|by apply decode_encode_request|
    by apply decode_encode_payload].
Qed.

(** ** What any bytes decode to *)
Lemma u_at_range bs n off : bytes bs → 0 ≤ off → 0 ≤ n → off + n ≤ zlen bs → 0 ≤ u_at n off bs < 256 ^ n.
Proof.
  intros Hb.
  intros Ho Hn Hl. unfold u_at. pose proof (le_val_bound (slice off n bs) ltac:(by apply bytes_slice)) as Hv.
  by rewrite length_slice in Hv.
Qed.

Section decoding.
Context (bs : list Z) (Hb : bytes bs).

Lemma u_at_bound n off : 0 ≤ off → 0 ≤ n → off + n ≤ zlen bs → 0 ≤ u_at n off bs < 256 ^ n.
Proof. by apply u_at_range. Qed.
Lemma u_at_bytes n off : 0 ≤ off → 0 ≤ n → off + n ≤ zlen bs →
  le_bytes (Z.to_nat n) (u_at n off bs) = slice off n bs.
Proof.
  intros Ho Hn Hl. unfold u_at. rewrite <- (le_bytes_le_val (slice off n bs)) at 2 by by apply bytes_slice.
  f_equal. pose proof (length_slice off n bs Ho Hn Hl). unfold zlen in *. lia.
Qed.
Lemma wrapu_wraps64 z : 0 ≤ z < 2 ^ 64 → wrapu 64 (wraps64 z) = z.
Proof.
  intros Hz. unfold wrapu, wraps64. rewrite Zminus_mod_idemp_l. replace (z + 2 ^ 63 - 2 ^ 63) with z by lia.
  by apply Z.mod_small.
Qed.
Lemma wrapu_wraps32 z : 0 ≤ z < 2 ^ 32 → wrapu 32 (wraps32 z) = z.
Proof.
  intros Hz. unfold wrapu, wraps32. rewrite Zminus_mod_idemp_l. replace (z + 2 ^ 31 - 2 ^ 31) with z by lia.
  by apply Z.mod_small.
Qed.
Lemma wraps32_bound z : - 2 ^ 31 ≤ wraps32 z < 2 ^ 31.
Proof. unfold wraps32. pose proof (Z.mod_pos_bound (z + 2 ^ 31) (2 ^ 32)). lia. Qed.

Lemma slice_join off n off' m : off' = off + n → 0 ≤ off → 0 ≤ n → 0 ≤ m →
  slice off n bs ++ slice off' m bs = slice off (n + m) bs.
Proof. intros ->. apply slice_app. Qed.
Ltac join_slices := repeat (rewrite slice_join by lia); f_equal.

Lemma encode_decode_tdef : sizeof_tfile_def_t ≤ zlen bs →
  encode_tdef (decode_tdef bs) = slice 0 sizeof_tfile_def_t bs.
Proof.
  unfold sizeof_tfile_def_t. intros Hl. unfold encode_tdef, decode_tdef.
  cbn [td_name td_f_hash td_c_hashes td_size]. unfold s64_at, NAME_LEN, NUM_CHUNKS.
  rewrite wrapu_wraps64 by (apply (u_at_bound 8 176); lia).
  change 8%nat with (Z.to_nat 8). rewrite u_at_bytes by lia.
  change (seqZ 0 8) with [0; 1; 2; 3; 4; 5; 6; 7]. cbn [concat fmap list_fmap]. rewrite app_nil_r.
  rewrite <- !app_assoc. join_slices.
Qed.
Lemma encode_decode_payload : sizeof_chunk_payload_t ≤ zlen bs →
  encode_payload (decode_payload bs) = slice 0 sizeof_chunk_payload_t bs.
Proof.
  unfold sizeof_chunk_payload_t. intros Hl. unfold encode_payload, decode_payload, s32_at.
  cbn [pl_file_hash pl_chunk_index pl_chunk_size].
  rewrite wrapu_wraps32 by (apply (u_at_bound 4 16); lia).
  change 4%nat with (Z.to_nat 4). rewrite !u_at_bytes by lia.
  rewrite slice_app by lia. by rewrite slice_app by lia.
Qed.
Lemma decode_request_ok : sizeof_chunk_request_t ≤ zlen bs → request_ok (decode_request bs).
Proof.
  unfold sizeof_chunk_request_t. intros Hl.
  assert (Ha : bytes (slice 20 16 bs) ∧ zlen (slice 20 16 bs) = 16)
    by (split; [by apply bytes_slice|apply length_slice; lia]).
  split; [apply length_slice; lia|]. split; [apply wraps32_bound|]. split.
  - unfold addr_ok, decode_request, decode_addr. cbn [req_return_addr sin_family sin_port sin_addr].
    destruct Ha as [Hb2 Hl2].
    split_and!; (apply (u_at_range _ 2 _ Hb2) || apply (u_at_range _ 4 _ Hb2)); lia.
  - split; [apply (u_at_bound 4 36); lia|]. apply (u_at_bound 1 40); lia.
Qed.
Lemma decode_info_typed : sizeof_message_info_t ≤ zlen bs →
  info_ok (decode_info bs) ∧ encode_info (decode_info bs) = slice 0 sizeof_message_info_t bs.
Proof.
  unfold sizeof_message_info_t. intros Hl.
  assert (Hhd : is_byte (hd 0 bs) ∧ [hd 0 bs] = slice 0 1 bs).
  { clear -Hb Hl. destruct bs as [|b l]; [done|]. split; [by apply Forall_cons in Hb as [? _]|done]. }
  destruct Hhd as [Hbyte Hhd]. assert (Hu : u64_at bs 1 = u_at 8 8 bs) by done.
  split.
  - unfold info_ok, decode_info. cbn [mi_type mi_pad mi_size]. rewrite Hu.
    split; [done|]. split; [apply length_slice; lia|]. apply (u_at_bound 8 8); lia.
  - unfold encode_info, decode_info. cbn [mi_type mi_pad mi_size]. rewrite Hu.
    change 8%nat with (Z.to_nat 8). rewrite u_at_bytes by lia.
    change (?x :: ?l) with ([x] ++ l). rewrite Hhd. join_slices.
Qed.
End decoding.


Module WireWitness.
Import HTable.Examples.

Definition request : chunk_request_t :=
  ChunkRequest (hash 9) (-1) (SockAddr AF_INET (swap16 5000) INADDR_ANY) 16 5.

Lemma wire_roundtrip_witness :
  decode_tdef (encode_tdef (def 9) ++ [7]) = def 9 ∧
  decode_request (encode_request request ++ [7]) = request ∧
  decode_payload (encode_payload (ChunkPayload (hash 9) 3 (swap32 125)) ++ [7]) =
    ChunkPayload (hash 9) 3 (swap32 125).
Proof.
  apply (wire_roundtrip (def 9) request (ChunkPayload (hash 9) 3 (swap32 125)) [7]).
  - split; [done|]. split; [done|]. split; [done|]. split; [|done]. repeat constructor.
  - split; [done|]. split; [done|]. split; [|done]. by split_and!.
  - by split.
Defined.

(** 200 bytes of a pattern. *)
Definition pattern : list Z := (λ i, (i * 37) mod 256) <$> seqZ 0 200.
Lemma pattern_bytes : bytes pattern.
Proof. apply Forall_fmap, Forall_forall. intros i _. unfold is_byte. cbn. pose proof (Z.mod_pos_bound (i * 37) 256). lia. Qed.
End WireWitness.
