(* ===== verification/Client.v ===== *)
(** * The client's threads (client.h, client.c)

    The globals of client.c as one state, the work of each thread on it, and
    the threads it starts.  Each thread is named by a [tid], which is what the
    mutexes remember. *)
From stdpp Require Import pretty.
From S2P Require Import Prelude OS Sim HTable File Message Socket Peers Curses Ui Wire.

(** client.h: sockdata_t; the address may never have been written. *)
Record sockdata_t : Type := SockData {
  sd_server_addr_len : Z;
  sd_server_addr : option sockaddr_in
}.

Definition NO_SENDER_PEER : Z := -1.

(** client.h: client_server_t *)
Record client_server_t : Type := ClientServer {
  server_fd : Z;
  client_fd : Z
}.

Definition sizeof_client_server_t : Z := 8.
Definition sizeof_send_tfile_t : Z := 200.
Definition sizeof_send_tfiles_t : Z := 24.
Definition message_size : Z := 100000.

(** A thread that was created, by the function it runs and its argument: the
    bytes of the object [args] points to for [readWorker], the values in the
    struct for the others. *)
Inductive thread : Type :=
  | RunReadWorker (args : list Z)
  | RunConnectWorker (fd : Z)
  | RunShareTfile (tfile : tfile_def_t) (sender : Z)
  | RunShareTfiles (tfile_arr : list tfile_def_t) (count peer : Z)
  | RunDownload (file_hash : list Z).

(** The globals [ht], [peers] and [self_address] of client.c and those of
    ui.c, the threads created so far, and the world. *)
Record client (W : Type) : Type := Client {
  cl_ht : htable_t;
  cl_peers : peers_t;
  cl_ui : ui_t;
  cl_self_address : sockdata_t;
  cl_threads : list thread;
  cl_os : W
}.
Arguments Client {W} _ _ _ _ _ _.
Arguments cl_ht {W} _.
Arguments cl_peers {W} _.
Arguments cl_ui {W} _.
Arguments cl_self_address {W} _.
Arguments cl_threads {W} _.
Arguments cl_os {W} _.

Section client.
Context {W : Type} `{OS W, MD5_API}.

(** The components on their parts of the state. *)
Definition on_store {A} (m : M (store W) A) : M (client W) A :=
  zoom (λ s, Store (cl_ht s) (cl_os s))
    (λ x s, Client (st_ht x) (cl_peers s) (cl_ui s) (cl_self_address s) (cl_threads s) (st_os x)) m.
Definition on_peers {A} (m : M (pstore W) A) : M (client W) A :=
  zoom (λ s, PStore (cl_peers s) (cl_os s))
    (λ x s, Client (cl_ht s) (ps_peers x) (cl_ui s) (cl_self_address s) (cl_threads s) (ps_os x)) m.
Definition get_ustore (s : client W) : ustore W := UStore (cl_ui s) (cl_os s).
Definition set_ustore (x : ustore W) (s : client W) : client W :=
  Client (cl_ht s) (cl_peers s) (us_ui x) (cl_self_address s) (cl_threads s) (us_os x).
Definition on_ustore {A} (m : M (ustore W) A) : M (client W) A := zoom get_ustore set_ustore m.
Definition on_world {A} (m : M W A) : M (client W) A :=
  zoom cl_os (λ w s, Client (cl_ht s) (cl_peers s) (cl_ui s) (cl_self_address s) (cl_threads s) w) m.

(** [pthread_create] of a thread whose argument block of [n] bytes comes from
    [malloc] and is filled without a check. *)
Definition pthread_create (t : thread) : M (client W) unit :=
  modify (λ s, Client (cl_ht s) (cl_peers s) (cl_ui s) (cl_self_address s) (cl_threads s ++ [t]) (cl_os s)).
Definition malloc_unchecked (n : Z) : M (client W) unit :=
  ok ← on_world (sys (os_malloc n));
  when (negb ok) (stop NullDeref).

(** A header, with zeros in the padding. *)
Definition message_info (type size : Z) : message_info_t := MessageInfo type (replicate 7 0) size.

(** The stack's content where verify_tfile has its arrays, and where
    readWorker has its [server_addr_len]. *)
Context (fuel : nat) (junk_hashes : list (list Z)) (junk_hash : list Z) (junk_len : Z).

(** client.c: share_tfiles_to_peer *)
Definition share_tfiles_to_peer (self : tid) (tfile_arr : list tfile_def_t) (count peer : Z)
    : M (client W) unit :=
  _ ← on_peers (lock_peers self);
  _ ← for_each (seqZ 0 count) (λ i,
        d ← from_opt OutOfBounds (zget tfile_arr i);
        rc ← on_world (send_message fuel peer (message_info TFILE_DEF sizeof_tfile_def_t)
                         (Some (encode_tdef d)));
        when (negb (rc =? 0)) (on_peers (remove_peer fuel self peer)));
  on_peers unlock_peers.

(** client.c: share_tfile_to_peers, the loop: [peers_to_remove] collects the
    indices at which sending failed. *)
Definition share_body (tfile : tfile_def_t) (sender : Z) (x : Z * list Z)
    : M (client W) (Z * list Z + list Z) :=
  let '(i, peers_to_remove) := x in
  p ← on_peers get_peers;
  if i <? p_size p then
    fd ← on_peers (peer_at i);
    i' ← add_s32 i 1;
    if fd =? sender then mret (inl (i', peers_to_remove))
    else
      rc ← on_world (send_message fuel fd (message_info TFILE_DEF sizeof_tfile_def_t)
                       (Some (encode_tdef tfile)));
      mret (inl (i', if negb (rc =? 0) then peers_to_remove ++ [i] else peers_to_remove))
  else mret (inr peers_to_remove).
Definition share_tfile_to_peers (self : tid) (tfile : tfile_def_t) (sender : Z) : M (client W) unit :=
  _ ← on_peers (lock_peers self);
  peers_to_remove ← iter fuel (share_body tfile sender) (0, []);
  _ ← on_peers (remove_peers fuel self peers_to_remove);
  on_peers unlock_peers.

(** client.c: send_chunk_message *)
Definition send_chunk_message (fd : Z) (file_hash : list Z) (chunk_index : Z) : M (client W) Z :=
  r ← on_store (open_tfile fuel file_hash chunk_index);
  match r with
  | (_, None) => mret FAILED
  | (chunk_size, Some chunk_ptr) =>
      if chunk_size <=? 0 then mret FAILED
      else
        let payload_size := wrapu 64 (sizeof_chunk_payload_t + chunk_size) in
        ok ← on_world (sys (os_malloc payload_size));
        if negb ok then mret FAILED
        else
          data ← on_world (mem_load chunk_ptr chunk_size);
          let hdr := ChunkPayload (slice 0 MD5_DIGEST_LENGTH file_hash) chunk_index
                       (swap32 (wrapu 32 chunk_size)) in
          on_world (send_message fuel fd (message_info FILE_DATA payload_size)
                      (Some (encode_payload hdr ++ data)))
  end.

(** Send a request to every peer but one, ignoring failures (the loops in
    readWorker and download_file). *)
Definition broadcast_body (skip : Z → bool) (req : chunk_request_t) (i : Z) : M (client W) (Z + unit) :=
  p ← on_peers get_peers;
  if i <? p_size p then
    fd ← on_peers (peer_at i);
    _ ← (if skip fd then mret SUCCESS
         else on_world (send_message fuel fd (message_info REQUEST_FILE_DATA sizeof_chunk_request_t)
                          (Some (encode_request req))));
    i' ← add_s32 i 1;
    mret (inl i')
  else mret (inr tt).
Definition broadcast (self : tid) (skip : Z → bool) (req : chunk_request_t) : M (client W) unit :=
  _ ← on_peers (lock_peers self);
  _ ← iter fuel (broadcast_body skip req) 0;
  on_peers unlock_peers.

(** client.c: readWorker, REQUEST_ADDR_SELF; the result says whether the
    worker goes on. *)
Definition handle_addr_self (self : tid) (fd_data : client_server_t) : M (client W) bool :=
  r ← on_world (server_socket_accept_addr (server_fd fd_data) junk_len);
  let '(socket, server_addr, server_addr_len) := r : Z * sockaddr_in * Z in
  if socket =? -1 then
    _ ← on_peers (remove_peer fuel self (client_fd fd_data));
    mret false
  else
    _ ← on_world (send_message fuel socket (message_info ADDR_SELF server_addr_len)
                    (Some (encode_addr server_addr)));
    mret true.

(** client.c: readWorker, TFILE_DEF *)
Definition handle_tfile_def (fd_data : client_server_t) (data_read : list Z) : M (client W) unit :=
  let new_tfile := decode_tdef data_read in
  _ ← on_store (add_htable fuel new_tfile);
  _ ← malloc_unchecked sizeof_send_tfile_t;
  pthread_create (RunShareTfile new_tfile (server_fd fd_data)).

(** client.c: readWorker, REQUEST_FILE_DATA *)
Definition handle_request (self : tid) (fd_data : client_server_t) (data_read : list Z)
    : M (client W) unit :=
  let req := decode_request data_read in
  chunks ← on_store (verify_tfile fuel (req_file_hash req) junk_hashes junk_hash);
  if is_chunk_verified chunks (req_chunk_index req) then
    out_fd ← on_world (socket_connect_addr (req_return_addr req) (req_return_addr_len req));
    when (negb (out_fd =? -1))
      (_ ← send_chunk_message out_fd (req_file_hash req) (req_chunk_index req); mret tt)
  else broadcast self (λ fd, fd =? client_fd fd_data) req.

(** client.c: readWorker, FILE_DATA.  A chunk of the wrong size is reported
    and copied all the same. *)
Definition handle_file_data (data_read : list Z) : M (client W) unit :=
  let hdr := decode_payload data_read in
  chunks ← on_store (verify_tfile fuel (pl_file_hash hdr) junk_hashes junk_hash);
  if is_chunk_verified chunks (pl_chunk_index hdr) then mret tt
  else
    let chunk_size := swap32 (pl_chunk_size hdr) in
    r ← on_store (open_tfile fuel (pl_file_hash hdr) (pl_chunk_index hdr));
    _ ← when (zlen data_read <? sizeof_chunk_payload_t + chunk_size) (stop OutOfBounds);
    dest ← from_opt NullDeref r.2;
    on_world (mem_store dest (slice sizeof_chunk_payload_t chunk_size data_read)).

(** client.c: readWorker, one message; [data_read] is the buffer, or NULL. *)
Definition read_body (self : tid) (fd_data : client_server_t) (data_read : option (list Z))
    : M (client W) (option (list Z) + unit) :=
  r ← on_world (incoming_message_info (server_fd fd_data));
  match r with
  | (0, Some info) =>
      r ← on_world (receive_message fuel (server_fd fd_data) data_read (mi_size info));
      let data_read := (λ _, r.2) <$> data_read in
      if negb (r.1 =? 0) then
        _ ← on_peers (remove_peer fuel self (client_fd fd_data));
        mret (inr tt)
      else if mi_type info =? REQUEST_ADDR_SELF then
        go ← handle_addr_self self fd_data;
        mret (if go : bool then inl data_read else inr tt)
      else
        buf ← from_opt NullDeref data_read;
        _ ← (if mi_type info =? TFILE_DEF then handle_tfile_def fd_data buf
             else if mi_type info =? REQUEST_FILE_DATA then handle_request self fd_data buf
             else if mi_type info =? FILE_DATA then handle_file_data buf
             else mret tt);
        mret (inl data_read)
  | _ =>
      _ ← on_peers (remove_peer fuel self (client_fd fd_data));
      mret (inr tt)
  end.

(** client.c: readWorker.  [junk] is what [malloc] left in the buffer. *)
Definition read_fd_data (args : list Z) : M (client W) client_server_t :=
  if zlen args <? sizeof_client_server_t then stop OutOfBounds
  else mret (ClientServer (s32_at 0 args) (s32_at 4 args)).
Definition readWorker (self : tid) (args junk : list Z) : M (client W) unit :=
  fd_data ← read_fd_data args;
  ok ← on_world (sys (os_malloc message_size));
  iter fuel (read_body self fd_data) (if ok : bool then Some junk else None).

(** client.c: connectWorker, one connection. *)
Definition connect_body (self : tid) (fd : Z) : M (client W) unit :=
  client_socket_fd ← on_world (server_socket_accept fd);
  if client_socket_fd =? -1 then on_peers (remove_peer fuel self client_socket_fd)
  else
    _ ← on_peers (add_peer self client_socket_fd);
    _ ← malloc_unchecked sizeof_send_tfiles_t;
    files ← on_store (list_tfiles fuel);
    _ ← pthread_create (RunShareTfiles files.2 files.1 client_socket_fd);
    _ ← malloc_unchecked 4;
    pthread_create (RunReadWorker (le_bytes 4 (wrapu 32 client_socket_fd))).
Definition connectWorker (self : tid) (fd : Z) : M (client W) unit :=
  iter fuel (λ _ : unit, _ ← connect_body self fd; mret (inl tt)) tt.

(** client.c: get_address_self.  [server_addr] is a buffer of 16 bytes. *)
Definition address_body (socket : Z) (x : list Z * option Z)
    : M (client W) (list Z * option Z + list Z * option Z) :=
  let '(server_addr, server_addr_len) := x in
  r ← on_world (incoming_message_info socket);
  match r with
  | (0, Some info) =>
      if mi_type info =? ADDR_SELF then
        let server_addr_len := wrapu 32 (mi_size info) in
        r ← on_world (receive_message fuel socket (Some server_addr) server_addr_len);
        mret (inl (r.2, Some server_addr_len))
      else mret (inr (server_addr, server_addr_len))
  | _ => mret (inl (server_addr, server_addr_len))
  end.
Definition get_address_self (socket : Z) (junk : list Z) : M (client W) sockdata_t :=
  _ ← on_world (send_message fuel socket (message_info REQUEST_ADDR_SELF 0) None);
  r ← iter fuel (address_body socket) (junk, None);
  len ← from_opt Uninit r.2;
  mret (SockData len (Some (decode_addr r.1))).

(** client.c: isInitialized *)
Definition isInitialized (data : sockdata_t) : bool := negb (sd_server_addr_len data =? 0).

Context `{CURSES W}.

(** client.c: download_file, one round of requests; it ends when the file is
    complete. *)
Definition download_body (self : tid) (file_hash : list Z) (return_addr : sockaddr_in) (_ : unit)
    : M (client W) (unit + unit) :=
  chunks ← on_store (verify_tfile fuel file_hash junk_hashes junk_hash);
  if chunks =? VERIFIED_FILE then mret (inr tt)
  else
    _ ← for_each (seqZ 0 NUM_CHUNKS) (λ i,
          when (negb (is_chunk_verified chunks i))
            (broadcast self (λ _, false)
               (ChunkRequest (slice 0 MD5_DIGEST_LENGTH file_hash) i return_addr sizeof_sockaddr_in 5)));
    mret (inl tt).

(** client.c: download_file, after the loop. *)
Definition download_finish (self : tid) (file_hash : list Z) (server_fd : Z) : M (client W) unit :=
  _ ← on_store (save_tfile fuel file_hash);
  r ← on_store (search_htable fuel file_hash);
  i ← from_opt NullDeref r;
  t ← on_store (slot i);
  name ← from_opt OutOfBounds (cstr (td_name (t_tdef t)));
  _ ← on_ustore (ui_display self (str "system") (str "File '" ++ name ++ str "' downloaded!"));
  on_world (sys_ (os_close server_fd)).

(** client.c: download_file *)
Definition download_file (self : tid) (file_hash : list Z) : M (client W) unit :=
  r ← on_world (server_socket_open 0);
  let '(server_fd, temp_port) := r : Z * Z in
  if server_fd =? -1 then mret tt
  else
    _ ← on_world (sys (os_listen server_fd 10));
    _ ← malloc_unchecked 4;
    _ ← pthread_create (RunConnectWorker server_fd);
    let return_addr := SockAddr AF_INET (swap16 temp_port) INADDR_ANY in
    _ ← iter fuel (download_body self file_hash return_addr) tt;
    download_finish self file_hash server_fd.
End client.

(** ** Running the components on the client's state *)
Definition set_os {W} (w : W) (s : client W) : client W :=
  Client (cl_ht s) (cl_peers s) (cl_ui s) (cl_self_address s) (cl_threads s) w.
Definition set_cl_peers {W} (p : peers_t) (s : client W) : client W :=
  Client (cl_ht s) p (cl_ui s) (cl_self_address s) (cl_threads s) (cl_os s).

Section lifting.
Context {W : Type} `{OS W}.
Implicit Types (s : client W) (w : W).

Lemma set_os_same s : set_os (cl_os s) s = s.
Proof. by destruct s. Qed.

Lemma on_peers_run {A} (m : M (pstore W) A) a p w s :
  m (PStore (cl_peers s) (cl_os s)) = Done a (PStore p w) →
  on_peers m s = Done a (set_os w (set_cl_peers p s)).
Proof. intros Hm. unfold on_peers, zoom. by rewrite Hm. Qed.

Lemma on_peers_read {A} (m : M (pstore W) A) a s :
  m (PStore (cl_peers s) (cl_os s)) = Done a (PStore (cl_peers s) (cl_os s)) →
  on_peers m s = Done a s.
Proof. intros Hm. rewrite (on_peers_run m a _ _ s Hm). by destruct s. Qed.

Lemma on_peers_stop {A} (m : M (pstore W) A) e s :
  m (PStore (cl_peers s) (cl_os s)) = Stop e → on_peers m s = Stop e.
Proof. intros Hm. unfold on_peers, zoom. by rewrite Hm. Qed.

Lemma on_store_run {A} (m : M (store W) A) a w s :
  m (Store (cl_ht s) (cl_os s)) = Done a (Store (cl_ht s) w) → on_store m s = Done a (set_os w s).
Proof. intros Hm. unfold on_store, zoom. by rewrite Hm. Qed.

Lemma wp_on_world {A} (m : M W A) (Q : A → client W → Prop) E s :
  wp m (λ a w, Q a (set_os w s)) E (cl_os s) → wp (on_world m) Q E s.
Proof. apply wp_zoom. Qed.

Lemma lock_run self s : p_lock (cl_peers s) = None →
  on_peers (lock_peers self) s = Done tt (set_cl_peers (set_lock (Some self) (cl_peers s)) s).
Proof.
  intros Hl. rewrite (on_peers_run _ _ _ _ s (lock_peers_run self _ _ Hl)). by destruct s.
Qed.

(** The mutex is not recursive. *)
Lemma remove_peer_held fuel self peer s : p_lock (cl_peers s) = Some self →
  on_peers (remove_peer fuel self peer) s = Stop Deadlock.
Proof.
  intros Hl. apply on_peers_stop. unfold remove_peer. apply bind_stop.
  unfold lock_peers, mbind, M_bind. cbn. by rewrite Hl, Z.eqb_refl.
Qed.

Lemma peer_at_run s l i fd : peers_are (cl_peers s) l → l !! i = Some fd →
  on_peers (peer_at (Z.of_nat i)) s = Done fd s.
Proof.
  intros (_ & _ & room & Ha) Hi. apply on_peers_read. unfold peer_at.
  rewrite (bind_done _ _ _ (Some fd) (PStore (cl_peers s) (cl_os s))); [done|].
  eapply peer_cell_run; [exact Ha|]. rewrite zget_nat, lookup_app_l.
  - by rewrite list_lookup_fmap, Hi.
  - rewrite length_fmap. by eapply lookup_lt_Some.
Qed.
End lifting.

(** ** Sharing a tfile *)
Lemma zlen_concat n (ls : list (list Z)) : Forall (λ l, zlen l = n) ls → zlen (concat ls) = n * zlen ls.
Proof.
  induction 1 as [|l ls Hl _ IH]; [unfold zlen; cbn; lia|]. cbn [concat].
  rewrite zlen_app, Hl, IH. unfold zlen. cbn [length]. lia.
Qed.

Lemma zlen_encode_tdef d : tdef_shape d → zlen (encode_tdef d) = sizeof_tfile_def_t.
Proof.
  intros (Hn & Hf & Hcs & Hc & _). unfold encode_tdef.
  rewrite !zlen_app, (zlen_concat 16), zlen_le_bytes, Hn, Hf, Hcs by done. done.
Qed.

Lemma message_info_ok type size : is_byte type → 0 ≤ size < 2 ^ 64 → info_ok (message_info type size).
Proof. intros Ht Hs. split; [done|]. split; [done|exact Hs]. Qed.

(** The bytes a peer gets for a tfile. *)
Definition tfile_message (d : tfile_def_t) : list Z :=
  encode_info (message_info TFILE_DEF sizeof_tfile_def_t) ++ encode_tdef d.

(** What is written when the peers of a list, except the sender, get [msg]. *)
Definition deliver (sender : Z) (msg : list Z) (l : list Z) (m : gmap Z (list Z)) : gmap Z (list Z) :=
  foldl (λ m fd, append_out fd msg m) m (filter (λ fd, fd ≠ sender) l).

Lemma deliver_snoc sender msg l fd m : deliver sender msg (l ++ [fd]) m =
  if decide (fd = sender) then deliver sender msg l m
  else append_out fd msg (deliver sender msg l m).
Proof.
  unfold deliver. rewrite filter_app, foldl_app. destruct (decide (fd = sender)) as [->|Hne].
  - by rewrite filter_cons_False by tauto.
  - by rewrite filter_cons_True by done.
Qed.

Lemma deliver_other sender msg l m fd : (fd ∉ l) ∨ fd = sender → deliver sender msg l m !!! fd = m !!! fd.
Proof.
  intros Hfd. induction l as [|x l IH] using rev_ind; [done|]. rewrite deliver_snoc.
  destruct (decide (x = sender)) as [->|Hne]; [apply IH; set_solver|].
  unfold append_out. destruct (decide (msg = [])); [apply IH; set_solver|].
  rewrite lookup_total_insert_ne by set_solver. apply IH. set_solver.
Qed.

Section sharing.
Context {W : Type} `{OS W, OSViewOf W, !SockLaws W}.
Implicit Types (s : client W) (w : W).

(** Every write to [fd] fails. *)
Definition broken_peer (fd : Z) : Prop := ∀ buf w, (os_write fd buf w).1 = -1.

Lemma broken_send fuel fd info data w : broken_peer fd →
  wp (send_message fuel fd info data) (λ rc _, rc = FAILED) no_fault w.
Proof.
  intros Hb. unfold send_message. apply wp_bind, wp_sys. intros rc w' Hw.
  pose proof (Hb (encode_info info) w) as Hrc. rewrite Hw in Hrc. cbn in Hrc. subst rc. by apply wp_ret.
Qed.

(** The loop of [share_tfile_to_peers], with the lock held. *)
Lemma share_loop fuel d sender l s :
  peers_are (cl_peers s) l → tdef_shape d → (184 < fuel)%nat → (length l < fuel)%nat →
  wp (iter fuel (share_body fuel d sender) (0, [])) (λ failed s', ∃ w', s' = set_os w' s ∧
    (failed = [] → os_view w' = set_out (deliver sender (tfile_message d) l) (os_view (cl_os s)) ∧
       ∀ fd, fd ∈ l → fd ≠ sender → ¬ broken_peer fd)) no_fault s.
Proof.
  intros Hl Hd Hf Hf2.
  apply wp_iter with (I := λ x s', ∃ w' i, s' = set_os w' s ∧ x.1 = Z.of_nat i ∧ (i ≤ length l)%nat ∧
      (x.2 = [] → os_view w' = set_out (deliver sender (tfile_message d) (take i l)) (os_view (cl_os s)) ∧
         ∀ fd, fd ∈ take i l → fd ≠ sender → ¬ broken_peer fd))
    (μ := λ x _, Z.to_nat (zlen l - x.1)).
  - intros [? failed] s' (w' & i & -> & Hi & Hle & Hinv). cbn [fst snd] in *. subst.
    unfold share_body.
    apply wp_bind. apply (wp_of_run _ _ _ _ (cl_peers s) (set_os w' s)); [by apply on_peers_read|].
    pose proof Hl as (Hsize & Hb & Hroom). rewrite Hsize.
    destruct (Z.ltb_spec (Z.of_nat i) (zlen l)) as [Hlt|Hge].
    + destruct (lookup_lt_is_Some_2 l i) as [fd Hfd]; [unfold zlen in Hlt; lia|].
      apply wp_bind. eapply wp_of_run; [by eapply (peer_at_run (set_os w' s) l)|].
      apply wp_bind, wp_add_s32; [lia|].
      assert (Hnext : Z.of_nat i + 1 = Z.of_nat (S i)) by lia.
      assert (Htake : take (S i) l = take i l ++ [fd]) by (by apply take_S_r).
      destruct (Z.eqb_spec fd sender) as [->|Hne].
      * apply wp_ret. cbn [fst snd]. split; [|lia]. exists w', (S i). split_and!; [done|done|unfold zlen in *; lia|].
        rewrite Htake. intros Hnil. destruct (Hinv Hnil) as [Hv Hnb].
        split; [rewrite Hv; unfold set_out; by rewrite deliver_snoc, decide_True|]. intros fd' [Hin| ->%list_elem_of_singleton]%elem_of_app; [by apply Hnb|done].
      * apply wp_bind, wp_on_world. cbn [cl_os set_os].
        assert (Hinfo : info_ok (message_info TFILE_DEF sizeof_tfile_def_t)) by by apply message_info_ok.
        pose proof (send_whole fuel fd _ (encode_tdef d) w' Hinfo) as Hsend.
        rewrite zlen_encode_tdef in Hsend by done. specialize (Hsend ltac:(done) Hf).
        cbn [mi_size message_info] in Hsend. rewrite slice_all in Hsend by (by rewrite zlen_encode_tdef).
        pose proof (λ Hbr, broken_send fuel fd (message_info TFILE_DEF sizeof_tfile_def_t)
          (Some (encode_tdef d)) w' Hbr) as Hbad.
        unfold wp in Hsend, Hbad |- *. destruct (send_message _ _ _ _ w') as [rc w2|]; [|done].
        destruct Hsend as (sent & Hw2 & _ & Hrc).
        apply wp_ret. cbn [fst snd]. split; [|lia]. exists w2, (S i).
        split_and!; [done|done|unfold zlen in *; lia|].
        rewrite Htake. destruct Hrc as [[-> ->]| ->]; cbn [negb Z.eqb SUCCESS FAILED]; [|by intros [_ ?]%app_nil].
        intros Hnil. destruct (Hinv Hnil) as [Hv Hnb]. split.
        -- rewrite Hw2, Hv. unfold set_out. cbn. by rewrite deliver_snoc, decide_False.
        -- intros fd' [Hin| ->%list_elem_of_singleton]%elem_of_app ?; [by apply Hnb|].
           intros Hbr. by specialize (Hbad Hbr).
    + apply wp_ret. exists w'. split; [done|]. rewrite take_ge in Hinv by (unfold zlen in Hge; lia). done.
  - exists (cl_os s), 0%nat. rewrite set_os_same. split_and!; [done|done|lia|].
    intros _. rewrite take_0. split; [unfold set_out; cbn; by destruct (os_view _)|]. by intros fd ?%not_elem_of_nil.
  - cbn [fst]. unfold zlen. lia.
Qed.
End sharing.

(** ** Chunks from peer to peer *)
Lemma swap32_bound z : 0 ≤ swap32 z < 2 ^ 32.
Proof.
  unfold swap32. apply (le_val_bound (rev (le_bytes 4 z))), bytes_rev, le_bytes_bytes.
Qed.

(** The body of a FILE_DATA message. *)
Definition chunk_body (h : list Z) (i : Z) (data : list Z) : list Z :=
  encode_payload (ChunkPayload h i (swap32 (zlen data))) ++ data.

Lemma zlen_chunk_body h i data : zlen h = 16 → zlen (chunk_body h i data) = 24 + zlen data.
Proof.
  intros Hh. unfold chunk_body, encode_payload. rewrite !zlen_app, !zlen_le_bytes. cbn [pl_file_hash].
  rewrite Hh. lia.
Qed.

Lemma zlen_chunk size c i : 0 ≤ size ≤ zlen c → 0 ≤ i < NUM_CHUNKS →
  zlen (chunk size c i) = chunk_len size i.
Proof.
  intros Hs Hi. pose proof (chunk_bounds size i ltac:(lia) Hi). unfold chunk. apply length_slice; lia.
Qed.

Lemma chunk_splice size c i data : 0 ≤ size ≤ zlen c → 0 ≤ i < NUM_CHUNKS →
  zlen data = chunk_len size i → chunk size (splice (chunk_off size i) data c) i = data.
Proof.
  intros Hs Hi Hd. pose proof (chunk_bounds size i ltac:(lia) Hi) as (Ho & Hl & Hol).
  unfold chunk, splice. erewrite slice_skip; [|apply length_slice; lia|lia|lia].
  rewrite Z.sub_diag. by rewrite slice_app_l.
Qed.

Lemma slice_app_before {A} o n (a r : list A) : 0 ≤ o → 0 ≤ n → o + n ≤ zlen a →
  slice o n (a ++ r) = slice o n a.
Proof.
  unfold zlen, slice. intros. rewrite drop_app_le by lia. rewrite take_app_le; [done|].
  rewrite length_drop. lia.
Qed.

Lemma slice_drop {A} o n m (l : list A) : 0 ≤ o → 0 ≤ m →
  slice o n (drop (Z.to_nat m) l) = slice (m + o) n l.
Proof. intros. unfold slice. rewrite drop_drop. do 2 f_equal. lia. Qed.

(** Writing at one place leaves what is in front and behind. *)
Lemma slice_splice_other o n off data (c : list Z) :
  0 ≤ o → 0 ≤ n → 0 ≤ off → off + zlen data ≤ zlen c → o + n ≤ off ∨ off + zlen data ≤ o →
  slice o n (splice off data c) = slice o n c.
Proof.
  intros Ho Hn Hoff Hd Hor. unfold splice. pose proof (zlen_nonneg data).
  assert (Hl : zlen (slice 0 off c) = off) by (apply length_slice; lia).
  destruct Hor as [Hbefore|Hafter].
  - rewrite slice_app_before by lia. rewrite slice_slice by lia. done.
  - rewrite (slice_skip _ _ off) by (done || lia). rewrite (slice_skip _ _ (zlen data)) by (done || lia).
    rewrite slice_drop by lia. f_equal. lia.
Qed.

Lemma chunk_splice_other size c i j data : 0 ≤ size ≤ zlen c → 0 ≤ i < NUM_CHUNKS →
  0 ≤ j < NUM_CHUNKS → zlen data = chunk_len size i → j ≠ i →
  chunk size (splice (chunk_off size i) data c) j = chunk size c j.
Proof.
  intros Hs Hi Hj Hd Hne. pose proof (chunk_bounds size i ltac:(lia) Hi) as (Ho & Hl & Hol).
  pose proof (chunk_bounds size j ltac:(lia) Hj) as (Ho2 & Hl2 & Hol2).
  apply slice_splice_other; [lia|lia|lia|lia|].
  destruct (Z.lt_ge_cases j i); [left|right]; rewrite ?Hd; unfold chunk_off, chunk_len, NUM_CHUNKS in *.
  - rewrite (proj2 (Z.eqb_neq j _)) by lia. nia.
  - rewrite (proj2 (Z.eqb_neq i _)) by lia. nia.
Qed.

(** The bytes of a FILE_DATA message. *)
Definition chunk_message (h : list Z) (i : Z) (data : list Z) : list Z :=
  encode_info (message_info FILE_DATA (zlen (chunk_body h i data))) ++ chunk_body h i data.

Section transfer.
Context {W : Type} `{OS W, OSViewOf W, !FileLaws W, !SockLaws W, MD5_API, !MD5Laws, !MemoryRoom W}.
Implicit Types (s : client W) (w : W).

(** A client that has the file [p] with content [c] of the tfile [h] mapped. *)
Definition has_mapped (s : client W) (tbl : list tfile_t) (h : list Z) (t : tfile_t) (p c : list Z) : Prop :=
  wf (cl_ht s) tbl ∧ abs tbl !! h = Some t ∧ t_m_location t ≠ 0 ∧ tdef_ok (t_tdef t) ∧
  td_size (t_tdef t) = zlen c ∧ zlen c < 2 ^ 31 ∧
  region_at (cl_os s) (t_m_location t) (zlen c) p c.

Lemma has_mapped_hash s tbl h t p c : has_mapped s tbl h t p c → zlen h = 16.
Proof.
  intros (Hwf & (_ & <- & _)%(abs_lookup _ _ Hwf) & _ & (Hok & _) & _). apply Hok.
Qed.

Lemma open_has fuel s tbl h t p c i : has_mapped s tbl h t p c → (length tbl < fuel)%nat →
  i < NUM_CHUNKS →
  on_store (open_tfile fuel h i) s =
    Done (chunk_len (zlen c) i, Some (t_m_location t, chunk_off (zlen c) i)) s.
Proof.
  intros (Hwf & Ht & Hm & _ & Hs & _) Hf Hi. rewrite <- Hs.
  erewrite on_store_run; [by rewrite set_os_same|].
  apply (open_mapped_run (cl_ht s) tbl); try done. rewrite Hs. apply zlen_nonneg.
Qed.

Lemma send_chunk_run fuel s tbl h t p c fd i : has_mapped s tbl h t p c → (length tbl < fuel)%nat →
  0 ≤ i < NUM_CHUNKS → NUM_CHUNKS ≤ zlen c → (Z.to_nat (24 + zlen c) < fuel)%nat →
  wp (send_chunk_message fuel fd h i) (λ rc s', ∃ w' sent, s' = set_os w' s ∧
    os_view w' = set_out (append_out fd sent) (os_view (cl_os s)) ∧
    sent `prefix_of` chunk_message h i (chunk (zlen c) c i) ∧
    (whole_writes (W := W) fd → sent = chunk_message h i (chunk (zlen c) c i)) ∧
    (rc = SUCCESS ∧ sent = chunk_message h i (chunk (zlen c) c i) ∨ rc = FAILED)) no_fault s.
Proof.
  intros Hhas Hf Hi Hc Hf2. pose proof (has_mapped_hash _ _ _ _ _ _ Hhas) as Hh.
  pose proof (chunk_bounds (zlen c) i ltac:(lia) Hi) as (Ho & Hl & Hol).
  pose proof Hhas as (_ & _ & _ & _ & _ & Hmax & Hr).
  assert (Hpos : 0 < chunk_len (zlen c) i).
  { unfold chunk_len, NUM_CHUNKS in *. assert (1 ≤ zlen c / 8) by (apply Z.div_le_lower_bound; lia).
    destruct (i =? 8 - 1); [|lia]. pose proof (Z.mul_div_le (zlen c) 8 ltac:(lia)). lia. }
  pose proof (zlen_chunk (zlen c) c i ltac:(lia) Hi) as Hcl.
  unfold send_chunk_message. apply wp_bind. eapply wp_of_run; [eapply open_has; [exact Hhas|done|lia]|].
  cbv beta iota. rewrite (proj2 (Z.leb_gt _ _)) by lia.
  apply wp_bind, wp_on_world, wp_sys. intros ok w1 Hm.
  set (n := wrapu 64 (sizeof_chunk_payload_t + chunk_len (zlen c) i)) in *.
  pose proof (law_malloc_ok n (cl_os s)) as Hok. pose proof (law_malloc n (cl_os s)) as Hv1.
  rewrite Hm in Hok, Hv1. cbn in Hok, Hv1. subst ok. cbn [negb].
  apply wp_bind, wp_on_world. cbn [cl_os set_os].
  assert (Hr1 : region_at w1 (t_m_location t) (zlen c) p c) by (unfold region_at in *; by rewrite Hv1).
  eapply wp_of_run; [by eapply mem_load_run; [exact Hr1|lia..]|].
  apply wp_on_world. cbn [cl_os set_os]. fold (chunk (zlen c) c i).
  rewrite slice_all by (by rewrite Hh). rewrite <- Hcl, (wrapu_small 32) by lia.
  fold (chunk_body h i (chunk (zlen c) c i)).
  assert (Hn : n = 24 + zlen (chunk (zlen c) c i)).
  { unfold n, sizeof_chunk_payload_t. rewrite wrapu_small by lia. lia. }
  rewrite Hn. assert (Hinfo : info_ok (message_info FILE_DATA (24 + zlen (chunk (zlen c) c i))))
    by (apply message_info_ok; [done|lia]).
  pose proof (zlen_chunk_body h i (chunk (zlen c) c i) Hh) as Hbl.
  eapply wp_conseq.
  { apply (send_gets fuel fd _ (chunk_body h i (chunk (zlen c) c i)) w1 Hinfo); cbn [mi_size message_info]; lia. }
  rewrite <- Hbl. intros rc w2 (sent & Hpre & Hall & Hw2 & Hrc). exists w2, sent.
  split_and!; [done|by rewrite Hw2, Hv1|done|done|]. destruct Hrc as [|[-> _]]; [by left|by right].
Qed.

(** What a FILE_DATA body in the buffer decodes to. *)
Lemma decode_chunk_body h i data stale : zlen h = 16 → - 2 ^ 31 ≤ i < NUM_CHUNKS → zlen data < 2 ^ 32 →
  let p := decode_payload (chunk_body h i data ++ stale) in
  pl_file_hash p = h ∧ pl_chunk_index p = i ∧ swap32 (pl_chunk_size p) = zlen data ∧
  slice sizeof_chunk_payload_t (zlen data) (chunk_body h i data ++ stale) = data.
Proof.
  intros Hh Hi Hd. pose proof (zlen_nonneg data). pose proof (swap32_bound (zlen data)).
  unfold chunk_body. rewrite <- app_assoc.
  rewrite decode_encode_payload by (split; [exact Hh|]; unfold NUM_CHUNKS in *; cbn [pl_chunk_index pl_chunk_size]; lia).
  cbn. split_and!; [done|done|apply swap32_involutive; lia|].
  assert (He : zlen (encode_payload (ChunkPayload h i (swap32 (zlen data)))) = 24).
  { unfold encode_payload. rewrite !zlen_app, !zlen_le_bytes. cbn [pl_file_hash]. by rewrite Hh. }
  rewrite (slice_skip _ _ 24) by (done || lia). by rewrite Z.sub_diag, slice_app_l.
Qed.

(** Chunk [i] of a copy [c] of the file is good when the whole file is, or the
    digest of the chunk is the one in the definition. *)
Definition chunk_good (d : tfile_def_t) (c : list Z) (i : Z) : Prop :=
  MD5 c = td_f_hash d ∨ zget (td_c_hashes d) i = Some (MD5 (chunk (zlen c) c i)).
#[export] Instance chunk_good_dec d c i : Decision (chunk_good d c i).
Proof. unfold chunk_good. apply _. Defined.

(** The verdict on a mapped file, as the handlers use it. *)
Lemma verify_has fuel jhs jh s tbl h t p c : has_mapped s tbl h t p c → (length tbl < fuel)%nat →
  zlen jhs = 8 →
  ∃ v, on_store (verify_tfile fuel h jhs jh) s = Done v s ∧
    (∀ i, 0 ≤ i < NUM_CHUNKS → is_chunk_verified v i = true ↔ chunk_good (t_tdef t) c i) ∧
    (v = VERIFIED_FILE ↔ ∀ i, 0 ≤ i < NUM_CHUNKS → chunk_good (t_tdef t) c i).
Proof.
  intros (Hwf & Ht & Hm & Hok & Hs & Hmax & Hr) Hf Hj.
  pose proof Ht as (Ho & <- & k & Hk)%(abs_lookup _ _ Hwf). pose proof (zlen_nonneg c).
  assert (Hbit : ∀ i, 0 ≤ i < NUM_CHUNKS →
    is_chunk_verified (verdict (t_tdef t) (MD5 c) (mem_chunk_hash (zlen c) c <$> seqZ 0 8)) i = true ↔
    chunk_good (t_tdef t) c i) by (intros i Hi; apply verdict_verified; (done || apply MD5_ok)).
  exists (verdict (t_tdef t) (MD5 c) (mem_chunk_hash (zlen c) c <$> seqZ 0 8)). split_and!; [|done|].
  - erewrite on_store_run; [by rewrite set_os_same|].
    pose proof (verify_mapped (cl_ht s) tbl Hwf k t Hk Ho fuel Hf (cl_os s) p c jhs jh Hm) as Hv.
    rewrite Hs, slice_all in Hv by done. apply Hv; [done|lia|apply Hok|done].
  - split.
    + intros Hv i Hi. apply Hbit; [done|]. rewrite Hv. unfold NUM_CHUNKS in Hi.
      assert (i = 0 ∨ i = 1 ∨ i = 2 ∨ i = 3 ∨ i = 4 ∨ i = 5 ∨ i = 6 ∨ i = 7) as Hcases by lia.
      by destruct Hcases as [->|[->|[->|[->|[->|[->|[->| ->]]]]]]].
    + intros Hall. unfold verdict in *. destruct (same_hash _ _); [done|]. apply mask_full.
      intros i Hi. rewrite <- (mask_verified _ i Hi). by apply Hbit, Hall.
Qed.

(** A hash that is not in the table. *)
Definition unknown (s : client W) (tbl : list tfile_t) (h : list Z) : Prop :=
  wf (cl_ht s) tbl ∧ last_free tbl ∧ hash_ok h ∧ h ≠ zero_hash ∧ abs tbl !! h = None.
Lemma search_unknown fuel s tbl h : unknown s tbl h → (length tbl < fuel)%nat →
  search_htable fuel h (Store (cl_ht s) (cl_os s)) = Done None (Store (cl_ht s) (cl_os s)).
Proof. intros (Hwf & Hlast & Hok & Hnz & Ha) Hf. by apply (search_absent (cl_ht s) tbl). Qed.
Lemma verify_unknown fuel jhs jh s tbl h : unknown s tbl h → (length tbl < fuel)%nat →
  on_store (verify_tfile fuel h jhs jh) s = Done UNVERIFIED_FILE s.
Proof.
  intros Hu Hf. erewrite on_store_run; [by rewrite set_os_same|]. unfold verify_tfile.
  by rewrite (bind_done _ _ _ _ _ (search_unknown fuel s tbl h Hu Hf)).
Qed.
Lemma unverified_bit i : is_chunk_verified UNVERIFIED_FILE i = false.
Proof. unfold is_chunk_verified, UNVERIFIED_FILE. rewrite Z.shiftr_0_l. by destruct (_ || _). Qed.

(** A FILE_DATA message for a chunk that is not verified: whatever its index
    (below 8) and the length of its data, they are copied. *)
Lemma chunk_copied fuel jhs jh s tbl h t p c i data stale :
  has_mapped s tbl h t p c → (length tbl < fuel)%nat → zlen jhs = 8 → - 2 ^ 31 ≤ i < NUM_CHUNKS →
  zlen data < 2 ^ 32 → (0 ≤ i → ¬ chunk_good (t_tdef t) c i) →
  handle_file_data fuel jhs jh (chunk_body h i data ++ stale) s =
    on_world (mem_store (t_m_location t, chunk_off (zlen c) i) data) s.
Proof.
  intros Hhas Hf Hj Hi Hd Hbad. pose proof (has_mapped_hash _ _ _ _ _ _ Hhas) as Hh.
  destruct (decode_chunk_body h i data stale Hh Hi Hd) as (Hph & Hpi & Hps & Hsl).
  unfold handle_file_data. rewrite Hph, Hpi, Hps, Hsl.
  destruct (verify_has fuel jhs jh s tbl h t p c Hhas Hf Hj) as (v & Hv & Hver).
  rewrite (bind_done _ _ _ _ _ Hv). assert (is_chunk_verified v i = false) as ->.
  { destruct (Z.lt_ge_cases i 0); [unfold is_chunk_verified; by rewrite (proj2 (Z.ltb_lt _ _))|].
    apply not_true_is_false. rewrite (proj1 Hver) by lia. by apply Hbad. }
  rewrite (bind_done _ _ _ _ _ (open_has fuel s tbl h t p c i Hhas Hf ltac:(lia))). cbn [snd].
  rewrite (bind_done (when _ _) _ _ tt s).
  2: { rewrite (proj2 (Z.ltb_ge _ _)); [done|]. rewrite zlen_app, zlen_chunk_body by done.
       pose proof (zlen_nonneg stale). unfold sizeof_chunk_payload_t. lia. }
  by rewrite (bind_done (from_opt _ _) _ _ (t_m_location t, chunk_off (zlen c) i) s).
Qed.

Lemma chunk_copied_outside fuel jhs jh s tbl h t p c i data stale :
  has_mapped s tbl h t p c → (length tbl < fuel)%nat → zlen jhs = 8 → - 2 ^ 31 ≤ i < NUM_CHUNKS →
  zlen data < 2 ^ 32 → (0 ≤ i → ¬ chunk_good (t_tdef t) c i) →
  chunk_off (zlen c) i < 0 ∨ zlen c < chunk_off (zlen c) i + zlen data →
  handle_file_data fuel jhs jh (chunk_body h i data ++ stale) s = Stop OutOfBounds.
Proof.
  intros Hhas Hf Hj Hi Hd Hbad Hout. rewrite (chunk_copied fuel jhs jh s tbl h t p c) by done.
  pose proof Hhas as (_ & _ & _ & _ & _ & _ & Ha & Hmap & _).
  unfold on_world, zoom, mem_store. rewrite (bind_stop _ _ _ OutOfBounds); [done|].
  by eapply in_region_oob.
Qed.

Lemma handle_chunk_run fuel jhs jh s tbl h t p c i data stale :
  has_mapped s tbl h t p c → (length tbl < fuel)%nat → zlen jhs = 8 → 0 ≤ i < NUM_CHUNKS →
  chunk_off (zlen c) i + zlen data ≤ zlen c → ¬ chunk_good (t_tdef t) c i →
  ∃ w', handle_file_data fuel jhs jh (chunk_body h i data ++ stale) s = Done tt (set_os w' s) ∧
    os_view w' = set_files (<[p := splice (chunk_off (zlen c) i) data c]>) (os_view (cl_os s)).
Proof.
  intros Hhas Hf Hj Hi Hd Hbad.
  pose proof (zlen_nonneg c) as Hc0. pose proof (chunk_bounds (zlen c) i Hc0 Hi) as (Ho & Hl & Hol).
  pose proof (zlen_nonneg data). pose proof Hhas as (_ & _ & _ & _ & _ & Hmax & Hr).
  rewrite (chunk_copied fuel jhs jh s tbl h t p c) by (done || lia).
  exists (os_store (t_m_location t) (chunk_off (zlen c) i) data (cl_os s)). split.
  - unfold on_world, zoom, mem_store.
    rewrite (bind_done _ _ _ tt (cl_os s)); [done|]. eapply in_region_run; [exact Hr|lia|lia].
  - destruct Hr as (_ & Hmap & Hp & Hle). by apply (law_store _ _ _ _ _ (zlen c)); [..|lia|lia|lia].
Qed.
End transfer.

(** ** Operations that create no threads *)
Section threads.
Context {W : Type}.

Lemma keeps_on_world {A} (m : M W A) : preserves cl_threads (on_world m).
Proof. by apply preserves_zoom. Qed.
Lemma keeps_on_peers {A} (m : M (pstore W) A) : preserves cl_threads (on_peers m).
Proof. by apply preserves_zoom. Qed.
Lemma keeps_on_store {A} (m : M (store W) A) : preserves cl_threads (on_store m).
Proof. by apply preserves_zoom. Qed.
Lemma keeps_malloc `{OS W} n : preserves cl_threads (malloc_unchecked n).
Proof. apply preserves_bind; [apply keeps_on_world|]. intros ok. solve_preserves. Qed.
End threads.

(** ** Properties of the client's threads *)
Section properties.
Context {W : Type} `{OS W, OSViewOf W, !SockLaws W}.
Implicit Types (s : client W) (w : W).

(** C13. [share_tfile_to_peers] when nobody holds the peers' lock: either the
    definition was written completely to every peer but the sender, nothing
    else changed and the lock is free again; or sending to some peer failed,
    and the thread stops for ever in [remove_peer], waiting for the lock it
    holds.  With a peer whose socket is broken it is always the latter. *)
Theorem share_tfile_to_peers_correct fuel self d sender l s :
  peers_are (cl_peers s) l → p_lock (cl_peers s) = None → tdef_shape d →
  (184 < fuel)%nat → (length l < fuel)%nat →
  match share_tfile_to_peers fuel self d sender s with
  | Done _ s' => ∃ w', s' = set_os w' s ∧
      os_view w' = set_out (deliver sender (tfile_message d) l) (os_view (cl_os s)) ∧
      ∀ fd, fd ∈ l → fd ≠ sender → ¬ broken_peer fd
  | Stop e => e = Deadlock
  end.
Proof.
  intros Hl Hlock Hd Hf Hf2. unfold share_tfile_to_peers.
  rewrite (bind_done _ _ _ _ _ (lock_run self s Hlock)).
  set (q := set_lock (Some self) (cl_peers s)). set (s1 := set_cl_peers q s).
  destruct (wp_total _ _ s1 (share_loop fuel d sender l s1 Hl Hd Hf Hf2))
    as (failed & s2 & Hrun & w' & -> & Hres).
  rewrite (bind_done _ _ _ _ _ Hrun). destruct failed as [|x failed].
  - rewrite (bind_done (on_peers (remove_peers _ _ [])) _ _ tt (set_os w' s1)) by (by apply on_peers_read).
    destruct (Hres eq_refl) as [Hv Hnb]. exists w'. split; [|done].
    unfold set_os. cbn. do 2 f_equal. unfold set_lock. cbn. rewrite <- Hlock. by destruct (cl_peers s).
  - rewrite (bind_stop _ _ _ Deadlock); [done|]. apply on_peers_stop.
    unfold remove_peers. cbn [for_each]. apply bind_stop.
    unfold remove_peer. apply bind_stop. unfold lock_peers, mbind, M_bind. cbn. by rewrite Z.eqb_refl.
Qed.
End properties.

Section transfer_properties.
Context {W : Type} `{OS W, OSViewOf W, !FileLaws W, !SockLaws W, MD5_API, !MD5Laws, !MemoryRoom W}.
Implicit Types (s : client W) (w : W).

(** C7. A chunk gets from peer to peer: what [send_chunk_message] writes on
    success is one FILE_DATA message; a client with the same tfile mapped that
    has its body at the start of its buffer, and for which the chunk is not
    verified, stores it with [handle_file_data]: afterwards its chunk is the
    sender's, its other chunks are as before, and nothing else changed. *)
Theorem chunk_transfer fuel jhs jh s1 s1' tbl1 h t1 p1 c1 fd i s2 tbl2 t2 p2 c2 :
  has_mapped s1 tbl1 h t1 p1 c1 → has_mapped s2 tbl2 h t2 p2 c2 → zlen c1 = zlen c2 →
  0 ≤ i < NUM_CHUNKS → NUM_CHUNKS ≤ zlen c1 → zlen jhs = 8 →
  (length tbl1 < fuel)%nat → (length tbl2 < fuel)%nat → (Z.to_nat (24 + zlen c1) < fuel)%nat →
  MD5 c2 ≠ td_f_hash (t_tdef t2) →
  zget (td_c_hashes (t_tdef t2)) i ≠ Some (MD5 (chunk (zlen c2) c2 i)) →
  send_chunk_message fuel fd h i s1 = Done SUCCESS s1' →
  ∃ body, os_view (cl_os s1') = set_out (append_out fd
              (encode_info (message_info FILE_DATA (zlen body)) ++ body)) (os_view (cl_os s1)) ∧
    ∀ buf, ∃ w' c', handle_file_data fuel jhs jh (splice 0 body buf) s2 = Done tt (set_os w' s2) ∧
      os_view w' = set_files (<[p2 := c']>) (os_view (cl_os s2)) ∧
      chunk (zlen c2) c' i = chunk (zlen c1) c1 i ∧
      ∀ j, 0 ≤ j < NUM_CHUNKS → j ≠ i → chunk (zlen c2) c' j = chunk (zlen c2) c2 j.
Proof.
  intros Hs1 Hs2 Hc Hi Hc8 Hj Hf1 Hf2 Hf3 Hnf Hnc Hsend.
  pose proof (has_mapped_hash _ _ _ _ _ _ Hs1) as Hh.
  pose proof (send_chunk_run fuel s1 tbl1 h t1 p1 c1 fd i Hs1 Hf1 Hi Hc8 Hf3) as Hwp.
  unfold wp in Hwp. rewrite Hsend in Hwp.
  destruct Hwp as (w1 & sent & -> & Hv & _ & _ & [[_ ->]|Hbad]); [|done].
  pose proof (zlen_chunk (zlen c1) c1 i ltac:(pose proof (zlen_nonneg c1); lia) Hi) as Hcl.
  exists (chunk_body h i (chunk (zlen c1) c1 i)).
  split; [exact Hv|]. intros buf. unfold splice. rewrite slice_0, app_nil_l.
  destruct (handle_chunk_run fuel jhs jh s2 tbl2 h t2 p2 c2 i (chunk (zlen c1) c1 i)
              (drop (Z.to_nat (0 + zlen (chunk_body h i (chunk (zlen c1) c1 i)))) buf))
    as (w' & Hrun & Hv'); [done|done|done|done| |by intros [?|?]|].
  { pose proof (chunk_bounds (zlen c2) i (zlen_nonneg c2) Hi). rewrite Hcl, Hc. lia. }
  exists w'. eexists. split; [exact Hrun|]. split; [exact Hv'|]. pose proof (zlen_nonneg c2). split.
  - apply chunk_splice; [lia|done|by rewrite Hcl, Hc].
  - intros j Hj2 Hne. apply chunk_splice_other; [lia|done|done|by rewrite Hcl, Hc|done].
Qed.

(** C38. A FILE_DATA message with a negative chunk index, for a tfile that is
    mapped, makes [readWorker] write in front of the mapped region. *)
Theorem file_data_negative_index fuel jhs jh s tbl h t p c i data stale :
  has_mapped s tbl h t p c → (length tbl < fuel)%nat → zlen jhs = 8 → NUM_CHUNKS ≤ zlen c →
  - 2 ^ 31 ≤ i < 0 → zlen data < 2 ^ 32 →
  handle_file_data fuel jhs jh (chunk_body h i data ++ stale) s = Stop OutOfBounds.
Proof.
  intros Hhas Hf Hj Hc Hi Hd. apply (chunk_copied_outside fuel jhs jh s tbl h t p c); try (done || lia).
  - unfold NUM_CHUNKS. lia.
  - left. unfold chunk_off, NUM_CHUNKS in *. assert (1 ≤ zlen c / 8) by (apply Z.div_le_lower_bound; lia). nia.
Qed.

(** C39. The length of the data in a FILE_DATA message is not checked: for a
    chunk that is not good yet, data that are longer than the chunk overwrite
    the chunks behind it, verified or not, and data that reach behind the end
    of the file make [readWorker] write behind the mapped region. *)
Theorem file_data_spills fuel jhs jh s tbl h t p c i data stale :
  has_mapped s tbl h t p c → (length tbl < fuel)%nat → zlen jhs = 8 → 0 ≤ i < NUM_CHUNKS →
  ¬ chunk_good (t_tdef t) c i → zlen data < 2 ^ 32 →
  if decide (chunk_off (zlen c) i + zlen data ≤ zlen c)
  then ∃ w' c', handle_file_data fuel jhs jh (chunk_body h i data ++ stale) s = Done tt (set_os w' s) ∧
    os_view w' = set_files (<[p := c']>) (os_view (cl_os s)) ∧ zlen c' = zlen c ∧
    ∀ o m, 0 ≤ o → 0 ≤ m → o + m ≤ zlen data → slice (chunk_off (zlen c) i + o) m c' = slice o m data
  else handle_file_data fuel jhs jh (chunk_body h i data ++ stale) s = Stop OutOfBounds.
Proof.
  intros Hhas Hf Hj Hi Hbad Hd. pose proof (zlen_nonneg c). pose proof (zlen_nonneg data).
  pose proof (chunk_bounds (zlen c) i ltac:(done) Hi) as (Ho & Hl & Hol). case_decide as Hfit.
  - destruct (handle_chunk_run fuel jhs jh s tbl h t p c i data stale) as (w' & Hrun & Hv); [done..|].
    exists w'. eexists. split; [exact Hrun|]. split; [exact Hv|]. split; [apply zlen_splice; lia|].
    intros o m Hpos Hm Hom. unfold splice.
    rewrite (slice_skip _ _ (chunk_off (zlen c) i)) by (apply length_slice || lia; lia).
    replace (_ + o - _) with o by lia. by rewrite slice_app_before by lia.
  - apply (chunk_copied_outside fuel jhs jh s tbl h t p c); (done || lia).
Qed.

(** A FILE_DATA message for a hash that is not in the table makes
    [readWorker] copy to a null pointer. *)
Theorem file_data_unknown_hash fuel jhs jh s tbl h i size data :
  wf (cl_ht s) tbl → last_free tbl → (length tbl < fuel)%nat →
  hash_ok h → h ≠ zero_hash → abs tbl !! h = None →
  - 2 ^ 31 ≤ i < 2 ^ 31 → 0 ≤ size < 2 ^ 32 → size ≤ zlen data →
  handle_file_data fuel jhs jh (encode_payload (ChunkPayload h i (swap32 size)) ++ data) s =
    Stop NullDeref.
Proof.
  intros Hwf Hlast Hf Hok Hnz Ha Hi Hs Hd. pose proof (proj1 Hok) as Hh. pose proof (swap32_bound size).
  assert (Hu : unknown s tbl h) by by split_and!.
  pose proof (search_unknown fuel s tbl h Hu Hf) as Hsearch.
  unfold handle_file_data.
  rewrite decode_encode_payload by (split; [exact Hh|]; cbn [pl_chunk_index pl_chunk_size]; lia).
  cbn [pl_file_hash pl_chunk_index pl_chunk_size]. rewrite swap32_involutive by done.
  rewrite (bind_done _ _ _ _ _ (verify_unknown fuel jhs jh s tbl h Hu Hf)), unverified_bit.
  rewrite (bind_done _ _ _ (-1, None) s).
  2: { erewrite on_store_run; [by rewrite set_os_same|]. unfold open_tfile.
       destruct (NUM_CHUNKS <=? i); [done|]. by rewrite (bind_done _ _ _ _ _ Hsearch). }
  assert (He : zlen (encode_payload (ChunkPayload h i (swap32 size))) = 24).
  { unfold encode_payload. rewrite !zlen_app, !zlen_le_bytes. cbn [pl_file_hash]. by rewrite Hh. }
  rewrite (bind_done (when _ _) _ _ tt s); [done|].
  rewrite (proj2 (Z.ltb_ge _ _)); [done|]. rewrite zlen_app, He. unfold sizeof_chunk_payload_t. lia.
Qed.
End transfer_properties.

(** Every [readWorker] that [connectWorker] starts is given a block of
    four bytes and reads eight: it stops with an access outside the block
    before its first message. *)
Theorem readWorker_overread {W} `{OS W, MD5_API} fuel self fd (s : client W) :
  wp (connect_body fuel self fd) (λ _ s', ∀ args, RunReadWorker args ∈ cl_threads s' →
    RunReadWorker args ∈ cl_threads s ∨
    ∀ jhs jh jl self' junk s'', readWorker fuel jhs jh jl self' args junk s'' = Stop OutOfBounds)
    (λ _, True) s.
Proof.
  unfold connect_body. apply wp_bind, (preserves_wp cl_threads); [apply keeps_on_world|]. intros c s1 Ht1.
  destruct (c =? -1); [apply (preserves_wp cl_threads); [apply keeps_on_peers|]; intros _ s2 Ht2 args; rewrite Ht2, Ht1; by left|].
  apply wp_bind, (preserves_wp cl_threads); [apply keeps_on_peers|]. intros _ s2 Ht2.
  apply wp_bind, (preserves_wp cl_threads); [apply keeps_malloc|]. intros _ s3 Ht3.
  apply wp_bind, (preserves_wp cl_threads); [apply keeps_on_store|]. intros files s4 Ht4.
  apply wp_bind, wp_modify.
  apply wp_bind, (preserves_wp cl_threads); [apply keeps_malloc|]. intros _ s5 Ht5.
  apply wp_modify. cbn [cl_threads] in *. intros args.
  rewrite Ht5, Ht4, Ht3, Ht2, Ht1, !elem_of_app, !list_elem_of_singleton.
  intros [[Hin|[=]]|[= ->]]; [by left|]. by right.
Qed.

(** ** The properties on concrete inputs *)
Module ClientWitness.
Import Sim HTable.Examples FileExamples.

Definition self_data : sockdata_t := SockData 0 None.
(** Peers 5, 6 and 7; the descriptors in [bad] are broken. *)
Definition peers : peers_t := Peers None 100 3 (Some (Some <$> [5; 6; 7])).
Definition net (bad : gset Z) : Sim.world := World (OSView ∅ ∅ ∅ {[5; 6; 7]} ∅ ∅) 1000 bad.
Definition sharing (bad : gset Z) : client Sim.world := Client ht4 peers initial_ui self_data [] (net bad).

Lemma peers_ok : peers_are (cl_peers (sharing ∅)) [5; 6; 7].
Proof. split_and!; [done|done|]. by exists []. Qed.
Lemma def_shape n : tdef_shape (def n).
Proof. split; [done|]. split; [done|]. split; [done|]. split; [|done]. repeat constructor. Qed.

Lemma share_tfile_to_peers_correct_witness :
  share_tfile_to_peers 200 1 (def 9) 6 (sharing {[7]}) = Stop Deadlock ∧
  (∃ s', share_tfile_to_peers 200 1 (def 9) 6 (sharing ∅) = Done tt s') ∧
  match share_tfile_to_peers 200 1 (def 9) 6 (sharing ∅) with
  | Done _ s' => ∃ w', s' = set_os w' (sharing ∅) ∧
      os_view w' = set_out (deliver 6 (tfile_message (def 9)) [5; 6; 7]) (os_view (net ∅)) ∧
      ∀ fd, fd ∈ [5; 6; 7] → fd ≠ 6 → ¬ broken_peer fd
  | Stop e => e = Deadlock
  end.
Proof.
  split_and!; [by vm_compute|eexists; by vm_compute|].
  apply (share_tfile_to_peers_correct 200 1 (def 9) 6 [5; 6; 7] (sharing ∅) peers_ok);
    [done|apply def_shape|by apply Nat.ltb_lt; vm_compute|by apply Nat.ltb_lt; vm_compute].
Defined.

(** A sender with the file, and a receiver with an empty file of its size. *)
Definition blank : list Z := replicate 300 0.
Definition sender : client Sim.world :=
  Client ht_mapped initial_peers initial_ui self_data [] disk_mapped.
Definition receiver : client Sim.world :=
  Client ht_mapped initial_peers initial_ui self_data []
    (Sim.set_view (set_files (λ _, {[path := blank]})) disk_mapped).

Lemma sender_has : has_mapped sender mapped digest (TFile tdef (FHeap path) 1) path content.
Proof.
  split_and!; [apply ht_mapped_wf|by vm_compute|done|apply tdef_tdef_ok|done|done|apply disk_mapped_region].
Qed.
Lemma receiver_has : has_mapped receiver mapped digest (TFile tdef (FHeap path) 1) path blank.
Proof.
  split; [apply ht_mapped_wf|]. split; [by vm_compute|]. split; [done|]. split; [apply tdef_tdef_ok|].
  split; [done|]. split; [done|]. unfold region_at. split_and!; by vm_compute.
Qed.

Definition sent : client Sim.world :=
  match send_chunk_message 400 5 digest 2 sender with Done _ s => s | Stop _ => sender end.

Lemma chunk_transfer_witness :
  ∃ body, os_view (cl_os sent) = set_out (append_out 5
              (encode_info (message_info FILE_DATA (zlen body)) ++ body)) (os_view (cl_os sender)) ∧
    ∀ buf, ∃ w' c', handle_file_data 400 junk zero_hash (splice 0 body buf) receiver =
        Done tt (set_os w' receiver) ∧
      os_view w' = set_files (<[path := c']>) (os_view (cl_os receiver)) ∧
      chunk 300 c' 2 = chunk 300 content 2 ∧
      ∀ j, 0 ≤ j < NUM_CHUNKS → j ≠ 2 → chunk 300 c' j = chunk 300 blank j.
Proof.
  apply (chunk_transfer 400 junk zero_hash sender sent mapped digest (TFile tdef (FHeap path) 1) path
           content 5 2 receiver mapped (TFile tdef (FHeap path) 1) path blank sender_has receiver_has);
    [done|unfold NUM_CHUNKS; lia|done|done|by apply Nat.ltb_lt; vm_compute|
     by apply Nat.ltb_lt; vm_compute|by apply Nat.ltb_lt; vm_compute|by vm_compute|by vm_compute|].
  by vm_compute.
Defined.

Lemma file_data_negative_index_witness :
  handle_file_data 400 junk zero_hash (chunk_body digest (-3) [1; 2; 3; 4] ++ [7]) sender = Stop OutOfBounds.
Proof.
  apply (file_data_negative_index 400 junk zero_hash sender mapped digest (TFile tdef (FHeap path) 1)
           path content (-3) [1; 2; 3; 4] [7] sender_has);
    [by apply Nat.ltb_lt; vm_compute|done|done|done|done].
Defined.

(** A message for the first chunk of 37 bytes that has 40, and one that has
    301. *)
Lemma file_data_spills_witness :
  (∃ w' c', handle_file_data 400 junk zero_hash (chunk_body digest 0 (replicate 40 1) ++ [7]) receiver =
      Done tt (set_os w' receiver) ∧
    os_view w' = set_files (<[path := c']>) (os_view (cl_os receiver)) ∧ zlen c' = 300 ∧
    slice 37 3 c' = [1; 1; 1]) ∧
  handle_file_data 400 junk zero_hash (chunk_body digest 0 (replicate 301 1) ++ [7]) receiver =
    Stop OutOfBounds.
Proof.
  pose proof (λ n, file_data_spills 400 junk zero_hash receiver mapped digest (TFile tdef (FHeap path) 1)
    path blank 0 (replicate n 1) [7] receiver_has) as Hspills.
  assert (Hbad : ¬ chunk_good tdef blank 0) by (by apply (bool_decide_unpack (¬ chunk_good _ _ _)); vm_compute).
  split.
  - destruct (Hspills 40%nat) as (w' & c' & Hrun & Hv & Hl & Hs); [by apply Nat.ltb_lt; vm_compute|done..|].
    exists w', c'. split; [exact Hrun|]. split; [exact Hv|]. split; [exact Hl|]. by apply (Hs 37 3).
  - apply (Hspills 301%nat); [by apply Nat.ltb_lt; vm_compute|done..].
Defined.

Lemma file_data_unknown_hash_witness :
  handle_file_data 400 junk zero_hash
    (encode_payload (ChunkPayload (hash 10) 0 (swap32 2)) ++ [1; 2]) (sharing ∅) = Stop NullDeref.
Proof.
  apply (file_data_unknown_hash 400 junk zero_hash (sharing ∅) table4 (hash 10) 0 2 [1; 2] ht4_wf);
    [done|by apply Nat.ltb_lt; vm_compute|apply hash_nonzero_ok; lia|apply hash_nonzero_ok; lia|
     by vm_compute|done|done|done].
Defined.

Lemma readWorker_overread_witness :
  wp (connect_body 400 1 4) (λ _ s', ∀ args, RunReadWorker args ∈ cl_threads s' →
    RunReadWorker args ∈ cl_threads (sharing ∅) ∨
    ∀ jhs jh jl self' junk s'', readWorker 400 jhs jh jl self' args junk s'' = Stop OutOfBounds)
    (λ _, True) (sharing ∅).
Proof. apply (readWorker_overread 400 1 4 (sharing ∅)). Defined.
End ClientWitness.
