(* ===== verification/Adapter.v ===== *)
(** * Between the interface and the client (ui_adapter.h, ui_adapter.c)

    The two callbacks the user interface is given. *)
From S2P Require Import Prelude OS Sim HTable File Peers Curses Ui Client.

Section adapter.
Context {W : Type} `{OS W, MD5_API, CURSES W}.
Context (fuel : nat) (junk_hashes : list (list Z)) (junk_hash : list Z).

(** ui_adapter.c: ui_list_network_files.  A name whose [strdup] failed is
    [None]; a count of 0 comes with an empty list. *)
Definition ui_list_network_files : M (client W) (list (option (list Z))) :=
  r ← on_store (list_tfiles fuel);
  let '(count, tfiles) := r : Z * list tfile_def_t in
  if count <=? 0 then mret []
  else
    ok ← on_world (sys (os_malloc (wrapu 64 (8 * count))));
    if negb ok then mret []
    else
      fold_m (seqZ 0 count) (λ names i,
        d ← from_opt OutOfBounds (zget tfiles i);
        name ← from_opt OutOfBounds (cstr (td_name d));
        copy ← on_ustore (strdup name);
        mret (names ++ [copy])) [].

(** ui_adapter.c: ui_input_handler, the loop over the tfiles; it ends with
    [true] when the name was found. *)
Definition input_body (self : tid) (tfiles : list tfile_def_t) (count : Z) (input : list Z) (i : Z)
    : M (client W) (Z + bool) :=
  if i <? count then
    d ← from_opt OutOfBounds (zget tfiles i);
    name ← from_opt OutOfBounds (cstr (td_name d));
    if bool_decide (name = input) then
      status ← on_store (verify_tfile fuel (td_f_hash d) junk_hashes junk_hash);
      if status =? VERIFIED_FILE then
        _ ← on_ustore (ui_display self (str "system") (str "File already downloaded!"));
        mret (inr true)
      else
        _ ← on_ustore (ui_display self (str "system") (str "Starting download..."));
        _ ← malloc_unchecked MD5_DIGEST_LENGTH;
        _ ← pthread_create (RunDownload (td_f_hash d));
        mret (inr true)
    else
      i' ← add_s32 i 1;
      mret (inl i')
  else mret (inr false).

(** ui_adapter.c: ui_input_handler; [input] is the string behind the pointer,
    or [None] for NULL. *)
Definition ui_input_handler (self : tid) (input : option (list Z)) : M (client W) unit :=
  match input with
  | None | Some [] => mret tt
  | Some text =>
      _ ← when (bool_decide (text = str ":quit") || bool_decide (text = str ":q"))
            (on_ustore (ui_exit self));
      r ← on_store (list_tfiles fuel);
      let '(count, tfiles) := r : Z * list tfile_def_t in
      found ← iter fuel (input_body self tfiles count text) 0;
      when (negb found)
        (on_ustore (ui_display self (str "system") (str "File not found in network")))
  end.
End adapter.
