(* ===== verification/Main.v ===== *)
(** * The program (client.c: parse_args, free_args, print_usage, main)

    The command line, the main thread, and the threads it starts. *)
From stdpp Require Import pretty.
From S2P Require Import Prelude OS Sim HTable File Socket Peers Curses Ui Wire Client Adapter.

(** client.h: cmd_args_t *)
Record cmd_args_t : Type := CmdArgs {
  peer_p : option (list Z);
  port_p : option (list Z);
  file_p : option (list Z);
  username_p : option (list Z)
}.

Definition EXIT_SUCCESS : Z := 0.
Definition EXIT_FAILURE : Z := 1.

Section main.
Context {W : Type} `{OS W, MD5_API, CURSES W}.

(** The standard output and error are not part of the state: what is printed
    is the result. *)
Definition usage (argv0 : list Z) : list Z :=
  str "Usage: " ++ argv0 ++ str " <-u username> [-p <peer> -n <port number>] [-f file]
".

(** client.c: print_usage, to standard error. *)
Definition print_usage (argv0 : list Z) : M (client W) (list Z) := mret (usage argv0).

(** client.c: parse_args, one option: [opt] is the character [getopt] gave and
    [optarg] its argument. *)
Definition parse_opt (argv0 : list Z) (args : cmd_args_t) (o : Z * list Z) : M (client W) cmd_args_t :=
  let '(opt, optarg) := o in
  let dup (k : option (list Z) → cmd_args_t) : M (client W) cmd_args_t :=
    copy ← on_ustore (strdup optarg);
    match copy with
    | None => stop (Exit EXIT_FAILURE)
    | Some _ => mret (k copy)
    end in
  if opt =? 104 then _ ← print_usage argv0; stop (Exit EXIT_SUCCESS)
  else if opt =? 112 then dup (λ c, CmdArgs c (port_p args) (file_p args) (username_p args))
  else if opt =? 110 then dup (λ c, CmdArgs (peer_p args) c (file_p args) (username_p args))
  else if opt =? 102 then dup (λ c, CmdArgs (peer_p args) (port_p args) c (username_p args))
  else if opt =? 117 then dup (λ c, CmdArgs (peer_p args) (port_p args) (file_p args) c)
  else if (opt =? 58) || (opt =? 63) then _ ← print_usage argv0; stop (Exit EXIT_FAILURE)
  else mret args.

(** client.c: parse_args, on the options in the order [getopt] gives them. *)
Definition parse_args (argv0 : list Z) (opts : list (Z * list Z)) (args : cmd_args_t)
    : M (client W) cmd_args_t :=
  fold_m opts (parse_opt argv0) args.

(** client.c: free_args, as what it prints. *)
Definition free_args (args : cmd_args_t) : list Z :=
  let line (label : string) (o : option (list Z)) :=
    match o with None => [] | Some s => str label ++ s ++ [10] end in
  line "username: " (username_p args) ++ line "peer: " (peer_p args) ++
  line "port: " (port_p args) ++ line "filename: " (file_p args).

(** The checks of main on the arguments; [extra] says that [getopt] left some. *)
Definition args_rejected (extra : bool) (args : cmd_args_t) : bool :=
  let given (o : option (list Z)) := match o with None => false | Some _ => true end in
  extra || negb (given (username_p args)) ||
  (given (peer_p args) && negb (given (port_p args))) ||
  (given (port_p args) && negb (given (peer_p args))).

Context (fuel : nat) (junk_hashes : list (list Z)) (junk_hash : list Z) (junk_tdef : tfile_def_t).
Context (atoi : list Z → Z).

Definition main_thread : tid := 0.

(** client.c: main, the connection to the first peer. *)
Definition main_connect (args : cmd_args_t) : M (client W) unit :=
  match peer_p args with
  | None => mret tt
  | Some host =>
      port ← from_opt NullDeref (port_p args);
      host_peer ← on_world (socket_connect host (wrapu 16 (atoi port)));
      if host_peer =? -1 then stop (Exit EXIT_FAILURE)
      else
        _ ← on_peers (add_peer main_thread host_peer);
        pthread_create (RunReadWorker (le_bytes 4 (wrapu 32 host_peer)))
  end.

(** client.c: main, the file given on the command line: the buffer behind
    [file_p] is the path, its terminator and nothing more. *)
Definition main_file (args : cmd_args_t) : M (client W) unit :=
  match file_p args with
  | None => mret tt
  | Some path =>
      r ← on_store (generate_tfile fuel junk_tdef (path ++ [0]) (path ++ [0]));
      _ ← malloc_unchecked sizeof_send_tfile_t;
      pthread_create (RunShareTfile r.2 NO_SENDER_PEER)
  end.

(** client.c: main, the initialisation of the table and of the list of peers. *)
Definition init : M (client W) unit :=
  _ ← on_store init_htable;
  p ← on_peers get_peers;
  on_peers (realloc_peers (p_capacity p)).

(** client.c: main *)
Definition main (argv0 : list Z) (opts : list (Z * list Z)) (extra : bool) : M (client W) unit :=
  _ ← on_store init_htable;
  p ← on_peers get_peers;
  _ ← on_peers (realloc_peers (p_capacity p));
  r ← on_world (server_socket_open 0);
  let '(server_fd, network_port) := r : Z * Z in
  if server_fd =? -1 then stop (Exit EXIT_FAILURE)
  else
    rc ← on_world (sys (os_listen server_fd 10));
    if negb (rc =? 0) then stop (Exit EXIT_FAILURE)
    else
      args ← parse_args argv0 opts (CmdArgs None None None None);
      if args_rejected extra args then stop (Exit EXIT_FAILURE)
      else
        _ ← main_connect args;
        _ ← main_file args;
        _ ← pthread_create (RunConnectWorker server_fd);
        _ ← on_ustore (ui_init true);
        _ ← on_ustore (ui_display main_thread (str "system")
                         (str "Running on port " ++ str (pretty network_port)));
        _ ← on_ustore (ui_register_file_list_callback true);
        _ ← ui_run get_ustore set_ustore (ui_list_network_files fuel)
              (λ text, ui_input_handler fuel junk_hashes junk_hash main_thread (Some text))
              fuel main_thread;
        on_ustore (ui_exit main_thread).

(** What each thread runs. *)
Definition run_thread (self : tid) (junk_buffer : list Z) (junk_len : Z) (t : thread) : M (client W) unit :=
  match t with
  | RunReadWorker args => readWorker fuel junk_hashes junk_hash junk_len self args junk_buffer
  | RunConnectWorker fd => connectWorker fuel self fd
  | RunShareTfile d sender => share_tfile_to_peers fuel self d sender
  | RunShareTfiles arr count peer => share_tfiles_to_peer fuel self arr count peer
  | RunDownload hash => download_file fuel junk_hashes junk_hash self hash
  end.
End main.

(** ** The life of the interface

    [flags]: does the interface run, and were its forms freed? *)
Definition uflags {W} (x : ustore W) : bool * bool := (u_running (us_ui x), u_freed (us_ui x)).
Definition flags {W} (s : client W) : bool * bool := (u_running (cl_ui s), u_freed (cl_ui s)).

Section interface.
Context {W : Type} `{OS W, MD5_API, CURSES W}.

Lemma flags_ui_os {A} (m : M W A) : preserves uflags (ui_os m).
Proof. by apply preserves_zoom. Qed.
Lemma flags_upd_ui g : (∀ u, u_running (g u) = u_running u ∧ u_freed (g u) = u_freed u) →
  preserves uflags (upd_ui (W := W) g).
Proof. intros Hg. apply preserves_modify. intros x. unfold uflags. cbn. by destruct (Hg (us_ui x)) as [-> ->]. Qed.
Lemma flags_get_ui : preserves uflags (get_ui (W := W)).
Proof. apply preserves_gets. Qed.
Lemma flags_on_ustore {A} (m : M (ustore W) A) : preserves uflags m → preserves flags (on_ustore m).
Proof. by apply preserves_zoom_in. Qed.
Lemma flags_on_store {A} (m : M (store W) A) : preserves flags (on_store m).
Proof. by apply preserves_zoom. Qed.
Lemma flags_on_peers {A} (m : M (pstore W) A) : preserves flags (on_peers m).
Proof. by apply preserves_zoom. Qed.
Lemma flags_on_world {A} (m : M W A) : preserves flags (on_world m).
Proof. by apply preserves_zoom. Qed.
Lemma flags_create t : preserves flags (pthread_create (W := W) t).
Proof. by apply preserves_modify. Qed.
End interface.

#[export] Hint Resolve flags_ui_os flags_get_ui flags_on_ustore flags_on_store flags_on_peers
  flags_on_world flags_create : preserves.
#[export] Hint Extern 1 (preserves uflags (upd_ui _)) => (apply flags_upd_ui; done) : preserves.

Section interface.
Context {W : Type} `{OS W, MD5_API, CURSES W}.

Lemma flags_lock_ui self : preserves uflags (lock_ui (W := W) self).
Proof. unfold lock_ui. solve_preserves. Qed.
Lemma flags_unlock_ui : preserves uflags (unlock_ui (W := W)).
Proof. unfold unlock_ui. solve_preserves. Qed.
Lemma flags_node_at a : preserves uflags (node_at (W := W) a).
Proof. unfold node_at. solve_preserves. Qed.
Lemma flags_set_node a n : preserves uflags (set_node (W := W) a n).
Proof. unfold set_node. solve_preserves. Qed.
Lemma flags_free_node a : preserves uflags (free_node (W := W) a).
Proof. unfold free_node. solve_preserves. Qed.
Lemma flags_strdup s : preserves uflags (strdup (W := W) s).
Proof. unfold strdup. solve_preserves. Qed.
Lemma flags_malloc n : preserves flags (malloc_unchecked (W := W) n).
Proof. unfold malloc_unchecked. solve_preserves. Qed.
End interface.

#[export] Hint Resolve flags_lock_ui flags_unlock_ui flags_node_at flags_set_node flags_free_node
  flags_strdup flags_malloc : preserves.

Section interface.
Context {W : Type} `{OS W, MD5_API, CURSES W}.

Lemma flags_insert_m self name text : preserves uflags (insert_m (W := W) self name text).
Proof. unfold insert_m. solve_preserves. Qed.
Lemma flags_remove_m self : preserves uflags (remove_m (W := W) self).
Proof. unfold remove_m. solve_preserves. Qed.
Lemma flags_drive form c : preserves uflags (drive (W := W) form c).
Proof. apply flags_ui_os. Qed.
End interface.

#[export] Hint Resolve flags_insert_m flags_remove_m flags_drive : preserves.

(** While the interface does not run, its forms are freed. *)
Definition alive_or_freed {W} (s : client W) : Prop := flags s ≠ (false, false).
Definition keeps {W A} (m : M (client W) A) : Prop :=
  ∀ s, alive_or_freed s → wp m (λ _ s', alive_or_freed s') (λ _, True) s.

Lemma keeps_preserves {W A} (m : M (client W) A) : preserves flags m → keeps m.
Proof. intros Hm s Hs. apply (preserves_wp flags _ _ _ Hm). unfold alive_or_freed. by intros a s' ->. Qed.
Lemma keeps_bind {W A B} (m : M (client W) A) (k : A → M (client W) B) :
  keeps m → (∀ a, keeps (k a)) → keeps (m ≫= k).
Proof.
  intros Hm Hk s Hs. apply wp_bind. eapply wp_conseq; [by apply Hm|]. intros a s' Hs'. by apply Hk.
Qed.
Lemma keeps_wp {W A} (m : M (client W) A) (Q : A → client W → Prop) s :
  alive_or_freed s → keeps m → (∀ a s', alive_or_freed s' → Q a s') → wp m Q (λ _, True) s.
Proof. intros Hs Hm HQ. eapply wp_conseq; [by apply Hm|done]. Qed.
Lemma keeps_when {W} b (m : M (client W) unit) : keeps m → keeps (when b m).
Proof. intros Hm. destruct b; [done|]. by intros s Hs. Qed.

Section interface.
Context {W : Type} `{OS W, MD5_API, CURSES W}.

(** [ui_exit] leaves the forms freed, and does not return when they are. *)
Lemma ui_exit_flags self (x : ustore W) :
  wp (ui_exit self) (λ _ x', uflags x' = (false, true)) (λ _, True) x.
Proof.
  unfold ui_exit. apply wp_bind, (preserves_wp uflags); [auto with preserves|]. intros _ x1 _.
  apply wp_bind, wp_modify, wp_bind, wp_gets, wp_bind, wp_when; [done|]. intros _.
  apply wp_bind, (preserves_wp uflags); [auto with preserves|]. intros _ x2 Hx2.
  apply wp_bind, wp_modify. cbn. eapply preserves_wp; [apply flags_unlock_ui|].
  intros _ x3 ->. unfold uflags in *. cbn in *. injection Hx2 as Hr _. by rewrite Hr.
Qed.

Lemma ui_exit_freed self (x : ustore W) : u_freed (us_ui x) = true →
  wp (ui_exit self) (λ _ _, False) (λ _, True) x.
Proof.
  intros Hx. unfold ui_exit. apply wp_bind, (preserves_wp uflags); [auto with preserves|]. intros _ x1 Hx1.
  injection Hx1 as _ Hf. rewrite Hx in Hf.
  apply wp_bind, wp_modify, wp_bind, wp_gets, wp_bind, wp_when; [done|]. cbn. congruence.
Qed.

Lemma keeps_ui_exit self : keeps (on_ustore (W := W) (ui_exit self)).
Proof.
  intros s Hs. apply wp_zoom. eapply wp_conseq; [apply ui_exit_flags|].
  intros [] x Hx. unfold alive_or_freed, flags, uflags in *. cbn in *. by rewrite Hx.
Qed.

Context (fuel : nat) (jhs : list (list Z)) (jh : list Z).

Lemma flags_list_files : preserves flags (ui_list_network_files (W := W) fuel).
Proof. unfold ui_list_network_files. solve_preserves. Qed.
Lemma flags_input_body self tfiles n text i :
  preserves flags (input_body (W := W) fuel jhs jh self tfiles n text i).
Proof. unfold input_body, ui_display. solve_preserves. Qed.

Lemma keeps_input_handler self input : keeps (ui_input_handler (W := W) fuel jhs jh self input).
Proof.
  unfold ui_input_handler. destruct input as [[|c text]|];
    [by apply keeps_preserves, preserves_ret| |by apply keeps_preserves, preserves_ret].
  apply keeps_bind; [by apply keeps_when, keeps_ui_exit|]. intros _. apply keeps_preserves.
  pose proof flags_input_body as Hbody. unfold ui_display. solve_preserves.
Qed.

Lemma flags_drive_string form s : preserves uflags (drive_string (W := W) form s).
Proof. unfold drive_string. solve_preserves. Qed.
Lemma flags_drain self : preserves uflags (drain (W := W) fuel self).
Proof. unfold drain, drain_body. pose proof flags_drive_string. solve_preserves. Qed.

Lemma flags_on_ui {A} (m : M (ustore W) A) :
  preserves uflags m → preserves flags (on_ui get_ustore set_ustore m).
Proof. apply flags_on_ustore. Qed.

Lemma flags_show_files :
  preserves flags (show_files get_ustore set_ustore (ui_list_network_files (W := W) fuel)).
Proof.
  pose proof flags_list_files as Hlist. pose proof flags_drive_string as Hds. unfold show_files.
  apply preserves_bind; [apply flags_on_ui, flags_get_ui|]. intros u.
  apply preserves_when, preserves_bind; [done|]. intros files. apply flags_on_ui. solve_preserves.
Qed.

Lemma keeps_on_enter self : keeps (on_enter get_ustore set_ustore (ui_list_network_files fuel)
  (λ text, ui_input_handler (W := W) fuel jhs jh self (Some text))).
Proof.
  unfold on_enter. do 4 (apply keeps_bind;
    [apply keeps_preserves, flags_on_ui; solve [auto with preserves]|intros ?]).
  do 3 (apply keeps_bind; [apply keeps_preserves; unfold safe_trim; solve_preserves|intros ?]).
  apply keeps_bind.
  { destruct (_ =? _); [apply keeps_preserves, flags_show_files|]. apply keeps_when, keeps_input_handler. }
  intros _. apply keeps_bind; [apply keeps_preserves, flags_on_ui, flags_get_ui|]. intros u.
  apply keeps_preserves, preserves_when, flags_on_ui, flags_drive.
Qed.

(** The loop of [ui_run] ends only with the forms freed. *)
Lemma ui_run_freed self (s : client W) : alive_or_freed s →
  wp (ui_run get_ustore set_ustore (ui_list_network_files fuel)
        (λ text, ui_input_handler fuel jhs jh self (Some text)) fuel self)
    (λ _ s', u_freed (cl_ui s') = true) (λ _, True) s.
Proof.
  pose proof flags_drain as Hdrain. pose proof flags_drive_string as Hds.
  pose proof flags_list_files as Hlist.
  intros Hs. unfold ui_run. apply wp_bind, (preserves_wp flags).
  { apply flags_on_ustore. auto with preserves. }
  intros [] s1 Hs1. apply wp_iter_partial with (I := λ _ s, alive_or_freed s);
    [|unfold alive_or_freed in *; by rewrite Hs1].
  clear. pose proof flags_drain as Hdrain. pose proof flags_drive_string as Hds.
  pose proof flags_list_files as Hlist.
  intros [] s Hs. unfold run_body. apply wp_bind, wp_zoom, wp_gets.
  replace (set_ustore (get_ustore s) s) with s by by destruct s.
  change (u_running (us_ui (get_ustore s))) with (u_running (cl_ui s)).
  destruct (u_running (cl_ui s)) eqn:Hr; cbn [negb].
  - apply wp_bind, (keeps_wp _ _ _ Hs); [apply keeps_preserves, flags_on_ustore, flags_ui_os|].
    intros ch s1 Hs1. destruct (ch =? -1); [by apply wp_ret|].
    apply wp_bind, (keeps_wp _ _ _ Hs1); [apply keeps_preserves, flags_on_ustore, Hdrain|].
    intros [] s2 Hs2. apply wp_bind, (keeps_wp _ _ _ Hs2).
    { destruct (_ || _); [apply keeps_preserves, flags_on_ustore, flags_drive|].
      destruct (_ || _); [apply keeps_on_enter|apply keeps_preserves, flags_on_ustore, flags_drive]. }
    intros [] s3 Hs3. apply wp_bind, (keeps_wp _ _ _ Hs3); [apply keeps_preserves, flags_on_ustore, flags_ui_os|].
    intros [] s4 Hs4. by apply wp_ret.
  - apply wp_ret. unfold alive_or_freed, flags in Hs. rewrite Hr in Hs. by destruct (u_freed (cl_ui s)).
Qed.
End interface.

Lemma ui_init_running {W} `{OS W, CURSES W} callback (x : ustore W) :
  wp (ui_init callback) (λ _ x', u_running (us_ui x') = true) (λ _, True) x.
Proof.
  unfold ui_init. do 4 (apply wp_bind, wp_any; intros ? ?).
  apply wp_bind, wp_any. intros [rows cols] ?. do 11 (apply wp_bind, wp_any; intros ? ?). done.
Qed.

(** ** Properties of the program *)
(** C31. [main] never returns, whatever the arguments, the keys and the
    world: [ui_run] ends only after [:q] or [:quit] has called [ui_exit], and
    then [main] calls it again, which frees the forms and fields a second
    time. *)
Theorem main_never_returns {W} `{OS W, MD5_API, CURSES W} fuel jhs jh junk_tdef atoi argv0 opts extra
    (s : client W) :
  wp (main fuel jhs jh junk_tdef atoi argv0 opts extra) (λ _ _, False) (λ _, True) s.
Proof.
  unfold main.
  do 3 (apply wp_bind, wp_any; intros ? ?). apply wp_bind, wp_any. intros [server_fd port] s1.
  destruct (server_fd =? -1); [done|].
  apply wp_bind, wp_any. intros rc s2. destruct (negb _); [done|].
  apply wp_bind, wp_any. intros args s3. destruct (args_rejected extra args); [done|].
  do 3 (apply wp_bind, wp_any; intros ? ?).
  apply wp_bind, wp_zoom. eapply wp_conseq; [apply ui_init_running|]. intros [] x Hx.
  apply wp_bind, (preserves_wp flags); [apply flags_on_ustore, flags_insert_m|]. intros [] s4 Hs4.
  apply wp_bind, (preserves_wp flags); [apply flags_on_ustore, flags_upd_ui; done|]. intros [] s5 Hs5.
  apply wp_bind. eapply wp_conseq; [apply ui_run_freed|].
  { unfold alive_or_freed. rewrite Hs5, Hs4. unfold flags. cbn. by rewrite Hx. }
  intros [] s6 Hs6. apply wp_zoom. eapply wp_conseq; [by apply ui_exit_freed|done].
Qed.

(** ** The properties on concrete inputs *)
Module MainWitness.
Import Sim HTable.Examples FileExamples.

(** The user types [:q] and ENTER. *)
Definition start : client Sim.world :=
  Client ht4 initial_peers initial_ui (SockData 0 None) []
    (Sim.set_term (λ _, Console [] [58; 113; 10] (str ":q")) (Sim.boot [])).

Lemma main_never_returns_witness :
  main 300 junk zero_hash tdef (λ _, 0) (str "grintorrent") [(117, str "me")] false start = Stop BadFree ∧
  wp (main 300 junk zero_hash tdef (λ _, 0) (str "grintorrent") [(117, str "me")] false)
    (λ _ _, False) (λ _, True) start.
Proof.
  split; [by vm_compute|].
  apply (main_never_returns 300 junk zero_hash tdef (λ _, 0) (str "grintorrent") [(117, str "me")] false start).
Defined.
End MainWitness.
