(* ===== verification/Evolve.v ===== *)
(** * What the operations keep

    What each component's operations keep between two actions of the threads:
    a table of typed definitions in which nothing known is lost ([evolves]),
    a list of peers that its array holds ([peers_ok]), an interface whose
    mutex is free ([ui_kept]). *)
From S2P Require Import Prelude OS HTable File Peers Curses Ui Wire.

(** ** The table between the rounds

    A table that never had to grow: 256 slots, at most 129 definitions stored,
    and each of them of the C type. *)
Definition table_ok (ht : htable_t) : Prop :=
  ∃ tbl, wf ht tbl ∧ ht_capacity ht = 256 ∧ ht_size ht ≤ 129 ∧
         Forall (λ t, tdef_shape (t_tdef t)) tbl.
Definition known (ht : htable_t) (h : list Z) (d : tfile_def_t) : Prop :=
  ∃ tbl t, ht_table ht = Some tbl ∧ abs tbl !! h = Some t ∧ t_tdef t = d.
Definition occupied_at (ht : htable_t) (i : Z) : Prop :=
  ∃ tbl t, ht_table ht = Some tbl ∧ zget tbl i = Some t ∧ occupied t.

(** What is known stays known, and an entry stays in its slot. *)
Definition evolves (ht ht' : htable_t) : Prop :=
  table_ok ht' ∧ (∀ h d, known ht h d → known ht' h d) ∧ (∀ i, occupied_at ht i → occupied_at ht' i).

Definition entry_at (o : option Z) (ht : htable_t) : Prop :=
  match o with None => True | Some i => occupied_at ht i end.

(** From a good table, in which slot [i] is taken for [o] of [Some i], the
    table evolves. *)
Definition grows {W} (o : option Z) (s s' : store W) : Prop :=
  table_ok (st_ht s) → entry_at o (st_ht s) → evolves (st_ht s) (st_ht s').

Lemma evolves_refl ht : table_ok ht → evolves ht ht.
Proof. by split. Qed.
Lemma evolves_trans ht1 ht2 ht3 : evolves ht1 ht2 → evolves ht2 ht3 → evolves ht1 ht3.
Proof. intros (_ & K1 & O1) (T2 & K2 & O2). split_and!; [done|auto|auto]. Qed.
Lemma entry_evolves o ht ht' : evolves ht ht' → entry_at o ht → entry_at o ht'.
Proof. intros (_ & _ & Ho). destruct o as [i|]; [exact (Ho i)|done]. Qed.

#[export] Instance grows_preorder W o : PreOrder (@grows W o).
Proof.
  split; [by intros s ? ?; apply evolves_refl|]. intros s1 s2 s3 H1 H2 Ht Ho.
  specialize (H1 Ht Ho). eapply evolves_trans; [done|].
  apply H2; [apply H1|by eapply entry_evolves].
Qed.

(** An entry of the table, by its slot. *)
Lemma occupied_entry ht tbl i : ht_table ht = Some tbl → occupied_at ht i →
  ∃ t, tbl !! Z.to_nat i = Some t ∧ 0 ≤ i ∧ occupied t.
Proof.
  intros Htbl (tbl' & t & Htbl' & [Hi Ht]%zget_Some & Ho). simplify_eq. by exists t.
Qed.

Lemma evolves_relocate ht tbl i t f m : wf ht tbl → ht_capacity ht = 256 → ht_size ht ≤ 129 →
  Forall (λ t, tdef_shape (t_tdef t)) tbl → tbl !! i = Some t → occupied t →
  evolves ht (HTable (ht_capacity ht) (ht_size ht) (Some (<[i := set_locations f m t]> tbl))).
Proof.
  intros Hwf Hcap Hsize Hty Ht Ho. pose proof (wf_table _ _ Hwf) as Htbl.
  destruct (wf_relocate ht tbl i t f m Hwf Ht Ho) as [Hwf' Habs]. split_and!.
  - exists (<[i := set_locations f m t]> tbl). split_and!; [done..|].
    apply Forall_insert; [done|]. exact (Forall_lookup_1 _ _ _ _ Hty Ht).
  - intros h d (tbl1 & u & Htbl1 & Hu & <-). simplify_eq.
    exists (<[i := set_locations f m t]> tbl). destruct (decide (h = key t)) as [->|Hne].
    + exists (set_locations f m t). rewrite Habs, lookup_insert_eq.
      rewrite (abs_lookup_at ht tbl Hwf _ t Ht Ho) in Hu. by injection Hu as <-.
    + exists u. by rewrite Habs, lookup_insert_ne.
  - intros j Hj. destruct (occupied_entry ht tbl j Htbl Hj) as (u & Hu & Hj0 & Hou).
    exists (<[i := set_locations f m t]> tbl). destruct (decide (Z.to_nat j = i)) as [<-|Hne].
    + exists (set_locations f m t). split_and!; [done| |done]. apply zget_Some.
      split; [done|]. apply list_lookup_insert_eq. by eapply lookup_lt_Some.
    + exists u. split_and!; [done| |done]. apply zget_Some. split; [done|]. by rewrite list_lookup_insert_ne.
Qed.

(** A definition stored in an empty slot: an entry, unless its hash is zero. *)
Lemma stored_wf_abs ht tbl d i t : wf ht tbl → ht_size ht < ht_capacity ht → hash_ok (td_f_hash d) →
  probe (ht_capacity ht) tbl (td_f_hash d) = Some (i, t) → ¬ occupied t →
  wf (stored ht tbl d i t) (<[i := set_tdef d t]> tbl) ∧
  abs (<[i := set_tdef d t]> tbl) =
    if decide (td_f_hash d = zero_hash) then abs tbl
    else <[td_f_hash d := TFile d FNull 0]> (abs tbl).
Proof.
  intros Hwf Hroom Hok Hp He. pose proof (probe_Some _ _ _ _ _ Hp) as (_ & Ht & _ & _).
  destruct (decide (td_f_hash d = zero_hash)) as [Hz|Hnz].
  - split; [by apply wf_ghost|by apply (abs_ghost ht tbl Hwf d Hz Hroom i t)].
  - split; [by apply wf_stored|by apply (abs_stored ht tbl Hwf d Hok Hnz i t Hp He)].
Qed.
Lemma evolves_stored ht tbl d i t : wf ht tbl → ht_capacity ht = 256 → ht_size ht ≤ 128 →
  Forall (λ t, tdef_shape (t_tdef t)) tbl → tdef_typed d →
  probe (ht_capacity ht) tbl (td_f_hash d) = Some (i, t) → ¬ occupied t →
  evolves ht (stored ht tbl d i t) ∧
  (td_f_hash d ≠ zero_hash → occupied_at (stored ht tbl d i t) (Z.of_nat i)).
Proof.
  intros Hwf Hcap Hsize Hty Hd Hp He. pose proof (wf_table _ _ Hwf) as Htbl.
  pose proof (tdef_typed_hash d Hd) as Hok. pose proof (wf_size_bound ht tbl Hwf).
  pose proof (probe_Some _ _ _ _ _ Hp) as (_ & Ht & _ & _).
  destruct (stored_wf_abs ht tbl d i t Hwf ltac:(lia) Hok Hp He) as [Hwf' Habs].
  assert (Hnew : <[i := set_tdef d t]> tbl !! i = Some (set_tdef d t))
    by (apply list_lookup_insert_eq; by eapply lookup_lt_Some).
  split; [split_and!|].
  - exists (<[i := set_tdef d t]> tbl). split_and!; [done|done|cbn; rewrite wrapu_small; lia|].
    apply Forall_insert; [done|apply Hd].
  - intros h e (tbl1 & u & Htbl1 & Hu & <-). simplify_eq.
    exists (<[i := set_tdef d t]> tbl), u. split_and!; [done| |done]. rewrite Habs.
    destruct (decide (td_f_hash d = zero_hash)) as [|Hnz]; [done|].
    destruct (probe_miss ht tbl Hwf _ Hnz i t Hp He) as [Hnone _].
    rewrite lookup_insert_ne; [done|]. congruence.
  - intros j Hj. destruct (occupied_entry ht tbl j Htbl Hj) as (u & Hu & Hj0 & Hou).
    exists (<[i := set_tdef d t]> tbl), u. split_and!; [done| |done]. apply zget_Some.
    split; [done|]. rewrite list_lookup_insert_ne; [done|]. intros ->. by simplify_eq.
  - intros Hnz. exists (<[i := set_tdef d t]> tbl), (set_tdef d t). by rewrite zget_nat.
Qed.

(** ** The operations of file.c on such a table *)
Section table.
Context {W : Type} `{OS W, MD5_API}.
Implicit Types (s : store W).

Lemma grows_same o s s' : st_ht s' = st_ht s → grows o s s'.
Proof. intros Heq Ht _. rewrite Heq. by apply evolves_refl. Qed.
Lemma grows_preserves {A} o (m : M (store W) A) : preserves st_ht m → respects (grows o) m.
Proof. apply respects_preserves, grows_same. Qed.

Lemma ht_on_os {A} (m : M W A) : preserves st_ht (on_os m).
Proof. by apply preserves_zoom. Qed.
Lemma ht_slot i : preserves st_ht (slot (W := W) i).
Proof. unfold slot. solve_preserves. Qed.
#[local] Hint Resolve ht_on_os ht_slot : preserves.

Lemma grows_intro {A} o (m : M (store W) A) :
  (∀ s, table_ok (st_ht s) → entry_at o (st_ht s) →
     wp m (λ _ s', evolves (st_ht s) (st_ht s')) (λ _, True) s) → respects (grows o) m.
Proof. intros Hm s. specialize (Hm s). unfold wp in *. destruct (m s); [|done]. intros Ht Ho. auto. Qed.

Lemma grows_relocate i (f : tfile_t → f_location_t) (m : tfile_t → Z) :
  respects (grows (W := W) (Some i)) (update_slot i (λ t, set_locations (f t) (m t) t)).
Proof.
  apply grows_intro. intros [ht w] (tbl & Hwf & Hcap & Hsize & Hty) Hi. cbn [st_ht] in *.
  destruct (occupied_entry ht tbl i (wf_table _ _ Hwf) Hi) as (t & Ht & Hi0 & Ho).
  rewrite <- (Z2Nat.id i) by done.
  eapply wp_of_run; [by apply (update_slot_run ht tbl Hwf)|]. by eapply evolves_relocate.
Qed.
#[local] Hint Resolve grows_relocate : respects.

(** What a search found is an entry. *)
Lemma search_found fuel h s :
  wp (search_htable fuel h) (λ r s', s' = s ∧ ∀ i, r = Some i → occupied_at (st_ht s) i) (λ _, True) s.
Proof.
  unfold search_htable. apply wp_bind, wp_gets.
  eapply (wp_iter_partial (λ _ s', s' = s)); [|done].
  intros i s' ->. unfold search_body, slot. apply wp_bind, wp_bind, wp_gets, wp_bind.
  destruct (ht_table (st_ht s)) as [tbl|] eqn:Htbl; [|done]. apply wp_ret.
  destruct (zget tbl i) as [t|] eqn:Ht; [|done]. apply wp_ret.
  destruct ((_ =? 0) && _) eqn:Hz; [by apply wp_ret|]. destruct ((u64_at h 0 =? _) && _); [|apply wp_bind, wp_gets; by apply wp_ret].
  apply wp_ret. split; [done|]. intros j [= <-]. exists tbl, t. split_and!; [done|done|].
  intros Hk. unfold key in Hk. by rewrite Hk in Hz.
Qed.
Lemma grows_search {A} fuel h (k : option Z → M (store W) A) :
  respects (grows None) (k None) → (∀ i, respects (grows (Some i)) (k (Some i))) →
  respects (grows None) (search_htable fuel h ≫= k).
Proof.
  intros Hnone Hsome. apply grows_intro. intros s Ht _. apply wp_bind.
  eapply wp_conseq; [apply search_found|]. intros r s' [-> Hr].
  destruct r as [i|].
  - eapply wp_conseq; [apply Hsome|]. intros a s1 H1. apply H1; [done|by apply Hr].
  - eapply wp_conseq; [apply Hnone|]. intros a s1 H1. by apply H1.
Qed.

Lemma ht_f_path l : preserves st_ht (f_path (W := W) l).
Proof. unfold f_path. solve_preserves. Qed.
Lemma ht_search fuel h : preserves st_ht (search_htable (W := W) fuel h).
Proof. intros s. eapply wp_conseq; [apply search_found|]. by intros r s' [-> _]. Qed.
#[local] Hint Resolve ht_f_path ht_search : preserves.
Lemma ht_verify fuel h cs th : preserves st_ht (verify_tfile (W := W) fuel h cs th).
Proof. unfold verify_tfile. solve_preserves. Qed.
Lemma ht_list fuel : preserves st_ht (list_tfiles (W := W) fuel).
Proof. unfold list_tfiles, list_body. solve_preserves. Qed.

#[local] Hint Extern 1 (respects (grows _) _) => (apply grows_preserves; solve [auto with preserves]) : respects.

Lemma grows_map i : respects (grows (W := W) (Some i)) (map_tfile i).
Proof. unfold map_tfile. solve_respects. Qed.
#[local] Hint Resolve grows_map : respects.
Lemma grows_open fuel h c : respects (grows (W := W) None) (open_tfile fuel h c).
Proof.
  unfold open_tfile. case_match; [solve_respects|]. apply grows_search; solve_respects.
Qed.
Lemma grows_save fuel h : respects (grows (W := W) None) (save_tfile fuel h).
Proof. unfold save_tfile. apply grows_search; solve_respects. Qed.

Context `{!MemoryRoom W}.

(** Adding keeps the table good while it has at most 128 entries; with 129
    the call does not return. *)
Lemma add_at_limit fuel d s : table_ok (st_ht s) → 128 < ht_size (st_ht s) →
  add_htable fuel d s = Stop OutOfFuel.
Proof.
  intros (tbl & Hwf & Hcap & Hsize & _) Hgt. destruct s as [ht w]. cbn [st_ht] in *.
  destruct (wf_has_room ht tbl Hwf) as (k & t & Hk & Hz); [lia|].
  pose proof (lookup_lt_Some _ _ _ Hk). pose proof (wf_size_bound ht tbl Hwf).
  pose proof (wf_length _ _ Hwf) as Hlen. unfold zlen in Hlen.
  apply (add_htable_stuck ht tbl k t); [apply Hwf|done|by rewrite Hz|lia|].
  rewrite wrapu_small; lia.
Qed.
Lemma wp_add fuel d s : (256 < fuel)%nat → tdef_typed d → table_ok (st_ht s) →
  wp (add_htable fuel d) (λ r s', evolves (st_ht s) (st_ht s') ∧
    (td_f_hash d ≠ zero_hash → entry_at r (st_ht s'))) (λ _, True) s.
Proof.
  intros Hf Hd Hok. pose proof (tdef_typed_hash d Hd) as Hh. unfold wp.
  destruct (decide (128 < ht_size (st_ht s))) as [Hgt|Hle]; [by rewrite add_at_limit|].
  destruct s as [ht w]. cbn [st_ht] in *. pose proof Hok as (tbl & Hwf & Hcap & Hsize & Hty).
  pose proof (wf_length _ _ Hwf) as Hlen. unfold zlen in Hlen.
  rewrite (add_htable_run ht tbl Hwf w d fuel Hh) by lia.
  unfold add_result. destruct (probe _ _ _) as [[i t]|] eqn:Hp; [|done].
  destruct (decide (occupied t)) as [Ho|He].
  - split; [by apply evolves_refl|done].
  - destruct (evolves_stored ht tbl d i t Hwf Hcap ltac:(lia) Hty Hd Hp He) as [H1 H2]. by split.
Qed.
Lemma grows_add fuel d : (256 < fuel)%nat → tdef_typed d →
  respects (grows (W := W) None) (add_htable fuel d).
Proof.
  intros Hf Hd. apply grows_intro. intros s Ht _.
  eapply wp_conseq; [by apply wp_add|]. by intros r s' [H1 _].
Qed.

(** [generate_tfile] stores the definition it returns: [stores m] says so of
    its parts. *)
Definition sane (d : tfile_def_t) : Prop := tdef_typed d ∧ td_f_hash d ≠ zero_hash.
Definition stores (m : M (store W) (Z * tfile_def_t)) : Prop := ∀ s, table_ok (st_ht s) →
  wp m (λ r s', sane r.2 → evolves (st_ht s) (st_ht s')) (λ _, True) s.
Lemma stores_ret r : stores (mret r).
Proof. intros s Ht. apply wp_ret. intros _. by apply evolves_refl. Qed.
Lemma stores_bind {A} (m : M (store W) A) k :
  preserves st_ht m → (∀ a, stores (k a)) → stores (m ≫= k).
Proof.
  intros Hm Hk s Ht. apply wp_bind, (preserves_wp st_ht); [done|]. intros a s1 Hs1.
  rewrite <- Hs1 in *. by apply Hk.
Qed.
Lemma stores_add fuel d (k : option Z → M (store W) (Z * tfile_def_t)) : (256 < fuel)%nat →
  (∀ r, respects (grows r) (k r)) → (∀ r s, wp (k r) (λ x _, x.2 = d) (λ _, True) s) →
  stores (add_htable fuel d ≫= k).
Proof.
  intros Hf Hk Hd s Ht. apply wp_bind. destruct (decide (sane d)) as [[Hty Hnz]|Hs].
  - eapply wp_conseq; [by apply wp_add|]. intros r s1 [H1 Hr].
    eapply wp_conseq; [apply Hk|]. intros x s2 H2 _.
    eapply evolves_trans; [exact H1|]. apply H2; [apply H1|by apply Hr].
  - apply wp_any. intros r s1. eapply wp_conseq; [apply Hd|]. by intros x s2 ->.
Qed.
Lemma stores_generate fuel tdef path name : (256 < fuel)%nat →
  stores (generate_tfile fuel tdef path name).
Proof.
  intros Hf. unfold generate_tfile.
  repeat (case_match || (apply stores_bind; [by auto with preserves|intros]) || apply stores_ret).
  apply stores_add; [done|..].
  - intros r. apply respects_bind; [apply _|auto with respects|intros ok].
    apply respects_from_opt_bind. intros i ->. solve_respects.
  - intros r s. do 4 (apply wp_bind, wp_any; intros). by apply wp_ret.
Qed.
End table.

(** ** What [generate_tfile] makes

    A definition of the C type whose hash is not zero, if the one it started
    from was such: a digest is left as it was when the file cannot be read. *)
Section generate.
Context {W : Type} `{OS W, MD5_API, !FileSizes W, !MD5Laws, !NonzeroDigest}.

Definition digest_or (old h : list Z) : Prop := h = old ∨ ∃ m, h = MD5 m.
Lemma digest_or_length old h : zlen old = 16 → digest_or old h → zlen h = 16.
Proof. intros Hold [->|[m ->]]; [done|apply law_md5_length]. Qed.

Lemma md5_hash_digest fuel fd off n hash (w : W) :
  wp (md5_hash fuel fd off n hash) (λ r _, digest_or hash r.2) (λ _, True) w.
Proof.
  unfold md5_hash. apply wp_bind, wp_any. intros _ w1. apply wp_bind.
  apply (wp_conseq _ (λ oc _, ∀ c, oc = Some c → ∃ blocks, c = foldl MD5_Update MD5_Init blocks)).
  - apply (wp_iter_partial (λ x _, ∃ blocks, x.2 = foldl MD5_Update MD5_Init blocks)); [|by exists []].
    intros [i c] w2 [blocks Hc]. cbn in Hc. unfold md5_block. case_match; [|apply wp_ret; naive_solver].
    apply wp_bind, wp_any. intros r w3. case_match; [by apply wp_ret|].
    apply wp_bind, wp_any. intros i' w4. apply wp_ret. exists (blocks ++ [r.2]).
    by rewrite foldl_app, <- Hc.
  - intros [c|] w2 Hoc; [|by apply wp_ret; left]. destruct (Hoc c eq_refl) as [blocks ->].
    apply wp_bind, wp_any. intros r w3. case_match; apply wp_ret; [by left|]. right.
    exists (concat (blocks ++ [r.2])). by rewrite <- law_md5, foldl_app.
Qed.

(** The chunk hashes: always eight of 16 bytes. *)
Definition hashes_ok (hs : list (list Z)) : Prop := zlen hs = NUM_CHUNKS ∧ Forall (λ h, zlen h = 16) hs.
Lemma hash_fd_chunk_ok fuel fd i off n hs (w : W) : hashes_ok hs →
  wp (hash_fd_chunk fuel fd i off n hs) (λ hs' _, hashes_ok hs') (λ _, True) w.
Proof.
  intros [Hn Hhs]. unfold hash_fd_chunk. apply wp_bind. destruct (zget hs i) as [old|] eqn:Hi; [|done].
  apply wp_ret, wp_bind. eapply wp_conseq; [apply md5_hash_digest|]. intros r w1 Hr. apply wp_ret.
  unfold zset. split; [by unfold zlen; rewrite length_insert|]. apply Forall_insert; [done|].
  eapply digest_or_length, Hr. apply zget_Some in Hi as [_ Hi]. exact (Forall_lookup_1 _ _ _ _ Hhs Hi).
Qed.
Lemma hash_fd_chunks_ok fuel fd n hs (w : W) : hashes_ok hs →
  wp (hash_fd_chunks fuel fd n hs) (λ hs' _, hashes_ok hs') (λ _, True) w.
Proof.
  intros Hhs. unfold hash_fd_chunks. apply wp_bind. eapply wp_conseq; [by apply hash_fd_chunk_ok|].
  intros hs1 w1 Hhs1. apply (wp_fold_m (λ _ hs _, hashes_ok hs)); [|done|done].
  intros i l hs2 w2 Hhs2. by apply hash_fd_chunk_ok.
Qed.

Lemma generate_sane fuel d path name (s : store W) : sane d →
  wp (generate_tfile fuel d path name) (λ r _, sane r.2) (λ _, True) s.
Proof.
  intros Hd. pose proof Hd as [[(Hnm & Hf & Hn & Hc & Hs) Hb] Hz]. unfold generate_tfile.
  apply wp_bind, wp_any. intros p s1. apply wp_bind, wp_any. intros fd s2. case_match; [by apply wp_ret|].
  apply wp_bind, wp_zoom, wp_gets. case_match; [by apply wp_ret|].
  apply wp_bind, wp_zoom. eapply wp_conseq; [apply md5_hash_digest|]. intros r s3 Hr.
  assert (Hr2 : zlen r.2 = 16 ∧ bytes r.2 ∧ r.2 ≠ zero_hash).
  { destruct Hr as [->|[m ->]]; [done|]. split_and!; [apply law_md5_length|apply law_md5_bytes|apply law_md5_nonzero]. }
  destruct Hr2 as (Hr1 & Hr2' & Hr3). cbv zeta. apply wp_bind, wp_any. intros o s4.
  case_match; [by apply wp_ret; split_and!|].
  apply wp_bind, wp_zoom. eapply wp_conseq; [by apply hash_fd_chunks_ok|]. intros hs s5 [Hhs1 Hhs2].
  apply wp_bind, wp_any. intros _ s6. apply wp_bind, wp_when; [done|]. intros Hname.
  apply wp_bind, wp_any. intros i s7. apply wp_bind, wp_any. intros ok s8.
  do 2 (apply wp_bind, wp_any; intros ? ?). apply wp_bind, wp_any. intros ? ?. apply wp_ret.
  pose proof (law_fstat_size fd (st_os s2)). apply Z.ltb_ge in Hname.
  split; [split; [|done]|done]. split_and!; cbn; [|done|done|done|lia|lia].
  apply length_slice; unfold NAME_LEN in *; lia.
Qed.

Lemma grows_generate `{!MemoryRoom W} fuel d path name : (256 < fuel)%nat → sane d →
  respects (grows (W := W) None) (generate_tfile fuel d path name).
Proof.
  intros Hf Hd. apply grows_intro. intros s Ht _.
  pose proof (stores_generate fuel d path name Hf s Ht) as Hst.
  pose proof (generate_sane fuel d path name s Hd) as Hs. unfold wp in *.
  destruct (generate_tfile fuel d path name s); auto.
Qed.
End generate.

(** ** The peer list between the rounds

    Unlocked, and an array of at most twice the initial capacity. *)
Definition arr_len (p : peers_t) : nat := length (default [] (p_arr p)).
Definition peers_ok (p : peers_t) : Prop :=
  p_lock p = None ∧ p_capacity p = 100 ∧ (arr_len p ≤ 200)%nat ∧ ∃ l, peers_are p l.
Definition peers_kept {W} (s s' : pstore W) : Prop := peers_ok (ps_peers s) → peers_ok (ps_peers s').

#[export] Instance peers_kept_preorder W : PreOrder (@peers_kept W).
Proof. split; [by intros s ?|]. intros s1 s2 s3 H1 H2 Hs. unfold peers_kept in *. auto. Qed.

Lemma peers_room p : peers_ok p → ∃ l room, peers_are p l ∧ p_lock p = None ∧ p_capacity p = 100 ∧
  p_arr p = Some ((Some <$> l) ++ room) ∧ zlen l + zlen room ≤ 200.
Proof.
  intros (Hl & Hc & Hlen & l & Hp). pose proof Hp as (_ & _ & room & Ha). exists l, room.
  split_and!; [done|done|done|done|]. unfold arr_len in Hlen. rewrite Ha in Hlen. cbn in Hlen.
  rewrite length_app, length_fmap in Hlen. unfold zlen. lia.
Qed.

Section peers.
Context {W : Type} `{OS W, !MemoryRoom W}.

Lemma peers_kept_intro {A} (m : M (pstore W) A) :
  (∀ p w, peers_ok p → wp m (λ _ s', peers_ok (ps_peers s')) (λ _, True) (PStore p w)) →
  respects peers_kept m.
Proof. intros Hm [p w]. specialize (Hm p w). unfold wp in *. destruct (m _); [|done]. intros Hp. auto. Qed.

Lemma add_locked_kept self peer p l w room : peers_are p l → p_lock p = None → p_capacity p = 100 →
  p_arr p = Some ((Some <$> l) ++ room) → zlen l + zlen room ≤ 200 →
  wp (add_peer_locked self false peer) (λ _ s', peers_ok (ps_peers s')) (λ _, True) (PStore p w).
Proof.
  intros Hp Hl Hc Ha Hlen. pose proof (add_locked_run self peer p l w room Hp Hl Ha) as Hrun.
  unfold wp. destruct room as [|c room']; [by rewrite Hrun|].
  change (zlen (c :: room')) with (Z.of_nat (S (length room'))) in Hlen.
  destruct Hrun as (p' & -> & Hp' & Hl' & Hc' & Ha'). cbn [ps_peers]. split_and!; [done|by rewrite Hc'| |].
  - unfold arr_len. rewrite Ha'. cbn. rewrite length_app, length_fmap, length_app. cbn.
    unfold zlen in Hlen. lia.
  - exists (l ++ [peer]). apply Hp'. unfold zlen in *. lia.
Qed.

(** Both halves of [add_peer], whatever the test said. *)
Lemma add_peer_locked_kept self full peer : respects (peers_kept (W := W)) (add_peer_locked self full peer).
Proof.
  apply peers_kept_intro. intros p w Hok.
  destruct (peers_room p Hok) as (l & room & Hp & Hl & Hc & Ha & Hlen).
  pose proof (zlen_nonneg l). pose proof (zlen_nonneg room).
  destruct full; [|by eapply add_locked_kept].
  destruct (add_full_run self peer p l w room Hl Ha ltac:(lia)) as [w' Hrun].
  unfold wp. rewrite Hrun, Hc. change (2 * 100) with 200.
  destruct (peers_are_resized p l room 200 Hp Ha ltac:(lia)) as (room' & Hp' & Hr & Hlen').
  apply (add_locked_kept self peer _ l w' room' Hp'); [done|done| |lia].
  cbn. by rewrite Hr.
Qed.
Lemma add_peer_kept self peer : respects (peers_kept (W := W)) (add_peer self peer).
Proof.
  unfold add_peer. apply respects_bind; [apply _| |intros full; apply add_peer_locked_kept].
  apply (respects_preserves _ ps_peers); [by intros s s' Hs; unfold peers_kept; rewrite Hs|].
  unfold add_peer_full, get_peers. solve_preserves.
Qed.

(** Writing a cell of the array. *)
Lemma set_cell_kept i c :
  preserves (λ s : pstore W, (arr_len (ps_peers s), p_lock (ps_peers s))) (set_peer_cell i c).
Proof.
  unfold set_peer_cell, peer_cell, get_peers, upd_peers. apply preserves_bind; [solve_preserves|].
  intros _. apply preserves_modify. intros [p w]. cbn. unfold arr_len. cbn.
  destruct (p_arr p); [|done]. cbn. unfold zset. by rewrite length_insert.
Qed.
Lemma arr_len_remove fuel self peer :
  preserves (λ s : pstore W, arr_len (ps_peers s)) (remove_peer fuel self peer).
Proof.
  assert (Hset : ∀ i c, preserves (λ s : pstore W, arr_len (ps_peers s)) (set_peer_cell i c)).
  { intros i c s. eapply wp_conseq; [apply set_cell_kept|]. by intros _ s' [= ->]. }
  unfold remove_peer, remove_body, lock_peers, unlock_peers, peer_at, peer_cell, get_peers, upd_peers.
  solve_preserves.
Qed.
Lemma remove_peer_kept fuel self peer : (200 < fuel)%nat →
  respects (peers_kept (W := W)) (remove_peer fuel self peer).
Proof.
  intros Hf. apply peers_kept_intro. intros p w Hok.
  destruct (peers_room p Hok) as (l & room & Hp & Hl & Hc & Ha & Hlen).
  pose proof (zlen_nonneg room).
  destruct (remove_run fuel self peer p l w Hp Hl) as (p' & l' & Hrun & Hp' & Hl' & Hc' & _);
    [unfold zlen in *; lia|].
  pose proof (arr_len_remove fuel self peer (PStore p w)) as Hsame. unfold wp in *.
  rewrite Hrun in *. cbn in *. destruct Hok as (_ & _ & Harr & _).
  split_and!; [done|by rewrite Hc'|by rewrite Hsame|by exists l'].
Qed.
End peers.

(** ** The interface between the rounds: its mutex is free *)
Definition ui_kept {W} (s s' : ustore W) : Prop := u_lock (us_ui s) = None → u_lock (us_ui s') = None.

#[export] Instance ui_kept_preorder W : PreOrder (@ui_kept W).
Proof. split; [by intros s ?|]. intros s1 s2 s3 H1 H2 Hs. unfold ui_kept in *. auto. Qed.

(** Whatever only reads, and writes fields other than the mutex. *)
Ltac solve_ulock :=
  unfold drive_string, drive, node_at, set_node, free_node, get_ui; solve_preserves.

Section interface.
Context {W : Type} `{OS W, CURSES W}.
Implicit Types (s : ustore W).

(** From a state in which a thread holds the mutex once, it is released. *)
Definition releases {A} (m : M (ustore W) A) : Prop := ∀ s t, u_lock (us_ui s) = Some (t, 1%nat) →
  wp m (λ _ s', u_lock (us_ui s') = None) (λ _, True) s.
Definition ulock s := u_lock (us_ui s).

Lemma releases_unlock : releases unlock_ui.
Proof. intros s t Hs. unfold unlock_ui. apply wp_bind, wp_gets. rewrite Hs. by apply wp_modify. Qed.
Lemma releases_before {A B} (m : M (ustore W) A) (k : A → M (ustore W) B) :
  preserves ulock m → (∀ a, releases (k a)) → releases (m ≫= k).
Proof.
  intros Hm Hk s t Hs. apply wp_bind, (preserves_wp ulock); [done|]. intros a s1 Hs1.
  apply (Hk a s1 t). unfold ulock in *. congruence.
Qed.
Lemma releases_after {A B} (m : M (ustore W) A) (k : A → M (ustore W) B) :
  releases m → (∀ a, preserves ulock (k a)) → releases (m ≫= k).
Proof.
  intros Hm Hk s t Hs. apply wp_bind. eapply wp_conseq; [by apply (Hm s t)|]. intros a s1 Hs1.
  apply (preserves_wp ulock); [done|]. unfold ulock. congruence.
Qed.
Lemma ui_locked {A} self (k : M (ustore W) A) : releases k → respects ui_kept (_ ← lock_ui self; k).
Proof.
  intros Hk s. apply wp_bind. unfold lock_ui. apply wp_bind, wp_gets.
  destruct (u_lock (us_ui s)) as [[t n]|] eqn:Hl.
  - case_match; [|done]. apply wp_modify, wp_any. intros a s' Hs. congruence.
  - apply wp_modify. eapply wp_conseq; [by apply (Hk _ self)|]. intros a s' Hs _. exact Hs.
Qed.
Lemma ui_preserves {A} (m : M (ustore W) A) : preserves ulock m → respects ui_kept m.
Proof. apply respects_preserves. intros s s' Hs. unfold ui_kept, ulock in *. congruence. Qed.

Lemma ulock_os {A} (m : M W A) : preserves ulock (ui_os m).
Proof. by apply preserves_zoom. Qed.
Lemma ulock_upd (f : ui_t → ui_t) : (∀ u, u_lock (f u) = u_lock u) → preserves ulock (upd_ui (W := W) f).
Proof. intros Hf. apply preserves_modify. intros s. apply Hf. Qed.
Lemma ulock_strdup x : preserves ulock (strdup (W := W) x).
Proof. unfold strdup. apply preserves_bind; [apply ulock_os|]. solve_preserves. Qed.
#[local] Hint Resolve ulock_os ulock_strdup : preserves.
#[local] Hint Extern 1 (preserves ulock (upd_ui _)) => (by apply ulock_upd) : preserves.

#[local] Hint Extern 1 (respects ui_kept _) => (apply ui_preserves; solve [solve_ulock]) : respects.

Lemma ui_insert_m self name message : respects (ui_kept (W := W)) (insert_m self name message).
Proof.
  unfold insert_m. apply respects_bind; [apply _|auto with respects|intros ok].
  case_match; [auto with respects|].
  do 4 (apply respects_bind; [apply _|auto with respects|intros ?]).
  apply ui_locked. do 2 (apply releases_before; [solve_ulock|intros ?]). apply releases_unlock.
Qed.
Lemma ui_remove_m self : respects (ui_kept (W := W)) (remove_m self).
Proof.
  unfold remove_m. apply ui_locked. do 2 (apply releases_before; [solve_ulock|intros ?]).
  apply releases_after; [apply releases_unlock|solve_ulock].
Qed.
Lemma ui_exit_kept self : respects (ui_kept (W := W)) (ui_exit self).
Proof.
  unfold ui_exit. apply ui_locked. do 5 (apply releases_before; [solve_ulock|intros ?]).
  apply releases_unlock.
Qed.
Lemma ui_drain fuel self : respects (ui_kept (W := W)) (drain fuel self).
Proof.
  unfold drain, drain_body. apply respects_iter; [apply _|]. intros ?.
  apply respects_bind; [apply _|apply ui_remove_m|]. intros ?. auto with respects.
Qed.
(** [ui_init] makes the mutex anew. *)
Lemma ui_init_kept cb : respects (ui_kept (W := W)) (ui_init cb).
Proof.
  assert (Hlock : respects (ui_kept (W := W)) (upd_ui (set_ui_lock None))) by (intros s; by apply wp_modify).
  unfold ui_init. solve_respects.
Qed.
End interface.

#[export] Hint Resolve ulock_os ulock_strdup : preserves.
#[export] Hint Extern 1 (preserves ulock (upd_ui _)) => (by apply ulock_upd) : preserves.

