(* ===== verification/Protocol.v ===== *)
(** * What the messages achieve (client.c: readWorker, download_file)

    The handlers of readWorker and the rounds of a download in terms of the
    network: a definition that arrives is stored and passed on, a request is
    served or relayed, a download asks for exactly the chunks that are missing
    and ends when none is. *)
From S2P Require Import Prelude OS Sim HTable File Message Socket Peers Curses Ui Wire Client Evolve.

(** ** Sending to all peers, whatever becomes of it

    Each peer of the list that is not skipped gets a prefix of the message,
    and all of it when its socket takes what it is given. *)
Section relaying.
Context {W : Type} `{OS W}.

Definition gets_message (skip : Z → bool) (msg : list Z) (fd : Z) (sent : list Z) : Prop :=
  if skip fd then sent = [] else sent `prefix_of` msg ∧ (whole_writes fd → sent = msg).
Definition append_all (l : list Z) (sents : list (list Z)) (m : gmap Z (list Z)) : gmap Z (list Z) :=
  foldl (λ m x, append_out x.1 x.2 m) m (zip l sents).
Definition relayed (skip : Z → bool) (msg : list Z) (l : list Z) (v v' : osview) : Prop :=
  ∃ sents, Forall2 (gets_message skip msg) l sents ∧ v' = set_out (append_all l sents) v.

Lemma relayed_nil skip msg v : relayed skip msg [] v v.
Proof. exists []. split; [constructor|]. by destruct v. Qed.
Lemma relayed_snoc skip msg l fd sent v v1 v2 : relayed skip msg l v v1 →
  gets_message skip msg fd sent → v2 = set_out (append_out fd sent) v1 → relayed skip msg (l ++ [fd]) v v2.
Proof.
  intros (sents & Hs & ->) Hfd ->. exists (sents ++ [sent]). split.
  - apply Forall2_app; [done|]. by constructor.
  - unfold set_out, append_all. cbn. f_equal.
    rewrite zip_with_app by (by eapply Forall2_length). by rewrite foldl_app.
Qed.

Lemma append_nothing fd v : v = set_out (append_out fd []) v.
Proof. by destruct v. Qed.

End relaying.

(** The bytes of a request. *)
Definition request_message (req : chunk_request_t) : list Z :=
  encode_info (message_info REQUEST_FILE_DATA sizeof_chunk_request_t) ++ encode_request req.
Lemma zlen_encode_request req : zlen (req_file_hash req) = 16 →
  zlen (encode_request req) = sizeof_chunk_request_t.
Proof. intros Hh. unfold encode_request. by rewrite !zlen_app, Hh, !zlen_le_bytes. Qed.

Section broadcast.
Context {W : Type} `{OS W, OSViewOf W, !SockLaws W}.
Implicit Types (s : client W) (w : W).

Lemma broadcast_round fuel skip req l s v w i fd : peers_are (cl_peers s) l → l !! i = Some fd →
  zlen (req_file_hash req) = 16 → (44 < fuel)%nat →
  relayed skip (request_message req) (take i l) v (os_view w) →
  wp (broadcast_body fuel skip req (Z.of_nat i)) (λ r s', ∃ w', s' = set_os w' s ∧
    r = inl (Z.of_nat (S i)) ∧ relayed skip (request_message req) (take (S i) l) v (os_view w'))
    no_fault (set_os w s).
Proof.
  intros Hl Hfd Hh Hf Hinv. pose proof Hl as (Hsize & Hb & _). pose proof (lookup_lt_Some _ _ _ Hfd) as Hi.
  unfold broadcast_body.
  apply wp_bind. apply (wp_of_run _ _ _ _ (cl_peers s) (set_os w s)); [by apply on_peers_read|].
  rewrite Hsize, (proj2 (Z.ltb_lt _ _)) by (unfold zlen; lia).
  apply wp_bind. eapply wp_of_run; [by eapply (peer_at_run (set_os w s) l)|]. apply wp_bind.
  apply (wp_conseq _ (λ _ s', ∃ w' sent, s' = set_os w' s ∧
    gets_message skip (request_message req) fd sent ∧ os_view w' = set_out (append_out fd sent) (os_view w))).
  - unfold gets_message. destruct (skip fd).
    + apply wp_ret. exists w, []. split_and!; [done|done|apply append_nothing].
    + apply wp_on_world. eapply wp_conseq.
      { apply (send_gets fuel fd _ (encode_request req) w); [by apply message_info_ok| |done].
        by rewrite zlen_encode_request. }
      intros rc w2 (sent & Hpre & Hall & Hw2 & _). by exists w2, sent.
  - intros _ ? (w2 & sent & -> & Hsent & Hw2). apply wp_bind, wp_add_s32; [unfold zlen in *; lia|].
    apply wp_ret. exists w2. split_and!; [done|f_equal; lia|]. rewrite (take_S_r _ _ _ Hfd).
    by eapply relayed_snoc.
Qed.

Lemma broadcast_loop fuel skip req l s : peers_are (cl_peers s) l → zlen (req_file_hash req) = 16 →
  (44 < fuel)%nat → (length l < fuel)%nat →
  wp (iter fuel (broadcast_body fuel skip req) 0) (λ _ s', ∃ w', s' = set_os w' s ∧
    relayed skip (request_message req) l (os_view (cl_os s)) (os_view w')) no_fault s.
Proof.
  intros Hl Hh Hf Hf2. pose proof Hl as (Hsize & _ & _).
  apply wp_iter with (I := λ n s', ∃ w' i, s' = set_os w' s ∧ n = Z.of_nat i ∧ (i ≤ length l)%nat ∧
      relayed skip (request_message req) (take i l) (os_view (cl_os s)) (os_view w'))
    (μ := λ n _, Z.to_nat (zlen l - n)).
  - intros ? s' (w' & i & -> & -> & Hle & Hinv). destruct (l !! i) as [fd|] eqn:Hfd.
    + pose proof (lookup_lt_Some _ _ _ Hfd). eapply wp_conseq; [by apply (broadcast_round fuel skip req l s (os_view (cl_os s)) w' i fd)|].
      intros r ? (w2 & -> & -> & Hr). split; [|unfold zlen; lia]. exists w2, (S i). split_and!; [done|done|lia|done].
    + apply lookup_ge_None in Hfd. unfold broadcast_body. apply wp_bind.
      apply (wp_of_run _ _ _ _ (cl_peers s) (set_os w' s)); [by apply on_peers_read|].
      rewrite Hsize, (proj2 (Z.ltb_ge _ _)) by (unfold zlen; lia). apply wp_ret. exists w'.
      by rewrite take_ge in Hinv.
  - exists (cl_os s), 0%nat. rewrite set_os_same. split_and!; [done|done|lia|]. apply relayed_nil.
  - unfold zlen. lia.
Qed.

Lemma broadcast_run fuel self skip req l s : peers_are (cl_peers s) l → p_lock (cl_peers s) = None →
  zlen (req_file_hash req) = 16 → (44 < fuel)%nat → (length l < fuel)%nat →
  ∃ w', broadcast fuel self skip req s = Done tt (set_os w' s) ∧
    relayed skip (request_message req) l (os_view (cl_os s)) (os_view w').
Proof.
  intros Hl Hlock Hh Hf Hf2. unfold broadcast.
  rewrite (bind_done _ _ _ _ _ (lock_run self s Hlock)).
  set (s1 := set_cl_peers (set_lock (Some self) (cl_peers s)) s).
  destruct (wp_total _ _ _ (broadcast_loop fuel skip req l s1 Hl Hh Hf Hf2)) as ([] & ? & Hrun & w' & -> & Hr).
  rewrite (bind_done _ _ _ _ _ Hrun). exists w'. split; [|done]. unfold on_peers, zoom. cbn.
  unfold set_os. cbn. do 2 f_equal. unfold set_lock. cbn. rewrite <- Hlock. by destruct (cl_peers s).
Qed.
End broadcast.

(** ** Requests for chunks *)
Section requests.
Context {W : Type} `{OS W, OSViewOf W, !FileLaws W, !SockLaws W, MD5_API, !MD5Laws, !MemoryRoom W}.
Implicit Types (s : client W) (w : W).

(** What is mapped stays mapped when a socket is opened. *)
Lemma has_mapped_view s w tbl h t p c : has_mapped s tbl h t p c →
  v_maps (os_view w) = v_maps (os_view (cl_os s)) → v_files (os_view w) = v_files (os_view (cl_os s)) →
  has_mapped (set_os w s) tbl h t p c.
Proof.
  intros (Hwf & Ht & Hm & Hok & Hs & Hmax & Hr) E1 E2. split_and!; try done.
  unfold region_at in *. cbn [cl_os set_os]. by rewrite E1, E2.
Qed.
Lemma has_mapped_opened s w tbl h t p c fd : has_mapped s tbl h t p c →
  opened_sock (os_view (cl_os s)) (os_view w) fd → has_mapped (set_os w s) tbl h t p c.
Proof. intros Hhas (_ & _ & _ & Hv). by apply has_mapped_view; rewrite ?Hv. Qed.

(** Chunk [i] of the tfile [h] is not there: the tfile is unknown, or its file
    is mapped and the chunk is not good. *)
Definition lacks_chunk (s : client W) (tbl : list tfile_t) (h : list Z) (i : Z) : Prop :=
  unknown s tbl h ∨ ∃ t p c, has_mapped s tbl h t p c ∧ ¬ chunk_good (t_tdef t) c i.

Lemma verify_lacks fuel jhs jh s tbl h i : lacks_chunk s tbl h i → (length tbl < fuel)%nat →
  zlen jhs = 8 → 0 ≤ i < NUM_CHUNKS →
  ∃ v, on_store (verify_tfile fuel h jhs jh) s = Done v s ∧ is_chunk_verified v i = false.
Proof.
  intros [Hu|(t & p & c & Hhas & Hbad)] Hf Hj Hi.
  - exists UNVERIFIED_FILE. by rewrite (verify_unknown fuel jhs jh s tbl h Hu Hf), unverified_bit.
  - destruct (verify_has fuel jhs jh s tbl h t p c Hhas Hf Hj) as (v & Hv & Hbit & _). exists v.
    split; [done|]. apply not_true_is_false. by rewrite (Hbit i Hi).
Qed.

(** Connections never fail. *)
Definition connects : Prop := ∀ a len w, wp (socket_connect_addr a len) (λ fd _, fd ≠ -1) (λ _, True) w.
Lemma connect_result a len w : wp (socket_connect_addr a len)
  (λ fd w', opens w fd w' ∧ (connects → fd ≠ -1)) no_fault w.
Proof.
  pose proof (socket_connect_addr_opens a len w) as Ho. unfold wp in *.
  destruct (socket_connect_addr a len w) as [fd w'|] eqn:Hrun; [|done]. split; [done|].
  intros Hall. specialize (Hall a len w). unfold wp in Hall. by rewrite Hrun in Hall.
Qed.

Lemma relay_run fuel jhs jh self fd_data req stale l s tbl :
  request_ok req → lacks_chunk s tbl (req_file_hash req) (req_chunk_index req) →
  0 ≤ req_chunk_index req < NUM_CHUNKS →
  peers_are (cl_peers s) l → p_lock (cl_peers s) = None → zlen jhs = 8 →
  (length tbl < fuel)%nat → (44 < fuel)%nat → (length l < fuel)%nat →
  ∃ w', handle_request fuel jhs jh self fd_data (encode_request req ++ stale) s = Done tt (set_os w' s) ∧
    relayed (λ fd, fd =? client_fd fd_data) (request_message req) l (os_view (cl_os s)) (os_view w').
Proof.
  intros Hok Hlacks Hi Hl Hlock Hj Hf Hf2 Hf3. unfold handle_request. rewrite decode_encode_request by done.
  destruct (verify_lacks fuel jhs jh s tbl _ _ Hlacks Hf Hj Hi) as (v & Hv & Hbit).
  rewrite (bind_done _ _ _ _ _ Hv), Hbit. apply broadcast_run; (done || apply Hok).
Qed.

Lemma serve_run fuel jhs jh self fd_data req stale s tbl t p c :
  request_ok req → has_mapped s tbl (req_file_hash req) t p c →
  chunk_good (t_tdef t) c (req_chunk_index req) → 0 ≤ req_chunk_index req < NUM_CHUNKS →
  NUM_CHUNKS ≤ zlen c → zlen jhs = 8 → (length tbl < fuel)%nat → (Z.to_nat (24 + zlen c) < fuel)%nat →
  wp (handle_request fuel jhs jh self fd_data (encode_request req ++ stale)) (λ _ s', ∃ w',
    s' = set_os w' s ∧
    (os_view w' = os_view (cl_os s) ∧ ¬ connects ∨ ∃ fd v1 sent, opened_sock (os_view (cl_os s)) v1 fd ∧
       os_view w' = set_out (append_out fd sent) v1 ∧
       let msg := chunk_message (req_file_hash req) (req_chunk_index req) (chunk (zlen c) c (req_chunk_index req)) in
       sent `prefix_of` msg ∧ (whole_writes (W := W) fd → sent = msg))) no_fault s.
Proof.
  intros Hok Hhas Hgood Hi Hc Hj Hf Hf2. unfold handle_request. rewrite decode_encode_request by done.
  destruct (verify_has fuel jhs jh s tbl _ t p c Hhas Hf Hj) as (v & Hv & Hbit & _).
  apply wp_bind. eapply wp_of_run; [exact Hv|]. rewrite (proj2 (Hbit _ Hi) Hgood).
  apply wp_bind, wp_on_world. eapply wp_conseq; [apply connect_result|].
  intros fd w1 [Ho Hcon]. apply wp_when.
  - intros Hfd%negb_true_iff%Z.eqb_neq. destruct Ho as [[-> _]|Ho]; [done|].
    assert (Hhas1 : has_mapped (set_os w1 s) tbl (req_file_hash req) t p c) by by eapply has_mapped_opened.
    apply wp_bind. eapply wp_conseq; [by apply (send_chunk_run fuel _ tbl _ t p c)|].
    intros rc s' (w2 & sent & -> & Hv2 & Hpre & Hall & _). apply wp_ret. exists w2. split; [done|].
    right. by exists fd, (os_view w1), sent.
  - intros Hfd%negb_false_iff%Z.eqb_eq. exists w1. split; [done|]. left.
    destruct Ho as [[_ Hv1]|[Hpos _]]; [|lia]. split; [done|]. intros Hall. by apply Hcon in Hall.
Qed.

End requests.

(** ** Downloads *)
Definition missing `{MD5_API} (d : tfile_def_t) (c : list Z) : list Z :=
  filter (λ i, ¬ chunk_good d c i) (seqZ 0 NUM_CHUNKS).
Definition request_for (h : list Z) (addr : sockaddr_in) (i : Z) : chunk_request_t :=
  ChunkRequest h i addr sizeof_sockaddr_in 5.

(** Requests sent one after the other, each to all peers. *)
Fixpoint requested {W} `{OS W} (reqs : list chunk_request_t) (l : list Z) (v v' : osview) : Prop :=
  match reqs with
  | [] => v' = v
  | req :: reqs' => ∃ v1, relayed (λ _, false) (request_message req) l v v1 ∧ requested reqs' l v1 v'
  end.

Section download.
Context {W : Type} `{OS W, CURSES W, OSViewOf W, !FileLaws W, !SockLaws W, MD5_API, !MD5Laws}.
Implicit Types (s : client W) (w : W).

Lemma missing_nil (d : tfile_def_t) c : missing d c = [] ↔ ∀ i, 0 ≤ i < NUM_CHUNKS → chunk_good d c i.
Proof.
  split.
  - intros Hm i Hi. destruct (decide (chunk_good d c i)) as [|Hbad]; [done|]. exfalso.
    assert (Hin : i ∈ missing d c) by (apply list_elem_of_filter; split; [done|by apply elem_of_seqZ]).
    rewrite Hm in Hin. by apply not_elem_of_nil in Hin.
  - intros Hall. unfold missing. destruct (filter _ _) as [|i l] eqn:Hf; [done|].
    assert (Hin : i ∈ i :: l) by by left. rewrite <- Hf in Hin.
    apply list_elem_of_filter in Hin as [Hbad Hi%elem_of_seqZ]. by destruct Hbad; apply Hall.
Qed.

Lemma relayed_view skip msg l v v' : relayed (W := W) skip msg l v v' →
  v_maps v' = v_maps v ∧ v_files v' = v_files v.
Proof. by intros (sents & _ & ->). Qed.

(** The loop over the chunks of a round. *)
Lemma request_loop fuel self v h addr l (good : Z → Prop) `{!∀ i, Decision (good i)} idxs : ∀ s,
  (∀ i, i ∈ idxs → is_chunk_verified v i = true ↔ good i) → zlen h = 16 →
  peers_are (cl_peers s) l → p_lock (cl_peers s) = None → (44 < fuel)%nat → (length l < fuel)%nat →
  ∃ w', for_each idxs (λ i, when (negb (is_chunk_verified v i))
          (broadcast fuel self (λ _, false) (request_for h addr i))) s = Done tt (set_os w' s) ∧
    requested (request_for h addr <$> filter (λ i, ¬ good i) idxs) l (os_view (cl_os s)) (os_view w').
Proof.
  induction idxs as [|i idxs IH]; intros s Hv Hh Hl Hlock Hf Hf2; cbn [for_each].
  { exists (cl_os s). by rewrite set_os_same. }
  assert (Hi := Hv i ltac:(by left)). destruct (is_chunk_verified v i); cbn [negb when].
  - rewrite filter_cons_False by tauto. rewrite (bind_done (mret tt) _ s tt s) by done.
    apply IH; [set_solver|done..].
  - rewrite filter_cons_True by naive_solver.
    destruct (broadcast_run fuel self (λ _, false) (request_for h addr i) l s) as (w1 & Hrun & Hr); [done..|].
    rewrite (bind_done _ _ _ _ _ Hrun).
    destruct (IH (set_os w1 s)) as (w2 & Hrun2 & Hr2); [set_solver|done..|].
    exists w2. split; [done|]. cbn. by exists (os_view w1).
Qed.

Lemma download_round fuel jhs jh self h addr l s tbl t p c :
  has_mapped s tbl h t p c → peers_are (cl_peers s) l → p_lock (cl_peers s) = None → zlen jhs = 8 →
  (length tbl < fuel)%nat → (44 < fuel)%nat → (length l < fuel)%nat →
  if decide (missing (t_tdef t) c = [])
  then download_body fuel jhs jh self h addr tt s = Done (inr tt) s
  else ∃ w', download_body fuel jhs jh self h addr tt s = Done (inl tt) (set_os w' s) ∧
    requested (request_for h addr <$> missing (t_tdef t) c) l (os_view (cl_os s)) (os_view w').
Proof.
  intros Hhas Hl Hlock Hj Hf Hf2 Hf3. pose proof (has_mapped_hash _ _ _ _ _ _ Hhas) as Hh.
  destruct (verify_has fuel jhs jh s tbl h t p c Hhas Hf Hj) as (v & Hv & Hbit & Hfull).
  unfold download_body. rewrite (bind_done _ _ _ _ _ Hv). rewrite <- missing_nil in Hfull.
  case_decide as Hm; [by rewrite (proj2 (Z.eqb_eq _ _)) by tauto|]. rewrite (proj2 (Z.eqb_neq _ _)) by tauto.
  rewrite slice_all by (by rewrite Hh). fold (request_for h addr).
  destruct (request_loop fuel self v h addr l (chunk_good (t_tdef t) c) (seqZ 0 NUM_CHUNKS) s)
    as (w' & Hrun & Hr); [|done..|].
  - intros i Hi%elem_of_seqZ. by apply Hbit.
  - exists w'. unfold request_for in Hrun. by rewrite (bind_done _ _ _ _ _ Hrun).
Qed.

Lemma requested_view reqs l : ∀ v v', requested (W := W) reqs l v v' →
  v_maps v' = v_maps v ∧ v_files v' = v_files v.
Proof.
  induction reqs as [|req reqs IH]; intros v v' Hr; cbn in Hr; [by subst|].
  destruct Hr as (v1 & [E1 E2]%relayed_view & [E3 E4]%IH). split; congruence.
Qed.

(** C16. A round of [download_file] on a mapped file: when no chunk is missing
    the loop ends and nothing happens; else one request for each missing chunk
    and for no other, in the order of the chunks, goes to all peers, and the
    loop goes on. *)
Theorem download_body_requests fuel jhs jh self h addr l s tbl t p c :
  has_mapped s tbl h t p c → peers_are (cl_peers s) l → p_lock (cl_peers s) = None → zlen jhs = 8 →
  (length tbl < fuel)%nat → (44 < fuel)%nat → (length l < fuel)%nat →
  if decide (missing (t_tdef t) c = [])
  then download_body fuel jhs jh self h addr tt s = Done (inr tt) s
  else ∃ w', download_body fuel jhs jh self h addr tt s = Done (inl tt) (set_os w' s) ∧
    requested (request_for h addr <$> missing (t_tdef t) c) l (os_view (cl_os s)) (os_view w').
Proof. apply download_round. Qed.
End download.

Section completion.
Context {W : Type} `{OS W, CURSES W, OSViewOf W, !FileLaws W, !SockLaws W, MD5_API, !MD5Laws, !MemoryRoom W}.
Implicit Types (s : client W) (w : W).

(** The loop of [download_file], if nobody else does anything, ends at
    once when no chunk is missing, and else never ends: however long it runs
    it sends the same requests again and again. *)
Theorem download_loop_alone n fuel jhs jh self h addr l s tbl t p c :
  has_mapped s tbl h t p c → peers_are (cl_peers s) l → p_lock (cl_peers s) = None → zlen jhs = 8 →
  (length tbl < fuel)%nat → (44 < fuel)%nat → (length l < fuel)%nat → (0 < n)%nat →
  iter n (download_body fuel jhs jh self h addr) tt s =
    if decide (missing (t_tdef t) c = []) then Done tt s else Stop OutOfFuel.
Proof.
  intros Hhas Hl Hlock Hj Hf Hf2 Hf3 Hn.
  pose proof (λ s' Hs', download_round fuel jhs jh self h addr l s' tbl t p c Hs') as Hround.
  case_decide as Hm.
  - destruct n as [|n]; [lia|]. cbn [iter]. by rewrite (bind_done _ _ _ _ _ (Hround s Hhas Hl Hlock Hj Hf Hf2 Hf3)).
  - apply (iter_diverges (λ _ s', ∃ w, s' = set_os w s ∧ has_mapped s' tbl h t p c)).
    + intros [] ? (w & -> & Hw). destruct (Hround _ Hw Hl Hlock Hj Hf Hf2 Hf3) as (w' & Hrun & Hr).
      unfold wp. rewrite Hrun. exists tt. split; [done|]. exists w'. split; [done|].
      apply requested_view in Hr as [E1 E2]. by apply (has_mapped_view (set_os w s)).
    + exists (cl_os s). by rewrite set_os_same.
Qed.

(** A chunk as the definition has it. *)
Definition right_chunk (d : tfile_def_t) (size : Z) (x : Z * list Z) : Prop :=
  0 ≤ x.1 < NUM_CHUNKS ∧ zlen x.2 = chunk_len size x.1 ∧ zget (td_c_hashes d) x.1 = Some (MD5 x.2).

(** A FILE_DATA message of the right length: the chunk is stored unless it was
    good; no good chunk is lost, and the chunk is good when the data have the
    digest of the definition. *)
Lemma stored_chunk fuel jhs jh s tbl h t p c i data stale : has_mapped s tbl h t p c →
  (length tbl < fuel)%nat → zlen jhs = 8 → 0 ≤ i < NUM_CHUNKS → zlen data = chunk_len (zlen c) i →
  ∃ w' c', handle_file_data fuel jhs jh (chunk_body h i data ++ stale) s = Done tt (set_os w' s) ∧
    has_mapped (set_os w' s) tbl h t p c' ∧ zlen c' = zlen c ∧
    v_out (os_view w') = v_out (os_view (cl_os s)) ∧
    (∀ j, 0 ≤ j < NUM_CHUNKS → chunk_good (t_tdef t) c j → chunk_good (t_tdef t) c' j) ∧
    (zget (td_c_hashes (t_tdef t)) i = Some (MD5 data) → chunk_good (t_tdef t) c' i).
Proof.
  intros Hhas Hf Hj Hi Hlen.
  pose proof (has_mapped_hash _ _ _ _ _ _ Hhas) as Hh. pose proof (zlen_nonneg c).
  pose proof (chunk_bounds (zlen c) i ltac:(done) Hi) as (Ho & Hl & Hol).
  pose proof Hhas as (_ & _ & _ & _ & _ & Hmax & Hr).
  destruct (decide (chunk_good (t_tdef t) c i)) as [Hgood|Hbad].
  - exists (cl_os s), c. rewrite set_os_same. split_and!; [|done..].
    destruct (decode_chunk_body h i data stale Hh ltac:(lia) ltac:(lia)) as (Hph & Hpi & _).
    destruct (verify_has fuel jhs jh s tbl h t p c Hhas Hf Hj) as (v & Hv & Hbit & _).
    unfold handle_file_data. rewrite Hph, Hpi, (bind_done _ _ _ _ _ Hv).
    by rewrite (proj2 (Hbit i Hi) Hgood).
  - destruct (handle_chunk_run fuel jhs jh s tbl h t p c i data stale) as (w' & Hrun & Hv'); [done..|lia|done|].
    set (c' := splice (chunk_off (zlen c) i) data c) in *.
    assert (Hc' : zlen c' = zlen c) by (apply zlen_splice; lia).
    exists w', c'. split_and!; [done| |done|by rewrite Hv'| |].
    + destruct Hhas as (Hwf & Ht & Hm & Hok & Hs & _ & Ha & Hmap & Hp & Hle).
      split_and!; try done; [congruence|lia|]. unfold region_at. cbn [cl_os set_os]. rewrite Hv', Hc'. cbn.
      split_and!; [done|done|apply lookup_insert_eq|lia].
    + intros j Hj2 [Hw|Hd]; [by destruct Hbad; left|]. right. rewrite Hc'.
      destruct (decide (j = i)) as [->|Hne]; [by destruct Hbad; right|].
      unfold c'. by rewrite chunk_splice_other.
    + intros Hdig. right. rewrite Hc'. unfold c'. by rewrite chunk_splice.
Qed.

(** C6. A download completes: when the chunks that were missing have arrived,
    in whatever order and however often, each as the definition has it, the
    loop of [download_file] ends. *)
Theorem download_completes fuel jhs jh self h addr l s tbl t p c arrivals stale :
  has_mapped s tbl h t p c → peers_are (cl_peers s) l → p_lock (cl_peers s) = None → zlen jhs = 8 →
  (length tbl < fuel)%nat → (44 < fuel)%nat → (length l < fuel)%nat →
  Forall (right_chunk (t_tdef t) (zlen c)) arrivals →
  (∀ i, i ∈ missing (t_tdef t) c → i ∈ arrivals.*1) →
  ∃ s', for_each arrivals (λ x, handle_file_data fuel jhs jh (chunk_body h x.1 x.2 ++ stale)) s = Done tt s' ∧
    ∀ n, (0 < n)%nat → iter n (download_body fuel jhs jh self h addr) tt s' = Done tt s'.
Proof.
  intros Hhas Hl Hlock Hj Hf Hf2 Hf3 Hall Hcover.
  enough (∃ w' c', for_each arrivals (λ x, handle_file_data fuel jhs jh (chunk_body h x.1 x.2 ++ stale)) s =
      Done tt (set_os w' s) ∧ has_mapped (set_os w' s) tbl h t p c' ∧ missing (t_tdef t) c' = [])
    as (w' & c' & Hrun & Hhas' & Hm).
  { exists (set_os w' s). split; [done|]. intros n Hn.
    rewrite (download_loop_alone n fuel jhs jh self h addr l _ tbl t p c') by done. by rewrite decide_True. }
  assert (Hgood : ∀ i, 0 ≤ i < NUM_CHUNKS → chunk_good (t_tdef t) c i ∨ i ∈ arrivals.*1).
  { intros i Hi. destruct (decide (chunk_good (t_tdef t) c i)) as [|Hbad]; [by left|right].
    apply Hcover, list_elem_of_filter. by rewrite elem_of_seqZ. }
  clear Hcover Hl Hlock. revert s c Hhas Hall Hgood.
  induction arrivals as [|x arrivals IH]; intros s c Hhas Hall Hgood; cbn [for_each].
  - exists (cl_os s), c. rewrite set_os_same. split_and!; [done|done|]. apply missing_nil.
    intros i Hi. destruct (Hgood i Hi) as [|Hin]; [done|]. by apply not_elem_of_nil in Hin.
  - apply Forall_cons in Hall as [Hx Hall].
    destruct Hx as (Hxi & Hxl & Hdig).
    destruct (stored_chunk fuel jhs jh s tbl h t p c x.1 x.2 stale)
      as (w1 & c1 & Hrun & Hhas1 & Hlen & _ & Hmono & Hgx); [done..|]. specialize (Hgx Hdig).
    rewrite (bind_done _ _ _ _ _ Hrun).
    destruct (IH (set_os w1 s) c1 Hhas1) as (w2 & c2 & Hrun2 & Hres); [by rewrite Hlen| |].
    + intros i Hi. destruct (Hgood i Hi) as [|[->|Hin]%elem_of_cons]; [left; by apply Hmono|by left|by right].
    + by exists w2, c2.
Qed.
End completion.

(** ** Definitions that arrive *)
Section arrivals.
Context {W : Type} `{OS W, OSViewOf W, !FileLaws W, !SockLaws W, MD5_API, !MemoryRoom W}.
Implicit Types (s : client W) (w : W).

(** The table with a definition: a known hash keeps its entry. *)
Definition with_tdef (d : tfile_def_t) (m : gmap (list Z) tfile_t) : gmap (list Z) tfile_t :=
  match m !! td_f_hash d with Some _ => m | None => <[td_f_hash d := TFile d FNull 0]> m end.

(** The only way [add_htable] fails: the probe leaves the array. *)
Definition add_overruns (ht : htable_t) (tbl : list tfile_t) (h : list Z) (e : fault) : Prop :=
  e = OutOfBounds ∧ abs tbl !! h = None ∧ full_from tbl (home (ht_capacity ht) h).

Lemma add_arrives fuel d s tbl : wf (cl_ht s) tbl → ht_size (cl_ht s) * 2 ≤ ht_capacity (cl_ht s) →
  hash_ok (td_f_hash d) → td_f_hash d ≠ zero_hash → (length tbl < fuel)%nat →
  wp (on_store (add_htable fuel d)) (λ _ s', ∃ ht' tbl',
    s' = Client ht' (cl_peers s) (cl_ui s) (cl_self_address s) (cl_threads s) (cl_os s) ∧
    wf ht' tbl' ∧ abs tbl' = with_tdef d (abs tbl)) (add_overruns (cl_ht s) tbl (td_f_hash d)) s.
Proof.
  intros Hwf Hload Hh Hnz Hf. apply wp_zoom. unfold wp.
  rewrite (add_htable_run (cl_ht s) tbl Hwf (cl_os s) d fuel Hh Hf Hload). unfold add_result, with_tdef.
  destruct (probe _ _ _) as [[i t]|] eqn:Hp.
  - destruct (decide (occupied t)) as [Ho|He].
    + destruct (probe_hit _ tbl Hwf _ Hnz i t Hp Ho) as (_ & _ & ->). by exists (cl_ht s), tbl.
    + destruct (probe_miss _ tbl Hwf _ Hnz i t Hp He) as [-> _].
      pose proof (wf_size_bound _ tbl Hwf). pose proof (wf_capacity_bound _ tbl Hwf).
      destruct (stored_wf_abs (cl_ht s) tbl d i t) as [Hwf' Habs]; [done|lia|done..|].
      rewrite decide_False in Habs by done. by eexists _, _.
  - destruct (probe_out _ tbl Hwf _ Hnz Hp) as [? ?]. done.
Qed.

Lemma malloc_unchecked_run n s : ∃ w, malloc_unchecked n s = Done tt (set_os w s) ∧ os_view w = os_view (cl_os s).
Proof.
  exists (os_malloc n (cl_os s)).2. split; [|apply law_malloc].
  pose proof (law_malloc_ok n (cl_os s)) as Hok. unfold malloc_unchecked, on_world, zoom, sys, mbind, M_bind.
  destruct (os_malloc n (cl_os s)) as [ok w]. cbn in *. by subst.
Qed.

(** What a round of readWorker does with a definition. *)
Definition tfile_received (s s' : client W) (tbl : list tfile_t) (fd_data : client_server_t)
    (d : tfile_def_t) (rest : list Z) : Prop :=
  v_in (os_view (cl_os s')) !!! server_fd fd_data = rest ∧ cl_peers s' = cl_peers s ∧
  cl_threads s' = cl_threads s ++ [RunShareTfile d (server_fd fd_data)] ∧
  ∃ tbl', wf (cl_ht s') tbl' ∧ abs tbl' = with_tdef d (abs tbl).
Definition peer_dropped (s s' : client W) (fd_data : client_server_t) (l : list Z) : Prop :=
  cl_ht s' = cl_ht s ∧ cl_threads s' = cl_threads s ∧ p_lock (cl_peers s') = None ∧
  ∃ l', peers_are (cl_peers s') l' ∧
    if decide (client_fd fd_data ∈ l) then l ≡ₚ client_fd fd_data :: l' else l' = l.

Lemma drop_peer fuel self fd_data l w s (x : option (list Z) + unit) (Q : _ → client W → Prop) E :
  peers_are (cl_peers s) l → p_lock (cl_peers s) = None → (length l < fuel)%nat →
  (∀ s', peer_dropped s s' fd_data l → Q x s') →
  wp (_ ← on_peers (remove_peer fuel self (client_fd fd_data)); mret x) Q E (set_os w s).
Proof.
  intros Hl Hlock Hf HQ.
  destruct (remove_run fuel self (client_fd fd_data) (cl_peers s) l w Hl Hlock Hf)
    as (p' & l' & Hrun & Hp' & Hl' & _ & Hres).
  apply wp_bind. eapply wp_of_run; [by apply (on_peers_run _ tt p' w)|]. apply wp_ret, HQ.
  split_and!; [done|done|done|]. by exists l'.
Qed.


(** A definition with a zero hash takes a slot, and is passed on. *)
Lemma ghost_handled fuel fd_data d stale s tbl : wf (cl_ht s) tbl → (length tbl < fuel)%nat →
  tdef_shape d → td_f_hash d = zero_hash → ht_size (cl_ht s) * 2 ≤ ht_capacity (cl_ht s) →
  ∃ s' tbl', handle_tfile_def fuel fd_data (encode_tdef d ++ stale) s = Done tt s' ∧
    wf (cl_ht s') tbl' ∧ abs tbl' = abs tbl ∧ length tbl' = length tbl ∧
    ht_size (cl_ht s') = ht_size (cl_ht s) + 1 ∧ ht_capacity (cl_ht s') = ht_capacity (cl_ht s) ∧
    cl_threads s' = cl_threads s ++ [RunShareTfile d (server_fd fd_data)].
Proof.
  intros Hwf Hf Hd Hz Hload. unfold handle_tfile_def. rewrite decode_encode_tdef by done.
  destruct (add_ghost (cl_ht s) tbl (cl_os s) d fuel Hwf Hz Hf Hload)
    as (i & ht1 & tbl1 & Hrun & Hwf1 & Ha1 & Hl1 & Hs1 & Hc1).
  set (s1 := Client ht1 (cl_peers s) (cl_ui s) (cl_self_address s) (cl_threads s) (cl_os s)).
  rewrite (bind_done _ _ _ (Some (Z.of_nat i)) s1) by (unfold on_store, zoom; by rewrite Hrun).
  destruct (malloc_unchecked_run sizeof_send_tfile_t s1) as (w & Hm & _). rewrite (bind_done _ _ _ _ _ Hm).
  by eexists _, tbl1.
Qed.
Lemma ghosts_handled fuel fd_data stale ds : ∀ s tbl, wf (cl_ht s) tbl → (length tbl < fuel)%nat →
  Forall (λ d, tdef_shape d ∧ td_f_hash d = zero_hash) ds →
  (ht_size (cl_ht s) + zlen ds - 1) * 2 ≤ ht_capacity (cl_ht s) →
  ∃ s' tbl', for_each ds (λ d, handle_tfile_def fuel fd_data (encode_tdef d ++ stale)) s = Done tt s' ∧
    wf (cl_ht s') tbl' ∧ abs tbl' = abs tbl ∧ ht_size (cl_ht s') = ht_size (cl_ht s) + zlen ds ∧
    ht_capacity (cl_ht s') = ht_capacity (cl_ht s) ∧
    cl_threads s' = cl_threads s ++ ((λ d, RunShareTfile d (server_fd fd_data)) <$> ds).
Proof.
  induction ds as [|d ds IH]; intros s tbl Hwf Hf Hz Hload; cbn [for_each].
  { exists s, tbl. rewrite app_nil_r. split_and!; [done|done|done|by unfold zlen; cbn; lia|done|done]. }
  apply Forall_cons in Hz as [[Hd Hd0] Hz]. pose proof (zlen_nonneg ds).
  assert (Hlen : zlen (d :: ds) = 1 + zlen ds) by (unfold zlen; cbn; lia).
  destruct (ghost_handled fuel fd_data d stale s tbl Hwf Hf Hd Hd0 ltac:(lia))
    as (s1 & tbl1 & Hrun & Hwf1 & Ha1 & Hl1 & Hs1 & Hc1 & Ht1).
  destruct (IH s1 tbl1 Hwf1 ltac:(lia) Hz) as (s2 & tbl2 & Hrun2 & Hwf2 & Ha2 & Hs2 & Hc2 & Ht2); [lia|].
  exists s2, tbl2. split_and!; [by rewrite (bind_done _ _ _ _ _ Hrun)|done|congruence|lia|lia|].
  rewrite Ht2, Ht1, <- app_assoc. done.
Qed.

(** C35. Definitions with a zero hash fill the table: each one that comes is
    counted, stored where no search finds it, and passed on to the other
    peers.  When enough of them have come to a table at most half full, the
    map is as before, and from then on no definition at all can be added: the
    call never returns, whatever the definition and the fuel. *)
Theorem zero_hashes_exhaust_table fuel fd_data stale ds s tbl :
  wf (cl_ht s) tbl → (length tbl < fuel)%nat → 2 < ht_capacity (cl_ht s) < 2 ^ 31 →
  Forall (λ d, tdef_shape d ∧ td_f_hash d = zero_hash) ds →
  ht_capacity (cl_ht s) < (ht_size (cl_ht s) + zlen ds) * 2 ≤ ht_capacity (cl_ht s) + 2 →
  ∃ s' tbl', for_each ds (λ d, handle_tfile_def fuel fd_data (encode_tdef d ++ stale)) s = Done tt s' ∧
    wf (cl_ht s') tbl' ∧ abs tbl' = abs tbl ∧
    cl_threads s' = cl_threads s ++ ((λ d, RunShareTfile d (server_fd fd_data)) <$> ds) ∧
    ∀ n d w, add_htable n d (Store (cl_ht s') w) = Stop OutOfFuel.
Proof.
  intros Hwf Hf Hcap Hz Hn.
  destruct (ghosts_handled fuel fd_data stale ds s tbl Hwf Hf Hz ltac:(lia))
    as (s' & tbl' & Hrun & Hwf' & Ha & Hs & Hc & Ht).
  exists s', tbl'. split_and!; [done..|]. intros n d w.
  destruct (wf_has_room (cl_ht s') tbl' Hwf') as (k & t & Hk & Hkz); [lia|].
  pose proof (lookup_lt_Some _ _ _ Hk). pose proof (wf_length _ _ Hwf') as Hlen. unfold zlen in Hlen.
  pose proof (wf_capacity_bound _ _ Hwf'). pose proof (wf_size_bound _ _ Hwf').
  apply (add_htable_stuck (cl_ht s') tbl' k t); [apply Hwf'|done|by rewrite Hkz|lia|].
  rewrite wrapu_small; lia.
Qed.
End arrivals.

(** ** A new peer *)
Section greeting.
Context {W : Type} `{OS W, OSViewOf W, !SockLaws W, MD5_API, !MemoryRoom W}.
Implicit Types (s : client W) (w : W).

(** The loop of [share_tfiles_to_peer], with the mutex held: all definitions
    are written, or the thread waits for itself. *)
Lemma share_all fuel self peer suf : ∀ pre s, p_lock (cl_peers s) = Some self → (184 < fuel)%nat →
  Forall tdef_shape suf →
  wp (for_each (seqZ (zlen pre) (zlen suf)) (λ i,
        d ← from_opt OutOfBounds (zget (pre ++ suf) i);
        rc ← on_world (send_message fuel peer (message_info TFILE_DEF sizeof_tfile_def_t) (Some (encode_tdef d)));
        when (negb (rc =? 0)) (on_peers (remove_peer fuel self peer))))
    (λ _ s', ∃ w', s' = set_os w' s ∧
       os_view w' = set_out (append_out peer (concat (tfile_message <$> suf))) (os_view (cl_os s)))
    (λ e, e = Deadlock ∧ ¬ whole_writes (W := W) peer) s.
Proof.
  induction suf as [|d suf IH]; intros pre s Hlock Hf Hshape.
  { cbn. exists (cl_os s). rewrite set_os_same. split; [done|]. apply append_nothing. }
  apply Forall_cons in Hshape as [Hd Hshape].
  assert (Hlen : zlen (d :: suf) = 1 + zlen suf) by (unfold zlen; cbn; lia). pose proof (zlen_nonneg suf).
  rewrite seqZ_cons by lia. cbn [for_each]. apply wp_bind, wp_bind.
  rewrite (zget_middle pre suf d) by done. apply wp_ret, wp_bind, wp_on_world.
  assert (Hinfo : info_ok (message_info TFILE_DEF sizeof_tfile_def_t)) by by apply message_info_ok.
  eapply wp_mono; [by apply (send_gets fuel peer _ (encode_tdef d)); [|by rewrite zlen_encode_tdef|]| |by intros e []].
  intros rc w1 (sent & _ & Hall & Hw1 & Hrc). apply wp_when.
  - intros Hfail. unfold wp. rewrite remove_peer_held by done. by destruct Hrc as [[-> _]|[_ ?]].
  - intros Hok. destruct Hrc as [[_ ->]|[-> _]]; [|done].
    replace (Z.succ (zlen pre)) with (zlen (pre ++ [d])) by (unfold zlen; rewrite length_app; cbn; lia).
    replace (Z.pred (zlen (d :: suf))) with (zlen suf) by lia.
    replace (pre ++ d :: suf) with ((pre ++ [d]) ++ suf) by (by rewrite <- app_assoc).
    eapply wp_conseq; [by apply (IH (pre ++ [d]) (set_os w1 s))|].
    intros _ ? (w2 & -> & Hw2). exists w2. split; [done|]. rewrite Hw2. cbn [cl_os set_os]. rewrite Hw1.
    unfold set_out. cbn. by rewrite append_out_app.
Qed.

Lemma share_tfiles_run fuel self peer arr s : p_lock (cl_peers s) = None → (184 < fuel)%nat →
  Forall tdef_shape arr →
  match share_tfiles_to_peer fuel self arr (zlen arr) peer s with
  | Done _ s' => ∃ w', s' = set_os w' s ∧
      os_view w' = set_out (append_out peer (concat (tfile_message <$> arr))) (os_view (cl_os s))
  | Stop e => e = Deadlock ∧ ¬ whole_writes (W := W) peer
  end.
Proof.
  intros Hlock Hf Hshape. unfold share_tfiles_to_peer. rewrite (bind_done _ _ _ _ _ (lock_run self s Hlock)).
  set (s1 := set_cl_peers (set_lock (Some self) (cl_peers s)) s).
  pose proof (share_all fuel self peer arr [] s1 eq_refl Hf Hshape) as Hloop. unfold wp in Hloop.
  change (zlen []) with 0 in Hloop. cbn [app] in Hloop. unfold mbind, M_bind in *.
  destruct (for_each _ _ s1) as [[] s2|]; [|done]. destruct Hloop as (w' & -> & Hw'). exists w'.
  split; [|exact Hw']. unfold set_os. cbn. f_equal. unfold set_lock. cbn. rewrite <- Hlock. by destruct (cl_peers s).
Qed.

(** What the thread for a new peer does: a message for each tfile, or nothing
    more for ever. *)
Definition tells fuel (self : tid) (arr : list tfile_def_t) (peer : Z) s : Prop :=
  match share_tfiles_to_peer fuel self arr (zlen arr) peer s with
  | Done _ s' => ∃ w, s' = set_os w s ∧
      os_view w = set_out (append_out peer (concat (tfile_message <$> arr))) (os_view (cl_os s))
  | Stop e => e = Deadlock ∧ ¬ whole_writes (W := W) peer
  end.

End greeting.

(** ** The properties on concrete inputs *)
Module ProtocolWitness.
Import Sim HTable.Examples FileExamples ClientWitness.

(** Peers 5, 6 and 7 of a client that has the file mapped, whole or blank. *)
Definition serving : client Sim.world := Client ht_mapped peers initial_ui self_data [] disk_mapped.
Definition asking : client Sim.world :=
  Client ht_mapped peers initial_ui self_data []
    (Sim.set_view (set_files (λ _, {[path := blank]})) disk_mapped).
Definition t_file : tfile_t := TFile tdef (FHeap path) 1.
Definition addr : sockaddr_in := SockAddr AF_INET 1 INADDR_ANY.
Definition req : chunk_request_t := request_for digest addr 2.
Definition fd_data : client_server_t := ClientServer 6 6.

Lemma serving_has : has_mapped serving mapped digest t_file path content.
Proof. exact sender_has. Qed.
Lemma asking_has : has_mapped asking mapped digest t_file path blank.
Proof. exact receiver_has. Qed.
Lemma asking_peers : peers_are (cl_peers asking) [5; 6; 7].
Proof. exact peers_ok. Qed.
Lemma req_ok : request_ok req.
Proof. by apply (bool_decide_unpack (request_ok req)); vm_compute. Qed.



Lemma download_body_requests_witness :
  missing tdef blank = [0; 1; 2; 3; 4; 5; 6; 7] ∧
  if decide (missing tdef blank = [])
  then download_body 400 junk zero_hash 1 digest addr tt asking = Done (inr tt) asking
  else ∃ w', download_body 400 junk zero_hash 1 digest addr tt asking = Done (inl tt) (set_os w' asking) ∧
    requested (request_for digest addr <$> missing tdef blank) [5; 6; 7] (os_view (cl_os asking)) (os_view w').
Proof.
  split; [by vm_compute|].
  apply (download_body_requests 400 junk zero_hash 1 digest addr [5; 6; 7] asking mapped t_file path blank
           asking_has asking_peers); [done|done|by apply Nat.ltb_lt; vm_compute..].
Defined.

Lemma download_loop_alone_witness :
  iter 1000 (download_body 400 junk zero_hash 1 digest addr) tt serving =
    (if decide (missing tdef content = []) then Done tt serving else Stop OutOfFuel) ∧
  iter 1000 (download_body 400 junk zero_hash 1 digest addr) tt asking =
    (if decide (missing tdef blank = []) then Done tt asking else Stop OutOfFuel).
Proof.
  split.
  - apply (download_loop_alone 1000 400 junk zero_hash 1 digest addr [5; 6; 7] serving mapped t_file path
             content serving_has asking_peers); try done; by apply Nat.ltb_lt; vm_compute.
  - apply (download_loop_alone 1000 400 junk zero_hash 1 digest addr [5; 6; 7] asking mapped t_file path
             blank asking_has asking_peers); try done; by apply Nat.ltb_lt; vm_compute.
Defined.

(** The chunks in some order, one of them twice. *)
Definition arrivals : list (Z * list Z) := (λ i, (i, chunk 300 content i)) <$> [7; 0; 1; 1; 2; 3; 4; 5; 6].
Lemma download_completes_witness :
  ∃ s', for_each arrivals (λ x, handle_file_data 400 junk zero_hash (chunk_body digest x.1 x.2 ++ [7])) asking =
      Done tt s' ∧
    ∀ n, (0 < n)%nat → iter n (download_body 400 junk zero_hash 1 digest addr) tt s' = Done tt s'.
Proof.
  apply (download_completes 400 junk zero_hash 1 digest addr [5; 6; 7] asking mapped t_file path blank arrivals
           [7] asking_has asking_peers); [done|done|by apply Nat.ltb_lt; vm_compute..| |].
  - assert (∀ i, i ∈ [7; 0; 1; 1; 2; 3; 4; 5; 6] → right_chunk tdef 300 (i, chunk 300 content i)) as Hright.
    { apply Forall_forall. unfold right_chunk. apply (bool_decide_unpack _). by vm_compute. }
    by apply Forall_fmap, Forall_forall.
  - assert (Hm : missing (t_tdef t_file) blank = [0; 1; 2; 3; 4; 5; 6; 7]) by by vm_compute. rewrite Hm.
    apply Forall_forall. apply (bool_decide_unpack _). by vm_compute.
Defined.

(** Peer 6 sends a definition. *)
Definition told_net : Sim.world :=
  World (OSView ∅ ∅ ∅ {[5; 6; 7]} {[6 := tfile_message (def 10) ++ [1; 2]]} ∅) 1000 ∅.
Definition listening : client Sim.world := Client ht4 peers initial_ui self_data [] told_net.


(** Three definitions with a zero hash for a table of eight with two tfiles. *)
Definition table8 : list tfile_t := [zero_tfile; entry 1; entry 2] ++ replicate 5 zero_tfile.
Definition ht8 : htable_t := HTable 8 2 (Some table8).
Definition small : client Sim.world := Client ht8 peers initial_ui self_data [] told_net.

Lemma zero_hashes_exhaust_table_witness :
  ∃ s' tbl', for_each [def 0; def 0; zero_tdef]
      (λ d, handle_tfile_def 400 fd_data (encode_tdef d ++ [7])) small = Done tt s' ∧
    wf (cl_ht s') tbl' ∧ abs tbl' = abs table8 ∧
    cl_threads s' = [RunShareTfile (def 0) 6; RunShareTfile (def 0) 6; RunShareTfile zero_tdef 6] ∧
    ∀ n d w, add_htable n d (Store (cl_ht s') w) = Stop OutOfFuel.
Proof.
  apply (zero_hashes_exhaust_table 400 fd_data [7] [def 0; def 0; zero_tdef] small table8);
    [apply wfb_sound; by vm_compute|by apply Nat.ltb_lt; vm_compute|done| |done].
  repeat constructor; by apply (bool_decide_unpack _); vm_compute.
Defined.

End ProtocolWitness.
