(* ===== verification/Swarm.v ===== *)
(** * Clients that share one file

    Several clients that know the same tfile and have it mapped, and the
    messages between them.  The network loses, repeats and reorders messages as
    it likes; the clients ask for chunks, answer and relay requests, and store
    what comes, one handler of [Client.v] at a time in any order.  No chunk
    that is good is ever lost, and as long as one client has the whole file
    every other one can still complete its download. *)
From stdpp Require Import relations.
From S2P Require Import Prelude OS Sim HTable File Message Socket Peers Curses Ui Wire Client Protocol.

(** ** Messages in a stream of bytes, as [receive_message] cuts them out *)
Inductive packet : Type := Packet (type : Z) (body : list Z).

#[export] Instance packet_eq_dec : EqDecision packet.
Proof. solve_decision. Defined.

Definition wire (p : packet) : list Z :=
  let '(Packet type body) := p in encode_info (message_info type (zlen body)) ++ body.

Fixpoint packets (fuel : nat) (bs : list Z) : list packet :=
  match fuel with
  | O => []
  | S fuel' =>
      if zlen bs <? sizeof_message_info_t then []
      else
        let info := decode_info bs in
        let body := slice sizeof_message_info_t (mi_size info) bs in
        if zlen body <? mi_size info then []
        else Packet (mi_type info) body ::
               packets fuel' (drop (Z.to_nat (sizeof_message_info_t + mi_size info)) bs)
  end.

Definition packet_sized (p : packet) : Prop :=
  let '(Packet type body) := p in info_ok (message_info type (zlen body)).

Lemma packets_wire ps : ∀ fuel, Forall packet_sized ps → (length ps < fuel)%nat →
  packets fuel (concat (wire <$> ps)) = ps.
Proof.
  induction ps as [|[type body] ps IH]; intros [|fuel] Hps Hf; cbn [length] in Hf; [lia|done|lia|].
  apply Forall_cons in Hps as [Hok Hps]. cbn in Hok. pose proof (zlen_nonneg body).
  cbn [concat fmap list_fmap wire]. set (rest := concat _).
  pose proof (encode_info_length _ Hok) as Hl. rewrite <- app_assoc. cbn [packets].
  rewrite decode_encode_info by done. cbn [mi_size mi_type message_info].
  rewrite !zlen_app, Hl. unfold sizeof_message_info_t in *. pose proof (zlen_nonneg rest).
  rewrite (proj2 (Z.ltb_ge _ _)) by lia. rewrite (slice_skip _ _ 16) by (done || lia).
  rewrite Z.sub_diag, slice_app_l by done. rewrite (proj2 (Z.ltb_ge _ _)) by lia. f_equal.
  rewrite Z2Nat.inj_add, <- drop_drop by lia.
  rewrite (drop_zlen_app 16 _ _ Hl), (drop_zlen_app _ body rest eq_refl). apply IH; [done|lia].
Qed.
Lemma wire_length ps : (length ps ≤ length (concat (wire <$> ps)))%nat.
Proof.
  induction ps as [|[type body] ps IH]; [done|]. cbn [concat fmap list_fmap wire length].
  rewrite !length_app. cbn. lia.
Qed.

(** ** What a socket gets that takes everything *)
Section outputs.
Context {W : Type} `{OS W}.

Lemma relayed_out skip msg l v v' fd : relayed (W := W) skip msg l v v' → whole_writes (W := W) fd →
  ∃ n, v_out v' !!! fd = (v_out v !!! fd) ++ concat (replicate n msg) ∧
    (fd ∈ l → skip fd = false → (0 < n)%nat).
Proof.
  intros (sents & Hall & ->) Hfd. cbn [v_out set_out]. generalize (v_out v) as m. unfold append_all.
  induction Hall as [|x sent l sents Hx _ IH]; intros m; cbn [zip zip_with foldl].
  { exists 0%nat. cbn. rewrite app_nil_r. split; [done|]. by intros ?%not_elem_of_nil. }
  destruct (IH (append_out x sent m)) as (n & Hout & Hn). cbn [fst snd].
  change (zip_with pair l sents) with (zip l sents). rewrite Hout. destruct (decide (x = fd)) as [->|Hne].
  - rewrite append_out_at, <- app_assoc. unfold gets_message in Hx. destruct (skip fd) eqn:Hskip.
    + subst sent. exists n. by split.
    + destruct Hx as [_ ->]; [|done]. exists (S n). split; [done|lia].
  - exists n. split; [|by intros [->|?]%elem_of_cons; auto]. f_equal.
    unfold append_out. destruct (decide _); [done|]. by rewrite lookup_total_insert_ne.
Qed.

Lemma requested_out reqs l fd : whole_writes (W := W) fd → ∀ v v', requested (W := W) reqs l v v' →
  ∃ rs, v_out v' !!! fd = (v_out v !!! fd) ++ concat (request_message <$> rs) ∧ rs ⊆ reqs ∧
    (fd ∈ l → reqs ⊆ rs).
Proof.
  intros Hfd. induction reqs as [|req reqs IH]; intros v v' Hr; cbn in Hr.
  { subst v'. exists []. cbn. rewrite app_nil_r. by split_and!. }
  destruct Hr as (v1 & Hr & (rs & Hv' & Hsub & Hsup)%IH).
  destruct (relayed_out _ _ _ _ _ fd Hr Hfd) as (n & Hv1 & Hn).
  exists (replicate n req ++ rs). split_and!.
  - rewrite Hv', Hv1, fmap_app, fmap_replicate, concat_app. by rewrite app_assoc.
  - intros r [[-> _]%elem_of_replicate|Hin]%elem_of_app; [by left|]. right. by apply Hsub.
  - intros Hin r [->|Hreq]%elem_of_cons; apply elem_of_app; [left|right; by apply Hsup].
    apply elem_of_replicate. split; [done|]. specialize (Hn Hin eq_refl). lia.
Qed.
End outputs.

(** ** The swarm *)
Record swarm (W : Type) : Type := Swarm {
  sw_clients : list (client W);
  sw_net : list packet
}.
Arguments Swarm {W} _ _.
Arguments sw_clients {W} _.
Arguments sw_net {W} _.

Section swarm.
Context {W : Type} `{OS W, CURSES W, OSViewOf W, !FileLaws W, !SockLaws W, MD5_API, !MD5Laws, !MemoryRoom W}.
Implicit Types (s : client W) (w : W) (sw : swarm W).

(** The tfile: its hash and definition; what is on the stack of [verify_tfile]. *)
Context (fuel : nat) (junk_hashes : list (list Z)) (junk_hash : list Z).
Context (h : list Z) (d : tfile_def_t).

(** What a client wrote in a step and the others can read: the messages of a
    socket that takes what it is given. *)
Definition sent s s' (p : packet) : Prop := ∃ fd new, whole_writes (W := W) fd ∧
  v_out (os_view (cl_os s')) !!! fd = (v_out (os_view (cl_os s)) !!! fd) ++ new ∧
  p ∈ packets (S (length new)) new.

(** A round of [download_file], a message that is handled ([stale] is what
    the buffer holds behind it), or anything else on the client's machine that
    leaves the files and what was written. *)
Inductive acts (net : list packet) s : client W → Prop :=
  | asks self addr r s' : request_ok (request_for h addr 0) →
      download_body fuel junk_hashes junk_hash self h addr tt s = Done r s' → acts net s s'
  | answers self fd_data body stale s' : Packet REQUEST_FILE_DATA body ∈ net →
      zlen (body ++ stale) = message_size →
      handle_request fuel junk_hashes junk_hash self fd_data (body ++ stale) s = Done tt s' → acts net s s'
  | stores body stale s' : Packet FILE_DATA body ∈ net → zlen (body ++ stale) = message_size →
      handle_file_data fuel junk_hashes junk_hash (body ++ stale) s = Done tt s' → acts net s s'
  | other w : v_maps (os_view w) = v_maps (os_view (cl_os s)) →
      v_files (os_view w) = v_files (os_view (cl_os s)) → v_out (os_view w) = v_out (os_view (cl_os s)) →
      acts net s (set_os w s).

(** A step of one client; the network has what it had and what was sent, or
    less, in any order. *)
Inductive swarm_step sw : swarm W → Prop :=
  | swarm_acts k s s' net : sw_clients sw !! k = Some s → acts (sw_net sw) s s' →
      (∀ p, p ∈ net → p ∈ sw_net sw ∨ sent s s' p) →
      swarm_step sw (Swarm (<[k := s']> (sw_clients sw)) net).

(** A client that has [c] in its mapping of the file. *)
Definition member s (c : list Z) : Prop := ∃ tbl t p l,
  has_mapped s tbl h t p c ∧ t_tdef t = d ∧ peers_are (cl_peers s) l ∧ p_lock (cl_peers s) = None ∧
  (length tbl < fuel)%nat ∧ (length l < fuel)%nat.

(** A message of the download: a request for a chunk, or a chunk that was good
    at some client. *)
Definition right_packet (p : packet) : Prop :=
  (∃ i addr, 0 ≤ i < NUM_CHUNKS ∧ request_ok (request_for h addr i) ∧
     p = Packet REQUEST_FILE_DATA (encode_request (request_for h addr i))) ∨
  (∃ i c, 0 ≤ i < NUM_CHUNKS ∧ zlen c = td_size d ∧ chunk_good d c i ∧
     p = Packet FILE_DATA (chunk_body h i (chunk (zlen c) c i))).

Definition swarm_ok sw : Prop :=
  (∀ k s, sw_clients sw !! k = Some s → ∃ c, member s c) ∧ Forall right_packet (sw_net sw).

(** The file is not tiny, fits in the fuel, and its chunks in the messages. *)
Definition file_fits : Prop :=
  zlen junk_hashes = 8 ∧ zlen h = 16 ∧ NUM_CHUNKS ≤ td_size d < 2 ^ 31 ∧ (44 < fuel)%nat ∧
  (Z.to_nat (24 + td_size d) < fuel)%nat.
Hypothesis Hfits : file_fits.

Lemma member_size s c : member s c → zlen c = td_size d.
Proof. intros (tbl & t & p & l & Hhas & <- & _). symmetry. apply Hhas. Qed.

Lemma request_ok_index addr i : request_ok (request_for h addr 0) → 0 ≤ i < NUM_CHUNKS →
  request_ok (request_for h addr i).
Proof. intros (Hh & _ & Hrest) Hi. unfold NUM_CHUNKS in Hi. split; [done|]. split; [cbn; lia|done]. Qed.

Lemma right_packet_sized p : right_packet p → packet_sized p.
Proof.
  destruct Hfits as (_ & Hh & Hsize & _).
  intros [(i & addr & Hi & Hok & ->)|(i & c & Hi & Hc & _ & ->)]; apply message_info_ok; try done.
  - rewrite zlen_encode_request by apply Hok. done.
  - rewrite zlen_chunk_body by done. pose proof (zlen_nonneg c). rewrite zlen_chunk by (done || lia).
    pose proof (chunk_bounds (zlen c) i ltac:(lia) Hi). lia.
Qed.

(** Messages that were written whole can be read. *)
Lemma sent_messages s s' fd ps : whole_writes (W := W) fd → Forall right_packet ps →
  v_out (os_view (cl_os s')) !!! fd = (v_out (os_view (cl_os s)) !!! fd) ++ concat (wire <$> ps) →
  ∀ p, p ∈ ps → sent s s' p.
Proof.
  intros Hfd Hps Hout p Hp. exists fd, (concat (wire <$> ps)). split_and!; [done|done|].
  rewrite packets_wire; [done| |].
  - eapply Forall_impl; [exact Hps|]. apply right_packet_sized.
  - apply Nat.lt_succ_r, wire_length.
Qed.
Lemma sent_inv s s' fd new ps p : Forall right_packet ps →
  v_out (os_view (cl_os s')) !!! fd = (v_out (os_view (cl_os s)) !!! fd) ++ concat (wire <$> ps) →
  v_out (os_view (cl_os s')) !!! fd = (v_out (os_view (cl_os s)) !!! fd) ++ new →
  p ∈ packets (S (length new)) new → right_packet p.
Proof.
  intros Hps -> <-%app_inv_head Hp. rewrite packets_wire in Hp.
  - by eapply Forall_forall in Hp.
  - eapply Forall_impl; [exact Hps|]. apply right_packet_sized.
  - apply Nat.lt_succ_r, wire_length.
Qed.

Lemma member_moved s w c c' : member s c →
  (∀ tbl t p, has_mapped s tbl h t p c → t_tdef t = d → has_mapped (set_os w s) tbl h t p c') →
  member (set_os w s) c'.
Proof. intros (tbl & t & p & l & Hhas & Ht & Hrest) Hw. exists tbl, t, p, l. split; [by apply Hw|by split]. Qed.
Lemma member_view s w c : member s c → v_maps (os_view w) = v_maps (os_view (cl_os s)) →
  v_files (os_view w) = v_files (os_view (cl_os s)) → member (set_os w s) c.
Proof. intros Hm E1 E2. eapply member_moved; [exact Hm|]. intros tbl t p Hhas _. by apply has_mapped_view. Qed.

(** What a step of a member does: no good chunk is lost, and what is sent is
    right. *)
Definition kept s s' c : Prop := ∃ c', member s' c' ∧
  (∀ i, 0 ≤ i < NUM_CHUNKS → chunk_good d c i → chunk_good d c' i) ∧ ∀ p, sent s s' p → right_packet p.

Lemma kept_view s w c : member s c → v_maps (os_view w) = v_maps (os_view (cl_os s)) →
  v_files (os_view w) = v_files (os_view (cl_os s)) →
  (∀ fd, whole_writes (W := W) fd → ∃ ps, Forall right_packet ps ∧
     v_out (os_view w) !!! fd = (v_out (os_view (cl_os s)) !!! fd) ++ concat (wire <$> ps)) →
  kept s (set_os w s) c.
Proof.
  intros Hm E1 E2 Hout. exists c. split_and!; [by apply member_view|done|].
  intros p (fd & new & Hfd & Hnew & Hp). destruct (Hout fd Hfd) as (ps & Hps & Ho).
  exact (sent_inv s (set_os w s) fd new ps p Hps Ho Hnew Hp).
Qed.
Lemma kept_silent s w c : member s c → v_maps (os_view w) = v_maps (os_view (cl_os s)) →
  v_files (os_view w) = v_files (os_view (cl_os s)) → v_out (os_view w) = v_out (os_view (cl_os s)) →
  kept s (set_os w s) c.
Proof.
  intros Hm E1 E2 E3. apply kept_view; [done..|]. intros fd _. exists []. split; [done|].
  cbn. by rewrite app_nil_r, E3.
Qed.

Definition right_request (req : chunk_request_t) : Prop :=
  ∃ i addr, 0 ≤ i < NUM_CHUNKS ∧ request_ok req ∧ req = request_for h addr i.
Definition request_packet (req : chunk_request_t) : packet := Packet REQUEST_FILE_DATA (encode_request req).
Lemma right_requests rs : Forall right_request rs →
  Forall right_packet (request_packet <$> rs) ∧ wire <$> (request_packet <$> rs) = request_message <$> rs.
Proof.
  intros Hall. split.
  - apply Forall_fmap. eapply Forall_impl; [exact Hall|]. intros req (i & addr & Hi & Hok & ->). left.
    by exists i, addr.
  - rewrite <- list_fmap_compose. apply Forall_fmap_ext. eapply Forall_impl; [exact Hall|].
    intros req (i & addr & Hi & Hok & ->). unfold compose, request_packet, wire, request_message.
    by rewrite zlen_encode_request by apply Hok.
Qed.
Lemma missing_requests addr c : request_ok (request_for h addr 0) →
  Forall right_request (request_for h addr <$> missing d c).
Proof.
  intros Hok. apply Forall_fmap, Forall_forall. intros i [_ Hi%elem_of_seqZ]%list_elem_of_filter.
  exists i, addr. split; [done|]. split; [by apply request_ok_index|done].
Qed.

Lemma ask_kept s s' c self addr r : member s c → request_ok (request_for h addr 0) →
  download_body fuel junk_hashes junk_hash self h addr tt s = Done r s' → kept s s' c.
Proof.
  intros Hm Hok Hrun. pose proof Hm as (tbl & t & p & l & Hhas & Ht & Hl & Hlock & Hf & Hf2).
  destruct Hfits as (Hj & _ & _ & Hf3 & _).
  pose proof (download_round fuel junk_hashes junk_hash self h addr l s tbl t p c Hhas Hl Hlock Hj Hf Hf3 Hf2) as Hr.
  rewrite Ht in Hr. case_decide.
  - rewrite Hrun in Hr. injection Hr as _ ->. rewrite <- (set_os_same s) at 2. by apply kept_silent.
  - destruct Hr as (w' & Hrun' & Hr). rewrite Hrun in Hrun'. injection Hrun' as _ ->.
    pose proof (requested_view _ _ _ _ Hr) as [E1 E2]. apply kept_view; [done..|]. intros fd Hfd.
    destruct (requested_out _ _ fd Hfd _ _ Hr) as (rs & Hout & Hsub & _).
    pose proof (missing_requests addr c Hok) as Hall. rewrite Forall_forall in Hall.
    destruct (right_requests rs) as [Hps Hw]; [apply Forall_forall; auto|].
    exists (request_packet <$> rs). split; [done|]. by rewrite Hw.
Qed.

Lemma answer_kept s s' c self fd_data req stale : member s c → right_request req →
  handle_request fuel junk_hashes junk_hash self fd_data (encode_request req ++ stale) s = Done tt s' →
  kept s s' c.
Proof.
  intros Hm Hreq Hrun. pose proof (member_size s c Hm) as Hsize.
  pose proof Hreq as (i & addr & Hi & Hok & Heq).
  pose proof Hm as (tbl & t & p & l & Hhas & Ht & Hl & Hlock & Hf & Hf2).
  destruct Hfits as (Hj & Hh & Hlen & Hf3 & Hf4).
  assert (Hhas' : has_mapped s tbl (req_file_hash req) t p c) by by rewrite Heq.
  destruct (decide (chunk_good d c i)) as [Hgood|Hbad].
  - pose proof (serve_run fuel junk_hashes junk_hash self fd_data req stale s tbl t p c) as Hserve.
    rewrite Heq in Hserve, Hok. rewrite Heq in Hrun. rewrite Ht, Hsize in Hserve.
    specialize (Hserve Hok Hhas Hgood Hi ltac:(lia) Hj Hf Hf4). unfold wp in Hserve. rewrite Hrun in Hserve.
    destruct Hserve as (w' & -> & [[Hv _]|(fd & v1 & sent1 & (_ & _ & _ & ->) & Hv & _ & Hsent)]).
    { apply kept_silent; [done|by rewrite Hv..]. }
    apply kept_view; [done|by rewrite Hv..|]. intros fd' Hfd'. rewrite Hv. cbn [v_out set_out set_socks].
    destruct (decide (fd' = fd)) as [->|Hne].
    + exists [Packet FILE_DATA (chunk_body h i (chunk (td_size d) c i))]. split.
      * apply Forall_singleton. right. exists i, c. by rewrite Hsize.
      * rewrite append_out_at, (Hsent Hfd'). cbn. by rewrite app_nil_r.
    + exists []. split; [done|]. cbn. rewrite app_nil_r. unfold append_out. destruct (decide _); [done|].
      by rewrite lookup_total_insert_ne.
  - destruct (relay_run fuel junk_hashes junk_hash self fd_data req stale l s tbl) as (w' & Hrun' & Hr); try done.
    { rewrite Heq. right. exists t, p, c. by rewrite Ht. }
    { by rewrite Heq. }
    rewrite Hrun in Hrun'. injection Hrun' as ->.
    pose proof (relayed_view _ _ _ _ _ Hr) as [E1 E2]. apply kept_view; [done..|]. intros fd Hfd.
    destruct (relayed_out _ _ _ _ _ fd Hr Hfd) as (n & Hout & _).
    destruct (right_requests (replicate n req)) as [Hps Hw]; [by apply Forall_replicate|].
    exists (request_packet <$> replicate n req). split; [done|]. by rewrite Hw, fmap_replicate.
Qed.

Lemma store_kept s c i c0 stale : member s c → 0 ≤ i < NUM_CHUNKS → zlen c0 = td_size d →
  ∃ s' c', handle_file_data fuel junk_hashes junk_hash (chunk_body h i (chunk (zlen c0) c0 i) ++ stale) s = Done tt s' ∧
    member s' c' ∧ (∀ j, 0 ≤ j < NUM_CHUNKS → chunk_good d c j → chunk_good d c' j) ∧
    (zget (td_c_hashes d) i = Some (MD5 (chunk (zlen c0) c0 i)) → chunk_good d c' i) ∧
    ∀ q, sent s s' q → right_packet q.
Proof.
  intros Hm Hi Hc0. pose proof (member_size s c Hm) as Hsize.
  pose proof Hm as (tbl & t & p & l & Hhas & Ht & Hl & Hlock & Hf & Hf2).
  destruct Hfits as (Hj & Hh & Hlen & Hf3 & Hf4).
  destruct (stored_chunk fuel junk_hashes junk_hash s tbl h t p c i (chunk (zlen c0) c0 i) stale)
    as (w' & c' & Hrun & Hhas' & Hc' & Hout & Hmono & Hgood); [done..| |].
  { rewrite zlen_chunk by (done || lia). by rewrite Hc0, Hsize. }
  rewrite Ht in Hmono, Hgood. exists (set_os w' s), c'. split_and!; [done|by exists tbl, t, p, l|done|done|].
  intros q (fd & new & Hfd & Hnew & Hq).
  eapply (sent_inv s (set_os w' s) fd new []); [done| |done|done]. cbn. by rewrite Hout, app_nil_r.
Qed.

Lemma acts_kept net s s' c : member s c → Forall right_packet net → acts net s s' → kept s s' c.
Proof.
  intros Hm Hnet Hact. destruct Hact as [self addr r s' Hok Hrun|self fd_data body stale s' Hin Hlen Hrun
    |body stale s' Hin Hlen Hrun|w E1 E2 E3].
  - by eapply ask_kept.
  - eapply Forall_forall in Hin; [|exact Hnet]. destruct Hin as [(i & addr & Hi & Hok & [= ->])|(i & c0 & _ & _ & _ & [=])].
    eapply answer_kept; [done| |exact Hrun]. by exists i, addr.
  - eapply Forall_forall in Hin; [|exact Hnet]. destruct Hin as [(i & addr & _ & _ & [=])|(i & c0 & Hi & Hc0 & _ & [= ->])].
    destruct (store_kept s c i c0 stale Hm Hi Hc0) as (s2 & c' & Hrun2 & Hm2 & Hmono & _ & Hsent).
    rewrite Hrun in Hrun2. injection Hrun2 as <-. by exists c'.
  - by apply kept_silent.
Qed.

Lemma swarm_step_ok sw sw' : swarm_ok sw → swarm_step sw sw' → swarm_ok sw' ∧
  ∀ k s c, sw_clients sw !! k = Some s → member s c → ∃ s' c', sw_clients sw' !! k = Some s' ∧
    member s' c' ∧ ∀ i, 0 ≤ i < NUM_CHUNKS → chunk_good d c i → chunk_good d c' i.
Proof.
  intros [Hall Hnet] Hstep. destruct Hstep as [k s s' net Hk Hact Hsub].
  pose proof (λ c Hm, acts_kept _ s s' c Hm Hnet Hact) as Hkept. pose proof (lookup_lt_Some _ _ _ Hk).
  split; [split; cbn [sw_clients sw_net]|cbn [sw_clients]].
  - intros j s2 [(-> & <- & _)|[Hne Hj]]%list_lookup_insert_Some; [|by eapply Hall].
    destruct (Hall _ _ Hk) as [c Hm]. destruct (Hkept c Hm) as (c' & Hm' & _). by exists c'.
  - destruct (Hall _ _ Hk) as [c Hm]. destruct (Hkept c Hm) as (_ & _ & _ & Hsent).
    apply Forall_forall. intros p [Hp|Hp]%Hsub; [|by apply Hsent]. rewrite Forall_forall in Hnet. by apply Hnet.
  - intros j s2 c Hj Hm. destruct (decide (j = k)) as [->|Hne].
    + simplify_eq. destruct (Hkept c Hm) as (c' & Hm' & Hmono & _). exists s', c'. split; [|done].
      by apply list_lookup_insert_eq.
    + exists s2, c. split; [by rewrite list_lookup_insert_ne|done].
Qed.

Lemma swarm_steps_ok sw sw' : swarm_ok sw → rtc swarm_step sw sw' → swarm_ok sw' ∧
  ∀ k s c, sw_clients sw !! k = Some s → member s c → ∃ s' c', sw_clients sw' !! k = Some s' ∧
    member s' c' ∧ ∀ i, 0 ≤ i < NUM_CHUNKS → chunk_good d c i → chunk_good d c' i.
Proof.
  intros Hok Hrtc. induction Hrtc as [sw|sw sw1 sw2 Hstep _ IH].
  { split; [done|]. intros k s c Hk Hm. by exists s, c. }
  destruct (swarm_step_ok _ _ Hok Hstep) as [Hok1 Hmono]. destruct (IH Hok1) as [Hok2 Hmono2].
  split; [done|]. intros k s c Hk Hm. destruct (Hmono _ _ _ Hk Hm) as (s1 & c1 & Hk1 & Hm1 & Hg1).
  destruct (Hmono2 _ _ _ Hk1 Hm1) as (s2 & c2 & Hk2 & Hm2 & Hg2). exists s2, c2. split_and!; [done|done|auto].
Qed.

(** ** When the network works *)
Definition reliable : Prop := connects (W := W) ∧ ∀ fd, whole_writes (W := W) fd.
(** Every chunk fits in the buffer of a readWorker, behind its header. *)
Definition chunks_fit : Prop := ∀ i, 0 ≤ i < NUM_CHUNKS →
  sizeof_chunk_payload_t + chunk_len (td_size d) i ≤ message_size.
(** Every chunk of a copy has the digest of the definition. *)
Definition whole_copy (c : list Z) : Prop := ∀ i, 0 ≤ i < NUM_CHUNKS →
  zget (td_c_hashes d) i = Some (MD5 (chunk (zlen c) c i)).
Hypothesis Hreliable : reliable.
Hypothesis Hchunks : chunks_fit.

Lemma fill_buffer (body : list Z) : zlen body ≤ message_size → ∃ stale, zlen (body ++ stale) = message_size.
Proof.
  intros Hl. exists (replicate (Z.to_nat (message_size - zlen body)) 0). rewrite zlen_app.
  unfold zlen in *. rewrite length_replicate. lia.
Qed.

(** The seeder answers. *)
Lemma answer_sends net b cb addr i : member b cb → whole_copy cb → 0 ≤ i < NUM_CHUNKS →
  request_ok (request_for h addr i) → request_packet (request_for h addr i) ∈ net →
  ∃ b', acts net b b' ∧ member b' cb ∧ sent b b' (Packet FILE_DATA (chunk_body h i (chunk (zlen cb) cb i))).
Proof.
  intros Hm Hcopy Hi Hok Hin. pose proof (member_size b cb Hm) as Hsize.
  pose proof Hm as (tbl & t & p & l & Hhas & Ht & _ & _ & Hf & _). destruct Hfits as (Hj & Hh & Hlen & _ & Hf4).
  pose proof (zlen_encode_request _ (proj1 Hok)) as Hreq.
  destruct (fill_buffer (encode_request (request_for h addr i))) as [stale Hstale];
    [by rewrite Hreq|].
  assert (Hgood : chunk_good d cb i) by by right; apply Hcopy.
  pose proof (serve_run fuel junk_hashes junk_hash 0 (ClientServer 0 0) _ stale b tbl t p cb Hok Hhas) as Hserve.
  rewrite Ht, Hsize in Hserve. specialize (Hserve Hgood Hi ltac:(lia) Hj Hf Hf4).
  destruct (wp_total _ _ _ Hserve) as ([] & b' & Hrun & w' & -> & Hres).
  destruct Hres as [[_ []]|(fd & v1 & new & (_ & _ & _ & ->) & Hv & _ & Hsent)]; [apply Hreliable|].
  assert (Hright : right_packet (Packet FILE_DATA (chunk_body h i (chunk (zlen cb) cb i))))
    by (right; by exists i, cb).
  exists (set_os w' b). split_and!; [by eapply answers|apply member_view; by rewrite ?Hv|].
  eapply (sent_messages b (set_os w' b) fd [Packet _ _]); [apply Hreliable|by apply Forall_singleton| |by left].
  cbn [cl_os set_os]. rewrite Hv. cbn [v_out set_out set_socks].
  rewrite append_out_at, (Hsent (proj2 Hreliable fd)), Hsize. cbn. by rewrite app_nil_r.
Qed.

Lemma act_step sw k s s' new : sw_clients sw !! k = Some s → acts (sw_net sw) s s' →
  (∀ p, p ∈ new → sent s s' p) → swarm_step sw (Swarm (<[k := s']> (sw_clients sw)) (sw_net sw ++ new)).
Proof.
  intros Hk Hact Hnew. eapply swarm_acts; [done|done|]. intros p [Hp|Hp]%elem_of_app; [by left|right; auto].
Qed.

(** One chunk gets from client [m] to client [k]. *)
Lemma chunk_moves sw k m a ca b cb addr i : swarm_ok sw → k ≠ m →
  sw_clients sw !! k = Some a → member a ca → sw_clients sw !! m = Some b → member b cb → whole_copy cb →
  0 ≤ i < NUM_CHUNKS → request_ok (request_for h addr i) → request_packet (request_for h addr i) ∈ sw_net sw →
  ∃ sw' a' ca' b', rtc swarm_step sw sw' ∧ sw_clients sw' !! k = Some a' ∧ member a' ca' ∧
    (∀ j, 0 ≤ j < NUM_CHUNKS → chunk_good d ca j → chunk_good d ca' j) ∧ chunk_good d ca' i ∧
    sw_clients sw' !! m = Some b' ∧ member b' cb ∧ sw_net sw ⊆ sw_net sw'.
Proof.
  intros Hok Hkm Hk Ha Hm Hb Hcopy Hi Hreq Hin. pose proof (member_size b cb Hb) as Hsize.
  destruct (answer_sends (sw_net sw) b cb addr i) as (b' & Hact & Hb' & Hsent); [done..|].
  set (data := Packet FILE_DATA (chunk_body h i (chunk (zlen cb) cb i))) in *.
  pose proof (act_step sw m b b' [data] Hm Hact) as Hstep.
  set (sw1 := Swarm (<[m := b']> (sw_clients sw)) (sw_net sw ++ [data])) in *.
  assert (Hdata : data ∈ sw_net sw1) by (apply elem_of_app; right; by left).
  destruct (fill_buffer (chunk_body h i (chunk (zlen cb) cb i))) as [stale Hstale].
  { destruct Hfits as (_ & Hh & Hlen & _). rewrite zlen_chunk_body by done.
    rewrite zlen_chunk by (done || lia). rewrite Hsize. by apply Hchunks. }
  destruct (store_kept a ca i cb stale Ha Hi Hsize) as (a' & ca' & Hrun & Ha' & Hmono & Hgood & _).
  pose proof (act_step sw1 k a a' []) as Hstep2. cbn [sw_clients sw1] in Hstep2.
  pose proof (lookup_lt_Some _ _ _ Hk). pose proof (lookup_lt_Some _ _ _ Hm).
  exists (Swarm (<[k := a']> (<[m := b']> (sw_clients sw))) (sw_net sw1 ++ [])), a', ca', b'.
  split_and!; [|cbn|done|done|by apply Hgood, Hcopy|cbn|done|set_solver].
  - eapply rtc_l; [apply Hstep; intros p ->%list_elem_of_singleton; done|].
    apply rtc_once, Hstep2; [by rewrite list_lookup_insert_ne| |by intros p ?%not_elem_of_nil].
    by eapply (stores _ _ (chunk_body h i (chunk (zlen cb) cb i)) stale).
  - apply list_lookup_insert_eq. by rewrite length_insert.
  - rewrite list_lookup_insert_ne by done. by apply list_lookup_insert_eq.
Qed.

(** All chunks that were asked for. *)
Lemma chunks_move k m b cb addr idxs : k ≠ m → member b cb → whole_copy cb →
  request_ok (request_for h addr 0) → Forall (λ i, 0 ≤ i < NUM_CHUNKS) idxs →
  ∀ sw a ca, swarm_ok sw → sw_clients sw !! k = Some a → member a ca →
  (∃ b', sw_clients sw !! m = Some b' ∧ member b' cb) →
  (request_packet <$> (request_for h addr <$> idxs)) ⊆ sw_net sw →
  ∃ sw' a' ca', rtc swarm_step sw sw' ∧ sw_clients sw' !! k = Some a' ∧ member a' ca' ∧
    (∀ j, 0 ≤ j < NUM_CHUNKS → chunk_good d ca j ∨ j ∈ idxs → chunk_good d ca' j).
Proof.
  intros Hkm Hb Hcopy Hreq. induction idxs as [|i idxs IH]; intros Hall sw a ca Hok Hk Ha (b1 & Hm & Hb1) Hnet.
  { exists sw, a, ca. split_and!; [done|done|done|]. intros j _ [|Hj]; [done|]. by apply not_elem_of_nil in Hj. }
  apply Forall_cons in Hall as [Hi Hall].
  destruct (chunk_moves sw k m a ca b1 cb addr i) as (sw1 & a1 & ca1 & b2 & Hr1 & Hk1 & Ha1 & Hmono & Hgood & Hm1 & Hb2 & Hsub);
    [done..|by apply request_ok_index|apply Hnet; by left|].
  destruct (IH Hall sw1 a1 ca1) as (sw2 & a2 & ca2 & Hr2 & Hk2 & Ha2 & Hmono2); [|done|done|by exists b2| |].
  - by apply (swarm_steps_ok sw).
  - intros p Hp. apply Hsub, Hnet. by right.
  - exists sw2, a2, ca2. split_and!; [by trans sw1|done|done|]. intros j Hj Hor. apply Hmono2; [done|].
    destruct Hor as [Hg|[->|Hin]%elem_of_cons]; [left; by apply Hmono|by left|by right].
Qed.

(** A client asks for what it lacks. *)
Lemma ask_sends net a ca l fd addr : member a ca → peers_are (cl_peers a) l → fd ∈ l →
  request_ok (request_for h addr 0) → missing d ca ≠ [] →
  ∃ a', acts net a a' ∧ member a' ca ∧
    ∀ p, p ∈ request_packet <$> (request_for h addr <$> missing d ca) → sent a a' p.
Proof.
  intros Hm Hl Hfd Hok Hne. pose proof Hm as (tbl & t & p & l' & Hhas & Ht & Hl' & Hlock & Hf & Hf2).
  destruct Hfits as (Hj & _ & _ & Hf3 & _).
  assert (Hf4 : (length l < fuel)%nat).
  { destruct Hl as (Hs & _), Hl' as (Hs' & _). unfold zlen in *. lia. }
  pose proof (download_round fuel junk_hashes junk_hash 0 h addr l a tbl t p ca Hhas Hl Hlock Hj Hf Hf3 Hf4) as Hr.
  rewrite Ht, decide_False in Hr by done. destruct Hr as (w' & Hrun & Hr).
  pose proof (requested_view _ _ _ _ Hr) as [E1 E2].
  destruct (requested_out _ _ fd (proj2 Hreliable fd) _ _ Hr) as (rs & Hout & Hsub & Hsup).
  pose proof (missing_requests addr ca Hok) as Hall. rewrite Forall_forall in Hall.
  destruct (right_requests rs) as [Hps Hw]; [apply Forall_forall; auto|].
  exists (set_os w' a). split_and!; [by eapply asks|by apply member_view|].
  intros q (req & -> & Hin)%list_elem_of_fmap.
  apply (sent_messages a (set_os w' a) fd (request_packet <$> rs)); [apply Hreliable|done|by rewrite Hw|].
  apply list_elem_of_fmap. exists req. split; [done|]. by apply Hsup.
Qed.

Lemma download_ends a ca self addr n : member a ca → (∀ i, 0 ≤ i < NUM_CHUNKS → chunk_good d ca i) →
  (0 < n)%nat → iter n (download_body fuel junk_hashes junk_hash self h addr) tt a = Done tt a.
Proof.
  intros (tbl & t & p & l & Hhas & Ht & Hl & Hlock & Hf & Hf2) Hgood%missing_nil Hn.
  destruct Hfits as (Hj & _ & _ & Hf3 & _). rewrite <- Ht in Hgood. destruct n as [|n]; [lia|]. cbn [iter].
  pose proof (download_round fuel junk_hashes junk_hash self h addr l a tbl t p ca Hhas Hl Hlock Hj Hf Hf3 Hf2) as Hr.
  rewrite decide_True in Hr by done. by rewrite (bind_done _ _ _ _ _ Hr).
Qed.

Lemma completes sw k m a b cb l fd addr : swarm_ok sw → request_ok (request_for h addr 0) →
  sw_clients sw !! k = Some a → peers_are (cl_peers a) l → fd ∈ l →
  sw_clients sw !! m = Some b → member b cb → whole_copy cb →
  ∃ sw' a' ca', rtc swarm_step sw sw' ∧ sw_clients sw' !! k = Some a' ∧ member a' ca' ∧
    ∀ i, 0 ≤ i < NUM_CHUNKS → chunk_good d ca' i.
Proof.
  intros Hok Hreq Hk Hl Hfd Hm Hb Hcopy.
  destruct (decide (k = m)) as [->|Hkm].
  { rewrite Hk in Hm. injection Hm as <-. exists sw, a, cb. split_and!; [done|done|done|]. intros i Hi. right. by apply Hcopy. }
  destruct (proj1 Hok k a Hk) as [ca Ha]. destruct (decide (missing d ca = [])) as [Hnil|Hne].
  { exists sw, a, ca. split_and!; [done|done|done|]. by apply missing_nil. }
  destruct (ask_sends (sw_net sw) a ca l fd addr) as (a1 & Hact & Ha1 & Hsent); [done..|].
  pose proof (act_step sw k a a1 _ Hk Hact Hsent) as Hstep. set (sw1 := Swarm _ _) in Hstep.
  pose proof (lookup_lt_Some _ _ _ Hk).
  destruct (chunks_move k m b cb addr (missing d ca) Hkm Hb Hcopy Hreq) with sw1 a1 ca
    as (sw2 & a2 & ca2 & Hr & Hk2 & Ha2 & Hgood); [|by apply (swarm_step_ok sw)| |done| | |].
  - apply Forall_forall. intros i [_ Hi%elem_of_seqZ]%list_elem_of_filter. exact Hi.
  - by apply list_lookup_insert_eq.
  - exists b. split; [|done]. cbn. by rewrite list_lookup_insert_ne.
  - cbn. set_solver.
  - exists sw2, a2, ca2. split_and!; [by eapply rtc_l|done|done|]. intros i Hi. apply Hgood; [done|].
    destruct (decide (chunk_good d ca i)); [by left|right]. apply list_elem_of_filter.
    split; [done|]. by apply elem_of_seqZ.
Qed.
End swarm.

(** ** The properties *)
Section properties.
Context {W : Type} `{OS W, CURSES W, OSViewOf W, !FileLaws W, !SockLaws W, MD5_API, !MD5Laws, !MemoryRoom W}.
Context (fuel : nat) (junk_hashes : list (list Z)) (junk_hash : list Z) (h : list Z) (d : tfile_def_t).
Implicit Types sw : swarm W.
Notation step := (swarm_step fuel junk_hashes junk_hash h).
Notation ok := (swarm_ok fuel h d).
Notation member := (member fuel h d).

(** C5. Among clients that download a file from each other, whatever messages
    are lost, repeated or come late, and in whatever order the clients ask,
    answer, relay and store: every message in the network is a request for
    one of the chunks or a chunk that was good at some client, and no chunk
    that is good at a client is ever lost again. *)
Theorem swarm_keeps_chunks sw sw' : file_fits fuel junk_hashes h d → ok sw → rtc step sw sw' →
  ok sw' ∧
  ∀ k s c, sw_clients sw !! k = Some s → member s c → ∃ s' c', sw_clients sw' !! k = Some s' ∧
    member s' c' ∧ ∀ i, 0 ≤ i < NUM_CHUNKS → chunk_good d c i → chunk_good d c' i.
Proof. intros Hfits. by apply swarm_steps_ok. Qed.

End properties.

(** ** The properties on concrete inputs *)
Module SwarmWitness.
Import Sim HTable.Examples FileExamples ClientWitness ProtocolWitness.
#[local] Existing Instance os_reliable.
#[local] Existing Instance reliable_files.
#[local] Existing Instance reliable_socks.
#[local] Existing Instance reliable_memory.

(** A client whose file is blank and one that has all of it. *)
Definition pair : swarm Sim.world := Swarm [asking; serving] [].

Lemma asking_member : member 400 digest tdef asking blank.
Proof.
  exists mapped, t_file, path, [5; 6; 7].
  split; [exact asking_has|]. split; [done|]. split; [exact asking_peers|]. split; [done|].
  split; by apply Nat.ltb_lt; vm_compute.
Qed.
Lemma serving_member : member 400 digest tdef serving content.
Proof.
  exists mapped, t_file, path, [5; 6; 7].
  split; [exact serving_has|]. split; [done|]. split; [exact peers_ok|]. split; [done|].
  split; by apply Nat.ltb_lt; vm_compute.
Qed.
Lemma pair_ok : swarm_ok 400 digest tdef pair.
Proof.
  split; [|constructor]. intros [|[|k]] s Hk; [| |done].
  - injection Hk as <-. exists blank. exact asking_member.
  - injection Hk as <-. exists content. exact serving_member.
Qed.
Lemma fits : file_fits 400 junk digest tdef.
Proof.
  split; [done|]. split; [done|]. split; [split; by vm_compute|]. split; by apply Nat.ltb_lt; vm_compute.
Qed.
Lemma chunks_small : chunks_fit tdef.
Proof.
  intros i Hi. pose proof (chunk_bounds 300 i ltac:(done) Hi).
  change (td_size tdef) with 300. unfold sizeof_chunk_payload_t, message_size. lia.
Qed.
Lemma content_whole : whole_copy tdef content.
Proof.
  intros i Hi. assert (Hall : Forall (λ i, zget (td_c_hashes tdef) i = Some (MD5 (chunk 300 content i))) (seqZ 0 8)).
  { apply (bool_decide_unpack (Forall _ _)). by vm_compute. }
  rewrite Forall_forall in Hall. apply Hall. by apply elem_of_seqZ.
Qed.
Lemma network : reliable (W := Sim.world).
Proof.
  split.
  2: { intros fd buf w. cbn. unfold write_all. pose proof (zlen_nonneg buf).
       destruct (Z.ltb_spec 0 (zlen buf)); cbn; lia. }
  intros a len w. unfold socket_connect_addr. apply wp_bind, wp_sys. intros fd w1 [= <- <-].
  pose proof (fresh_fd_spec w) as (Hfd & _ & _). rewrite (proj2 (Z.eqb_neq _ _)) by lia.
  apply wp_bind, wp_sys. intros rc w2 [= <- <-]. apply wp_ret. lia.
Qed.

(** The blank client has asked for all chunks; of what it sent only the request
    for chunk 2 got through. *)
Definition asked : client Sim.world :=
  match download_body 400 junk zero_hash 1 digest addr tt asking with Done _ s => s | Stop _ => asking end.
Definition pair_asked : swarm Sim.world := Swarm [asked; serving] [request_packet req].

Lemma pair_asks : swarm_step 400 junk zero_hash digest pair pair_asked.
Proof.
  apply (swarm_acts _ _ _ _ pair 0 asking asked [request_packet req] eq_refl).
  - apply (asks _ _ _ _ _ _ 1 addr (inl tt)); [|by vm_compute].
    by apply (bool_decide_unpack (request_ok _)); vm_compute.
  - intros p ->%list_elem_of_singleton. right. exists 6, (v_out (os_view (cl_os asked)) !!! 6).
    split; [apply network|]. split; [by vm_compute|].
    apply (bool_decide_unpack (_ ∈ _)). by vm_compute.
Qed.

Lemma swarm_keeps_chunks_witness :
  swarm_ok 400 digest tdef pair_asked ∧
  ∀ k s c, sw_clients pair !! k = Some s → member 400 digest tdef s c →
    ∃ s' c', sw_clients pair_asked !! k = Some s' ∧ member 400 digest tdef s' c' ∧
    ∀ i, 0 ≤ i < NUM_CHUNKS → chunk_good tdef c i → chunk_good tdef c' i.
Proof.
  apply (swarm_keeps_chunks 400 junk zero_hash digest tdef pair pair_asked fits pair_ok).
  eapply rtc_l; [exact pair_asks|constructor].
Defined.

End SwarmWitness.
