(* ===== verification/System.v ===== *)
(** * The client as a system

    The rounds of the client's threads as the steps of one transition system:
    a message handled by a readWorker, a connection, a share, a round of a
    download, a round of the interface, and anything the rest of the machine
    does to the world.  The invariant says what holds between the rounds, and
    that no tfile that is known is ever forgotten or changed. *)
From stdpp Require Import relations.
From S2P Require Import Prelude OS Sim HTable File Message Socket Peers Curses Ui Wire Client Adapter Main Evolve.

(** ** The client between the rounds *)
Definition Inv {W} (s : client W) : Prop :=
  table_ok (cl_ht s) ∧ peers_ok (cl_peers s) ∧ u_lock (cl_ui s) = None.
Definition remembers {W} (s s' : client W) : Prop :=
  (∀ h d, known (cl_ht s) h d → known (cl_ht s') h d) ∧ cl_threads s `prefix_of` cl_threads s'.
Definition sound {W} (s s' : client W) : Prop := Inv s → Inv s' ∧ remembers s s'.

#[export] Instance sound_preorder W : PreOrder (@sound W).
Proof.
  split; [by intros s Hs|]. intros s1 s2 s3 H1 H2 Hs.
  destruct (H1 Hs) as (Hs2 & K1 & P1), (H2 Hs2) as (Hs3 & K2 & P2).
  split; [done|]. split; [auto|by etrans].
Qed.

(** ** The client at any moment

    The mutex of the peers may be held; everything else is as between the
    rounds. *)
Definition peers_good (p : peers_t) : Prop :=
  p_capacity p = 100 ∧ (arr_len p ≤ 200)%nat ∧ ∃ l, peers_are p l.
Definition good {W} (s : client W) : Prop :=
  table_ok (cl_ht s) ∧ peers_good (cl_peers s) ∧ u_lock (cl_ui s) = None.

Lemma Inv_good {W} (s : client W) : Inv s ↔ good s ∧ p_lock (cl_peers s) = None.
Proof. unfold Inv, good, peers_ok, peers_good. tauto. Qed.

(** The peers are left alone, and the rest stays good. *)
Definition calm {W} (s s' : client W) : Prop :=
  good s → good s' ∧ remembers s s' ∧ cl_peers s' = cl_peers s.

#[export] Instance calm_preorder W : PreOrder (@calm W).
Proof.
  split; [by intros s Hs|]. intros s1 s2 s3 H1 H2 Hs.
  destruct (H1 Hs) as (Hs2 & [K1 P1] & E1), (H2 Hs2) as (Hs3 & [K2 P2] & E2).
  split; [done|]. split; [split; [auto|by etrans]|congruence].
Qed.
Lemma calm_sound {W} (s s' : client W) : calm s s' → sound s s'.
Proof. unfold sound. rewrite !Inv_good. intros Hc [Hs Hl]. destruct (Hc Hs) as (Hs' & Hr & ->). done. Qed.

Section calm.
Context {W : Type} `{OS W, MD5_API, CURSES W}.
Implicit Types (s : client W).

Lemma calm_world {A} (m : M W A) : respects calm (on_world m).
Proof. intros s. apply wp_zoom, wp_any. intros a w Hs. by split. Qed.
Lemma calm_ustore {A} (m : M (ustore W) A) : respects ui_kept m → respects calm (on_ustore m).
Proof.
  apply respects_zoom. intros s t Ht (Htbl & Hp & Hu). split; [|by split].
  split_and!; [done|done|by apply Ht].
Qed.
Lemma calm_store {A} (m : M (store W) A) : respects (grows None) m → respects calm (on_store m).
Proof.
  apply respects_zoom. intros s t Ht (Htbl & Hp & Hu).
  destruct (Ht Htbl I) as (Htbl' & Hk & _). by split.
Qed.
Lemma calm_keeps {A} (m : M (store W) A) : preserves st_ht m → respects calm (on_store m).
Proof. intros Hm. by apply calm_store, grows_preserves. Qed.
Lemma calm_create t : respects calm (pthread_create (W := W) t).
Proof. intros s. apply wp_modify. intros Hs. split; [done|]. split; [|done]. split; [done|by eexists]. Qed.
Lemma calm_peers {A} (m : M (pstore W) A) : preserves ps_peers m → respects calm (on_peers m).
Proof.
  intros Hm s. apply wp_zoom. eapply wp_conseq; [apply Hm|]. intros a t Ht. cbn in Ht. intros Hs.
  unfold good. cbn. rewrite Ht. by split.
Qed.
Lemma calm_get_peers : respects calm (on_peers (W := W) get_peers).
Proof. apply calm_peers. unfold get_peers. solve_preserves. Qed.
Lemma calm_peer_at i : respects calm (on_peers (W := W) (peer_at i)).
Proof. apply calm_peers. unfold peer_at, peer_cell, get_peers. solve_preserves. Qed.
#[local] Hint Resolve calm_world calm_create : respects.
Lemma calm_malloc n : respects calm (malloc_unchecked (W := W) n).
Proof. unfold malloc_unchecked. solve_respects. Qed.

Context (fuel : nat) (junk_hashes : list (list Z)) (junk_hash : list Z).

Lemma calm_verify h : respects calm (on_store (verify_tfile (W := W) fuel h junk_hashes junk_hash)).
Proof. apply calm_keeps, ht_verify. Qed.
Lemma calm_list : respects calm (on_store (list_tfiles (W := W) fuel)).
Proof. apply calm_keeps, ht_list. Qed.
Lemma calm_open h c : respects calm (on_store (open_tfile (W := W) fuel h c)).
Proof. apply calm_store, grows_open. Qed.
Lemma calm_save h : respects calm (on_store (save_tfile (W := W) fuel h)).
Proof. apply calm_store, grows_save. Qed.
Lemma calm_search h : respects calm (on_store (search_htable (W := W) fuel h)).
Proof. apply calm_keeps, ht_search. Qed.
Lemma calm_slot i : respects calm (on_store (slot (W := W) i)).
Proof. apply calm_keeps, ht_slot. Qed.
Lemma calm_add `{!MemoryRoom W} d : (256 < fuel)%nat → tdef_typed d →
  respects calm (on_store (add_htable (W := W) fuel d)).
Proof. intros Hf Hd. by apply calm_store, grows_add. Qed.
Lemma calm_display self n m : respects calm (on_ustore (W := W) (ui_display self n m)).
Proof. apply calm_ustore, ui_insert_m. Qed.
Lemma calm_ui_exit self : respects calm (on_ustore (W := W) (ui_exit self)).
Proof. apply calm_ustore, ui_exit_kept. Qed.
Lemma calm_ui {A} (m : M (ustore W) A) : preserves ulock m → respects calm (on_ustore m).
Proof. intros Hm. by apply calm_ustore, ui_preserves. Qed.
End calm.
#[export] Hint Resolve calm_world calm_create calm_get_peers calm_peer_at calm_malloc calm_verify calm_list
  calm_open calm_save calm_search calm_slot calm_add calm_display calm_ui_exit : respects.

Section interface.
Context {W : Type} `{OS W, MD5_API, CURSES W}.
Context (fuel : nat) (junk_hashes : list (list Z)) (junk_hash : list Z).

(** A round of the interface, with the callbacks of ui_adapter.c. *)
Lemma calm_files : respects calm (ui_list_network_files (W := W) fuel).
Proof. unfold ui_list_network_files. solve_respects; apply calm_ui, ulock_strdup. Qed.
Lemma calm_input self text :
  respects calm (ui_input_handler (W := W) fuel junk_hashes junk_hash self text).
Proof. unfold ui_input_handler, input_body. solve_respects. Qed.
#[local] Hint Resolve calm_files calm_input : respects.

(** client.c runs the interface on its own state. *)
Definition ui_round (self : tid) : M (client W) (unit + unit) :=
  run_body get_ustore set_ustore (ui_list_network_files fuel)
    (λ text, ui_input_handler fuel junk_hashes junk_hash self (Some text)) fuel self tt.
Lemma calm_ui_round self : respects calm (ui_round self).
Proof.
  assert (Hui : ∀ A (m : M (ustore W) A), preserves ulock m → respects calm (on_ui get_ustore set_ustore m))
    by (intros A m; apply calm_ui).
  unfold ui_round, run_body, on_enter, show_files.
  solve_respects; intros; first [apply (calm_ustore _ (ui_drain fuel self)) | apply Hui; solve_ulock].
Qed.
End interface.

(** ** Whole rounds, from a free mutex to a free mutex *)
Section client.
Context {W : Type} `{OS W, MD5_API, CURSES W, !MemoryRoom W}.
Implicit Types (s : client W).
Context (fuel : nat) (Hfuel : (256 < fuel)%nat).

Lemma sound_intro {A} (m : M (client W) A) :
  (∀ s, Inv s → wp m (λ _ s', Inv s' ∧ remembers s s') (λ _, True) s) → respects sound m.
Proof. intros Hm s. specialize (Hm s). unfold wp in *. destruct (m s); [|done]. intros Hs. auto. Qed.

Lemma sound_calm {A} (m : M (client W) A) : respects calm m → respects sound m.
Proof. intros Hm s. eapply wp_conseq; [apply Hm|]. intros a s'. apply calm_sound. Qed.
#[local] Hint Extern 1 (respects sound _) => (apply sound_calm; solve [eauto with respects]) : respects.
Lemma sound_peers {A} (m : M (pstore W) A) : respects peers_kept m → respects sound (on_peers m).
Proof.
  apply respects_zoom. intros s t Ht (Htbl & Hp & Hu). split; [|by split].
  split_and!; [done|by apply Ht|done].
Qed.
Lemma sound_table s s' : evolves (cl_ht s) (cl_ht s') → peers_ok (cl_peers s') → u_lock (cl_ui s') = None →
  cl_threads s' = cl_threads s → Inv s' ∧ remembers s s'.
Proof. intros (Ht & Hk & _) Hp Hu Hth. split; [done|]. split; [done|by rewrite Hth]. Qed.

(** The mutex of the peers: while it is held nothing but the world changes,
    and [remove_peer] does not return. *)
Definition core s : htable_t * peers_t * ui_t * list thread := (cl_ht s, cl_peers s, cl_ui s, cl_threads s).
Definition quiet {A} (self : tid) (m : M (client W) A) : Prop := ∀ s,
  p_lock (cl_peers s) = Some self → wp m (λ _ s', core s' = core s) (λ _, True) s.
Definition held {A} (self : tid) (m : M (client W) A) : Prop := ∀ s,
  p_lock (cl_peers s) = Some self →
  wp m (λ _ s', core s' = (cl_ht s, set_lock None (cl_peers s), cl_ui s, cl_threads s)) (λ _, True) s.

Lemma quiet_keeps {A} self (m : M (client W) A) : preserves core m → quiet self m.
Proof. intros Hm s _. apply Hm. Qed.
Lemma quiet_bind {A B} self (m : M (client W) A) (k : A → M (client W) B) :
  quiet self m → (∀ a, quiet self (k a)) → quiet self (m ≫= k).
Proof.
  intros Hm Hk s Hs. apply wp_bind. eapply wp_conseq; [by apply Hm|]. intros a s1 Hs1.
  eapply wp_conseq; [apply Hk|].
  - unfold core in Hs1. by injection Hs1 as _ -> _ _.
  - intros b s2 Hs2. by rewrite Hs2.
Qed.
Lemma quiet_for_each {B} self (l : list B) (g : B → M (client W) unit) :
  (∀ x, quiet self (g x)) → quiet self (for_each l g).
Proof.
  intros Hg. induction l as [|x l IH]; cbn [for_each]; [by intros s|]. by apply quiet_bind.
Qed.
Lemma quiet_when self b (m : M (client W) unit) : quiet self m → quiet self (when b m).
Proof. destruct b; [done|by intros _ s]. Qed.
Lemma quiet_remove n self peer : quiet self (on_peers (remove_peer n self peer)).
Proof. intros s Hs. unfold wp. by rewrite remove_peer_held. Qed.
Lemma quiet_remove_all n self l : quiet self (on_peers (remove_peers n self l)).
Proof.
  destruct l as [|x l]; [intros s Hs; cbn; by destruct s|]. intros s Hs. unfold wp.
  rewrite (on_peers_stop _ Deadlock); [done|]. unfold remove_peers. cbn [for_each]. apply bind_stop.
  unfold remove_peer. apply bind_stop. unfold lock_peers, mbind, M_bind. cbn. by rewrite Hs, Z.eqb_refl.
Qed.
Lemma held_unlock self : held self (on_peers unlock_peers).
Proof. intros s _. by apply wp_zoom, wp_modify. Qed.
Lemma held_bind {A B} self (m : M (client W) A) (k : A → M (client W) B) :
  quiet self m → (∀ a, held self (k a)) → held self (m ≫= k).
Proof.
  intros Hm Hk s Hs. apply wp_bind. eapply wp_conseq; [by apply Hm|]. intros a s1 Hs1.
  unfold core in Hs1. injection Hs1 as E1 E2 E3 E4. rewrite <- E1, <- E2, <- E3, <- E4 in *. by apply Hk.
Qed.
Lemma sound_locked {A} self (k : M (client W) A) :
  held self k → respects sound (_ ← on_peers (lock_peers self); k).
Proof.
  intros Hk. apply sound_intro. intros s (Htbl & Hp & Hu). pose proof (proj1 Hp) as Hl.
  apply wp_bind. eapply wp_of_run; [by apply lock_run|]. eapply wp_conseq; [by apply Hk|].
  intros a s' Hs'. unfold core in Hs'. injection Hs' as E1 E2 E3 E4. cbn in *.
  assert (E5 : cl_peers s' = cl_peers s) by (rewrite E2; clear -Hl; destruct (cl_peers s); cbn in *; by subst).
  split; [split_and!; congruence|]. split; [intros h d; by rewrite E1|by rewrite E4].
Qed.

Lemma core_world {A} (m : M W A) : preserves core (on_world m).
Proof. by apply preserves_zoom. Qed.
Lemma core_peers_read {A} (m : M (pstore W) A) : preserves ps_peers m → preserves core (on_peers m).
Proof.
  intros Hm s. apply wp_zoom. eapply wp_conseq; [apply Hm|]. intros a t Ht. cbn in Ht. unfold core. cbn. by rewrite Ht.
Qed.
Lemma core_get_peers : preserves core (on_peers (W := W) get_peers).
Proof. apply core_peers_read. unfold get_peers. solve_preserves. Qed.
Lemma core_peer_at i : preserves core (on_peers (W := W) (peer_at i)).
Proof. apply core_peers_read. unfold peer_at, peer_cell, get_peers. solve_preserves. Qed.
#[local] Hint Resolve core_world core_get_peers core_peer_at : preserves.

(** ** The threads' rounds are sound *)
Lemma sound_broadcast self skip req : respects sound (broadcast (W := W) fuel self skip req).
Proof.
  unfold broadcast. apply sound_locked. apply held_bind; [|intros _; apply held_unlock].
  apply quiet_keeps. unfold broadcast_body. solve_preserves.
Qed.
Lemma sound_share_tfile self tfile sender :
  respects sound (share_tfile_to_peers (W := W) fuel self tfile sender).
Proof.
  unfold share_tfile_to_peers. apply sound_locked. apply held_bind.
  - apply quiet_keeps. unfold share_body. solve_preserves.
  - intros l. apply held_bind; [apply quiet_remove_all|intros _; apply held_unlock].
Qed.
Lemma sound_share_tfiles self arr count peer :
  respects sound (share_tfiles_to_peer (W := W) fuel self arr count peer).
Proof.
  unfold share_tfiles_to_peer. apply sound_locked. apply held_bind; [|intros _; apply held_unlock].
  apply quiet_for_each. intros i. repeat (apply quiet_bind; [apply quiet_keeps; solve_preserves|intros ?]).
  apply quiet_when, quiet_remove.
Qed.

Context (junk_hashes : list (list Z)) (junk_hash : list Z) (junk_len : Z).

Lemma sound_add_peer self fd : respects sound (on_peers (W := W) (add_peer self fd)).
Proof. apply sound_peers, add_peer_kept. Qed.
Lemma sound_remove_peer self fd : respects sound (on_peers (W := W) (remove_peer fuel self fd)).
Proof. apply sound_peers, remove_peer_kept. lia. Qed.
#[local] Hint Resolve sound_add_peer sound_remove_peer sound_broadcast : respects.

Lemma sound_addr_self self fd_data : respects sound (handle_addr_self (W := W) fuel junk_len self fd_data).
Proof. unfold handle_addr_self. solve_respects. Qed.
Lemma sound_tfile_def fd_data buf : tdef_typed (decode_tdef buf) →
  respects sound (handle_tfile_def (W := W) fuel fd_data buf).
Proof. intros Hd. unfold handle_tfile_def. solve_respects. Qed.
Lemma sound_send_chunk fd h c : respects sound (send_chunk_message (W := W) fuel fd h c).
Proof. unfold send_chunk_message. solve_respects. Qed.
#[local] Hint Resolve sound_send_chunk : respects.
Lemma sound_request self fd_data buf :
  respects sound (handle_request (W := W) fuel junk_hashes junk_hash self fd_data buf).
Proof. unfold handle_request. solve_respects. Qed.
Lemma sound_file_data buf : respects sound (handle_file_data (W := W) fuel junk_hashes junk_hash buf).
Proof. unfold handle_file_data. solve_respects. Qed.
Lemma sound_connect self fd : respects sound (connect_body (W := W) fuel self fd).
Proof. unfold connect_body. solve_respects. Qed.
Lemma sound_download self h addr :
  respects sound (download_body (W := W) fuel junk_hashes junk_hash self h addr tt).
Proof. unfold download_body. solve_respects. Qed.
Lemma sound_finish self h fd : respects sound (download_finish (W := W) fuel self h fd).
Proof. unfold download_finish. solve_respects. Qed.

Lemma sound_ui_round self : respects sound (ui_round (W := W) fuel junk_hashes junk_hash self).
Proof. apply sound_calm, calm_ui_round. Qed.
End client.

(** ** The transition system

    What a thread does between two points where another may run. *)
Inductive activity : Type :=
  | DropPeer (self : tid) (peer : Z)
  | AddrSelf (self : tid) (fd_data : client_server_t)
  | TfileDef (fd_data : client_server_t) (buf : list Z)
  | Request (self : tid) (fd_data : client_server_t) (buf : list Z)
  | FileData (buf : list Z)
  | Accept (self : tid) (fd : Z)
  | ShareTfile (self : tid) (tfile : tfile_def_t) (sender : Z)
  | ShareTfiles (self : tid) (tfile_arr : list tfile_def_t) (count peer : Z)
  | DownloadRound (self : tid) (file_hash : list Z) (return_addr : sockaddr_in)
  | DownloadEnd (self : tid) (file_hash : list Z) (server_fd : Z)
  | Generate (tdef : tfile_def_t) (file_path name : list Z)
  | UiRound (self : tid).

Section transitions.
Context {W : Type} `{OS W, MD5_API, CURSES W}.
Context (fuel : nat) (junk_hashes : list (list Z)) (junk_hash : list Z) (junk_len : Z).

Definition ignore {S A} (m : M S A) : M S unit := _ ← m; mret tt.
Definition perform (a : activity) : M (client W) unit :=
  match a with
  | DropPeer self peer => on_peers (remove_peer fuel self peer)
  | AddrSelf self fd_data => ignore (handle_addr_self fuel junk_len self fd_data)
  | TfileDef fd_data buf => handle_tfile_def fuel fd_data buf
  | Request self fd_data buf => handle_request fuel junk_hashes junk_hash self fd_data buf
  | FileData buf => handle_file_data fuel junk_hashes junk_hash buf
  | Accept self fd => connect_body fuel self fd
  | ShareTfile self tfile sender => share_tfile_to_peers fuel self tfile sender
  | ShareTfiles self tfile_arr count peer => share_tfiles_to_peer fuel self tfile_arr count peer
  | DownloadRound self file_hash return_addr =>
      ignore (download_body fuel junk_hashes junk_hash self file_hash return_addr tt)
  | DownloadEnd self file_hash server_fd => download_finish fuel self file_hash server_fd
  | Generate tdef file_path name => ignore (on_store (generate_tfile fuel tdef file_path name))
  | UiRound self => ignore (ui_round fuel junk_hashes junk_hash self)
  end.

(** A definition that comes in from a peer is one of the C type, as all that
    is read from bytes is ([wire_typed]); one made from a file also has a hash
    that is not zero.  Nothing else is asked of an activity. *)
Definition admissible (s : client W) (a : activity) : Prop :=
  match a with
  | TfileDef _ buf => tdef_typed (decode_tdef buf)
  | Generate tdef file_path name => ∀ r t,
      generate_tfile fuel tdef file_path name (Store (cl_ht s) (cl_os s)) = Done r t → sane r.2
  | _ => True
  end.

(** A step of the program, or anything else that happens on the machine. *)
Inductive step (s : client W) : client W → Prop :=
  | step_activity a s' : admissible s a → perform a s = Done tt s' → step s s'
  | step_world w : step s (set_os w s).

Lemma on_world_inv {A} (m : M W A) a s s' : on_world m s = Done a s' →
  ∃ w, s' = set_os w s ∧ m (cl_os s) = Done a w.
Proof. unfold on_world, zoom. destruct (m _) as [b w|]; [|done]. intros [= -> <-]. by exists w. Qed.
Lemma ignore_run {A} (m : M (client W) A) s s' : ignore m s = Done tt s' → ∃ a, m s = Done a s'.
Proof. unfold ignore, mbind, M_bind. destruct (m s); [|done]. intros [= ->]. eauto. Qed.

Context `{!MemoryRoom W} (Hfuel : (256 < fuel)%nat).

Lemma respects_run {A} (R : relation (client W)) (m : M (client W) A) a s s' :
  respects R m → m s = Done a s' → R s s'.
Proof. intros Hm Hrun. specialize (Hm s). unfold wp in Hm. by rewrite Hrun in Hm. Qed.

Lemma generate_sound tdef path name s s' : admissible s (Generate tdef path name) →
  perform (Generate tdef path name) s = Done tt s' → sound s s'.
Proof.
  intros Hadm [r Hrun]%ignore_run (Ht & Hp & Hu). cbn in Hadm.
  pose proof (stores_generate fuel tdef path name Hfuel (Store (cl_ht s) (cl_os s)) Ht) as Hst.
  unfold on_store, zoom, wp in *. destruct (generate_tfile _ _ _ _ _) as [r' t|]; [|done].
  injection Hrun as -> <-. apply sound_table; [|done..]. by eapply Hst, Hadm.
Qed.

Lemma step_sound s s' : step s s' → sound s s'.
Proof.
  intros [a s1 Hadm Hrun|w]; [|by intros Hs].
  destruct a; [..|by eapply generate_sound|]; cbn [perform] in Hrun;
    try (apply ignore_run in Hrun as [? Hrun]); eapply respects_run, Hrun.
  - apply sound_remove_peer, Hfuel.
  - by apply sound_addr_self.
  - by apply sound_tfile_def.
  - by apply sound_request.
  - by apply sound_file_data.
  - by apply sound_connect.
  - by apply sound_share_tfile.
  - by apply sound_share_tfiles.
  - by apply sound_download.
  - by apply sound_finish.
  - by apply sound_ui_round.
Qed.

Lemma start_inv s0 s1 : cl_peers s0 = initial_peers → cl_ui s0 = initial_ui →
  init s0 = Done tt s1 → Inv s1.
Proof.
  intros Hp Hu Hrun. destruct (init_htable_wf (cl_ht s0) (cl_os s0)) as (w1 & Hi & Hwf & _).
  unfold init in Hrun. unfold on_store at 1, zoom, mbind at 1, M_bind at 1 in Hrun. rewrite Hi in Hrun.
  unfold on_peers, zoom, realloc_peers, peers_os, sys, mbind, M_bind in Hrun. cbn in Hrun.
  rewrite Hp in Hrun. unfold zoom in Hrun. cbn in Hrun.
  destruct (os_malloc _ w1) as [ok w2] eqn:Hm. pose proof (law_malloc_ok (wrapu 64 (100 * sizeof_peer_fd_t)) w1) as Hok.
  rewrite Hm in Hok. cbn in *. subst ok. injection Hrun as <-. split_and!; [|split_and!|]; cbn.
  - exists (replicate 256 zero_tfile). split_and!; [done..|]. apply Forall_replicate, zero_tdef_typed.
  - done.
  - done.
  - cbv. lia.
  - exists []. split_and!; [done|done|]. by eexists.
  - by rewrite Hu.
Qed.
End transitions.

Section properties.
Context {W : Type} `{OS W, MD5_API, CURSES W, !MemoryRoom W}.
Context (fuel : nat) (junk_hashes : list (list Z)) (junk_hash : list Z) (junk_len : Z).
Implicit Types (s : client W).

Notation step := (step fuel junk_hashes junk_hash junk_len).
Notation perform := (perform fuel junk_hashes junk_hash junk_len).

(** However the rounds of the client's threads are interleaved after the
    start of main, and whatever the rest of the machine does in between, as
    long as no file's digest is zero: the table is well formed with at most 129 tfiles, the peer list is an
    unlocked array of at most 200, no round that ends leaves a mutex locked,
    and a tfile that was known in one state is known with the same definition
    in all later ones.  A round that does not end (a share after a failed
    send, the 130th tfile) or is undefined is no step. *)
Theorem client_invariant s0 s1 s2 : (256 < fuel)%nat →
  cl_peers s0 = initial_peers → cl_ui s0 = initial_ui → init s0 = Done tt s1 →
  rtc step s1 s2 →
  Inv s2 ∧ ∀ s3, rtc step s2 s3 → remembers s2 s3.
Proof.
  intros Hf Hp Hu Hstart Hsteps.
  assert (Hrtc : ∀ s s', rtc step s s' → sound s s').
  { induction 1 as [s|s x s' Hstep _ IH]; [reflexivity|]. etrans; [by eapply step_sound|done]. }
  assert (Hs2 : Inv s2) by (apply (Hrtc s1 s2 Hsteps); by eapply start_inv).
  split; [done|]. intros s3 H3. by apply Hrtc.
Qed.

(** The activities that answer a message of a type. *)
Definition answers (self : tid) (fd_data : client_server_t) (type : option Z) (a : activity) : Prop :=
  match a with
  | DropPeer t peer => t = self ∧ peer = client_fd fd_data
  | AddrSelf t d => t = self ∧ d = fd_data ∧ type = Some REQUEST_ADDR_SELF
  | TfileDef d _ => d = fd_data ∧ type = Some TFILE_DEF
  | Request t d _ => t = self ∧ d = fd_data ∧ type = Some REQUEST_FILE_DATA
  | FileData _ => type = Some FILE_DATA
  | _ => False
  end.

(** A round of [readWorker] is the receiving of a message, which changes
    nothing but the world, followed by at most one activity of the transition
    system: the handler of the message's type, or the removal of the peer. *)
Theorem read_body_activity self fd_data data s r s' :
  read_body fuel junk_hashes junk_hash junk_len self fd_data data s = Done r s' →
  ∃ rc oinfo w1, incoming_message_info (server_fd fd_data) (cl_os s) = Done (rc, oinfo) w1 ∧
  ∃ w, s' = set_os w s ∨
       ∃ a, answers self fd_data (mi_type <$> oinfo) a ∧ perform a (set_os w s) = Done tt s'.
Proof.
  unfold read_body. intros ([rc oinfo] & s1 & Hinfo & Hrun)%bind_Done_inv.
  apply on_world_inv in Hinfo as (w & -> & Hinfo). exists rc, oinfo, w. split; [done|].
  assert (Hend : ∀ w' (x : option (list Z) + unit),
    (_ ← on_peers (remove_peer fuel self (client_fd fd_data)); mret x) (set_os w' s) = Done r s' →
    ∃ w, s' = set_os w s ∨
         ∃ a, answers self fd_data (mi_type <$> oinfo) a ∧ perform a (set_os w s) = Done tt s').
  { intros w' x ([] & s2 & Hrm & [= <- <-])%bind_Done_inv. exists w'. right.
    by exists (DropPeer self (client_fd fd_data)). }
  destruct rc as [|?|?]; [|by eapply Hend..]. destruct oinfo as [info|]; [|by eapply Hend].
  apply bind_Done_inv in Hrun as (r1 & s1 & (w2 & -> & _)%on_world_inv & Hrun).
  change (set_os w2 (set_os w s)) with (set_os w2 s) in Hrun.
  destruct (negb _); [by eapply Hend|].
  destruct (Z.eqb_spec (mi_type info) REQUEST_ADDR_SELF) as [Haddr|_].
  - apply bind_Done_inv in Hrun as (go & s2 & Hgo & [= <- <-]). exists w2. right.
    exists (AddrSelf self fd_data). split; [cbn; by rewrite Haddr|].
    cbn [perform]. unfold ignore. by rewrite (bind_done _ _ _ _ _ Hgo).
  - apply bind_Done_inv in Hrun as (buf & s2 & Hbuf & Hrun).
    assert (s2 = set_os w2 s) as -> by (destruct data; [by injection Hbuf|done]).
    apply bind_Done_inv in Hrun as ([] & s3 & Hrun & [= <- <-]). exists w2.
    destruct (Z.eqb_spec (mi_type info) TFILE_DEF) as [Ht|_];
      [right; exists (TfileDef fd_data buf); split; [cbn; by rewrite Ht|done]|].
    destruct (Z.eqb_spec (mi_type info) REQUEST_FILE_DATA) as [Ht|_];
      [right; exists (Request self fd_data buf); split; [cbn; by rewrite Ht|done]|].
    destruct (Z.eqb_spec (mi_type info) FILE_DATA) as [Ht|_];
      [right; exists (FileData buf); split; [cbn; by rewrite Ht|done]|].
    left. by injection Hrun.
Qed.
End properties.

(** ** The properties on concrete inputs *)
Module SystemWitness.
Import Sim HTable.Examples FileExamples.

(** A world with a peer at descriptor 5 that has sent a definition. *)
Definition message : list Z := encode_info (message_info TFILE_DEF sizeof_tfile_def_t) ++ encode_tdef (def 9).
Definition net : Sim.world := World (OSView ∅ ∅ ∅ {[5]} {[5 := message]} ∅) 1000 ∅.
Definition fresh : client Sim.world :=
  Client (HTable 0 0 None) initial_peers initial_ui (SockData 0 None) [] net.
Definition fd_data : client_server_t := ClientServer 5 0.
Definition after (m : M (client Sim.world) unit) (s : client Sim.world) : client Sim.world :=
  match m s with Done _ s' => s' | Stop _ => s end.
Definition act : activity → M (client Sim.world) unit := perform 300 junk zero_hash 16.
Definition started : client Sim.world := after init fresh.
Definition told : client Sim.world := after (act (TfileDef fd_data (encode_tdef (def 9)))) started.

Lemma client_invariant_witness :
  cl_threads told = [RunShareTfile (def 9) 5] ∧ known (cl_ht told) (hash 9) (def 9) ∧
  Inv told ∧ ∀ s3, rtc (step 300 junk zero_hash 16) told s3 → remembers told s3.
Proof.
  split; [by vm_compute|]. split; [by eexists _, _; vm_compute|].
  apply (client_invariant 300 junk zero_hash 16 fresh started told);
    [by apply Nat.ltb_lt; vm_compute|done|done|by vm_compute|].
  apply rtc_once, (step_activity _ _ _ _ _ (TfileDef fd_data (encode_tdef (def 9)))); [|by vm_compute].
  by apply (bool_decide_unpack (tdef_typed _)); vm_compute.
Defined.

Definition round : outcome (client Sim.world) (option (list Z) + unit) :=
  read_body 300 junk zero_hash 16 1 fd_data (Some (replicate 300 0)) started.
Definition handled : client Sim.world := match round with Done _ s => s | Stop _ => started end.

Lemma read_body_activity_witness : cl_threads handled = [RunShareTfile (def 9) 5] ∧ ∃ r,
  read_body 300 junk zero_hash 16 1 fd_data (Some (replicate 300 0)) started = Done r handled ∧
  ∃ rc oinfo w1, incoming_message_info (server_fd fd_data) (cl_os started) = Done (rc, oinfo) w1 ∧
  ∃ w, handled = set_os w started ∨
       ∃ a, answers 1 fd_data (mi_type <$> oinfo) a ∧
            perform 300 junk zero_hash 16 a (set_os w started) = Done tt handled.
Proof.
  split; [by vm_compute|]. assert (Hrun : ∃ r, round = Done r handled).
  { unfold handled. destruct round as [r s|e] eqn:Hr; [by eexists|]. by vm_compute in Hr. }
  destruct Hrun as [r Hrun]. exists r. split; [exact Hrun|].
  exact (read_body_activity 300 junk zero_hash 16 1 fd_data (Some (replicate 300 0)) started r handled Hrun).
Defined.
End SystemWitness.
