(* ===== verification/Proc.v ===== *)
(** * Programs as sequences of actions

    A thread's function as a tree of atomic actions on the shared state: what
    it does when it is run alone ([run]), compared with an operation of the
    state monad by pointwise equality.  [Race.v] and [Pool.v] interleave such
    programs. *)
From stdpp Require Import relations.
From S2P Require Import Prelude.

(** ** Operations up to pointwise equality *)
Definition eqM {S A} : relation (M S A) := pointwise_relation S eq.
Infix "≈ₘ" := eqM (at level 70, no associativity).

#[export] Instance eqM_equiv S A : Equivalence (@eqM S A).
Proof. unfold eqM. apply _. Qed.
#[export] Instance bind_proper S A B :
  Proper (pointwise_relation A eqM ==> eqM ==> eqM) (@mbind (M S) _ A B).
Proof. intros k k' Hk m m' Hm s. unfold mbind, M_bind. rewrite Hm. destruct (m' s); [apply Hk|done]. Qed.

Section eqM.
Context {S : Type}.

Lemma eqM_bind {A B} (m m' : M S A) (k k' : A → M S B) :
  m ≈ₘ m' → (∀ a, k a ≈ₘ k' a) → (m ≫= k) ≈ₘ (m' ≫= k').
Proof. intros Hm Hk. by apply bind_proper. Qed.
Lemma bind_ret_l {A B} (a : A) (k : A → M S B) : (mret a ≫= k) ≈ₘ k a.
Proof. done. Qed.
Lemma bind_ret_r {A} (m : M S A) : (m ≫= mret) ≈ₘ m.
Proof. intros s. unfold mbind, M_bind. by destruct (m s). Qed.
Lemma bind_assoc {A B C} (m : M S A) (k : A → M S B) (l : B → M S C) :
  ((m ≫= k) ≫= l) ≈ₘ (m ≫= λ a, k a ≫= l).
Proof. intros s. unfold mbind, M_bind. by destruct (m s). Qed.
Lemma bind_stop_l {A B} e (k : A → M S B) : (stop e ≫= k) ≈ₘ stop e.
Proof. done. Qed.
Lemma eqM_iter {A B} fuel (f f' : B → M S (B + A)) :
  (∀ b, f b ≈ₘ f' b) → ∀ b, iter fuel f b ≈ₘ iter fuel f' b.
Proof.
  intros Hf. induction fuel as [|fuel IH]; intros b; cbn [iter]; [done|].
  apply eqM_bind; [done|]. by intros [b'|a].
Qed.
Lemma eqM_for_each {B} (l : list B) (f f' : B → M S unit) :
  (∀ x, f x ≈ₘ f' x) → for_each l f ≈ₘ for_each l f'.
Proof. intros Hf. induction l as [|x l IH]; cbn [for_each]; [done|]. by apply eqM_bind. Qed.
Lemma eqM_when b (m m' : M S unit) : m ≈ₘ m' → when b m ≈ₘ when b m'.
Proof. by destruct b. Qed.
(** A component's operation, cut in two. *)
Lemma zoom_bind {T A B} (get : S → T) (set : T → S → S) (m : M T A) (k : A → M T B) :
  (∀ t s, get (set t s) = t) → (∀ t t' s, set t' (set t s) = set t' s) →
  zoom get set (m ≫= k) ≈ₘ (zoom get set m ≫= λ a, zoom get set (k a)).
Proof.
  intros Hgs Hss s. unfold zoom, mbind, M_bind. destruct (m (get s)) as [a t|]; [|done].
  rewrite Hgs. destruct (k a t); [|done]. by rewrite Hss.
Qed.
Lemma zoom_ret {T A} (get : S → T) (set : T → S → S) (a : A) :
  (∀ s, set (get s) s = s) → zoom get set (mret a) ≈ₘ mret a.
Proof. intros Hsg s. unfold zoom, mret, M_ret. by rewrite Hsg. Qed.
End eqM.

(** ** Programs *)
Inductive proc (S A : Type) : Type :=
  | PRet (a : A)
  | PAct (B : Type) (m : M S B) (k : B → proc S A).
Arguments PRet {S A} a.
Arguments PAct {S A B} m k.

#[export] Instance proc_ret S : MRet (proc S) := @PRet S.
#[export] Instance proc_bind S : MBind (proc S) :=
  λ A B f, fix go p := match p with PRet a => f a | PAct m k => PAct m (λ b, go (k b)) end.

Definition act {S A} (m : M S A) : proc S A := PAct m PRet.
Definition when_p {S} (b : bool) (p : proc S unit) : proc S unit := if b then p else mret tt.
Definition from_opt_p {S A} (e : fault) (o : option A) : proc S A :=
  match o with Some a => mret a | None => act (stop e) end.
Fixpoint iter_p {S B A} (fuel : nat) (body : B → proc S (B + A)) (b : B) : proc S A :=
  match fuel with
  | O => act (stop OutOfFuel)
  | Datatypes.S fuel' =>
      r ← body b;
      match r with
      | inl b' => iter_p fuel' body b'
      | inr a => mret a
      end
  end.
Fixpoint for_each_p {S B} (l : list B) (f : B → proc S unit) : proc S unit :=
  match l with
  | [] => mret tt
  | x :: l' => _ ← f x; for_each_p l' f
  end.

(** A program run alone. *)
Fixpoint run {S A} (p : proc S A) : M S A :=
  match p with
  | PRet a => mret a
  | PAct m k => b ← m; run (k b)
  end.

Section run.
Context {S : Type}.

Lemma run_act {A} (m : M S A) : run (act m) ≈ₘ m.
Proof. apply bind_ret_r. Qed.
Lemma run_bind {A B} (p : proc S A) (k : A → proc S B) :
  run (p ≫= k) ≈ₘ (run p ≫= λ a, run (k a)).
Proof.
  induction p as [a|C m p IH]; [done|]. cbn [run].
  change (run (PAct m p ≫= k)) with (c ← m; run (p c ≫= k)).
  rewrite bind_assoc. by apply eqM_bind.
Qed.
Lemma run_bind_eq {A B} (p : proc S A) (k : A → proc S B) m l :
  run p ≈ₘ m → (∀ a, run (k a) ≈ₘ l a) → run (p ≫= k) ≈ₘ (m ≫= l).
Proof. intros Hp Hk. rewrite run_bind. by apply eqM_bind. Qed.
Lemma run_when b (p : proc S unit) m : run p ≈ₘ m → run (when_p b p) ≈ₘ when b m.
Proof. by destruct b. Qed.
Lemma run_from_opt {A} e (o : option A) : run (from_opt_p (S := S) e o) ≈ₘ from_opt e o.
Proof. by destruct o. Qed.
Lemma run_iter {A B} fuel (f : B → proc S (B + A)) f' :
  (∀ b, run (f b) ≈ₘ f' b) → ∀ b, run (iter_p fuel f b) ≈ₘ iter fuel f' b.
Proof.
  intros Hf. induction fuel as [|fuel IH]; intros b; cbn [iter_p iter]; [done|].
  apply run_bind_eq; [done|]. by intros [b'|a].
Qed.
Lemma run_for_each {B} (l : list B) (f : B → proc S unit) f' :
  (∀ x, run (f x) ≈ₘ f' x) → run (for_each_p l f) ≈ₘ for_each l f'.
Proof. intros Hf. induction l as [|x l IH]; cbn [for_each_p for_each]; [done|]. by apply run_bind_eq. Qed.
End run.

Create HintDb run.
#[export] Hint Resolve run_act run_from_opt : run.

(** Follow a program and the operation it should be. *)
Ltac solve_run :=
  repeat (intros; cbn beta iota zeta; first
    [ solve [reflexivity | auto with run nocore]
    | apply run_bind_eq | apply run_when | apply run_for_each | apply run_iter
    | case_match ]).
