(* ===== verification/Race.v ===== *)
(** * Two threads in the table (htable.c without a lock)

    client.c calls [add_htable] and [search_htable] from several threads, and
    no mutex guards the table.  Here [add_htable] is a program with one action
    per access to a slot or to the size, and two threads run it at once. *)
From stdpp Require Import relations.
From S2P Require Import Prelude OS Sim HTable Evolve Proc.

Section programs.
Context {W : Type} `{OS W}.

(** htable.c: add_htable, access by access; a call of [resize_htable] is one
    action. *)
Definition add_body_p (tdef : tfile_def_t) (hash1 hash2 index : Z) : proc (store W) (Z + option Z) :=
  t ← act (slot index);
  let test_hash1 := u64_at (td_f_hash (t_tdef t)) 0 in
  let test_hash2 := u64_at (td_f_hash (t_tdef t)) 1 in
  if (test_hash1 =? 0) && (test_hash2 =? 0) then
    _ ← act (update_slot index (set_tdef tdef));
    _ ← act (set_ht (λ ht, HTable (ht_capacity ht) (wrapu 64 (ht_size ht + 1)) (ht_table ht)));
    mret (inr (Some index))
  else if (hash1 =? test_hash1) && (hash2 =? test_hash2) then mret (inr None)
  else
    ht ← act (gets st_ht);
    mret (inl (next_index ht index)).
Definition add_with_p (resize : M (store W) Z) (fuel : nat) (tdef : tfile_def_t)
    : proc (store W) (option Z) :=
  ht ← act (gets st_ht);
  _ ← when_p (ht_capacity ht <? wrapu 64 (ht_size ht * 2)) (act (_ ← resize; mret tt));
  let hash1 := u64_at (td_f_hash tdef) 0 in
  let hash2 := u64_at (td_f_hash tdef) 1 in
  ht ← act (gets st_ht);
  iter_p fuel (add_body_p tdef hash1 hash2) (start_index ht hash1).
Definition add_htable_p (fuel : nat) : tfile_def_t → proc (store W) (option Z) :=
  add_with_p (resize_with (add_htable fuel) fuel) fuel.

Lemma run_add fuel d : run (add_htable_p fuel d) ≈ₘ add_htable_n (S fuel) fuel d.
Proof. unfold add_htable_p, add_with_p, add_body_p. cbn [add_htable_n]. unfold add_with, add_body. solve_run. Qed.
End programs.

(** ** Two threads *)
Record pair_of (S A : Type) : Type := Pair { pr_first : proc S A; pr_second : proc S A; pr_state : S }.
Arguments Pair {S A} _ _ _.
Arguments pr_first {S A} _.
Arguments pr_second {S A} _.
Arguments pr_state {S A} _.

Inductive race_step {S A} : pair_of S A → pair_of S A → Prop :=
  | race_first B (m : M S B) k q s b s' : m s = Done b s' →
      race_step (Pair (PAct m k) q s) (Pair (k b) q s')
  | race_second B (m : M S B) k q s b s' : m s = Done b s' →
      race_step (Pair q (PAct m k) s) (Pair q (k b) s').

(** One thread alone, between two states of its program. *)
Inductive walk {S A} : proc S A → S → proc S A → S → Prop :=
  | walk_refl p s : walk p s p s
  | walk_act B (m : M S B) k s b s1 p s2 : m s = Done b s1 → walk (k b) s1 p s2 → walk (PAct m k) s p s2.

Lemma walk_trans {S A} (p1 p2 p3 : proc S A) s1 s2 s3 :
  walk p1 s1 p2 s2 → walk p2 s2 p3 s3 → walk p1 s1 p3 s3.
Proof. induction 1; [done|]. intros Hw. eapply walk_act; [done|auto]. Qed.
Lemma walk_bind {S A B} (p p' : proc S A) (k : A → proc S B) s s' :
  walk p s p' s' → walk (p ≫= k) s (p' ≫= k) s'.
Proof. induction 1; [constructor|]. by eapply walk_act. Qed.
Lemma walk_then {S A B} (p : proc S A) a (k : A → proc S B) s s' q s'' :
  walk p s (mret a) s' → walk (k a) s' q s'' → walk (p ≫= k) s q s''.
Proof. intros Hp Hk. eapply walk_trans; [by apply walk_bind|exact Hk]. Qed.
Lemma walk_first {S A} (p p' q : proc S A) s s' :
  walk p s p' s' → rtc race_step (Pair p q s) (Pair p' q s').
Proof. induction 1; [done|]. eapply rtc_l; [by constructor|done]. Qed.
Lemma walk_second {S A} (p p' q : proc S A) s s' :
  walk p s p' s' → rtc race_step (Pair q p s) (Pair q p' s').
Proof. induction 1; [done|]. eapply rtc_l; [by constructor|done]. Qed.

Section race.
Context {W : Type} `{OS W}.
Context (ht : htable_t) (tbl : list tfile_t) (Hwf : wf ht tbl) (w : W).

(** The write of a definition into slot [i], and the count. *)
Lemma update_at ht2 tbl2 i t2 f (w2 : W) : ht_table ht2 = Some tbl2 → tbl2 !! i = Some t2 →
  update_slot (Z.of_nat i) f (Store ht2 w2) =
    Done tt (Store (HTable (ht_capacity ht2) (ht_size ht2) (Some (<[i := f t2]> tbl2))) w2).
Proof.
  intros Htbl Ht. unfold update_slot. rewrite (bind_done _ _ _ _ _ (slot_at ht2 tbl2 w2 i t2 Htbl Ht)).
  unfold set_ht, modify. cbn. rewrite Htbl. cbn.
  unfold zset. by rewrite Nat2Z.id.
Qed.

(** A thread that has found slot [i] empty stores its definition there,
    whatever the table has become. *)
Definition paused (d : tfile_def_t) (i : nat) (q : proc (store W) (option Z)) : Prop :=
  ∀ ht2 tbl2 t2 w2, ht_table ht2 = Some tbl2 → tbl2 !! i = Some t2 →
    walk q (Store ht2 w2) (mret (Some (Z.of_nat i)))
      (Store (HTable (ht_capacity ht2) (wrapu 64 (ht_size ht2 + 1)) (Some (<[i := set_tdef d t2]> tbl2))) w2).

Lemma probe_paused d i t fuel : ∀ j, hash_ok (td_f_hash d) → tbl !! i = Some t → ¬ occupied t →
  (j ≤ i)%nat → (i - j < fuel)%nat →
  (∀ n u, (j ≤ n < i)%nat → tbl !! n = Some u → ¬ stops (td_f_hash d) u) →
  ∃ q, walk (iter_p fuel (add_body_p d (u64_at (td_f_hash d) 0) (u64_at (td_f_hash d) 1)) (Z.of_nat j))
         (Store ht w) q (Store ht w) ∧ paused d i q.
Proof.
  induction fuel as [|fuel IH]; intros j Hh Ht He Hj Hf Hmin; [lia|]. cbn [iter_p].
  destruct (lookup_lt_is_Some_2 tbl j) as [u Hu]; [pose proof (lookup_lt_Some _ _ _ Ht); lia|].
  destruct (slot_stops ht tbl Hwf (td_f_hash d) j u Hh Hu) as [E1 E2]. unfold key in E1, E2.
  assert (Hrun : slot (Z.of_nat j) (Store ht w) = Done u (Store ht w)) by by apply (slot_run ht tbl Hwf).
  destruct (decide (j = i)) as [->|Hne].
  - simplify_eq. eexists. split.
    + eapply walk_bind. eapply walk_act; [exact Hrun|]. constructor.
    + intros ht2 tbl2 t2 w2 Htbl2 Ht2. cbn beta iota zeta delta [mbind proc_bind act]. rewrite E1, decide_False by done.
      eapply walk_act; [by apply update_at|]. eapply walk_act; [done|]. constructor.
  - destruct (IH (S j)) as (q & Hq & Hp); [done|done|done|lia|lia|intros; apply (Hmin n u0); [lia|done..]|].
    exists q. split; [|done]. pose proof (Hmin j u ltac:(lia) Hu) as Hns. unfold stops, key in Hns.
    assert (Ho : occupied u) by (destruct (decide (occupied u)); tauto).
    apply (walk_then _ (inl (Z.of_nat (S j))) _ _ (Store ht w)); [|exact Hq]. eapply walk_act; [exact Hrun|].
    cbn beta iota zeta delta [mbind proc_bind act]. rewrite E1, E2, decide_True, decide_False by (done || intros Hk; apply Hns; by right).
    eapply walk_act; [done|]. cbn [st_ht]. rewrite (next_index_in ht tbl Hwf) by (by eapply lookup_lt_Some).
    constructor.
Qed.

Lemma add_paused d i t fuel : hash_ok (td_f_hash d) → ht_size ht * 2 ≤ ht_capacity ht →
  (length tbl < fuel)%nat → probe (ht_capacity ht) tbl (td_f_hash d) = Some (i, t) → ¬ occupied t →
  ∃ q, walk (add_htable_p fuel d) (Store ht w) q (Store ht w) ∧ paused d i q.
Proof.
  intros Hh Hload Hf (Hi & Ht & _ & Hmin)%probe_Some He.
  pose proof (lookup_lt_Some _ _ _ Ht).
  destruct (probe_paused d i t fuel (home (ht_capacity ht) (td_f_hash d))) as (q & Hq & Hp); [done..|lia|done|].
  exists q. split; [|done]. unfold add_htable_p, add_with_p. eapply walk_act; [done|]. cbn [st_ht].
  pose proof (wf_capacity_bound _ _ Hwf). pose proof (wf_size_bound _ _ Hwf).
  rewrite wrapu_small, (proj2 (Z.ltb_ge _ _)) by lia. eapply walk_act; [done|]. cbn [st_ht].
  by rewrite (start_index_home ht tbl Hwf).
Qed.
End race.

(** ** Properties *)
(** C33. Two threads add different definitions, both missing, whose probes end
    at the same empty slot of a table at most half full.  There is an order of
    their accesses after which both calls have returned that slot, the first
    definition is gone, the second is stored, and the table counts two. *)
Theorem add_htable_race {W} `{OS W} ht tbl (w : W) d1 d2 i t fuel : wf ht tbl →
  ht_size ht * 2 ≤ ht_capacity ht → (length tbl < fuel)%nat →
  hash_ok (td_f_hash d1) → hash_ok (td_f_hash d2) → td_f_hash d2 ≠ zero_hash → td_f_hash d1 ≠ td_f_hash d2 →
  probe (ht_capacity ht) tbl (td_f_hash d1) = Some (i, t) →
  probe (ht_capacity ht) tbl (td_f_hash d2) = Some (i, t) → ¬ occupied t →
  ∃ ht' tbl', rtc race_step
      (Pair (add_htable_p fuel d1) (add_htable_p fuel d2) (Store ht w))
      (Pair (mret (Some (Z.of_nat i))) (mret (Some (Z.of_nat i))) (Store ht' w)) ∧
    ht_table ht' = Some tbl' ∧ ht_size ht' = ht_size ht + 2 ∧
    abs tbl' = <[td_f_hash d2 := TFile d2 FNull 0]> (abs tbl) ∧
    (td_f_hash d1 ≠ zero_hash → abs tbl' !! td_f_hash d1 = None).
Proof.
  intros Hwf Hload Hf H1 H2 Hnz Hne Hp1 Hp2 He.
  destruct (add_paused ht tbl Hwf w d1 i t fuel) as (q1 & Hq1 & Hw1); [done..|].
  destruct (add_paused ht tbl Hwf w d2 i t fuel) as (q2 & Hq2 & Hw2); [done..|].
  pose proof (probe_Some _ _ _ _ _ Hp1) as (_ & Ht & _ & _). pose proof (lookup_lt_Some _ _ _ Ht).
  pose proof (wf_size_bound _ _ Hwf). pose proof (wf_capacity_bound _ _ Hwf).
  pose proof (Hw1 ht tbl t w (wf_table _ _ Hwf) Ht) as Hs1.
  set (ht1 := HTable _ _ _) in Hs1. set (tbl1 := <[i := set_tdef d1 t]> tbl) in *.
  assert (Ht1 : tbl1 !! i = Some (set_tdef d1 t)) by by apply list_lookup_insert_eq.
  pose proof (Hw2 ht1 tbl1 _ w eq_refl Ht1) as Hs2.
  assert (Hroom : ht_size ht < ht_capacity ht) by lia.
  assert (Habs : abs (<[i := set_tdef d2 t]> tbl) = <[td_f_hash d2 := TFile d2 FNull 0]> (abs tbl))
    by by apply (abs_stored ht tbl Hwf d2 H2 Hnz i t Hp2 He).
  eexists _, (<[i := set_tdef d2 t]> tbl). split_and!.
  - etrans; [by apply walk_first|]. etrans; [by apply walk_second|].
    etrans; [by apply walk_first|]. by apply walk_second.
  - cbn. unfold tbl1. by rewrite list_insert_insert_eq.
  - unfold ht1. cbn [ht_size]. rewrite (wrapu_small 64 (ht_size ht + 1)), wrapu_small by lia. lia.
  - exact Habs.
  - intros Hnz1. rewrite Habs, lookup_insert_ne by done.
    by apply (probe_miss ht tbl Hwf _ Hnz1 i t Hp1 He).
Qed.

(** ** The property on a concrete input *)
Module RaceWitness.
Import Sim HTable.Examples.

(** A table of eight slots with two entries; 3 and 11 have the same home. *)
Definition table8 : list tfile_t :=
  [zero_tfile; entry 1; entry 2; zero_tfile; zero_tfile; zero_tfile; zero_tfile; zero_tfile].
Definition ht8 : htable_t := HTable 8 2 (Some table8).
Lemma ht8_wf : wf ht8 table8.
Proof. apply wfb_sound. by vm_compute. Qed.

Lemma add_htable_race_witness : ∃ ht' tbl', rtc race_step
    (Pair (add_htable_p 20 (def 3)) (add_htable_p 20 (def 11)) (Store ht8 (Sim.boot [])))
    (Pair (mret (Some 3)) (mret (Some 3)) (Store ht' (Sim.boot []))) ∧
  ht_table ht' = Some tbl' ∧ ht_size ht' = 4 ∧
  abs tbl' = <[hash 11 := TFile (def 11) FNull 0]> (abs table8) ∧
  (hash 3 ≠ zero_hash → abs tbl' !! hash 3 = None).
Proof.
  apply (add_htable_race ht8 table8 (Sim.boot []) (def 3) (def 11) 3 zero_tfile 20 ht8_wf);
    [done|by apply Nat.ltb_lt; vm_compute|apply hash_nonzero_ok; lia|apply hash_nonzero_ok; lia|
     apply hash_nonzero_ok; lia|by vm_compute|by vm_compute|by vm_compute|by vm_compute].
Defined.
End RaceWitness.
