(* ===== verification/Threads.v ===== *)
(** * The threads of the client (client.c)

    The functions of client.c that run in threads, as programs of atomic
    actions ([proc]): taking and giving back a mutex, one look at the list of
    peers or one change of it, one message to or from a socket, one call of
    file.c or htable.c, one round of the interface.  Every program, run alone,
    is the operation of Client.v, Peers.v or Main.v. *)
From stdpp Require Import pretty.
From S2P Require Import Prelude OS HTable File Message Socket Peers Curses Ui Wire Client Adapter Main Proc.

Section threads.
Context {W : Type} `{OS W, MD5_API, CURSES W}.

(** ** The peers (add_peer, remove_peer, remove_peers) *)
Definition lock_p (self : tid) : proc (client W) unit := act (on_peers (lock_peers self)).
Definition unlock_p : proc (client W) unit := act (on_peers unlock_peers).
Definition add_peer_p (self : tid) (peer : Z) : proc (client W) unit :=
  full ← act (on_peers add_peer_full);
  _ ← lock_p self;
  p ← act (on_peers get_peers);
  _ ← when_p full (act (on_peers (n ← add_s32 (p_capacity p) (p_capacity p); realloc_peers n)));
  _ ← act (on_peers (append_peer peer));
  unlock_p.

Context (fuel : nat).

Definition remove_peer_p (self : tid) (peer : Z) : proc (client W) unit :=
  _ ← lock_p self;
  _ ← act (on_peers (iter fuel (remove_body peer) 0));
  unlock_p.
Definition remove_peers_p (self : tid) (peers_to_remove : list Z) : proc (client W) unit :=
  for_each_p peers_to_remove (remove_peer_p self).

(** ** Sending to the peers *)
Definition malloc_p (n : Z) : proc (client W) unit := act (malloc_unchecked n).

Definition share_tfiles_to_peer_p (self : tid) (tfile_arr : list tfile_def_t) (count peer : Z)
    : proc (client W) unit :=
  _ ← lock_p self;
  _ ← for_each_p (seqZ 0 count) (λ i,
        d ← from_opt_p OutOfBounds (zget tfile_arr i);
        rc ← act (on_world (send_message fuel peer (message_info TFILE_DEF sizeof_tfile_def_t)
                              (Some (encode_tdef d))));
        when_p (negb (rc =? 0)) (remove_peer_p self peer));
  unlock_p.

Definition share_body_p (tfile : tfile_def_t) (sender : Z) (x : Z * list Z)
    : proc (client W) (Z * list Z + list Z) :=
  let '(i, peers_to_remove) := x in
  p ← act (on_peers get_peers);
  if i <? p_size p then
    fd ← act (on_peers (peer_at i));
    i' ← act (add_s32 i 1);
    if fd =? sender then mret (inl (i', peers_to_remove))
    else
      rc ← act (on_world (send_message fuel fd (message_info TFILE_DEF sizeof_tfile_def_t)
                            (Some (encode_tdef tfile))));
      mret (inl (i', if negb (rc =? 0) then peers_to_remove ++ [i] else peers_to_remove))
  else mret (inr peers_to_remove).
Definition share_tfile_to_peers_p (self : tid) (tfile : tfile_def_t) (sender : Z)
    : proc (client W) unit :=
  _ ← lock_p self;
  peers_to_remove ← iter_p fuel (share_body_p tfile sender) (0, []);
  _ ← remove_peers_p self peers_to_remove;
  unlock_p.

Definition broadcast_body_p (skip : Z → bool) (req : chunk_request_t) (i : Z)
    : proc (client W) (Z + unit) :=
  p ← act (on_peers get_peers);
  if i <? p_size p then
    fd ← act (on_peers (peer_at i));
    _ ← (if skip fd then mret SUCCESS
         else act (on_world (send_message fuel fd
                     (message_info REQUEST_FILE_DATA sizeof_chunk_request_t) (Some (encode_request req)))));
    i' ← act (add_s32 i 1);
    mret (inl i')
  else mret (inr tt).
Definition broadcast_p (self : tid) (skip : Z → bool) (req : chunk_request_t) : proc (client W) unit :=
  _ ← lock_p self;
  _ ← iter_p fuel (broadcast_body_p skip req) 0;
  unlock_p.

(** client.c: send_chunk_message *)
Definition send_chunk_message_p (fd : Z) (file_hash : list Z) (chunk_index : Z)
    : proc (client W) Z :=
  r ← act (on_store (open_tfile fuel file_hash chunk_index));
  match r with
  | (_, None) => mret FAILED
  | (chunk_size, Some chunk_ptr) =>
      if chunk_size <=? 0 then mret FAILED
      else
        let payload_size := wrapu 64 (sizeof_chunk_payload_t + chunk_size) in
        ok ← act (on_world (sys (os_malloc payload_size)));
        if negb ok then mret FAILED
        else
          data ← act (on_world (mem_load chunk_ptr chunk_size));
          let hdr := ChunkPayload (slice 0 MD5_DIGEST_LENGTH file_hash) chunk_index
                       (swap32 (wrapu 32 chunk_size)) in
          act (on_world (send_message fuel fd (message_info FILE_DATA payload_size)
                           (Some (encode_payload hdr ++ data))))
  end.

(** ** readWorker *)
Context (junk_hashes : list (list Z)) (junk_hash : list Z) (junk_len : Z).

Definition handle_addr_self_p (self : tid) (fd_data : client_server_t) : proc (client W) bool :=
  r ← act (on_world (server_socket_accept_addr (server_fd fd_data) junk_len));
  let '(socket, server_addr, server_addr_len) := r : Z * sockaddr_in * Z in
  if socket =? -1 then
    _ ← remove_peer_p self (client_fd fd_data);
    mret false
  else
    _ ← act (on_world (send_message fuel socket (message_info ADDR_SELF server_addr_len)
                         (Some (encode_addr server_addr))));
    mret true.

Definition handle_tfile_def_p (fd_data : client_server_t) (data_read : list Z) : proc (client W) unit :=
  let new_tfile := decode_tdef data_read in
  _ ← act (on_store (add_htable fuel new_tfile));
  _ ← malloc_p sizeof_send_tfile_t;
  act (pthread_create (RunShareTfile new_tfile (server_fd fd_data))).

Definition handle_request_p (self : tid) (fd_data : client_server_t) (data_read : list Z)
    : proc (client W) unit :=
  let req := decode_request data_read in
  chunks ← act (on_store (verify_tfile fuel (req_file_hash req) junk_hashes junk_hash));
  if is_chunk_verified chunks (req_chunk_index req) then
    out_fd ← act (on_world (socket_connect_addr (req_return_addr req) (req_return_addr_len req)));
    when_p (negb (out_fd =? -1))
      (_ ← send_chunk_message_p out_fd (req_file_hash req) (req_chunk_index req); mret tt)
  else broadcast_p self (λ fd, fd =? client_fd fd_data) req.

Definition handle_file_data_p (data_read : list Z) : proc (client W) unit :=
  let hdr := decode_payload data_read in
  chunks ← act (on_store (verify_tfile fuel (pl_file_hash hdr) junk_hashes junk_hash));
  if is_chunk_verified chunks (pl_chunk_index hdr) then mret tt
  else
    let chunk_size := swap32 (pl_chunk_size hdr) in
    r ← act (on_store (open_tfile fuel (pl_file_hash hdr) (pl_chunk_index hdr)));
    _ ← when_p (zlen data_read <? sizeof_chunk_payload_t + chunk_size) (act (stop OutOfBounds));
    dest ← from_opt_p NullDeref r.2;
    act (on_world (mem_store dest (slice sizeof_chunk_payload_t chunk_size data_read))).

Definition read_body_p (self : tid) (fd_data : client_server_t) (data_read : option (list Z))
    : proc (client W) (option (list Z) + unit) :=
  r ← act (on_world (incoming_message_info (server_fd fd_data)));
  match r with
  | (0, Some info) =>
      r ← act (on_world (receive_message fuel (server_fd fd_data) data_read (mi_size info)));
      let data_read := (λ _, r.2) <$> data_read in
      if negb (r.1 =? 0) then
        _ ← remove_peer_p self (client_fd fd_data);
        mret (inr tt)
      else if mi_type info =? REQUEST_ADDR_SELF then
        go ← handle_addr_self_p self fd_data;
        mret (if go : bool then inl data_read else inr tt)
      else
        buf ← from_opt_p NullDeref data_read;
        _ ← (if mi_type info =? TFILE_DEF then handle_tfile_def_p fd_data buf
             else if mi_type info =? REQUEST_FILE_DATA then handle_request_p self fd_data buf
             else if mi_type info =? FILE_DATA then handle_file_data_p buf
             else mret tt);
        mret (inl data_read)
  | _ =>
      _ ← remove_peer_p self (client_fd fd_data);
      mret (inr tt)
  end.
Definition readWorker_p (self : tid) (args junk : list Z) : proc (client W) unit :=
  fd_data ← act (read_fd_data args);
  ok ← act (on_world (sys (os_malloc message_size)));
  iter_p fuel (read_body_p self fd_data) (if ok : bool then Some junk else None).

(** ** connectWorker and download_file *)
Definition connect_body_p (self : tid) (fd : Z) : proc (client W) unit :=
  client_socket_fd ← act (on_world (server_socket_accept fd));
  if client_socket_fd =? -1 then remove_peer_p self client_socket_fd
  else
    _ ← add_peer_p self client_socket_fd;
    _ ← malloc_p sizeof_send_tfiles_t;
    files ← act (on_store (list_tfiles fuel));
    _ ← act (pthread_create (RunShareTfiles files.2 files.1 client_socket_fd));
    _ ← malloc_p 4;
    act (pthread_create (RunReadWorker (le_bytes 4 (wrapu 32 client_socket_fd)))).
Definition connectWorker_p (self : tid) (fd : Z) : proc (client W) unit :=
  iter_p fuel (λ _ : unit, _ ← connect_body_p self fd; mret (inl tt)) tt.

Definition download_body_p (self : tid) (file_hash : list Z) (return_addr : sockaddr_in) (_ : unit)
    : proc (client W) (unit + unit) :=
  chunks ← act (on_store (verify_tfile fuel file_hash junk_hashes junk_hash));
  if chunks =? VERIFIED_FILE then mret (inr tt)
  else
    _ ← for_each_p (seqZ 0 NUM_CHUNKS) (λ i,
          when_p (negb (is_chunk_verified chunks i))
            (broadcast_p self (λ _, false)
               (ChunkRequest (slice 0 MD5_DIGEST_LENGTH file_hash) i return_addr sizeof_sockaddr_in 5)));
    mret (inl tt).

Definition download_finish_p (self : tid) (file_hash : list Z) (server_fd : Z) : proc (client W) unit :=
  _ ← act (on_store (save_tfile fuel file_hash));
  r ← act (on_store (search_htable fuel file_hash));
  i ← from_opt_p NullDeref r;
  t ← act (on_store (slot i));
  name ← from_opt_p OutOfBounds (cstr (td_name (t_tdef t)));
  _ ← act (on_ustore (ui_display self (str "system") (str "File '" ++ name ++ str "' downloaded!")));
  act (on_world (sys_ (os_close server_fd))).

Definition download_file_p (self : tid) (file_hash : list Z) : proc (client W) unit :=
  r ← act (on_world (server_socket_open 0));
  let '(server_fd, temp_port) := r : Z * Z in
  if server_fd =? -1 then mret tt
  else
    _ ← act (on_world (sys (os_listen server_fd 10)));
    _ ← malloc_p 4;
    _ ← act (pthread_create (RunConnectWorker server_fd));
    let return_addr := SockAddr AF_INET (swap16 temp_port) INADDR_ANY in
    _ ← iter_p fuel (download_body_p self file_hash return_addr) tt;
    download_finish_p self file_hash server_fd.

(** What a new thread runs; [junk_buffer] is what [malloc] left in the buffer
    of a [readWorker]. *)
Definition thread_program (junk_buffer : list Z) (self : tid) (t : thread) : proc (client W) unit :=
  match t with
  | RunReadWorker args => readWorker_p self args junk_buffer
  | RunConnectWorker fd => connectWorker_p self fd
  | RunShareTfile d sender => share_tfile_to_peers_p self d sender
  | RunShareTfiles arr count peer => share_tfiles_to_peer_p self arr count peer
  | RunDownload hash => download_file_p self hash
  end.

(** ** main

    The program of the main thread behind the initialisation of the table and
    the list of peers ([init] of Main.v runs before any other thread exists). *)
Context (junk_tdef : tfile_def_t) (atoi : list Z → Z).

Definition main_connect_p (args : cmd_args_t) : proc (client W) unit :=
  match peer_p args with
  | None => mret tt
  | Some host =>
      port ← from_opt_p NullDeref (port_p args);
      host_peer ← act (on_world (socket_connect host (wrapu 16 (atoi port))));
      if host_peer =? -1 then act (stop (Exit EXIT_FAILURE))
      else
        _ ← add_peer_p main_thread host_peer;
        act (pthread_create (RunReadWorker (le_bytes 4 (wrapu 32 host_peer))))
  end.
Definition main_file_p (args : cmd_args_t) : proc (client W) unit :=
  match file_p args with
  | None => mret tt
  | Some path =>
      r ← act (on_store (generate_tfile fuel junk_tdef (path ++ [0]) (path ++ [0])));
      _ ← malloc_p sizeof_send_tfile_t;
      act (pthread_create (RunShareTfile r.2 NO_SENDER_PEER))
  end.

(** client.c runs the interface on its own state. *)
Definition ui_round_p : proc (client W) (unit + unit) :=
  act (run_body get_ustore set_ustore (ui_list_network_files fuel)
         (λ text, ui_input_handler fuel junk_hashes junk_hash main_thread (Some text)) fuel main_thread tt).

Definition main_p (argv0 : list Z) (opts : list (Z * list Z)) (extra : bool) : proc (client W) unit :=
  r ← act (on_world (server_socket_open 0));
  let '(server_fd, network_port) := r : Z * Z in
  if server_fd =? -1 then act (stop (Exit EXIT_FAILURE))
  else
    rc ← act (on_world (sys (os_listen server_fd 10)));
    if negb (rc =? 0) then act (stop (Exit EXIT_FAILURE))
    else
      args ← act (parse_args argv0 opts (CmdArgs None None None None));
      if args_rejected extra args then act (stop (Exit EXIT_FAILURE))
      else
        _ ← main_connect_p args;
        _ ← main_file_p args;
        _ ← act (pthread_create (RunConnectWorker server_fd));
        _ ← act (on_ustore (ui_init true));
        _ ← act (on_ustore (ui_display main_thread (str "system")
                              (str "Running on port " ++ str (pretty network_port))));
        _ ← act (on_ustore (ui_register_file_list_callback true));
        _ ← act (on_ustore (ui_os (sys_ refresh)));
        _ ← iter_p fuel (λ _, ui_round_p) tt;
        act (on_ustore (ui_exit main_thread)).
End threads.

(** ** Every program, run alone, is the function of C *)
Section alone.
Context {W : Type} `{OS W, MD5_API, CURSES W}.

Lemma on_peers_bind {A B} (m : M (pstore W) A) (k : A → M (pstore W) B) :
  on_peers (m ≫= k) ≈ₘ (on_peers m ≫= λ a, on_peers (k a)).
Proof. by apply zoom_bind; [intros []|]. Qed.
Lemma on_peers_when b (m : M (pstore W) unit) : on_peers (when b m) ≈ₘ when b (on_peers m).
Proof. destruct b; [done|]. apply zoom_ret. by intros []. Qed.

Lemma run_peers_bind {A B} (p : proc (client W) A) (k : A → proc (client W) B) m l :
  run p ≈ₘ on_peers m → (∀ a, run (k a) ≈ₘ on_peers (l a)) → run (p ≫= k) ≈ₘ on_peers (m ≫= l).
Proof.
  intros Hp Hk. trans (on_peers m ≫= λ a, on_peers (l a)); [by apply run_bind_eq|].
  symmetry. apply on_peers_bind.
Qed.

Lemma run_add_peer self peer : run (add_peer_p (W := W) self peer) ≈ₘ on_peers (add_peer self peer).
Proof.
  unfold add_peer_p, add_peer, add_peer_locked, lock_p, unlock_p.
  do 3 (apply run_peers_bind; [apply run_act|intros ?]). apply run_peers_bind.
  { etrans; [apply run_when, run_act|]. symmetry. apply on_peers_when. }
  intros _. apply run_peers_bind; [apply run_act|intros _; apply run_act].
Qed.
Lemma run_remove_peer fuel self peer :
  run (remove_peer_p (W := W) fuel self peer) ≈ₘ on_peers (remove_peer fuel self peer).
Proof.
  unfold remove_peer_p, remove_peer, lock_p, unlock_p.
  do 2 (apply run_peers_bind; [apply run_act|intros _]). apply run_act.
Qed.
Lemma run_remove_peers fuel self l :
  run (remove_peers_p (W := W) fuel self l) ≈ₘ on_peers (remove_peers fuel self l).
Proof.
  unfold remove_peers_p, remove_peers. induction l as [|x l IH]; cbn [for_each_p for_each].
  - symmetry. apply zoom_ret. by intros [].
  - apply run_peers_bind; [apply run_remove_peer|done].
Qed.
Lemma run_lock self : run (lock_p (W := W) self) ≈ₘ on_peers (lock_peers self).
Proof. apply run_act. Qed.
Lemma run_unlock : run (unlock_p (W := W)) ≈ₘ on_peers unlock_peers.
Proof. apply run_act. Qed.
Lemma run_malloc n : run (malloc_p (W := W) n) ≈ₘ malloc_unchecked n.
Proof. apply run_act. Qed.
End alone.
#[export] Hint Resolve run_add_peer run_remove_peer run_remove_peers run_lock run_unlock run_malloc : run.

Section alone.
Context {W : Type} `{OS W, MD5_API, CURSES W}.
Context (fuel : nat) (junk_hashes : list (list Z)) (junk_hash : list Z) (junk_len : Z).

Lemma run_share_tfiles self arr count peer :
  run (share_tfiles_to_peer_p (W := W) fuel self arr count peer) ≈ₘ share_tfiles_to_peer fuel self arr count peer.
Proof. unfold share_tfiles_to_peer_p, share_tfiles_to_peer. solve_run. Qed.
Lemma run_share_tfile self d sender :
  run (share_tfile_to_peers_p (W := W) fuel self d sender) ≈ₘ share_tfile_to_peers fuel self d sender.
Proof. unfold share_tfile_to_peers_p, share_tfile_to_peers, share_body_p, share_body. solve_run. Qed.
Lemma run_broadcast self skip req :
  run (broadcast_p (W := W) fuel self skip req) ≈ₘ broadcast fuel self skip req.
Proof. unfold broadcast_p, broadcast, broadcast_body_p, broadcast_body. solve_run. Qed.
Lemma run_send_chunk fd h c :
  run (send_chunk_message_p (W := W) fuel fd h c) ≈ₘ send_chunk_message fuel fd h c.
Proof. unfold send_chunk_message_p, send_chunk_message. solve_run. Qed.
#[local] Hint Resolve run_broadcast run_send_chunk : run.
Lemma run_addr_self self fd_data :
  run (handle_addr_self_p (W := W) fuel junk_len self fd_data) ≈ₘ handle_addr_self fuel junk_len self fd_data.
Proof. unfold handle_addr_self_p, handle_addr_self. solve_run. Qed.
Lemma run_tfile_def fd_data buf :
  run (handle_tfile_def_p (W := W) fuel fd_data buf) ≈ₘ handle_tfile_def fuel fd_data buf.
Proof. unfold handle_tfile_def_p, handle_tfile_def. solve_run. Qed.
Lemma run_request self fd_data buf :
  run (handle_request_p (W := W) fuel junk_hashes junk_hash self fd_data buf) ≈ₘ
    handle_request fuel junk_hashes junk_hash self fd_data buf.
Proof. unfold handle_request_p, handle_request. solve_run. Qed.
Lemma run_file_data buf :
  run (handle_file_data_p (W := W) fuel junk_hashes junk_hash buf) ≈ₘ
    handle_file_data fuel junk_hashes junk_hash buf.
Proof. unfold handle_file_data_p, handle_file_data. solve_run. Qed.
#[local] Hint Resolve run_addr_self run_tfile_def run_request run_file_data : run.
Lemma run_read_body self fd_data data :
  run (read_body_p (W := W) fuel junk_hashes junk_hash junk_len self fd_data data) ≈ₘ
    read_body fuel junk_hashes junk_hash junk_len self fd_data data.
Proof. unfold read_body_p, read_body. solve_run. Qed.
#[local] Hint Resolve run_read_body : run.
Lemma run_readWorker self args junk :
  run (readWorker_p (W := W) fuel junk_hashes junk_hash junk_len self args junk) ≈ₘ
    readWorker fuel junk_hashes junk_hash junk_len self args junk.
Proof. unfold readWorker_p, readWorker. solve_run. Qed.
Lemma run_connectWorker self fd :
  run (connectWorker_p (W := W) fuel self fd) ≈ₘ connectWorker fuel self fd.
Proof. unfold connectWorker_p, connectWorker, connect_body_p, connect_body. solve_run. Qed.
Lemma run_download self h :
  run (download_file_p (W := W) fuel junk_hashes junk_hash self h) ≈ₘ
    download_file fuel junk_hashes junk_hash self h.
Proof.
  unfold download_file_p, download_file, download_body_p, download_body, download_finish_p, download_finish.
  solve_run.
Qed.

Lemma run_main_connect atoi args : run (main_connect_p (W := W) atoi args) ≈ₘ main_connect atoi args.
Proof. unfold main_connect_p, main_connect. solve_run. Qed.
Lemma run_main_file junk_tdef args : run (main_file_p (W := W) fuel junk_tdef args) ≈ₘ main_file fuel junk_tdef args.
Proof. unfold main_file_p, main_file. solve_run. Qed.
#[local] Hint Resolve run_main_connect run_main_file : run.
Lemma run_ui self (end_ : M (client W) unit) :
  run (_ ← act (on_ustore (ui_os (sys_ refresh)));
       _ ← iter_p fuel (λ _, act (run_body get_ustore set_ustore (ui_list_network_files fuel)
         (λ text, ui_input_handler fuel junk_hashes junk_hash self (Some text)) fuel self tt)) tt;
       act end_) ≈ₘ
  (_ ← ui_run get_ustore set_ustore (ui_list_network_files fuel)
         (λ text, ui_input_handler fuel junk_hashes junk_hash self (Some text)) fuel self; end_).
Proof.
  unfold ui_run. intros s. etrans; [|symmetry; apply bind_assoc]. revert s.
  apply run_bind_eq; [apply run_act|intros _]. apply run_bind_eq; [|intros _; apply run_act].
  apply run_iter. intros []. apply run_act.
Qed.

End alone.
