(* ===== verification/Pool.v ===== *)
(** * The client's threads together

    The programs of [Threads.v] in a pool: one action of one thread at a time,
    in any order, with threads joining as they are created.  At every point
    of every interleaving the globals are as they should be, the mutex of the
    peers is held by at most one thread and only that thread changes the list,
    and a thread that waits for the mutex it holds stops all others that need
    it. *)
From stdpp Require Import relations.
From S2P Require Import Prelude OS Sim HTable File Message Socket Peers Curses Ui Wire Client Adapter Main Evolve System Proc Threads.

(** ** The pool

    The state and what is left of each thread's program; thread [i] is known
    to the mutexes as [i], and thread 0 is the main thread. *)
Record pool (W : Type) : Type := Pool {
  pl_state : client W;
  pl_threads : list (proc (client W) unit)
}.
Arguments Pool {W} _ _.
Arguments pl_state {W} _.
Arguments pl_threads {W} _.

Section pool.
Context {W : Type} `{OS W, MD5_API, CURSES W}.
Context (fuel : nat) (junk_hashes : list (list Z)) (junk_hash : list Z) (junk_len : Z).

(** For thread [i]: what [malloc] left in the buffer of a readWorker, and the
    bytes that can be read behind its argument (none, by the C standard). *)
Context (junk_buffer behind : nat → list Z).

Definition launch (i : nat) (t : thread) : proc (client W) unit :=
  thread_program fuel junk_hashes junk_hash junk_len (junk_buffer i) (Z.of_nat i)
    match t with RunReadWorker args => RunReadWorker (args ++ behind i) | _ => t end.

(** The threads created between two states, the first one as thread [n]. *)
Definition launched (n : nat) (s s' : client W) : list (proc (client W) unit) :=
  imap (λ j, launch (n + j)) (drop (length (cl_threads s)) (cl_threads s')).

(** Thread [i] does its next action, if it has one that returns: it does not
    move while it waits for a mutex, and never again behind a fault. *)
Definition advance (i : nat) (P : pool W) : option (pool W) :=
  match pl_threads P !! i with
  | Some (PAct m k) =>
      match m (pl_state P) with
      | Done b s' => Some (Pool s' (<[i := k b]> (pl_threads P) ++
                                     launched (length (pl_threads P)) (pl_state P) s'))
      | Stop _ => None
      end
  | _ => None
  end.

(** A step of a thread, or anything else that happens on the machine. *)
Inductive pool_step (P : pool W) : pool W → Prop :=
  | pool_step_thread i P' : advance i P = Some P' → pool_step P P'
  | pool_step_world w : pool_step P (Pool (set_os w (pl_state P)) (pl_threads P)).

(** The pool follows a schedule. *)
Fixpoint follow (schedule : list nat) (P : pool W) : option (pool W) :=
  match schedule with
  | [] => Some P
  | i :: schedule' => P' ← advance i P; follow schedule' P'
  end.
Lemma follow_app l1 l2 P : follow (l1 ++ l2) P = P' ← follow l1 P; follow l2 P'.
Proof.
  revert P. induction l1 as [|i l1 IH]; intros P; cbn; [done|]. destruct (advance i P); cbn; [apply IH|done].
Qed.
Lemma follow_one i P : follow [i] P = advance i P.
Proof. cbn. by destruct (advance i P). Qed.
Lemma follow_steps schedule : ∀ P P', follow schedule P = Some P' → rtc pool_step P P'.
Proof.
  induction schedule as [|i l IH]; intros P P' Hf; cbn in Hf; [by injection Hf as <-|].
  apply bind_Some in Hf as (P1 & Hadv & Hf). eapply rtc_l; [by eapply pool_step_thread|by apply IH].
Qed.
End pool.

(** ** What one action of thread [i] may do *)
Definition holds {W} (i : tid) (s : client W) : bool := bool_decide (p_lock (cl_peers s) = Some i).

(** The list of peers is left alone, or the free mutex is taken, or the
    thread has the mutex, and then it keeps it or gives it back. *)
Definition guarded (i : tid) (p p' : peers_t) : Prop :=
  p' = p ∨ (p_lock p = None ∧ p' = set_lock (Some i) p) ∨
  (p_lock p = Some i ∧ (p_lock p' = Some i ∨ p_lock p' = None)).

Definition allowed {W} (i : tid) (s s' : client W) : Prop :=
  good s' ∧ remembers s s' ∧ guarded i (cl_peers s) (cl_peers s').

(** From any good state in which thread [i] has the mutex or not ([h]), every
    action of the program is allowed, whatever others do in between; at the
    end [Q] holds of [h] and the result. *)
Fixpoint safe {W A} (i : tid) (h : bool) (p : proc (client W) A) (Q : bool → A → Prop) : Prop :=
  match p with
  | PRet a => Q h a
  | PAct m k => ∀ s, good s → holds i s = h →
      wp m (λ b s', allowed i s s' ∧ safe i (holds i s') (k b) Q) (λ _, True) s
  end.

(** The program ends with the mutex as it was. *)
Definition keeps_lock {W A} (i : tid) (h : bool) (p : proc (client W) A) : Prop :=
  safe i h p (λ h' _, h' = h).
(** The program has the mutex and ends without. *)
Definition section {W A} (i : tid) (p : proc (client W) A) : Prop := safe i true p (λ h' _, h' = false).

Section safe.
Context {W : Type}.
Implicit Types (s : client W) (i : tid).

Lemma safe_mono {A} i (p : proc (client W) A) : ∀ h (Q Q' : bool → A → Prop),
  safe i h p Q → (∀ h' a, Q h' a → Q' h' a) → safe i h p Q'.
Proof.
  induction p as [a|B m k IH]; intros h Q Q' Hp HQ; cbn in *; [auto|]. intros s Hs Hh.
  eapply wp_conseq; [by apply Hp|]. intros b s' [Ha Hk]. split; [done|by eapply IH].
Qed.
Lemma safe_bind {A B} i (p : proc (client W) A) (k : A → proc (client W) B) : ∀ h Q,
  safe i h p (λ h' a, safe i h' (k a) Q) → safe i h (p ≫= k) Q.
Proof.
  induction p as [a|C m l IH]; intros h Q Hp; [done|]. intros s Hs Hh.
  eapply wp_conseq; [by apply Hp|]. intros b s' [Ha Hk]. split; [done|by apply IH].
Qed.
Lemma safe_seq {A B} i h (p : proc (client W) A) (k : A → proc (client W) B) (R : A → Prop) Q :
  safe i h p (λ h' a, h' = h ∧ R a) → (∀ a, R a → safe i h (k a) Q) → safe i h (p ≫= k) Q.
Proof. intros Hp Hk. apply safe_bind. eapply safe_mono; [done|]. intros h' a [-> Ha]. by apply Hk. Qed.
Lemma safe_keeps {A B} i h (p : proc (client W) A) (k : A → proc (client W) B) Q :
  keeps_lock i h p → (∀ a, safe i h (k a) Q) → safe i h (p ≫= k) Q.
Proof. intros Hp Hk. apply safe_bind. eapply safe_mono; [done|]. by intros h' a ->. Qed.

(** One action: of the components, or on the list of peers under the mutex. *)
Lemma safe_calm {A} i h (m : M (client W) A) (R : A → Prop) :
  respects calm m → (∀ s, good s → wp m (λ a _, R a) (λ _, True) s) →
  safe i h (act m) (λ h' a, h' = h ∧ R a).
Proof.
  intros Hm HR s Hs Hh. specialize (Hm s). specialize (HR s Hs). unfold wp in *.
  destruct (m s) as [a s'|]; [|done]. destruct (Hm Hs) as (Hs' & Hr & Hp).
  split; [split; [done|]; split; [done|by left]|]. cbn. unfold holds in *. by rewrite Hp.
Qed.
Lemma keeps_calm {A} i h (m : M (client W) A) : respects calm m → keeps_lock i h (act m).
Proof.
  intros Hm. eapply safe_mono; [apply (safe_calm i h m (λ _, True) Hm)|by intros ? ? [-> _]].
  intros s _. by apply wp_any.
Qed.
(** Under the mutex: an operation on the list that keeps it good. *)
Definition held_op {A} (i : tid) (m : M (pstore W) A) : Prop := ∀ p w,
  peers_good p → p_lock p = Some i →
  wp m (λ _ x, peers_good (ps_peers x) ∧ p_lock (ps_peers x) = Some i) (λ _, True) (PStore p w).
Lemma keeps_held {A} i (m : M (pstore W) A) : held_op i m → keeps_lock i true (act (on_peers m)).
Proof.
  intros Hm s (Htbl & Hp & Hu) Hh%bool_decide_eq_true. apply wp_zoom.
  eapply wp_conseq; [by apply Hm|]. intros a x [Hp' Hl]. split.
  - split; [by split_and!|]. split; [by split|]. right; right. cbn. tauto.
  - cbn. unfold holds. cbn. by rewrite bool_decide_true.
Qed.

Lemma keeps_ret {A} i h (a : A) : keeps_lock (W := W) i h (mret a).
Proof. done. Qed.
Lemma lock_bind {A B} i h (p : proc (client W) A) (k : A → proc (client W) B) :
  keeps_lock i h p → (∀ a, keeps_lock i h (k a)) → keeps_lock i h (p ≫= k).
Proof. apply safe_keeps. Qed.
Lemma lock_when i h b (p : proc (client W) unit) : keeps_lock i h p → keeps_lock i h (when_p b p).
Proof. by destruct b. Qed.
Lemma keeps_stop {A} i h e : keeps_lock (W := W) i h (act (stop (A := A) e)).
Proof. by intros s _ _. Qed.
Lemma keeps_from_opt {A} i h e (o : option A) : keeps_lock (W := W) i h (from_opt_p e o).
Proof. destruct o; [done|apply keeps_stop]. Qed.
Lemma safe_from_opt {A B} i h e (o : option A) (k : A → proc (client W) B) Q :
  (∀ a, o = Some a → safe i h (k a) Q) → safe i h (from_opt_p e o ≫= k) Q.
Proof. intros Hk. destruct o as [a|]; [exact (Hk a eq_refl)|]. by intros s _ _. Qed.
Lemma keeps_for_each {B} i h (l : list B) (f : B → proc (client W) unit) :
  (∀ x, keeps_lock i h (f x)) → keeps_lock i h (for_each_p l f).
Proof. intros Hf. induction l as [|x l IH]; cbn [for_each_p]; [done|]. by apply lock_bind. Qed.
(** A loop with an invariant on what it hands from round to round. *)
Lemma keeps_iter_inv {A B} i h fuel (I : B → Prop) (f : B → proc (client W) (B + A)) :
  (∀ b, I b → safe i h (f b) (λ h' r, h' = h ∧ ∀ b', r = inl b' → I b')) →
  ∀ b, I b → keeps_lock i h (iter_p fuel f b).
Proof.
  intros Hf. induction fuel as [|fuel IH]; intros b Hb; cbn [iter_p]; [apply keeps_stop|].
  eapply safe_seq; [by apply Hf|]. intros [b'|a] HI; [by apply IH, HI|done].
Qed.
Lemma keeps_iter {A B} i h fuel (f : B → proc (client W) (B + A)) :
  (∀ b, keeps_lock i h (f b)) → ∀ b, keeps_lock i h (iter_p fuel f b).
Proof.
  intros Hf b. apply (keeps_iter_inv i h fuel (λ _, True)); [|done]. intros b' _.
  eapply safe_mono; [apply Hf|]. by intros h' r ->.
Qed.
End safe.

Create HintDb keeps.
#[export] Hint Resolve keeps_ret keeps_stop keeps_from_opt : keeps.
#[export] Hint Extern 1 (keeps_lock _ _ (act _)) => (apply keeps_calm; solve [eauto with respects typeclass_instances]) : keeps.

(** Follow a program whose parts are known to end with the mutex as it was. *)
Ltac solve_keeps :=
  repeat (intros; cbn beta iota zeta; first
    [ solve [eauto with keeps]
    | apply lock_bind | apply lock_when | apply keeps_for_each | apply keeps_iter
    | case_match ]).

(** ** The operations on the list, under the mutex *)
Section peers.
Context {W : Type} `{OS W}.
Implicit Types (i : tid).

Lemma good_room p : peers_good p → ∃ l room, peers_are p l ∧ p_capacity p = 100 ∧
  p_arr p = Some ((Some <$> l) ++ room) ∧ zlen l + zlen room ≤ 200.
Proof.
  intros (Hc & Hlen & l & Hp). pose proof Hp as (_ & _ & room & Ha). exists l, room.
  split_and!; [done|done|done|]. unfold arr_len in Hlen. rewrite Ha in Hlen. cbn in Hlen.
  rewrite length_app, length_fmap in Hlen. unfold zlen. lia.
Qed.
Lemma good_intro p l room : p_capacity p = 100 → peers_are p l →
  p_arr p = Some ((Some <$> l) ++ room) → zlen l + zlen room ≤ 200 → peers_good p.
Proof.
  intros Hc Hp Ha Hlen. split_and!; [done| |by eexists]. unfold arr_len. rewrite Ha. cbn.
  rewrite length_app, length_fmap. unfold zlen in Hlen. lia.
Qed.

Lemma held_realloc `{!MemoryRoom W} i : held_op (W := W) i (realloc_peers 200).
Proof.
  intros p w Hg Hl. destruct (good_room p Hg) as (l & room & Hp & Hc & Ha & Hlen).
  pose proof (zlen_nonneg room).
  destruct (peers_are_resized p l room 200 Hp Ha ltac:(lia)) as (room' & Hp' & Hr & Hlen').
  unfold realloc_peers. apply wp_bind, wp_zoom, wp_sys. intros ok w' Hm.
  pose proof (law_malloc_ok (wrapu 64 (200 * sizeof_peer_fd_t)) w) as Hok. cbn in Hm. rewrite Hm in Hok.
  cbn in Hok. subst ok. apply wp_modify. cbn. rewrite Ha. cbn. split; [|done].
  apply (good_intro _ l room'); [done|done|cbn; by rewrite Hr|lia].
Qed.
Lemma held_append i peer : held_op (W := W) i (append_peer peer).
Proof.
  intros p w Hg Hl. destruct (good_room p Hg) as (l & room & Hp & Hc & Ha & Hlen).
  pose proof (append_peer_run p w l peer Hp room Ha) as Hrun. unfold wp.
  destruct room as [|c room']; rewrite Hrun; [done|]. split; [|done]. pose proof Hp as (Hs & _ & _).
  change (zlen (c :: room')) with (Z.of_nat (S (length room'))) in Hlen.
  assert (Hl1 : zlen (l ++ [peer]) = zlen l + 1) by (unfold zlen; rewrite length_app; cbn; lia).
  apply (good_intro _ (l ++ [peer]) room'); [done| |done|unfold zlen in *; lia].
  split_and!; [cbn; lia|unfold zlen in *; lia|by eexists].
Qed.
Lemma arr_len_remove_loop fuel peer n :
  preserves (λ s : pstore W, (arr_len (ps_peers s), p_lock (ps_peers s))) (iter fuel (remove_body peer) n).
Proof.
  pose proof (set_cell_kept (W := W)) as Hset.
  unfold remove_body, peer_at, peer_cell, get_peers, upd_peers. solve_preserves.
Qed.
Lemma held_remove fuel i peer : (200 < fuel)%nat → held_op (W := W) i (iter fuel (remove_body peer) 0).
Proof.
  intros Hf p w Hg Hl. destruct (good_room p Hg) as (l & room & Hp & Hc & Ha & Hlen).
  pose proof (zlen_nonneg room).
  destruct (remove_loop_run fuel peer p l w Hp) as (p' & l' & Hrun & Hp' & Hc' & _); [unfold zlen in *; lia|].
  pose proof (arr_len_remove_loop fuel peer 0 (PStore p w)) as Hsame. unfold wp in *.
  rewrite Hrun in *. injection Hsame as Harr Hlock. cbn in *. destruct Hg as (_ & Hg & _).
  split; [|congruence]. split_and!; [congruence|congruence|by eexists].
Qed.
End peers.

(** ** The threads' programs are safe *)
Section programs.
Context {W : Type} `{OS W, MD5_API, CURSES W, !MemoryRoom W}.
Context (fuel : nat) (Hfuel : (256 < fuel)%nat).
Implicit Types (i : tid).

Lemma safe_lock i : safe (W := W) i false (lock_p i) (λ h _, h = true).
Proof.
  intros s Hs Hh. apply wp_zoom. unfold lock_peers. apply wp_bind, wp_gets. cbn.
  destruct (p_lock (cl_peers s)) as [t|] eqn:Hl; [done|]. apply wp_modify. cbn. split.
  - split; [exact Hs|]. split; [by split|]. right; left. done.
  - unfold holds. cbn. by rewrite bool_decide_true.
Qed.
(** The mutex is not recursive. *)
Lemma safe_lock_held i (Q : bool → unit → Prop) : safe (W := W) i true (lock_p i) Q.
Proof.
  intros s Hs Hh%bool_decide_eq_true. apply wp_zoom. unfold lock_peers. apply wp_bind, wp_gets. cbn.
  by rewrite Hh.
Qed.
Lemma section_unlock i : section (W := W) i unlock_p.
Proof.
  intros s Hs Hh%bool_decide_eq_true. apply wp_zoom, wp_modify. cbn. split.
  - split; [exact Hs|]. split; [by split|]. right; right. tauto.
  - unfold holds. cbn. by rewrite bool_decide_false.
Qed.
Lemma section_bind {A B} i (p : proc (client W) A) (k : A → proc (client W) B) :
  keeps_lock i true p → (∀ a, section i (k a)) → section i (p ≫= k).
Proof. apply safe_keeps. Qed.
Lemma keeps_locked {A} i h (k : unit → proc (client W) A) :
  section i (k tt) → keeps_lock i h (lock_p i ≫= k).
Proof.
  intros Hk. apply safe_bind. destruct h; [apply safe_lock_held|].
  eapply safe_mono; [apply safe_lock|]. intros h' [] ->. exact Hk.
Qed.

Lemma lock_malloc i h n : keeps_lock (W := W) i h (malloc_p n).
Proof. unfold malloc_p. auto with keeps. Qed.
#[local] Hint Resolve lock_malloc : keeps.
Lemma keeps_remove_peer i h peer : keeps_lock (W := W) i h (remove_peer_p fuel i peer).
Proof.
  apply keeps_locked, section_bind; [|intros _; apply section_unlock].
  apply keeps_held, held_remove. lia.
Qed.
#[local] Hint Resolve keeps_remove_peer : keeps.
Lemma keeps_add_peer i h peer : keeps_lock (W := W) i h (add_peer_p i peer).
Proof.
  apply lock_bind.
  { apply keeps_calm, calm_peers. unfold add_peer_full, get_peers. solve_preserves. }
  intros full. apply keeps_locked. apply (safe_seq _ _ _ _ (λ p, p_capacity p = 100)).
  { apply safe_calm; [auto with respects|]. intros s (_ & (Hc & _) & _). by apply wp_zoom, wp_gets. }
  intros p Hc. apply section_bind.
  { apply lock_when. rewrite Hc. apply keeps_held. intros q w. apply held_realloc. }
  intros _. apply section_bind; [apply keeps_held, held_append|intros _; apply section_unlock].
Qed.
#[local] Hint Resolve keeps_add_peer : keeps.

(** *** Sharing and relaying *)
Lemma keeps_share_tfiles i h arr count peer :
  keeps_lock (W := W) i h (share_tfiles_to_peer_p fuel i arr count peer).
Proof.
  apply keeps_locked, section_bind; [|intros _; apply section_unlock]. solve_keeps.
Qed.
Lemma keeps_share_tfile i h d sender :
  keeps_lock (W := W) i h (share_tfile_to_peers_p fuel i d sender).
Proof.
  apply keeps_locked, section_bind; [unfold share_body_p; solve_keeps|]. intros failed.
  apply section_bind; [unfold remove_peers_p; solve_keeps|intros _; apply section_unlock].
Qed.
Lemma keeps_broadcast i h skip req : keeps_lock (W := W) i h (broadcast_p fuel i skip req).
Proof.
  apply keeps_locked, section_bind; [unfold broadcast_body_p; solve_keeps|intros _; apply section_unlock].
Qed.
Lemma keeps_send_chunk i h fd file_hash c :
  keeps_lock (W := W) i h (send_chunk_message_p fuel fd file_hash c).
Proof. unfold send_chunk_message_p. solve_keeps. Qed.
#[local] Hint Resolve keeps_broadcast keeps_send_chunk : keeps.

(** *** readWorker *)
Context (junk_hashes : list (list Z)) (junk_hash : list Z) (junk_len : Z).

Lemma keeps_addr_self i h fd_data :
  keeps_lock (W := W) i h (handle_addr_self_p fuel junk_len i fd_data).
Proof. unfold handle_addr_self_p. solve_keeps. Qed.
Lemma keeps_tfile_def i h fd_data buf : tdef_typed (decode_tdef buf) →
  keeps_lock (W := W) i h (handle_tfile_def_p fuel fd_data buf).
Proof. intros Hd. unfold handle_tfile_def_p. solve_keeps. Qed.
Lemma keeps_request i h fd_data buf :
  keeps_lock (W := W) i h (handle_request_p fuel junk_hashes junk_hash i fd_data buf).
Proof. unfold handle_request_p. solve_keeps. Qed.
Lemma keeps_file_data i h buf :
  keeps_lock (W := W) i h (handle_file_data_p fuel junk_hashes junk_hash buf).
Proof. unfold handle_file_data_p. solve_keeps. Qed.
#[local] Hint Resolve keeps_addr_self keeps_tfile_def keeps_request keeps_file_data : keeps.

(** The buffer stays one of [message_size] bytes. *)
Definition buffer_ok (data_read : option (list Z)) : Prop :=
  ∀ buf, data_read = Some buf → same_buffer (Z.to_nat message_size) buf.
Lemma buffer_tdef buf : same_buffer (Z.to_nat message_size) buf → tdef_typed (decode_tdef buf).
Proof.
  intros [Hb Hl]. apply decode_tdef_typed; [done|]. unfold zlen. rewrite Hl, Z2Nat.id by done. done.
Qed.
Context `{!ByteReads W}.
Lemma safe_read_body i h fd_data data_read : buffer_ok data_read →
  safe (W := W) i h (read_body_p fuel junk_hashes junk_hash junk_len i fd_data data_read)
    (λ h' r, h' = h ∧ ∀ data', r = inl data' → buffer_ok data').
Proof.
  intros Hbuf. unfold read_body_p. apply safe_keeps; [auto with keeps|]. intros [rc oinfo].
  assert (Hend : ∀ fd, safe (W := W) i h (_ ← remove_peer_p fuel i fd; mret (inr tt))
    (λ h' r, h' = h ∧ ∀ data', r = inl data' → buffer_ok data')).
  { intros fd. apply safe_keeps; [auto with keeps|]. by intros _. }
  destruct rc; [|by apply Hend..]. destruct oinfo as [info|]; [|by apply Hend].
  apply (safe_seq _ _ _ _ (λ r, buffer_ok ((λ _, r.2) <$> data_read))).
  { apply safe_calm; [auto with respects|]. intros s _. apply wp_zoom.
    destruct data_read as [buf|]; [|apply wp_any; by intros a w b [=]].
    eapply wp_conseq; [apply receive_message_bytes; by apply Hbuf|]. intros r w Hr. by intros b [= <-]. }
  intros r Hr. cbv zeta. destruct (negb _); [apply Hend|]. case_match.
  { apply safe_keeps; [auto with keeps|]. intros [|]; split; [done| |done|done]. by intros d [= <-]. }
  apply safe_from_opt. intros buf Hdata. apply safe_keeps.
  { pose proof (buffer_tdef buf (Hr buf Hdata)). solve_keeps. }
  intros []. split; [done|]. by intros d [= <-].
Qed.
Lemma keeps_readWorker i h args buf : same_buffer (Z.to_nat message_size) buf →
  keeps_lock (W := W) i h (readWorker_p fuel junk_hashes junk_hash junk_len i args buf).
Proof.
  intros Hbuf. unfold readWorker_p. apply lock_bind.
  { apply keeps_calm. unfold read_fd_data. solve_respects. }
  intros fd_data. apply lock_bind; [auto with keeps|]. intros ok.
  apply (keeps_iter_inv _ _ _ buffer_ok); [intros b; apply safe_read_body|].
  destruct ok; [by intros b [= <-]|done].
Qed.

(** *** The other threads *)
Lemma keeps_connectWorker i h fd : keeps_lock (W := W) i h (connectWorker_p fuel i fd).
Proof. unfold connectWorker_p, connect_body_p. solve_keeps. Qed.
Lemma keeps_download i h hash :
  keeps_lock (W := W) i h (download_file_p fuel junk_hashes junk_hash i hash).
Proof. unfold download_file_p, download_body_p, download_finish_p. solve_keeps. Qed.

Lemma keeps_program buf i t : same_buffer (Z.to_nat message_size) buf →
  keeps_lock (W := W) i false (thread_program fuel junk_hashes junk_hash junk_len buf i t).
Proof.
  intros Hbuf. destruct t; cbn [thread_program]; [by apply keeps_readWorker|apply keeps_connectWorker|
    apply keeps_share_tfile|apply keeps_share_tfiles|apply keeps_download].
Qed.
End programs.

(** *** The main thread *)
Section main.
Context {W : Type} `{OS W, MD5_API, CURSES W, !MemoryRoom W, !FileSizes W, !MD5Laws, !NonzeroDigest}.
Context (fuel : nat) (Hfuel : (256 < fuel)%nat).
Context (junk_hashes : list (list Z)) (junk_hash : list Z) (junk_tdef : tfile_def_t) (Hjunk : sane junk_tdef).
Context (atoi : list Z → Z).

Lemma calm_generate path name : respects calm (on_store (W := W) (generate_tfile fuel junk_tdef path name)).
Proof. by apply calm_store, grows_generate. Qed.
Lemma calm_parse argv0 opts args : respects calm (parse_args (W := W) argv0 opts args).
Proof.
  assert (Hdup : ∀ x, respects calm (on_ustore (W := W) (strdup x))) by (intros x; apply calm_ui, ulock_strdup).
  unfold parse_args, parse_opt, print_usage. solve_respects.
Qed.
Lemma calm_init cb : respects calm (on_ustore (W := W) (ui_init cb)).
Proof. apply calm_ustore, ui_init_kept. Qed.
Lemma calm_register cb : respects calm (on_ustore (W := W) (ui_register_file_list_callback cb)).
Proof. apply calm_ui. unfold ui_register_file_list_callback. auto with preserves. Qed.
Lemma calm_ui_os {A} (m : M W A) : respects calm (on_ustore (ui_os m)).
Proof. apply calm_ui. auto with preserves. Qed.
Lemma calm_round i : respects calm (ui_round (W := W) fuel junk_hashes junk_hash i).
Proof. apply calm_ui_round. Qed.
#[local] Hint Resolve calm_generate calm_parse calm_init calm_register calm_ui_os calm_round : respects.

Lemma keeps_main argv0 opts extra :
  keeps_lock (W := W) main_thread false (main_p fuel junk_hashes junk_hash junk_tdef atoi argv0 opts extra).
Proof.
  assert (Hadd : ∀ fd, keeps_lock (W := W) main_thread false (add_peer_p main_thread fd))
    by (intros fd; apply keeps_add_peer).
  assert (Hm : ∀ n, keeps_lock (W := W) main_thread false (malloc_p n)) by (intros n; apply lock_malloc).
  assert (Hr : keeps_lock (W := W) main_thread false (ui_round_p fuel junk_hashes junk_hash))
    by (apply keeps_calm, calm_round).
  unfold main_p, main_connect_p, main_file_p. solve_keeps.
Qed.
End main.

(** ** The invariant of the pool *)
Section invariant.
Context {W : Type} `{OS W, MD5_API, CURSES W, !MemoryRoom W, !ByteReads W}.
Context (fuel : nat) (Hfuel : (256 < fuel)%nat).
Context (junk_hashes : list (list Z)) (junk_hash : list Z) (junk_len : Z) (junk_buffer behind : nat → list Z).
Context (Hbuffers : ∀ i, same_buffer (Z.to_nat message_size) (junk_buffer i)).
Implicit Types (P : pool W).

Notation launch := (launch (W := W) fuel junk_hashes junk_hash junk_len junk_buffer behind).
Notation launched := (launched (W := W) fuel junk_hashes junk_hash junk_len junk_buffer behind).
Notation advance := (advance (W := W) fuel junk_hashes junk_hash junk_len junk_buffer behind).
Notation pool_step := (pool_step (W := W) fuel junk_hashes junk_hash junk_len junk_buffer behind).

(** Every thread is safe from where it is, and ends without the mutex, which
    only a thread of the pool can have. *)
Definition pool_ok P : Prop :=
  good (pl_state P) ∧
  (∀ i p, pl_threads P !! i = Some p →
    safe (Z.of_nat i) (holds (Z.of_nat i) (pl_state P)) p (λ h _, h = false)) ∧
  (∀ t, p_lock (cl_peers (pl_state P)) = Some t → 0 ≤ t < Z.of_nat (length (pl_threads P))).

Lemma guarded_holds i j (s s' : client W) : i ≠ j →
  guarded i (cl_peers s) (cl_peers s') → holds j s' = holds j s.
Proof.
  intros Hij Hg. unfold holds. apply bool_decide_ext.
  destruct Hg as [->|[[-> ->]|[-> [->| ->]]]]; cbn; naive_solver.
Qed.
Lemma launch_safe i t : safe (Z.of_nat i) false (launch i t) (λ h _, h = false).
Proof. by apply keeps_program. Qed.

Lemma advance_inv i P P' : advance i P = Some P' →
  ∃ B (m : M (client W) B) k b, pl_threads P !! i = Some (PAct m k) ∧
    m (pl_state P) = Done b (pl_state P') ∧
    pl_threads P' = <[i := k b]> (pl_threads P) ++
                      launched (length (pl_threads P)) (pl_state P) (pl_state P').
Proof.
  unfold Pool.advance. destruct (pl_threads P !! i) as [[|B m k]|] eqn:Hi; [done| |done].
  destruct (m (pl_state P)) as [b s'|] eqn:Hm; [|done]. intros [= <-]. by exists B, m, k, b.
Qed.

(** A thread of the next pool: the one that moved, one that did not, or new. *)
Lemma threads_after i q l s s' ps j p : (i < length ps)%nat → length ps = l →
  (<[i := q]> ps ++ launched l s s') !! j = Some p →
  (j = i ∧ p = q) ∨ (j ≠ i ∧ ps !! j = Some p) ∨ (l ≤ j)%nat ∧ ∃ t, p = launch j t.
Proof.
  intros Hi <- Hj. apply lookup_app_Some in Hj as [Hj|[Hle Hj]].
  - destruct (decide (j = i)) as [->|Hne].
    + left. rewrite list_lookup_insert_eq in Hj by done. by injection Hj.
    + right; left. by rewrite list_lookup_insert_ne in Hj.
  - rewrite length_insert in Hle, Hj. right; right. split; [done|]. unfold Pool.launched in Hj.
    rewrite list_lookup_imap in Hj. apply fmap_Some in Hj as (t & _ & ->). exists t. f_equal. lia.
Qed.

Lemma advance_ok i P P' : pool_ok P → advance i P = Some P' →
  pool_ok P' ∧ allowed (Z.of_nat i) (pl_state P) (pl_state P').
Proof.
  intros (Hs & Hp & Hl) (B & m & k & b & Hi & Hm & Hth)%advance_inv.
  pose proof (Hp i _ Hi (pl_state P) Hs eq_refl) as Hwp. unfold wp in Hwp. rewrite Hm in Hwp.
  destruct Hwp as [Hall Hk]. pose proof Hall as (Hs' & _ & Hg). split; [|done].
  pose proof (lookup_lt_Some _ _ _ Hi) as Hlt.
  assert (Hl' : ∀ t, p_lock (cl_peers (pl_state P')) = Some t → 0 ≤ t < Z.of_nat (length (pl_threads P))).
  { intros t Ht. destruct Hg as [E|[[_ E]|[_ [E|E]]]]; rewrite E in Ht; [by apply Hl|..];
      simplify_eq/=; lia. }
  split_and!; [done| |].
  - intros j p Hj. rewrite Hth in Hj.
    apply threads_after in Hj as [[-> ->]|[[Hne Hj]|[Hle [t ->]]]]; [done| | |done|done].
    + rewrite (guarded_holds (Z.of_nat i) (Z.of_nat j) (pl_state P)) by (done || lia). by apply Hp.
    + assert (holds (Z.of_nat j) (pl_state P') = false) as ->; [|apply launch_safe].
      apply bool_decide_eq_false. intros Hj%Hl'. lia.
  - intros t Ht%Hl'. rewrite Hth, length_app, length_insert. lia.
Qed.

(** A thread whose next action stops in every state in which it has the mutex. *)
Definition waits (i : tid) (p : proc (client W) unit) : Prop :=
  match p with
  | PRet _ => False
  | PAct m _ => ∀ s, p_lock (cl_peers s) = Some i → ∃ e, m s = Stop e
  end.
Lemma lock_waits i (k : unit → proc (client W) unit) : waits i (lock_p i ≫= k).
Proof.
  intros s Hs. eexists. unfold on_peers, zoom, lock_peers, mbind, M_bind. cbn. by rewrite Hs.
Qed.
Lemma waits_stays i P p : pl_threads P !! i = Some p → waits (Z.of_nat i) p →
  p_lock (cl_peers (pl_state P)) = Some (Z.of_nat i) → ¬ is_Some (advance i P).
Proof.
  intros Hi Hw Hl [P' (B & m & k & b & Hi' & Hm & _)%advance_inv]. rewrite Hi in Hi'. injection Hi' as ->.
  destruct (Hw (pl_state P) Hl) as [e He]. congruence.
Qed.
Lemma lock_taken j P k : is_Some (p_lock (cl_peers (pl_state P))) →
  pl_threads P !! j = Some (lock_p (Z.of_nat j) ≫= k) → advance j P = None.
Proof.
  intros [t Ht] Hj. unfold Pool.advance. rewrite Hj. cbn.
  unfold on_peers, zoom, lock_peers, mbind, M_bind. cbn. by rewrite Ht.
Qed.
Lemma pool_step_ok P P' : pool_ok P → pool_step P P' → pool_ok P' ∧ remembers (pl_state P) (pl_state P').
Proof.
  intros HP [i P1 Hadv|w]; [|by split].
  destruct (advance_ok i P P1 HP Hadv) as (HP1 & _ & Hr & _). done.
Qed.
Lemma pool_steps_ok P P' : pool_ok P → rtc pool_step P P' → pool_ok P' ∧ remembers (pl_state P) (pl_state P').
Proof.
  intros HP Hrtc. induction Hrtc as [P|P P1 P2 Hstep _ IH]; [by split; [|split]|].
  destruct (pool_step_ok P P1 HP Hstep) as (HP1 & K1 & Q1). destruct (IH HP1) as (HP2 & K2 & Q2).
  split; [done|]. split; [auto|by etrans].
Qed.
End invariant.

(** ** Properties of the client's threads together *)
Section properties.
Context {W : Type} `{OS W, MD5_API, CURSES W, !MemoryRoom W, !ByteReads W, !FileSizes W, !MD5Laws, !NonzeroDigest}.
Context (fuel : nat) (junk_hashes : list (list Z)) (junk_hash : list Z) (junk_len : Z).
Context (junk_buffer behind : nat → list Z) (junk_tdef : tfile_def_t) (atoi : list Z → Z).
Context (argv0 : list Z) (opts : list (Z * list Z)) (extra : bool).
Implicit Types (P : pool W).

Notation advance := (advance (W := W) fuel junk_hashes junk_hash junk_len junk_buffer behind).
Notation pool_step := (pool_step (W := W) fuel junk_hashes junk_hash junk_len junk_buffer behind).

(** The program starts: the globals have their initial values, [init] runs,
    and the main thread is alone. *)
Definition booted (P : pool W) : Prop := ∃ s0,
  cl_peers s0 = initial_peers ∧ cl_ui s0 = initial_ui ∧ init s0 = Done tt (pl_state P) ∧
  pl_threads P = [main_p fuel junk_hashes junk_hash junk_tdef atoi argv0 opts extra].
Definition reachable P : Prop := ∃ P0, booted P0 ∧ rtc pool_step P0 P.

(** What [malloc] and the stack hold are objects of their C types, and the
    fuel is more than the capacity of the table. *)
Definition setting_ok : Prop :=
  (256 < fuel)%nat ∧ sane junk_tdef ∧ ∀ i, same_buffer (Z.to_nat message_size) (junk_buffer i).

Lemma booted_ok P : setting_ok → booted P →
  pool_ok P.
Proof.
  intros (Hf & Hj & _) (s0 & Hp & Hu & Hrun & Hth).
  assert (HInv : Inv (pl_state P)) by (by eapply start_inv).
  apply Inv_good in HInv as [Hs Hl]. split; [done|]. rewrite Hl, Hth. split; [|done].
  intros [|i] p Hi; [|done]. injection Hi as <-. unfold holds. rewrite Hl. by apply keeps_main.
Qed.
Lemma reachable_ok P : setting_ok → reachable P →
  pool_ok P.
Proof.
  intros Hok (P0 & Hb & Hrtc). pose proof Hok as (Hf & _ & Hbuf).
  eapply pool_steps_ok, Hrtc; [done..|]. by apply booted_ok.
Qed.


(** C17. Mutual exclusion: an action of a thread leaves the list of peers and
    its mutex alone, or takes the free mutex and nothing else, or is made by
    the thread that has the mutex, which keeps it or gives it back. *)
Theorem peers_guarded P i P' : setting_ok → reachable P → advance i P = Some P' →
  guarded (Z.of_nat i) (cl_peers (pl_state P)) (cl_peers (pl_state P')).
Proof.
  intros Hok Hr Hadv. pose proof (reachable_ok P Hok Hr) as HP. destruct Hok as (Hf & _ & Hbuf).
  eapply advance_ok; done.
Qed.

(** C18. A thread that has the mutex of the peers and comes to [remove_peer],
    as [share_tfile_to_peers] and [share_tfiles_to_peer] do after a failed
    send, waits for itself: it never moves again, whatever the other threads
    do, the list of peers stays as it is and locked for ever, and no thread
    that comes to the mutex ever gets past it. *)
Theorem failed_send_freezes_peers P i p : setting_ok → reachable P →
  (∀ peer k, waits (Z.of_nat i) (remove_peer_p (W := W) fuel (Z.of_nat i) peer ≫= k)) ∧
  (p_lock (cl_peers (pl_state P)) = Some (Z.of_nat i) →
   pl_threads P !! i = Some p → waits (Z.of_nat i) p →
   ∀ P', rtc pool_step P P' →
     cl_peers (pl_state P') = cl_peers (pl_state P) ∧ pl_threads P' !! i = Some p ∧
     ∀ j k, pl_threads P' !! j = Some (lock_p (Z.of_nat j) ≫= k) → advance j P' = None).
Proof.
  intros Hok Hr. split; [intros peer k; apply lock_waits|]. intros Hl Hi Hw.
  pose proof (reachable_ok P Hok Hr) as HP. destruct Hok as (Hf & _ & Hbuf).
  apply (rtc_ind_r (λ P', cl_peers (pl_state P') = cl_peers (pl_state P) ∧ pl_threads P' !! i = Some p ∧ _) P).
  { split_and!; [done..|]. intros j k Hj. eapply lock_taken; [|exact Hj]. by eexists. }
  intros P1 P2 Hrtc Hstep (Hp & Hth & _).
  pose proof (proj1 (pool_steps_ok _ Hf _ _ _ _ behind Hbuf P P1 HP Hrtc)) as HP1.
  enough (cl_peers (pl_state P2) = cl_peers (pl_state P) ∧ pl_threads P2 !! i = Some p) as [Hp2 Hth2].
  { split_and!; [done..|]. intros j k Hj. eapply lock_taken; [|exact Hj]. rewrite Hp2. by eexists. }
  destruct Hstep as [j P2 Hadv|w]; [|done].
  destruct (decide (j = i)) as [->|Hij].
  { exfalso. eapply (waits_stays fuel); [exact Hth|done|by rewrite Hp|by eexists]. }
  destruct (advance_ok _ Hf _ _ _ _ behind Hbuf j P1 P2 HP1 Hadv) as (_ & _ & _ & Hg). split.
  - destruct Hg as [->|[[Hg _]|[Hg _]]]; [done|..]; rewrite Hp, Hl in Hg; [done|]. injection Hg. lia.
  - destruct (advance_inv _ _ _ _ _ _ j P1 P2 Hadv) as (B & m & q & b & Hj & _ & ->).
    rewrite lookup_app_l by (rewrite length_insert; by eapply lookup_lt_Some).
    by rewrite list_lookup_insert_ne.
Qed.
End properties.

(** ** The properties on concrete inputs *)
Module PoolWitness.
Import Sim HTable.Examples FileExamples.
#[local] Existing Instance Sim.os_bytes | 0.
#[local] Existing Instance Sim.byte_reads | 0.
#[local] Existing Instance Sim.memory_room_bytes | 0.
#[local] Existing Instance Sim.file_sizes | 0.
#[local] Existing Instance Sim.md5_nonzero | 0.
#[local] Existing Instance Sim.md5_nonzero_laws | 0.
#[local] Existing Instance Sim.nonzero_digest | 0.

(** The first peer that connects gets descriptor 4 and sends a definition; the
    second one gets 5.  The sockets in [bad] are broken. *)
Definition message : list Z := encode_info (message_info TFILE_DEF sizeof_tfile_def_t) ++ encode_tdef (def 9).
Definition net (bad : gset Z) : Sim.world := World (OSView ∅ ∅ ∅ ∅ {[4 := message]} ∅) 1000 bad.
Definition fresh (bad : gset Z) : client Sim.world :=
  Client (HTable 0 0 None) initial_peers initial_ui (SockData 0 None) [] (net bad).
Definition buffers (_ : nat) : list Z := replicate (Z.to_nat message_size) 0.
Definition heap (_ : nat) : list Z := [0; 0; 0; 0].
Definition after (m : M (client Sim.world) unit) (s : client Sim.world) : client Sim.world :=
  match m s with Done _ s' => s' | Stop _ => s end.
Definition boot (bad : gset Z) : pool Sim.world := Pool (after init (fresh bad))
  [main_p 300 junk zero_hash (def 3) (λ _, 0) (str "grintorrent") [(117, str "me")] false].

Notation follow := (follow (W := Sim.world) 300 junk zero_hash 16 buffers heap).
Notation advance := (advance (W := Sim.world) 300 junk zero_hash 16 buffers heap).
Notation pool_step := (pool_step (W := Sim.world) 300 junk zero_hash 16 buffers heap).
Notation reachable := (reachable (W := Sim.world) 300 junk zero_hash 16 buffers heap (def 3) (λ _, 0)
  (str "grintorrent") [(117, str "me")] false).

(** Threads 0 (main), 1 (connectWorker), 3 (the first readWorker), and 6, which
    shares the definition. *)
Definition two_peers : list nat := replicate 4 0%nat ++ replicate 24 1%nat.
Definition told : list nat := two_peers ++ replicate 7 3%nat.
Definition failed : list nat := told ++ replicate 9 6%nat.
Definition go (schedule : list nat) (bad : gset Z) : pool Sim.world :=
  default (boot bad) (follow schedule (boot bad)).

Definition runs (o : option (pool Sim.world)) : bool := match o with Some _ => true | None => false end.
Lemma runs_default o d : runs o = true → o = Some (default d o).
Proof. by destruct o. Qed.

Lemma setting : setting_ok 300 buffers (def 3).
Proof.
  split_and!; [by apply Nat.ltb_lt; vm_compute| |].
  - by apply (bool_decide_unpack (sane _)); vm_compute.
  - intros i. split; [by apply Forall_replicate|by apply length_replicate].
Qed.
Lemma boot_booted bad : booted 300 junk zero_hash (def 3) (λ _, 0) (str "grintorrent")
  [(117, str "me")] false (boot bad).
Proof. by exists (fresh bad). Qed.
Lemma go_reachable schedule bad : runs (follow schedule (boot bad)) = true → reachable (go schedule bad).
Proof.
  intros Hruns. exists (boot bad). split; [apply boot_booted|].
  eapply follow_steps. exact (runs_default _ _ Hruns).
Qed.


(** Thread 6 takes the mutex. *)
Lemma peers_guarded_witness :
  p_lock (cl_peers (pl_state (go (told ++ [6%nat]) ∅))) = Some 6 ∧
  guarded 6 (cl_peers (pl_state (go told ∅))) (cl_peers (pl_state (go (told ++ [6%nat]) ∅))).
Proof.
  split; [by vm_compute|].
  apply (peers_guarded 300 junk zero_hash 16 buffers heap (def 3) (λ _, 0) (str "grintorrent")
           [(117, str "me")] false (go told ∅) 6 (go (told ++ [6%nat]) ∅) setting).
  - apply go_reachable. by vm_compute.
  - assert (Hgo : advance 6%nat (go told ∅) = follow (told ++ [6%nat]) (boot ∅)).
    { unfold go. rewrite follow_app. destruct (follow told (boot ∅)) as [P|] eqn:Hf; [symmetry; apply follow_one|].
      assert (runs (follow told (boot ∅)) = true) as Hr by by vm_compute. by rewrite Hf in Hr. }
    rewrite Hgo. apply runs_default. by vm_compute.
Defined.

(** The send to the second peer failed: thread 6 comes to [remove_peer]. *)
Definition frozen : pool Sim.world := go failed {[5]}.
Definition next_waits (i : tid) (o : option (proc (client Sim.world) unit)) : Prop :=
  match o with Some p => waits i p | None => False end.
Lemma frozen_waits : next_waits 6 (pl_threads frozen !! 6%nat).
Proof. vm_compute. intros s ->. by eexists. Qed.

Lemma failed_send_freezes_peers_witness :
  p_lock (cl_peers (pl_state frozen)) = Some 6 ∧ ∃ p, pl_threads frozen !! 6%nat = Some p ∧
  ∀ P', rtc pool_step frozen P' →
    cl_peers (pl_state P') = cl_peers (pl_state frozen) ∧ pl_threads P' !! 6%nat = Some p ∧
    ∀ j k, pl_threads P' !! j = Some (lock_p (Z.of_nat j) ≫= k) → advance j P' = None.
Proof.
  assert (Hl : p_lock (cl_peers (pl_state frozen)) = Some 6) by by vm_compute. split; [exact Hl|].
  pose proof frozen_waits as Hw. unfold next_waits in Hw.
  destruct (pl_threads frozen !! 6%nat) as [p|] eqn:Hp; [|exact (False_ind _ Hw)]. exists p.
  split; [reflexivity|].
  assert (Hr : reachable frozen) by (apply go_reachable; by vm_compute).
  exact (proj2 (failed_send_freezes_peers 300 junk zero_hash 16 buffers heap (def 3) (λ _, 0)
    (str "grintorrent") [(117, str "me")] false frozen 6 p setting Hr) Hl Hp Hw).
Defined.
End PoolWitness.
